(** * DuetIAP: the in-application programmer of src/iap.cpp

    A shallow embedding of the flashing state machine ([writeBinary]), of its
    two block sources ([ReadBlock] over the SBC SPI link, [ReadBlock] and
    [ReadBlockUf2] over a file), of [CRC16], [ShowProgress], [IsSectorErased],
    [openBinary] and [Reset], followed by the properties proved about them.

    The globals of iap.cpp are the fields of one record, [Globals], threaded
    through every function.  Hardware and file-system primitives, which the
    program only calls, are answers supplied by an environment [Env]; every
    call that matters to a property is also appended to a trace, [log]. *)

From Stdlib Require Import ZArith List Bool Lia String Ascii DecimalString.
From Stdlib Require Import Sorted.
Import ListNotations.
Open Scope Z_scope.

(** ** Machine integers

    [uint32_t] and [size_t] (32 bits on the Cortex-M targets) are [Z] with the
    wrap-around written out; [uint16_t] likewise. *)

Definition u32 (x : Z) : Z := x mod 2 ^ 32.
Definition u16 (x : Z) : Z := x mod 2 ^ 16.

(** Little-endian fields of a byte buffer, as the structures overlaid on
    [readData] and on the UF2 buffer read them. *)

Definition byte_at (buf : list Z) (i : Z) : Z := nth (Z.to_nat i) buf 0.

Definition le16 (buf : list Z) (off : Z) : Z :=
  byte_at buf off + 2 ^ 8 * byte_at buf (off + 1).

Definition le32 (buf : list Z) (off : Z) : Z :=
  byte_at buf off + 2 ^ 8 * byte_at buf (off + 1)
  + 2 ^ 16 * byte_at buf (off + 2) + 2 ^ 24 * byte_at buf (off + 3).

(** [slice buf off n]: the [n] bytes at [buf + off]. *)

Definition slice (buf : list Z) (off n : Z) : list Z :=
  map (fun i => byte_at buf (off + Z.of_nat i)) (seq 0 (Z.to_nat n)).

(** [memcpy (buf + off, data, n)] with [n] the length of [data], and
    [memset (buf + off, c, n)]. *)

Definition memcpy (buf : list Z) (off : Z) (data : list Z) : list Z :=
  firstn (Z.to_nat off) buf ++ data
  ++ skipn (Z.to_nat off + List.length data) buf.

Definition memset (buf : list Z) (off c n : Z) : list Z :=
  memcpy buf off (repeat c (Z.to_nat n)).

(** Memory seen through a pointer: address to byte. *)

Definition Mem : Type := Z -> Z.

Definition read_mem (m : Mem) (addr n : Z) : list Z :=
  map (fun i => m (addr + Z.of_nat i)) (seq 0 (Z.to_nat n)).

Definition bytes_eqb (a b : list Z) : bool :=
  if list_eq_dec Z.eq_dec a b then true else false.

(** ** Build configuration

    iap.cpp is compiled for one chip family, with or without [IAP_VIA_SPI].
    [SAM3X] stands for the build where none of [SAM4E], [SAM4S], [SAME70],
    [SAME5x] is set.  The constants come from iap.h, which is not part of the
    sources at hand: they are fields here. *)

Inductive Chip : Type := SAME5x | SAM4E | SAM4S | SAME70 | SAM3X.

Record Config : Type := mkConfig {
  chip : Chip;
  IAP_VIA_SPI : bool;
  FirmwareFlashStart : Z;
  FirmwareFlashEnd : Z;
  IFLASH_ADDR : Z;
  blockReadSize : Z;
  maxRetries : Z;
  TransferCompleteDelay : Z;
  TransferTimeout : Z;
  GetLockRegionSize : Z;     (* Flash::GetLockRegionSize (), SAME5x *)
  GetEraseRegionSize : Z     (* Flash::GetEraseRegionSize (), SAME5x *)
}.

Definition has_erase_state (c : Chip) : bool :=
  match c with SAM3X => false | _ => true end.

Definition is_same5x (c : Chip) : bool :=
  match c with SAME5x => true | _ => false end.

(** ** Process state *)

Inductive ProcessState : Type :=
| Initializing
| UnlockingFlash
| ErasingFlash
| WritingUpgrade
| VerifyingChecksum
| SendingChecksumOK
| SendingChecksumError
| LockingFlash.

(** Modelled from the spec: the enumeration [ProcessState] is declared in
    iap.h, which is missing; the spec (4.1) lists its states in this order,
    and [Reset] and the retry message use the order and the number. *)

Definition state_index (st : ProcessState) : Z :=
  match st with
  | Initializing => 0
  | UnlockingFlash => 1
  | ErasingFlash => 2
  | WritingUpgrade => 3
  | VerifyingChecksum => 4
  | SendingChecksumOK => 5
  | SendingChecksumError => 6
  | LockingFlash => 7
  end.

Definition ProcessState_eqb (a b : ProcessState) : bool :=
  state_index a =? state_index b.

(** ** Messages

    Every [MessageF] call of iap.cpp, with the arguments of its format. *)

Inductive Message : Type :=
| MsgUnlockingFlash
| MsgErasingFlash
| MsgWritingData
| MsgEraseRetry (n : Z)
| MsgFlashWriteRetry (n : Z)
| MsgReadFileRetry (n : Z)
| MsgOperationFailed (st n : Z)
| MsgProgress (percentDone : Z)
| MsgTimeoutResponse
| MsgBadUf2Block (offset : Z)
| MsgUnexpectedUf2Data (offset : Z)
| MsgTimeoutChecksum
| MsgCrcMismatch
| MsgTimeoutAck
| MsgTimeoutCrcError
| MsgUpdateSuccessful
| MsgFileNotFound (name : string)
| MsgFileTooBig (name : string)
| MsgFileNotOpened (name : string)
| MsgFileOpened (name : string).

Definition dec (z : Z) : string := NilZero.string_of_int (Z.to_int z).

Definition render (m : Message) : string :=
  match m with
  | MsgUnlockingFlash => "Unlocking flash"
  | MsgErasingFlash => "Erasing flash"
  | MsgWritingData => "Writing data"
  | MsgEraseRetry n => "Erase retry #" ++ dec n
  | MsgFlashWriteRetry n => "Flash write retry #" ++ dec n
  | MsgReadFileRetry n => "Read file retry #" ++ dec n
  | MsgOperationFailed st n =>
      "ERROR: Operation " ++ dec st ++ " failed after " ++ dec n ++ " retries"
  | MsgProgress p => "Flashing firmware, " ++ dec p ++ "% completed"
  | MsgTimeoutResponse => "ERROR: Timeout while waiting for response"
  | MsgBadUf2Block off => "ERROR: bad UF2 block at offset " ++ dec off
  | MsgUnexpectedUf2Data off =>
      "ERROR: unexpected data in UF2 block at offset " ++ dec off
  | MsgTimeoutChecksum => "Timeout while waiting for checksum"
  | MsgCrcMismatch => "CRC mismatch"
  | MsgTimeoutAck => "Timeout while exchanging checksum acknowledgement"
  | MsgTimeoutCrcError => "Timeout while reporting CRC error"
  | MsgUpdateSuccessful => "Update successful! Rebooting..."
  | MsgFileNotFound f => "ERROR: Could not find file " ++ f
  | MsgFileTooBig f => "ERROR: File " ++ f ++ " is too big"
  | MsgFileNotOpened f => "ERROR: Could not open file " ++ f
  | MsgFileOpened f => "File " ++ f ++ " opened"
  end%string.

(** [SafeVsnprintf (formatBuffer, 100, ...)]: at most 99 characters. *)

Definition SafeVsnprintf (m : Message) : string := substring 0 99 (render m).

Definition quote : string := String (ascii_of_nat 34) EmptyString.

(** The line [MessageF] prints on the auxiliary serial port. *)

Definition serial_line (text : string) : string :=
  ("{" ++ quote ++ "message" ++ quote ++ ":" ++ quote ++ text ++ quote ++ "}"
   ++ String (ascii_of_nat 10) EmptyString)%string.

Definition bytes_of_string (s : string) : list Z :=
  map (fun c => Z.of_nat (nat_of_ascii c)) (list_ascii_of_string s).

(** ** Trace of the calls the program makes *)

Inductive Event : Type :=
| EvMessage (m : Message)                  (* MessageF: [serial_line] sent *)
| EvFlashUnlock (a b : Z)
| EvFlashErase (addr : Z)
| EvFlashWrite (addr : Z) (data : list Z)
| EvFlashVerify (addr n : Z)               (* memcmp of buffer and flash *)
| EvFlashLock (a b : Z)
| EvClearGpnvm (bit : Z)
| EvSpiSetup (n : Z) (tx : list Z)         (* setup_spi: n bytes, tx data *)
| EvSpiDisable
| EvTfrReadyPin (level : bool)
| EvFileClose
| EvReboot.

(** The open file [upgradeBinary]: its contents and its read pointer. *)

Record FIL : Type := mkFIL { fdata : list Z; fptr : Z }.

(** ** The globals of iap.cpp *)

Record Globals : Type := mkGlobals {
  state : ProcessState;
  pageSize : Z;
  flashPos : Z;
  retry : Z;
  bytesRead : Z;
  bytesWritten : Z;
  haveDataInBuffer : bool;
  reportNextPercent : Z;
  formatBuffer : string;
  readData : list Z;
  writeData : list Z;
  transferStartTime : Z;
  transferPending : bool;
  transferReadyHigh : bool;
  bytesToTransfer : Z;
  firmwareFileSize : Z;
  isUf2File : bool;
  fwFile : string;
  upgradeBinary : FIL;
  flash : Z -> Z;
  log : list Event
}.

(** Assignments to one global. *)

Definition set_state (v : ProcessState) (s : Globals) : Globals :=
  mkGlobals v (pageSize s) (flashPos s) (retry s) (bytesRead s)
    (bytesWritten s) (haveDataInBuffer s) (reportNextPercent s)
    (formatBuffer s) (readData s) (writeData s) (transferStartTime s)
    (transferPending s) (transferReadyHigh s) (bytesToTransfer s)
    (firmwareFileSize s) (isUf2File s) (fwFile s) (upgradeBinary s) (flash s)
    (log s).

Definition set_pageSize (v : Z) (s : Globals) : Globals :=
  mkGlobals (state s) v (flashPos s) (retry s) (bytesRead s) (bytesWritten s)
    (haveDataInBuffer s) (reportNextPercent s) (formatBuffer s) (readData s)
    (writeData s) (transferStartTime s) (transferPending s)
    (transferReadyHigh s) (bytesToTransfer s) (firmwareFileSize s)
    (isUf2File s) (fwFile s) (upgradeBinary s) (flash s) (log s).

Definition set_flashPos (v : Z) (s : Globals) : Globals :=
  mkGlobals (state s) (pageSize s) v (retry s) (bytesRead s) (bytesWritten s)
    (haveDataInBuffer s) (reportNextPercent s) (formatBuffer s) (readData s)
    (writeData s) (transferStartTime s) (transferPending s)
    (transferReadyHigh s) (bytesToTransfer s) (firmwareFileSize s)
    (isUf2File s) (fwFile s) (upgradeBinary s) (flash s) (log s).

Definition set_retry (v : Z) (s : Globals) : Globals :=
  mkGlobals (state s) (pageSize s) (flashPos s) v (bytesRead s)
    (bytesWritten s) (haveDataInBuffer s) (reportNextPercent s)
    (formatBuffer s) (readData s) (writeData s) (transferStartTime s)
    (transferPending s) (transferReadyHigh s) (bytesToTransfer s)
    (firmwareFileSize s) (isUf2File s) (fwFile s) (upgradeBinary s) (flash s)
    (log s).

Definition set_bytesRead (v : Z) (s : Globals) : Globals :=
  mkGlobals (state s) (pageSize s) (flashPos s) (retry s) v (bytesWritten s)
    (haveDataInBuffer s) (reportNextPercent s) (formatBuffer s) (readData s)
    (writeData s) (transferStartTime s) (transferPending s)
    (transferReadyHigh s) (bytesToTransfer s) (firmwareFileSize s)
    (isUf2File s) (fwFile s) (upgradeBinary s) (flash s) (log s).

Definition set_bytesWritten (v : Z) (s : Globals) : Globals :=
  mkGlobals (state s) (pageSize s) (flashPos s) (retry s) (bytesRead s) v
    (haveDataInBuffer s) (reportNextPercent s) (formatBuffer s) (readData s)
    (writeData s) (transferStartTime s) (transferPending s)
    (transferReadyHigh s) (bytesToTransfer s) (firmwareFileSize s)
    (isUf2File s) (fwFile s) (upgradeBinary s) (flash s) (log s).

Definition set_haveDataInBuffer (v : bool) (s : Globals) : Globals :=
  mkGlobals (state s) (pageSize s) (flashPos s) (retry s) (bytesRead s)
    (bytesWritten s) v (reportNextPercent s) (formatBuffer s) (readData s)
    (writeData s) (transferStartTime s) (transferPending s)
    (transferReadyHigh s) (bytesToTransfer s) (firmwareFileSize s)
    (isUf2File s) (fwFile s) (upgradeBinary s) (flash s) (log s).

Definition set_reportNextPercent (v : Z) (s : Globals) : Globals :=
  mkGlobals (state s) (pageSize s) (flashPos s) (retry s) (bytesRead s)
    (bytesWritten s) (haveDataInBuffer s) v (formatBuffer s) (readData s)
    (writeData s) (transferStartTime s) (transferPending s)
    (transferReadyHigh s) (bytesToTransfer s) (firmwareFileSize s)
    (isUf2File s) (fwFile s) (upgradeBinary s) (flash s) (log s).

Definition set_formatBuffer (v : string) (s : Globals) : Globals :=
  mkGlobals (state s) (pageSize s) (flashPos s) (retry s) (bytesRead s)
    (bytesWritten s) (haveDataInBuffer s) (reportNextPercent s) v (readData s)
    (writeData s) (transferStartTime s) (transferPending s)
    (transferReadyHigh s) (bytesToTransfer s) (firmwareFileSize s)
    (isUf2File s) (fwFile s) (upgradeBinary s) (flash s) (log s).

Definition set_readData (v : list Z) (s : Globals) : Globals :=
  mkGlobals (state s) (pageSize s) (flashPos s) (retry s) (bytesRead s)
    (bytesWritten s) (haveDataInBuffer s) (reportNextPercent s)
    (formatBuffer s) v (writeData s) (transferStartTime s) (transferPending s)
    (transferReadyHigh s) (bytesToTransfer s) (firmwareFileSize s)
    (isUf2File s) (fwFile s) (upgradeBinary s) (flash s) (log s).

Definition set_writeData (v : list Z) (s : Globals) : Globals :=
  mkGlobals (state s) (pageSize s) (flashPos s) (retry s) (bytesRead s)
    (bytesWritten s) (haveDataInBuffer s) (reportNextPercent s)
    (formatBuffer s) (readData s) v (transferStartTime s) (transferPending s)
    (transferReadyHigh s) (bytesToTransfer s) (firmwareFileSize s)
    (isUf2File s) (fwFile s) (upgradeBinary s) (flash s) (log s).

Definition set_transferStartTime (v : Z) (s : Globals) : Globals :=
  mkGlobals (state s) (pageSize s) (flashPos s) (retry s) (bytesRead s)
    (bytesWritten s) (haveDataInBuffer s) (reportNextPercent s)
    (formatBuffer s) (readData s) (writeData s) v (transferPending s)
    (transferReadyHigh s) (bytesToTransfer s) (firmwareFileSize s)
    (isUf2File s) (fwFile s) (upgradeBinary s) (flash s) (log s).

Definition set_transferPending (v : bool) (s : Globals) : Globals :=
  mkGlobals (state s) (pageSize s) (flashPos s) (retry s) (bytesRead s)
    (bytesWritten s) (haveDataInBuffer s) (reportNextPercent s)
    (formatBuffer s) (readData s) (writeData s) (transferStartTime s) v
    (transferReadyHigh s) (bytesToTransfer s) (firmwareFileSize s)
    (isUf2File s) (fwFile s) (upgradeBinary s) (flash s) (log s).

Definition set_transferReadyHigh (v : bool) (s : Globals) : Globals :=
  mkGlobals (state s) (pageSize s) (flashPos s) (retry s) (bytesRead s)
    (bytesWritten s) (haveDataInBuffer s) (reportNextPercent s)
    (formatBuffer s) (readData s) (writeData s) (transferStartTime s)
    (transferPending s) v (bytesToTransfer s) (firmwareFileSize s)
    (isUf2File s) (fwFile s) (upgradeBinary s) (flash s) (log s).

Definition set_bytesToTransfer (v : Z) (s : Globals) : Globals :=
  mkGlobals (state s) (pageSize s) (flashPos s) (retry s) (bytesRead s)
    (bytesWritten s) (haveDataInBuffer s) (reportNextPercent s)
    (formatBuffer s) (readData s) (writeData s) (transferStartTime s)
    (transferPending s) (transferReadyHigh s) v (firmwareFileSize s)
    (isUf2File s) (fwFile s) (upgradeBinary s) (flash s) (log s).

Definition set_firmwareFileSize (v : Z) (s : Globals) : Globals :=
  mkGlobals (state s) (pageSize s) (flashPos s) (retry s) (bytesRead s)
    (bytesWritten s) (haveDataInBuffer s) (reportNextPercent s)
    (formatBuffer s) (readData s) (writeData s) (transferStartTime s)
    (transferPending s) (transferReadyHigh s) (bytesToTransfer s) v
    (isUf2File s) (fwFile s) (upgradeBinary s) (flash s) (log s).

Definition set_isUf2File (v : bool) (s : Globals) : Globals :=
  mkGlobals (state s) (pageSize s) (flashPos s) (retry s) (bytesRead s)
    (bytesWritten s) (haveDataInBuffer s) (reportNextPercent s)
    (formatBuffer s) (readData s) (writeData s) (transferStartTime s)
    (transferPending s) (transferReadyHigh s) (bytesToTransfer s)
    (firmwareFileSize s) v (fwFile s) (upgradeBinary s) (flash s) (log s).

Definition set_fwFile (v : string) (s : Globals) : Globals :=
  mkGlobals (state s) (pageSize s) (flashPos s) (retry s) (bytesRead s)
    (bytesWritten s) (haveDataInBuffer s) (reportNextPercent s)
    (formatBuffer s) (readData s) (writeData s) (transferStartTime s)
    (transferPending s) (transferReadyHigh s) (bytesToTransfer s)
    (firmwareFileSize s) (isUf2File s) v (upgradeBinary s) (flash s) (log s).

Definition set_upgradeBinary (v : FIL) (s : Globals) : Globals :=
  mkGlobals (state s) (pageSize s) (flashPos s) (retry s) (bytesRead s)
    (bytesWritten s) (haveDataInBuffer s) (reportNextPercent s)
    (formatBuffer s) (readData s) (writeData s) (transferStartTime s)
    (transferPending s) (transferReadyHigh s) (bytesToTransfer s)
    (firmwareFileSize s) (isUf2File s) (fwFile s) v (flash s) (log s).

Definition set_flash (v : Z -> Z) (s : Globals) : Globals :=
  mkGlobals (state s) (pageSize s) (flashPos s) (retry s) (bytesRead s)
    (bytesWritten s) (haveDataInBuffer s) (reportNextPercent s)
    (formatBuffer s) (readData s) (writeData s) (transferStartTime s)
    (transferPending s) (transferReadyHigh s) (bytesToTransfer s)
    (firmwareFileSize s) (isUf2File s) (fwFile s) (upgradeBinary s) v (log s).

Definition set_log (v : list Event) (s : Globals) : Globals :=
  mkGlobals (state s) (pageSize s) (flashPos s) (retry s) (bytesRead s)
    (bytesWritten s) (haveDataInBuffer s) (reportNextPercent s)
    (formatBuffer s) (readData s) (writeData s) (transferStartTime s)
    (transferPending s) (transferReadyHigh s) (bytesToTransfer s)
    (firmwareFileSize s) (isUf2File s) (fwFile s) (upgradeBinary s) (flash s)
    v.

(** ** Environment

    What the hardware and the file system answer during one pass through
    [writeBinary].  A flash primitive reports success or failure and leaves
    the flash in a state of its choosing; [spi_done] is what
    [is_spi_transfer_complete] finds (the NSS interrupt has set
    [dataReceived] and the DMA channel has drained), [spi_rx] what the SBC
    clocked in; [millis k] is the tick count read at the [k]-th place where
    the pass reads it (0 and 1: the comparisons in their order, 2: inside
    [setup_spi]); [f_read k] is whether the [k]-th [f_read] of the pass
    returns [FR_OK]. *)

Record Env : Type := mkEnv {
  millis : nat -> Z;
  flash_unlock : Z -> Z -> bool;
  flash_erase_sector : Mem -> Z -> bool * Mem;
  flash_write : Mem -> Z -> list Z -> bool * Mem;
  flash_lock : Z -> Z -> bool;
  spi_done : bool;
  spi_rx : list Z;
  f_stat : option Z;
  f_open : option (list Z);
  f_lseek : Z -> bool;
  f_read : nat -> bool
}.

(** ** Results

    A function of iap.cpp returns ([Ret]), never returns because [Reset]
    rebooted the device ([Halt], with [Reset]'s argument), or has no defined
    behaviour ([Fault]: an integer division by zero).  [OutOfFuel] is the
    loop model's own artefact, shown unreachable below. *)

Inductive Result (A : Type) : Type :=
| Ret (a : A) (s : Globals)
| Halt (success : bool) (s : Globals)
| Fault (s : Globals)
| OutOfFuel.

Arguments Ret {A} a s.
Arguments Halt {A} success s.
Arguments Fault {A} s.
Arguments OutOfFuel {A}.

Definition M (A : Type) : Type := Globals -> Result A.

Definition ret {A : Type} (a : A) : M A := fun s => Ret a s.

Definition bind {A B : Type} (m : M A) (k : A -> M B) : M B :=
  fun s =>
    match m s with
    | Ret a s' => k a s'
    | Halt b s' => Halt b s'
    | Fault s' => Fault s'
    | OutOfFuel => OutOfFuel
    end.

Notation "x <- m ;; k" := (bind m (fun x => k))
  (at level 61, m at next level, right associativity).
Notation "m ;; k" := (bind m (fun _ => k))
  (at level 61, right associativity).

Definition get {A : Type} (f : Globals -> A) : M A := fun s => Ret (f s) s.
Definition modify (f : Globals -> Globals) : M unit := fun s => Ret tt (f s).
Definition emit (e : Event) : M unit :=
  modify (fun s => set_log (log s ++ [e]) s).
Definition when (b : bool) (m : M unit) : M unit := if b then m else ret tt.

Definition incr_retry : M unit :=
  modify (fun s => set_retry (u32 (retry s + 1)) s).

(** The final state of a result, when there is one. *)

Definition final {A : Type} (r : Result A) : option Globals :=
  match r with
  | Ret _ s | Halt _ s | Fault s => Some s
  | OutOfFuel => None
  end.

(** ** The checksum engine *)

Definition crc16_table : list Z :=
  [ 0x0000; 0xC0C1; 0xC181; 0x0140; 0xC301; 0x03C0; 0x0280; 0xC241;
    0xC601; 0x06C0; 0x0780; 0xC741; 0x0500; 0xC5C1; 0xC481; 0x0440;
    0xCC01; 0x0CC0; 0x0D80; 0xCD41; 0x0F00; 0xCFC1; 0xCE81; 0x0E40;
    0x0A00; 0xCAC1; 0xCB81; 0x0B40; 0xC901; 0x09C0; 0x0880; 0xC841;
    0xD801; 0x18C0; 0x1980; 0xD941; 0x1B00; 0xDBC1; 0xDA81; 0x1A40;
    0x1E00; 0xDEC1; 0xDF81; 0x1F40; 0xDD01; 0x1DC0; 0x1C80; 0xDC41;
    0x1400; 0xD4C1; 0xD581; 0x1540; 0xD701; 0x17C0; 0x1680; 0xD641;
    0xD201; 0x12C0; 0x1380; 0xD341; 0x1100; 0xD1C1; 0xD081; 0x1040;
    0xF001; 0x30C0; 0x3180; 0xF141; 0x3300; 0xF3C1; 0xF281; 0x3240;
    0x3600; 0xF6C1; 0xF781; 0x3740; 0xF501; 0x35C0; 0x3480; 0xF441;
    0x3C00; 0xFCC1; 0xFD81; 0x3D40; 0xFF01; 0x3FC0; 0x3E80; 0xFE41;
    0xFA01; 0x3AC0; 0x3B80; 0xFB41; 0x3900; 0xF9C1; 0xF881; 0x3840;
    0x2800; 0xE8C1; 0xE981; 0x2940; 0xEB01; 0x2BC0; 0x2A80; 0xEA41;
    0xEE01; 0x2EC0; 0x2F80; 0xEF41; 0x2D00; 0xEDC1; 0xEC81; 0x2C40;
    0xE401; 0x24C0; 0x2580; 0xE541; 0x2700; 0xE7C1; 0xE681; 0x2640;
    0x2200; 0xE2C1; 0xE381; 0x2340; 0xE101; 0x21C0; 0x2080; 0xE041;
    0xA001; 0x60C0; 0x6180; 0xA141; 0x6300; 0xA3C1; 0xA281; 0x6240;
    0x6600; 0xA6C1; 0xA781; 0x6740; 0xA501; 0x65C0; 0x6480; 0xA441;
    0x6C00; 0xACC1; 0xAD81; 0x6D40; 0xAF01; 0x6FC0; 0x6E80; 0xAE41;
    0xAA01; 0x6AC0; 0x6B80; 0xAB41; 0x6900; 0xA9C1; 0xA881; 0x6840;
    0x7800; 0xB8C1; 0xB981; 0x7940; 0xBB01; 0x7BC0; 0x7A80; 0xBA41;
    0xBE01; 0x7EC0; 0x7F80; 0xBF41; 0x7D00; 0xBDC1; 0xBC81; 0x7C40;
    0xB401; 0x74C0; 0x7580; 0xB541; 0x7700; 0xB7C1; 0xB681; 0x7640;
    0x7200; 0xB2C1; 0xB381; 0x7340; 0xB101; 0x71C0; 0x7080; 0xB041;
    0x5000; 0x90C1; 0x9181; 0x5140; 0x9301; 0x53C0; 0x5280; 0x9241;
    0x9601; 0x56C0; 0x5780; 0x9741; 0x5500; 0x95C1; 0x9481; 0x5440;
    0x9C01; 0x5CC0; 0x5D80; 0x9D41; 0x5F00; 0x9FC1; 0x9E81; 0x5E40;
    0x5A00; 0x9AC1; 0x9B81; 0x5B40; 0x9901; 0x59C0; 0x5880; 0x9841;
    0x8801; 0x48C0; 0x4980; 0x8941; 0x4B00; 0x8BC1; 0x8A81; 0x4A40;
    0x4E00; 0x8EC1; 0x8F81; 0x4F40; 0x8D01; 0x4DC0; 0x4C80; 0x8C41;
    0x4400; 0x84C1; 0x8581; 0x4540; 0x8701; 0x47C0; 0x4680; 0x8641;
    0x8201; 0x42C0; 0x4380; 0x8341; 0x4100; 0x81C1; 0x8081; 0x4040 ].

Definition CRC16_step (Crc c : Z) : Z :=
  let x := u16 (Z.lxor Crc c) in
  u16 (Z.lxor (Z.shiftr Crc 8)
              (nth (Z.to_nat (Z.land x 0x00FF)) crc16_table 0)).

(** [buffer] is the pointer: index to [char]. *)

Definition CRC16 (buffer : Z -> Z) (length : Z) : Z :=
  fold_left (fun Crc i => CRC16_step Crc (buffer (Z.of_nat i)))
            (seq 0 (Z.to_nat length)) 65535.

(** The reference the checksum is compared with, following the spec's words
    (4.5): reflected polynomial of CRC-16/ARC (0x8005, reflected 0xA001), bits
    processed low first, one bit at a time, a chosen initial value and a
    final XOR. *)

Definition crc_bit (c : Z) : Z :=
  if Z.testbit c 0 then Z.lxor (Z.shiftr c 1) 0xA001 else Z.shiftr c 1.

Definition crc_byte (c b : Z) : Z := Nat.iter 8 crc_bit (Z.lxor c b).

Definition crc16_reference (init xorout : Z) (bytes : list Z) : Z :=
  Z.lxor (fold_left crc_byte bytes init) xorout.

(** [IsSectorErased]: one 32-bit word per iteration; the word is 0xFFFFFFFF
    when its four bytes are 0xFF.  The loop variable wraps as [uint32_t]
    does; the fuel [IsSectorErased] hands over is the number of words of the
    sector, which the loop cannot outlast unless [p] itself wraps. *)

Definition word_is_erased (m : Mem) (p : Z) : bool :=
  (m p =? 0xFF) && (m (p + 1) =? 0xFF) && (m (p + 2) =? 0xFF)
  && (m (p + 3) =? 0xFF).

Fixpoint IsSectorErased_loop (fuel : nat) (m : Mem) (p lim : Z) : bool :=
  if p <? lim then
    match fuel with
    | O => false
    | S fuel' =>
        if word_is_erased m p
        then IsSectorErased_loop fuel' m (u32 (p + 4)) lim
        else false
    end
  else true.

Definition IsSectorErased (m : Mem) (addr sectorSize : Z) : bool :=
  IsSectorErased_loop (Z.to_nat ((sectorSize + 3) / 4)) m addr
                      (u32 (addr + sectorSize)).

(** Modelled from the spec: [FlashVerifyRequest] is declared in iap.h, which
    is missing; the spec (6) gives it as [{firmwareLength: u32, crc16: u16}],
    eight bytes with the padding of the target. *)

Definition sizeof_FlashVerifyRequest : Z := 8.
Definition request_firmwareLength (buf : list Z) : Z := le32 buf 0.
Definition request_crc16 (buf : list Z) : Z := le16 buf 4.

(** [UF2_Block], overlaid on the 512 bytes read from the file. *)

Definition sizeof_UF2_Block : Z := 512.
Definition MagicStart0Val : Z := 0x0A324655.
Definition MagicStart1Val : Z := 0x9E5D5157.
Definition MagicEndVal : Z := 0x0AB16F30.
Definition magicStart0 (b : list Z) : Z := le32 b 0.
Definition magicStart1 (b : list Z) : Z := le32 b 4.
Definition targetAddr (b : list Z) : Z := le32 b 12.
Definition payloadSize (b : list Z) : Z := le32 b 16.
Definition uf2_data (b : list Z) : list Z := slice b 32 256.
Definition magicEnd (b : list Z) : Z := le32 b 508.

Definition reportPercentIncrement : Z := 20.

(** ** The program *)

Section Program.

Variable cfg : Config.
Variable env : Env.

(** [MessageF]: format into [formatBuffer], print the line. *)

Definition formatted (m : Message) (s : Globals) : Globals :=
  set_log (log s ++ [EvMessage m]) (set_formatBuffer (SafeVsnprintf m) s).

Definition MessageF (m : Message) : M unit := modify (formatted m).

(** A flash write at [addr]: logged, answered by the hardware. *)

Definition do_flash_write (addr : Z) (data : list Z) : M bool :=
  fun s =>
    let (ok, m') := flash_write env (flash s) addr data in
    Ret ok (set_flash m' (set_log (log s ++ [EvFlashWrite addr data]) s)).

Definition do_flash_erase (addr : Z) : M bool :=
  fun s =>
    let (ok, m') := flash_erase_sector env (flash s) addr in
    Ret ok (set_flash m' (set_log (log s ++ [EvFlashErase addr]) s)).

Definition do_flash_unlock (a b : Z) : M bool :=
  emit (EvFlashUnlock a b) ;; ret (flash_unlock env a b).

Definition do_flash_lock (a b : Z) : M bool :=
  emit (EvFlashLock a b) ;; ret (flash_lock env a b).

(** [Reset (success)].  It never returns: the result is [Halt]. *)

Definition write_error_to_flash : M unit :=
  fun s =>
    let start := FirmwareFlashStart cfg in
    let text := bytes_of_string (formatBuffer s) in
    (if is_same5x (chip cfg)
     then do_flash_unlock start (pageSize s) ;;
          do_flash_write start text ;;
          ret tt
     else do_flash_unlock start (u32 (start + pageSize s)) ;;
          do_flash_write start text ;;
          emit (EvClearGpnvm 1)) s.

Definition Reset {A : Type} (success : bool) : M A :=
  when (negb success)
       (st <- get state ;;
        when (state_index WritingUpgrade <=? state_index st)
             write_error_to_flash) ;;
  when (IAP_VIA_SPI cfg) (emit (EvTfrReadyPin false)) ;;
  emit EvReboot ;;
  fun s => Halt success s.

(** [setup_spi], [disable_spi], [is_spi_transfer_complete]. *)

Definition setup_spi (bytes : Z) : M unit :=
  fun s =>
    let level := negb (transferReadyHigh s) in
    Ret tt
      (set_log (log s ++ [EvSpiSetup bytes (slice (writeData s) 0 bytes);
                          EvTfrReadyPin level])
      (set_transferReadyHigh level
      (set_transferStartTime (millis env 2)
      (set_transferPending true
      (set_bytesToTransfer bytes s))))).

Definition disable_spi : M unit := emit EvSpiDisable.

Definition is_spi_transfer_complete : M bool :=
  fun s =>
    if spi_done env
    then Ret true
           (set_transferPending false
           (set_readData
              (memcpy (readData s) 0
                      (firstn (Z.to_nat (bytesToTransfer s)) (spi_rx env)))
              s))
    else Ret false s.

(** [openBinary] *)

Definition openBinary : M unit :=
  fwf <- get fwFile ;;
  fsize <- match f_stat env with
           | Some sz => ret sz
           | None => MessageF (MsgFileNotFound fwf) ;; Reset false
           end ;;
  uf2 <- get isUf2File ;;
  let cap := u32 (FirmwareFlashEnd cfg - FirmwareFlashStart cfg) in
  let maxFirmwareFileSize := if uf2 then u32 (cap * 2) else cap in
  when (fsize >? maxFirmwareFileSize)
       (MessageF (MsgFileTooBig fwf) ;; Reset false) ;;
  modify (set_firmwareFileSize fsize) ;;
  match f_open env with
  | Some contents => modify (set_upgradeBinary (mkFIL contents 0))
  | None => MessageF (MsgFileNotOpened fwf) ;; Reset false
  end ;;
  MessageF (MsgFileOpened fwf).

(** [ShowProgress] *)

Definition totalSize (s : Globals) : Z :=
  if IAP_VIA_SPI cfg
  then u32 (FirmwareFlashEnd cfg - FirmwareFlashStart cfg)
  else if isUf2File s then firmwareFileSize s / 2 else firmwareFileSize s.

Definition percentDone (s : Globals) : Z :=
  u32 (100 * (flashPos s - FirmwareFlashStart cfg)) / totalSize s.

Definition ShowProgress : M unit :=
  fun s =>
    if totalSize s =? 0 then Fault s
    else if percentDone s >=? reportNextPercent s
    then (MessageF (MsgProgress (percentDone s)) ;;
          modify (fun s' =>
            set_reportNextPercent
              (u32 (reportNextPercent s' + reportPercentIncrement)) s')) s
    else Ret tt s.

(** [ReadBlock] of the [IAP_VIA_SPI] build. *)

Definition ReadBlock_spi : M bool :=
  fun s =>
    if transferPending s
    then (complete <- is_spi_transfer_complete ;;
          if complete
          then modify (set_bytesRead (blockReadSize cfg)) ;; ret true
          else fun s1 =>
            if negb (flashPos s1 =? FirmwareFlashStart cfg)
               && (u32 (millis env 0 - transferStartTime s1)
                   >? TransferCompleteDelay cfg)
            then (modify (set_bytesRead 0) ;;
                  disable_spi ;;
                  modify (fun s2 =>
                    set_readData
                      (memset (readData s2) 0 0xFF (blockReadSize cfg)) s2) ;;
                  ret true) s1
            else if u32 (millis env 1 - transferStartTime s1)
                    >? TransferTimeout cfg
            then (MessageF MsgTimeoutResponse ;; Reset false) s1
            else Ret false s1) s
    else (setup_spi (blockReadSize cfg) ;; ret false) s.

(** [f_lseek] and [f_read] on [upgradeBinary].  A seek past the end of a
    file open for reading stops at the end; a read returns what is left. *)

Definition seek_to (pos : Z) (s : Globals) : Globals :=
  let f := upgradeBinary s in
  let size := Z.of_nat (List.length (fdata f)) in
  set_upgradeBinary (mkFIL (fdata f) (Z.min pos size)) s.

Definition file_bytes (n : Z) (s : Globals) : list Z :=
  let f := upgradeBinary s in
  firstn (Z.to_nat n) (skipn (Z.to_nat (fptr f)) (fdata f)).

Definition advance (n : Z) (s : Globals) : Globals :=
  let f := upgradeBinary s in
  set_upgradeBinary (mkFIL (fdata f) (fptr f + n)) s.

(** [ReadBlockUf2]: the body of the do-while loop, then the function.  [k]
    counts the [f_read] calls made so far. *)

Fixpoint ReadBlockUf2_loop (fuel k : nat) (seekPos : Z) : M bool :=
  fun s =>
    if u32 (seekPos + bytesRead s * 2) =? firmwareFileSize s
    then Ret true
           (set_readData
              (memset (readData s) (bytesRead s) 0xFF
                      (blockReadSize cfg - bytesRead s)) s)
    else if negb (f_read env k)
    then (incr_retry ;; ret false) s
    else
      let uf2Buffer := file_bytes sizeof_UF2_Block s in
      let locBytesRead := Z.of_nat (List.length uf2Buffer) in
      let s1 := advance locBytesRead s in
      if negb (locBytesRead =? sizeof_UF2_Block)
      then (incr_retry ;; ret false) s1
      else if negb (magicStart0 uf2Buffer =? MagicStart0Val)
              || negb (magicStart1 uf2Buffer =? MagicStart1Val)
              || negb (magicEnd uf2Buffer =? MagicEndVal)
      then (MessageF (MsgBadUf2Block (u32 (seekPos + bytesRead s1))) ;;
            Reset false) s1
      else if negb (targetAddr uf2Buffer =? u32 (flashPos s1 + bytesRead s1))
              || negb (payloadSize uf2Buffer =? 256)
      then (MessageF (MsgUnexpectedUf2Data (u32 (seekPos + bytesRead s1))) ;;
            Reset false) s1
      else
        let s2 :=
          set_bytesRead (u32 (bytesRead s1 + 256))
            (set_readData
               (memcpy (readData s1) (bytesRead s1) (uf2_data uf2Buffer)) s1)
        in
        if bytesRead s2 <? blockReadSize cfg
        then match fuel with
             | O => OutOfFuel
             | S fuel' => ReadBlockUf2_loop fuel' (S k) seekPos s2
             end
        else Ret true s2.

Definition ReadBlockUf2 : M bool :=
  fun s =>
    let seekPos := u32 ((flashPos s - FirmwareFlashStart cfg) * 2) in
    if negb (f_lseek env seekPos)
    then (incr_retry ;; ret false) s
    else ReadBlockUf2_loop (Z.to_nat (blockReadSize cfg / 256)) 0 seekPos
           (set_bytesRead 0 (seek_to seekPos s)).

(** [ReadBlock] of the file build.  [f_read] stores the number of bytes it
    read in [bytesRead]; it clears that count before it does anything else,
    so after a read that fails [bytesRead] is 0. *)

Definition ReadBlock_file : M bool :=
  r <- get retry ;;
  when (negb (r =? 0)) (MessageF (MsgReadFileRetry r)) ;;
  uf2 <- get isUf2File ;;
  if uf2 then ReadBlockUf2
  else fun s =>
    let pos := u32 (flashPos s - FirmwareFlashStart cfg) in
    if negb (f_lseek env pos)
    then (incr_retry ;; ret false) s
    else
      let s1 := seek_to pos s in
      if negb (f_read env 0)
      then (incr_retry ;; ret false) (set_bytesRead 0 s1)
      else
        let data := file_bytes (blockReadSize cfg) s1 in
        let n := Z.of_nat (List.length data) in
        let s2 :=
          set_bytesRead n
            (set_readData (memcpy (readData s1) 0 data) (advance n s1)) in
        if bytesRead s2 <? blockReadSize cfg
        then Ret true
               (set_readData
                  (memset (readData s2) (bytesRead s2) 0xFF
                          (blockReadSize cfg - bytesRead s2)) s2)
        else Ret true s2.

Definition ReadBlock : M bool :=
  if IAP_VIA_SPI cfg then ReadBlock_spi else ReadBlock_file.

(** ** [writeBinary], one case of the switch at a time *)

Definition case_UnlockingFlash : M unit :=
  if is_same5x (chip cfg)
  then
    let unlockStart :=
      Z.land (FirmwareFlashStart cfg)
             (Z.lnot (u32 (GetLockRegionSize cfg - 1))) in
    ok <- do_flash_unlock unlockStart
            (u32 (FirmwareFlashEnd cfg - unlockStart)) ;;
    if ok
    then modify (set_flashPos (FirmwareFlashStart cfg)) ;;
         MessageF MsgErasingFlash ;;
         modify (set_state ErasingFlash)
    else incr_retry
  else
    pos <- get flashPos ;;
    page <- get pageSize ;;
    ok <- do_flash_unlock pos (u32 (pos + page - 1)) ;;
    if ok
    then
      modify (fun s => set_retry 0 (set_flashPos (u32 (pos + page)) s)) ;;
      pos' <- get flashPos ;;
      when (pos' >=? FirmwareFlashEnd cfg)
           (modify (set_flashPos (FirmwareFlashStart cfg)) ;;
            if has_erase_state (chip cfg)
            then MessageF MsgErasingFlash ;; modify (set_state ErasingFlash)
            else modify (fun s =>
                   set_state WritingUpgrade
                     (set_bytesWritten (blockReadSize cfg) s)))
    else incr_retry.

(** The size of the sector at [pos]. *)

Definition sectorSize_at (pos : Z) : Z :=
  let off := u32 (pos - IFLASH_ADDR cfg) in
  match chip cfg with
  | SAME5x => GetEraseRegionSize cfg
  | SAM4E | SAM4S =>
      if off <? 16 * 1024 then 8 * 1024
      else if off =? 16 * 1024 then 48 * 1024 else 64 * 1024
  | SAME70 | SAM3X =>
      if off <? 16 * 1024 then 8 * 1024
      else if off =? 16 * 1024 then 112 * 1024 else 128 * 1024
  end.

(** [IsSectorErased (...) || erase (...)]: the erase is the right operand. *)

Definition erased_or_erase (pos sectorSize : Z) : M bool :=
  erased <- get (fun s => IsSectorErased (flash s) pos sectorSize) ;;
  if erased then ret true else do_flash_erase pos.

Definition case_ErasingFlash : M unit :=
  r <- get retry ;;
  when (negb (r =? 0)) (MessageF (MsgEraseRetry r)) ;;
  pos <- get flashPos ;;
  let sectorSize := sectorSize_at pos in
  ok <- erased_or_erase pos sectorSize ;;
  (if ok
   then
     erased <- get (fun s => IsSectorErased (flash s) pos sectorSize) ;;
     if erased
     then modify (fun s => set_flashPos (u32 (pos + sectorSize))
                             (set_retry 0 s))
     else incr_retry
   else incr_retry) ;;
  pos' <- get flashPos ;;
  when (pos' >=? FirmwareFlashEnd cfg)
       (modify (fun s =>
          set_haveDataInBuffer false
            (set_flashPos (FirmwareFlashStart cfg) s)) ;;
        when (IAP_VIA_SPI cfg) (modify (set_transferPending false)) ;;
        MessageF MsgWritingData ;;
        modify (set_state WritingUpgrade)).

(** "Write another page": the block of [case WritingUpgrade] that follows
    the read. *)

Definition closeBinary : M unit := emit EvFileClose.

Definition block_done : M unit :=
  written <- get bytesWritten ;;
  when (written =? blockReadSize cfg)
       (modify (set_haveDataInBuffer false) ;;
        nread <- get bytesRead ;;
        when (nread <? blockReadSize cfg)
             (if IAP_VIA_SPI cfg
              then setup_spi sizeof_FlashVerifyRequest ;;
                   modify (set_state VerifyingChecksum)
              else closeBinary ;; modify (set_state LockingFlash))).

Definition write_page : M unit :=
  r <- get retry ;;
  when (negb (r =? 0)) (MessageF (MsgFlashWriteRetry r)) ;;
  pos <- get flashPos ;;
  page <- get pageSize ;;
  src <- get (fun s => slice (readData s) (bytesWritten s) page) ;;
  ok <- do_flash_write pos src ;;
  if negb ok
  then incr_retry
  else
    emit (EvFlashVerify pos page) ;;
    same <- get (fun s => bytes_eqb src (read_mem (flash s) pos page)) ;;
    if negb same
    then incr_retry
    else
      modify (fun s =>
        set_flashPos (u32 (pos + page))
          (set_bytesWritten (u32 (bytesWritten s + page))
             (set_retry 0 s))) ;;
      ShowProgress ;;
      block_done.

Definition case_WritingUpgrade : M unit :=
  have <- get haveDataInBuffer ;;
  if negb have
  then
    ok <- ReadBlock ;;
    if negb ok
    then ret tt
    else
      modify (fun s =>
        set_bytesWritten 0 (set_retry 0 (set_haveDataInBuffer true s))) ;;
      write_page
  else write_page.

Definition timed_out (s : Globals) : bool :=
  u32 (millis env 0 - transferStartTime s) >? TransferTimeout cfg.

Definition case_VerifyingChecksum : M unit :=
  late <- get timed_out ;;
  if late
  then MessageF MsgTimeoutChecksum ;; Reset false
  else
    complete <- is_spi_transfer_complete ;;
    when complete
      (request <- get readData ;;
       crc16 <- get (fun s =>
         CRC16 (fun i => flash s (FirmwareFlashStart cfg + i))
               (request_firmwareLength request)) ;;
       (if request_crc16 request =? crc16
        then modify (fun s =>
               set_state SendingChecksumOK
                 (set_writeData (memcpy (writeData s) 0 [0x0C]) s))
        else MessageF MsgCrcMismatch ;;
             modify (fun s =>
               set_state SendingChecksumError
                 (set_writeData (memcpy (writeData s) 0 [0xFF]) s))) ;;
       modify (set_retry 0) ;;
       setup_spi 1).

Definition case_SendingChecksumOK : M unit :=
  late <- get timed_out ;;
  if late
  then MessageF MsgTimeoutAck ;; modify (set_state LockingFlash)
  else
    complete <- is_spi_transfer_complete ;;
    when complete (modify (set_state LockingFlash)).

Definition case_SendingChecksumError : M unit :=
  late <- get timed_out ;;
  if late
  then MessageF MsgTimeoutCrcError ;; Reset false
  else
    complete <- is_spi_transfer_complete ;;
    when complete
      (modify (fun s =>
         set_retry 0
           (set_state WritingUpgrade
              (set_flashPos (FirmwareFlashStart cfg) s)))).

Definition case_LockingFlash : M unit :=
  if is_same5x (chip cfg)
  then
    let lockStart :=
      Z.land (FirmwareFlashStart cfg)
             (Z.lnot (u32 (GetLockRegionSize cfg - 1))) in
    ok <- do_flash_lock lockStart (u32 (FirmwareFlashEnd cfg - lockStart)) ;;
    if ok
    then MessageF MsgUpdateSuccessful ;; Reset true
    else incr_retry
  else
    pos <- get flashPos ;;
    page <- get pageSize ;;
    ok <- do_flash_lock pos (u32 (pos + page - 1)) ;;
    if ok
    then
      modify (set_flashPos (u32 (pos + page))) ;;
      pos' <- get flashPos ;;
      when (pos' >=? FirmwareFlashEnd cfg)
           (MessageF MsgUpdateSuccessful ;; Reset true) ;;
      modify (set_retry 0)
    else incr_retry.

Definition writeBinary : M unit :=
  fun s =>
    if retry s >? maxRetries cfg
    then (MessageF (MsgOperationFailed (state_index (state s))
                                       (maxRetries cfg)) ;;
          Reset false) s
    else
      match state s with
      | Initializing =>
          (MessageF MsgUnlockingFlash ;;
           modify (set_state UnlockingFlash) ;;
           case_UnlockingFlash) s
      | UnlockingFlash => case_UnlockingFlash s
      | ErasingFlash =>
          if has_erase_state (chip cfg) then case_ErasingFlash s else Ret tt s
      | WritingUpgrade => case_WritingUpgrade s
      | VerifyingChecksum =>
          if IAP_VIA_SPI cfg then case_VerifyingChecksum s else Ret tt s
      | SendingChecksumOK =>
          if IAP_VIA_SPI cfg then case_SendingChecksumOK s else Ret tt s
      | SendingChecksumError =>
          if IAP_VIA_SPI cfg then case_SendingChecksumError s else Ret tt s
      | LockingFlash => case_LockingFlash s
      end.

End Program.

(** ** The table against the reference

    Entry [i] of [crc16_table] is what eight one-bit steps of the reference
    make of [i], and fits sixteen bits. *)

Definition table_entry_ok (i : nat) : bool :=
  let t := nth i crc16_table 0 in
  (Nat.iter 8 crc_bit (Z.of_nat i) =? t) && (0 <=? t) && (t <? 2 ^ 16).

(** ** Runs of [ShowProgress]

    [ShowProgress_run cursors]: the calls [writeBinary] makes as the cursor
    takes the values [cursors] one after the other; [reported] picks the
    percentages announced out of a trace. *)

Fixpoint ShowProgress_run (cfg : Config) (cursors : list Z) : M unit :=
  match cursors with
  | [] => ret tt
  | c :: rest =>
      modify (set_flashPos c) ;;
      ShowProgress cfg ;;
      ShowProgress_run cfg rest
  end.

Definition progress_of (e : Event) : list Z :=
  match e with
  | EvMessage (MsgProgress p) => [p]
  | _ => []
  end.

Definition reported (trace : list Event) : list Z := flat_map progress_of trace.

(** The percentage at cursor [c], without the wrap-around. *)

Definition percent_at (cfg : Config) (total c : Z) : Z :=
  100 * (c - FirmwareFlashStart cfg) / total.

(** Successive cursors that raise the percentage by 20 at most (a page is
    no more than a fifth of the image), whichever way the cursor moves. *)

Fixpoint small_steps (cfg : Config) (total prev : Z) (cursors : list Z)
  : Prop :=
  match cursors with
  | [] => True
  | c :: rest =>
      percent_at cfg total c <= percent_at cfg total prev + 20
      /\ small_steps cfg total c rest
  end.

(** ** A flash that stores what is written to it *)

Definition store_bytes (m : Mem) (addr : Z) (data : list Z) : Mem :=
  fun a =>
    if (addr <=? a) && (a <? addr + Z.of_nat (List.length data))
    then nth (Z.to_nat (a - addr)) data 0
    else m a.

Definition erase_bytes (m : Mem) (addr n : Z) : Mem :=
  fun a => if (addr <=? a) && (a <? addr + n) then 0xFF else m a.

(** Events of a trace that are erase calls. *)


Definition is_flash_write (e : Event) : bool :=
  match e with EvFlashWrite _ _ => true | _ => false end.

Definition is_flash_lock (e : Event) : bool :=
  match e with EvFlashLock _ _ => true | _ => false end.

(** ** Outcomes of a read from the file *)

(** How [ReadBlockUf2] and [ReadBlock] can end: a block ([Ret true]) with
    the retry counter as it was; a failure to retry ([Ret false]) with the
    counter one higher; or [Reset (false)] after a message about the UF2
    record, with the counter as it was.  State and cursor are never
    touched. *)

Definition read_outcome (s : Globals) (r : Result bool) : Prop :=
  match r with
  | Ret true s' =>
      retry s' = retry s /\ state s' = state s /\ flashPos s' = flashPos s
      /\ pageSize s' = pageSize s
  | Ret false s' =>
      retry s' = u32 (retry s + 1) /\ state s' = state s
      /\ flashPos s' = flashPos s /\ pageSize s' = pageSize s
  | Halt b s' =>
      b = false /\ retry s' = retry s /\ state s' = state s
      /\ flashPos s' = flashPos s
      /\ exists pre off rest,
           (log s' = pre ++ EvMessage (MsgBadUf2Block off) :: rest
            \/ log s' = pre ++ EvMessage (MsgUnexpectedUf2Data off) :: rest)
  | Fault _ => False
  | OutOfFuel => True
  end.

(** What one pass may do to the retry counter: leave it, clear it, raise
    it by one, or clear it and raise it by one (a block fetched, then a
    page write that fails). *)

Definition retry_step (s s' : Globals) : Prop :=
  retry s' = retry s \/ retry s' = 0 \/ retry s' = u32 (retry s + 1)
  \/ retry s' = 1.

(** ** Runs of [writeBinary]

    [run envs]: the passes of the main loop, one environment per pass,
    until one of them does not return.  [along P envs s]: [P] holds of the
    globals every pass of that run starts from. *)

Fixpoint run (cfg : Config) (envs : list Env) (s : Globals) : Result unit :=
  match envs with
  | [] => Ret tt s
  | env :: rest =>
      match writeBinary cfg env s with
      | Ret _ s' => run cfg rest s'
      | r => r
      end
  end.

Fixpoint along (cfg : Config) (P : Globals -> Prop) (envs : list Env)
    (s : Globals) : Prop :=
  P s
  /\ match envs with
     | [] => True
     | env :: rest =>
         match writeBinary cfg env s with
         | Ret _ s' => along cfg P rest s'
         | _ => True
         end
     end.

(** The arithmetic of the next page write and of its progress report stays
    within 32 bits, and there is something to divide by. *)

Definition no_overflow (cfg : Config) (s : Globals) : Prop :=
  0 <= FirmwareFlashStart cfg <= flashPos s
  /\ 0 <= pageSize s
  /\ flashPos s + pageSize s < 2 ^ 32
  /\ 100 * (flashPos s + pageSize s - FirmwareFlashStart cfg) + 20 < 2 ^ 32
  /\ 0 < totalSize cfg s.

(** What holds of the percentages announced so far, at any point of a run
    of the file build. *)

Definition progress_inv (cfg : Config) (s : Globals) : Prop :=
  StronglySorted Z.le (reported (log s))
  /\ reportNextPercent s
     = 20 + 20 * Z.of_nat (List.length (reported (log s)))
  /\ (forall k q, nth_error (reported (log s)) k = Some q ->
                  20 + 20 * Z.of_nat k <= q)
  /\ (state s = WritingUpgrade ->
      Forall (fun p => p <= percent_at cfg (totalSize cfg s) (flashPos s))
             (reported (log s)))
  /\ (state_index (state s) < state_index WritingUpgrade ->
      reported (log s) = []).

(** A step that announces no percentage and keeps what [ShowProgress]
    reads. *)

Definition quiet (s s' : Globals) : Prop :=
  reported (log s') = reported (log s)
  /\ reportNextPercent s' = reportNextPercent s
  /\ isUf2File s' = isUf2File s
  /\ firmwareFileSize s' = firmwareFileSize s.

(** A UF2 record that [ReadBlockUf2] accepts as the [i]-th of the block
    read at cursor [pos]. *)

Definition valid_record (pos : Z) (i : nat) (rec : list Z) : Prop :=
  List.length rec = 512%nat
  /\ magicStart0 rec = MagicStart0Val
  /\ magicStart1 rec = MagicStart1Val
  /\ magicEnd rec = MagicEndVal
  /\ targetAddr rec = u32 (pos + 256 * Z.of_nat i)
  /\ payloadSize rec = 256.

(** ** Sample builds and inputs, for the examples *)

Definition sample_config (c : Chip) (spi : bool) : Config :=
  {| chip := c;
     IAP_VIA_SPI := spi;
     FirmwareFlashStart := 0x00400000;
     FirmwareFlashEnd := 0x00480000;
     IFLASH_ADDR := 0x00400000;
     blockReadSize := 2048;
     maxRetries := 5;
     TransferCompleteDelay := 400;
     TransferTimeout := 2000;
     GetLockRegionSize := 0x2000;
     GetEraseRegionSize := 0x2000 |}.

(** Hardware that works: every primitive succeeds and the flash stores. *)

Definition sample_env (now : Z) (done : bool) (rx : list Z)
    (file : option (list Z)) : Env :=
  {| millis := fun _ => now;
     flash_unlock := fun _ _ => true;
     flash_erase_sector := fun m a => (true, erase_bytes m a 0x2000);
     flash_write := fun m a d => (true, store_bytes m a d);
     flash_lock := fun _ _ => true;
     spi_done := done;
     spi_rx := rx;
     f_stat := option_map (fun d => Z.of_nat (List.length d)) file;
     f_open := file;
     f_lseek := fun _ => true;
     f_read := fun _ => true |}.

(** The globals as the C runtime and [AppMain] leave them before the first
    [writeBinary], with the flash holding [m]. *)

Definition initial_globals (cfg : Config) (m : Mem) : Globals :=
  {| state := Initializing;
     pageSize := 512;
     flashPos := FirmwareFlashStart cfg;
     retry := 0;
     bytesRead := 0;
     bytesWritten := 0;
     haveDataInBuffer := false;
     reportNextPercent := reportPercentIncrement;
     formatBuffer := "IAP started"%string;
     readData := repeat 0 (Z.to_nat (blockReadSize cfg));
     writeData := repeat 0x1A (Z.to_nat (blockReadSize cfg));
     transferStartTime := 0;
     transferPending := false;
     transferReadyHigh := false;
     bytesToTransfer := 0;
     firmwareFileSize := 0;
     isUf2File := false;
     fwFile := "0:/firmware/Duet3Firmware.bin"%string;
     upgradeBinary := mkFIL [] 0;
     flash := m;
     log := [] |}.

(** A five-page image being written from a file, and the cursor after each
    of its pages. *)

Definition five_pages : Globals :=
  set_firmwareFileSize 2560
    (set_state WritingUpgrade
       (initial_globals (sample_config SAM4E false) (fun _ => 0xFF))).

Definition five_cursors : list Z :=
  map (fun k => 0x00400000 + 512 * k) [1; 2; 3; 4; 5].

(** A transfer armed at tick 0 over the SBC link, nothing written yet, and
    an SBC that has not answered by tick 3000. *)

Definition waiting_for_sbc : Globals :=
  set_transferPending true
    (set_state WritingUpgrade
       (initial_globals (sample_config SAME70 true) (fun _ => 0xFF))).

Definition silent_sbc : Env := sample_env 3000 false [] None.

(** The reply to a checksum mismatch has been armed at tick 0; the SBC has
    clocked it out by tick 100. *)

Definition reporting_crc_error : Globals :=
  set_flashPos 0x00404000
    (set_transferPending true
       (set_state SendingChecksumError
          (initial_globals (sample_config SAME70 true) (fun _ => 0xFF)))).

Definition sbc_answered : Env := sample_env 100 true [0] None.

(** An unlock that has failed more often than [maxRetries] allows. *)

Definition unlock_given_up : Globals :=
  set_retry 6
    (set_state UnlockingFlash
       (initial_globals (sample_config SAM4E false) (fun _ => 0xFF))).

(** SAME5x: one failed unlock behind, the flash already erased. *)

Definition same5x_second_unlock : Globals :=
  set_retry 1
    (set_state UnlockingFlash
       (initial_globals (sample_config SAME5x false) (fun _ => 0xFF))).

(** A sector being erased on a SAM4E, the cursor at the start. *)

Definition erasing_first_sector : Globals :=
  set_state ErasingFlash
    (initial_globals (sample_config SAM4E false) (fun _ => 0xFF)).

(** An empty firmware file about to be written. *)

Definition empty_file_writing : Globals :=
  set_state WritingUpgrade
    (initial_globals (sample_config SAM4E false) (fun _ => 0)).

(** UF2 records, and a file of two whose second has a wrong first magic. *)

Definition bytes_le32 (x : Z) : list Z :=
  [x mod 256; (x / 2 ^ 8) mod 256; (x / 2 ^ 16) mod 256; (x / 2 ^ 24) mod 256].

Definition uf2_record (magic0 addr blockNo numBlocks : Z) (payload : list Z)
  : list Z :=
  bytes_le32 magic0 ++ bytes_le32 MagicStart1Val ++ bytes_le32 0x2000
  ++ bytes_le32 addr ++ bytes_le32 256 ++ bytes_le32 blockNo
  ++ bytes_le32 numBlocks ++ bytes_le32 0 ++ payload
  ++ repeat 0 220 ++ bytes_le32 MagicEndVal.

Definition uf2_bad_second : list Z :=
  uf2_record MagicStart0Val 0x00400000 0 2 (repeat 0xAA 256)
  ++ uf2_record 0x0BADF00D 0x00400100 1 2 (repeat 0xBB 256).

Definition uf2_reading : Globals :=
  set_upgradeBinary (mkFIL uf2_bad_second 0)
    (set_firmwareFileSize 1024
       (set_isUf2File true
          (set_state WritingUpgrade
             (initial_globals (sample_config SAM4E false) (fun _ => 0xFF))))).

Definition sd_card : Env := sample_env 0 false [] (Some uf2_bad_second).

(** The lock phase entered after a two-kilobyte block of the five-page
    image has been written. *)

Definition locking_after_block : Globals :=
  set_flashPos 0x00400800 (set_state LockingFlash five_pages).

(** A UF2 file of eight good records, one block of the image, about to be
    read at the start of the region. *)

Definition uf2_image : list (list Z) :=
  map (fun i => uf2_record MagicStart0Val (0x00400000 + 256 * Z.of_nat i)
                           (Z.of_nat i) 8 (repeat (0xA0 + Z.of_nat i) 256))
      (seq 0 8).

Definition uf2_block_reading : Globals :=
  set_upgradeBinary (mkFIL (List.concat uf2_image) 0)
    (set_firmwareFileSize 4096
       (set_isUf2File true
          (set_state WritingUpgrade
             (initial_globals (sample_config SAM4E false) (fun _ => 0xFF))))).

(** The last block of a UF2 file: two records, then the end of the file. *)

Definition uf2_short : list (list Z) :=
  map (fun i => uf2_record MagicStart0Val (0x00400000 + 256 * Z.of_nat i)
                           (Z.of_nat i) 2 (repeat (0xB0 + Z.of_nat i) 256))
      (seq 0 2).

Definition uf2_last_block : Globals :=
  set_upgradeBinary (mkFIL (List.concat uf2_short) 0)
    (set_firmwareFileSize 1024
       (set_isUf2File true
          (set_state WritingUpgrade
             (initial_globals (sample_config SAM4E false) (fun _ => 0xFF))))).

(** The last block of a raw file of five pages: one page is left. *)

Definition raw_last_block : Globals :=
  set_flashPos 0x00400800
    (set_upgradeBinary (mkFIL (repeat 0x55 2560) 0) five_pages).

(** The SBC has sent the length 4 and the checksum 0xB001 of four bytes
    0xFF; the flash holds a different third byte. *)

Definition checksum_request : list Z := [4; 0; 0; 0; 1; 176; 0; 0].

Definition one_bad_byte : Mem :=
  fun a => if a =? 0x00400002 then 0x7F else 0xFF.

Definition awaiting_checksum (m : Mem) : Globals :=
  set_bytesToTransfer 8
    (set_transferPending true
       (set_state VerifyingChecksum
          (initial_globals (sample_config SAME70 true) m))).

(** A small file build: a region of eight pages, a file of five pages, and
    the eighteen passes that flash it. *)

Definition small_config : Config :=
  {| chip := SAM4E;
     IAP_VIA_SPI := false;
     FirmwareFlashStart := 0x00400000;
     FirmwareFlashEnd := 0x00401000;
     IFLASH_ADDR := 0x00400000;
     blockReadSize := 2048;
     maxRetries := 5;
     TransferCompleteDelay := 400;
     TransferTimeout := 2000;
     GetLockRegionSize := 0x2000;
     GetEraseRegionSize := 0x2000 |}.

Definition small_file : list Z := repeat 0x55 2560.

Definition small_start : Globals :=
  set_upgradeBinary (mkFIL small_file 0)
    (set_firmwareFileSize 2560
       (initial_globals small_config (fun _ => 0xFF))).

Definition small_envs : list Env :=
  repeat (sample_env 0 false [] (Some small_file)) 18.

(** ** Where the file build writes *)

(** The number of image bytes a file holds: a UF2 file carries 256 of them
    in every 512 bytes. *)

Definition image_length (uf2 : bool) (file : list Z) : Z :=
  if uf2 then Z.of_nat (List.length file) / 2
  else Z.of_nat (List.length file).

(** The first address past the blocks the write phase can reach: the image,
    and one more block. *)

Definition write_limit (cfg : Config) (s : Globals) : Z :=
  FirmwareFlashStart cfg
  + image_length (isUf2File s) (fdata (upgradeBinary s))
  + blockReadSize cfg.

(** What does not change during a run, and passes that write nothing. *)

Definition steady (s s' : Globals) : Prop :=
  pageSize s' = pageSize s
  /\ isUf2File s' = isUf2File s
  /\ fdata (upgradeBinary s') = fdata (upgradeBinary s)
  /\ filter is_flash_write (log s') = filter is_flash_write (log s).

(** A flash write the file build may make: bytes inside
    [[FirmwareFlashStart, limit)], or the text of a message at
    [FirmwareFlashStart] (the record [Reset (false)] leaves). *)

Definition write_allowed (cfg : Config) (limit : Z) (e : Event) : Prop :=
  match e with
  | EvFlashWrite a d =>
      (FirmwareFlashStart cfg <= a
       /\ a + Z.of_nat (List.length d) <= limit)
      \/ (a = FirmwareFlashStart cfg
          /\ exists m, d = bytes_of_string (SafeVsnprintf m))
  | _ => True
  end.

(** Sizes that fit: pages divide blocks, UF2 payloads divide blocks, and
    nothing wraps around in 32 bits. *)

Definition geometry (cfg : Config) (s : Globals) : Prop :=
  0 < pageSize s
  /\ 0 < blockReadSize cfg
  /\ blockReadSize cfg mod pageSize s = 0
  /\ (isUf2File s = true -> blockReadSize cfg mod 256 = 0)
  /\ 0 <= FirmwareFlashStart cfg
  /\ write_limit cfg s < 2 ^ 32
  /\ Z.of_nat (List.length (fdata (upgradeBinary s))) < 2 ^ 32.

(** The invariant of the cursor.  Before the write phase no block is
    buffered.  In the write phase the block being written starts inside the
    image, and a block that came full from the file lies inside the image
    entirely. *)

Definition write_inv (cfg : Config) (s : Globals) : Prop :=
  let L := image_length (isUf2File s) (fdata (upgradeBinary s)) in
  let B := blockReadSize cfg in
  let start := FirmwareFlashStart cfg in
  match state s with
  | Initializing | UnlockingFlash | ErasingFlash =>
      haveDataInBuffer s = false
  | WritingUpgrade =>
      if haveDataInBuffer s
      then 0 <= bytesWritten s < B
           /\ bytesWritten s mod pageSize s = 0
           /\ start <= flashPos s - bytesWritten s
           /\ flashPos s - bytesWritten s - start <= L
           /\ (B <= bytesRead s ->
               flashPos s - bytesWritten s - start + B <= L)
      else start <= flashPos s /\ flashPos s - start <= L
  | _ => True
  end.

(** How a fetch from the file ends, for the bounds: [full] is what a block
    that came full from the file tells. *)

Definition fetch_outcome (cfg : Config) (limit : Z) (full : Prop)
    (s : Globals) (r : Result bool) : Prop :=
  match r with
  | Ret ok s1 =>
      steady s s1 /\ state s1 = state s /\ flashPos s1 = flashPos s
      /\ haveDataInBuffer s1 = haveDataInBuffer s
      /\ (ok = true -> blockReadSize cfg <= bytesRead s1 -> full)
  | Halt b s1 =>
      exists ws,
        filter is_flash_write (log s1) = filter is_flash_write (log s) ++ ws
        /\ Forall (write_allowed cfg limit) ws
  | Fault _ => False
  | OutOfFuel => True
  end.

(** ** The order of the phases *)

(** The states a pass can leave the machine in, for the state it starts
    in: the state itself, or the next phase of this build. *)

Definition next_states (cfg : Config) (st : ProcessState)
  : list ProcessState :=
  let after_unlock :=
    if has_erase_state (chip cfg) then ErasingFlash else WritingUpgrade in
  match st with
  | Initializing => [Initializing; UnlockingFlash; after_unlock]
  | UnlockingFlash => [UnlockingFlash; after_unlock]
  | ErasingFlash => [ErasingFlash; WritingUpgrade]
  | WritingUpgrade =>
      [WritingUpgrade;
       if IAP_VIA_SPI cfg then VerifyingChecksum else LockingFlash]
  | VerifyingChecksum =>
      if IAP_VIA_SPI cfg
      then [VerifyingChecksum; SendingChecksumOK; SendingChecksumError]
      else [VerifyingChecksum]
  | SendingChecksumOK =>
      if IAP_VIA_SPI cfg then [SendingChecksumOK; LockingFlash]
      else [SendingChecksumOK]
  | SendingChecksumError =>
      if IAP_VIA_SPI cfg then [SendingChecksumError; WritingUpgrade]
      else [SendingChecksumError]
  | LockingFlash => [LockingFlash]
  end.

(** ** Which hardware call belongs to which phase *)

(** The start of the range the SAME5x unlocks and locks in one call. *)

Definition lock_region_start (cfg : Config) : Z :=
  Z.land (FirmwareFlashStart cfg) (Z.lnot (u32 (GetLockRegionSize cfg - 1))).

(** The events of a pass beyond [s]. *)

Definition emits (P : Event -> Prop) (s s' : Globals) : Prop :=
  exists evs, log s' = log s ++ evs /\ Forall P evs.

(** Events any part of the program may produce: messages, the SBC link,
    the file, and what [Reset] does after a message (the record at
    [FirmwareFlashStart] and the reboot). *)

Definition quiet_call (cfg : Config) (e : Event) : Prop :=
  match e with
  | EvFlashUnlock a _ => a = FirmwareFlashStart cfg
  | EvFlashWrite a d =>
      a = FirmwareFlashStart cfg
      /\ exists m, d = bytes_of_string (SafeVsnprintf m)
  | EvFlashErase _ => False
  | EvFlashLock _ _ => False
  | _ => True
  end.

(** The events of a pass that starts in [s]: an unlock, an erase, a page
    write and a lock are made in their own phase only, at the cursor (the
    SAME5x unlocks and locks its whole range at once). *)

Definition call_in_phase (cfg : Config) (s : Globals) (e : Event) : Prop :=
  let here := if is_same5x (chip cfg) then lock_region_start cfg
              else flashPos s in
  match e with
  | EvFlashUnlock a _ =>
      ((state s = Initializing \/ state s = UnlockingFlash) /\ a = here)
      \/ a = FirmwareFlashStart cfg
  | EvFlashErase a => state s = ErasingFlash /\ a = flashPos s
  | EvFlashWrite a d =>
      (state s = WritingUpgrade /\ a = flashPos s
       /\ List.length d = Z.to_nat (pageSize s))
      \/ (a = FirmwareFlashStart cfg
          /\ exists m, d = bytes_of_string (SafeVsnprintf m))
  | EvFlashLock a _ => state s = LockingFlash /\ a = here
  | _ => True
  end.

(** ** Where the unlock and the erase phase work *)

(** In the phases before the write phase the cursor is inside the
    region, and pages are [page] bytes. *)

Definition region_inv (cfg : Config) (page : Z) (s : Globals) : Prop :=
  match state s with
  | Initializing | UnlockingFlash | ErasingFlash =>
      pageSize s = page
      /\ FirmwareFlashStart cfg <= flashPos s < FirmwareFlashEnd cfg
  | _ => True
  end.

(** An unlock or an erase that starts inside the region (the SAME5x
    unlocks from the start of its lock region). *)

Definition region_call (cfg : Config) (e : Event) : Prop :=
  match e with
  | EvFlashUnlock a _ =>
      if is_same5x (chip cfg)
      then a = lock_region_start cfg \/ a = FirmwareFlashStart cfg
      else FirmwareFlashStart cfg <= a < FirmwareFlashEnd cfg
  | EvFlashErase a => FirmwareFlashStart cfg <= a < FirmwareFlashEnd cfg
  | _ => True
  end.

(** ** The sector layout of the SAM4E, SAM4S and SAME70

    "There are two 8K sectors, then one 48K sector, then seven 64K sectors"
    (SAM4E, SAM4S); "two 8K sectors, then one 112K sector, then the rest are
    128K sectors" (SAME70).  [large_sector] is the size of the large sectors,
    [sector_boundary] the offsets from [IFLASH_ADDR] at which a sector
    starts. *)

Definition large_sector (c : Chip) : Z :=
  match c with
  | SAM4E | SAM4S => 64 * 1024
  | _ => 128 * 1024
  end.

Definition sector_boundary (c : Chip) (off : Z) : Prop :=
  off = 0 \/ off = 8 * 1024 \/ off = 16 * 1024
  \/ exists k, 1 <= k /\ off = k * large_sector c.

(** ** [getFirmwareFileName]

    The main firmware may pass the name of the file in RAM, at the address
    held in the first word of the vector table.  [ram] is the bytes from that
    address on, [fwFilePrefix] the bytes of the prefix literal.  A byte past
    the end of either list reads as 0, the terminator.  [fwFilePrefix] is
    declared in iap.h and [StringEndsWithIgnoreCase] in the support library,
    neither of which is among the sources: both are arguments here. *)

Definition char_at (bytes : list Z) (i : nat) : Z := nth i bytes 0.

(** The [for] loop, with [i] its index: [true] when it runs to the end of
    the prefix, [false] when it returns early. *)

Fixpoint prefix_found (fuel : nat) (fwFilePrefix ram : list Z) (i : nat)
  : bool :=
  if char_at fwFilePrefix i =? 0 then true
  else
    match fuel with
    | O => false
    | S fuel' =>
        if negb (char_at ram i =? char_at fwFilePrefix i) then false
        else prefix_found fuel' fwFilePrefix ram (S i)
    end.

(** The C string that starts a list of bytes. *)

Fixpoint c_string (bytes : list Z) : list Z :=
  match bytes with
  | [] => []
  | b :: rest => if b =? 0 then [] else b :: c_string rest
  end.

Definition string_of_bytes (l : list Z) : string :=
  string_of_list_ascii (map (fun b => ascii_of_nat (Z.to_nat b)) l).

Definition getFirmwareFileName (fwFilePrefix ram : list Z)
    (StringEndsWithIgnoreCase : string -> string -> bool) : M unit :=
  if prefix_found (List.length fwFilePrefix) fwFilePrefix ram 0
  then
    modify (set_fwFile (string_of_bytes (c_string ram))) ;;
    name <- get fwFile ;;
    modify (set_isUf2File (StringEndsWithIgnoreCase name ".uf2"%string))
  else ret tt.

(** [starts p l]: the list [l] begins with [p]. *)

Fixpoint starts (p l : list Z) : bool :=
  match p, l with
  | [], _ => true
  | c :: p', d :: l' => (d =? c) && starts p' l'
  | _ :: _, [] => false
  end.

(** ** Further sample inputs *)

(** Hardware whose flash cannot be unlocked. *)

Definition stubborn_flash : Env :=
  {| millis := fun _ => 0;
     flash_unlock := fun _ _ => false;
     flash_erase_sector := fun m a => (true, erase_bytes m a 0x2000);
     flash_write := fun m a d => (true, store_bytes m a d);
     flash_lock := fun _ _ => true;
     spi_done := false;
     spi_rx := [];
     f_stat := None;
     f_open := None;
     f_lseek := fun _ => true;
     f_read := fun _ => true |}.

Definition unlocking_first_page : Globals :=
  set_state UnlockingFlash
    (initial_globals (sample_config SAM4E false) (fun _ => 0xFF)).

(** A stand-in for [StringEndsWithIgnoreCase], and a name passed in RAM:
    "0:/sys/fw.UF2", its terminator, and what follows it. *)

Definition lower_case (c : ascii) : ascii :=
  let n := nat_of_ascii c in
  if ((65 <=? n) && (n <=? 90))%nat then ascii_of_nat (n + 32) else c.

Definition ends_with_ignore_case (name ending : string) : bool :=
  let a := map lower_case (list_ascii_of_string name) in
  let b := map lower_case (list_ascii_of_string ending) in
  ((List.length b <=? List.length a)%nat
   && if list_eq_dec ascii_dec (skipn (List.length a - List.length b) a) b
      then true else false)%bool.

Definition passed_prefix : list Z := [48; 58; 47].

Definition passed_name : list Z :=
  [48; 58; 47; 115; 121; 115; 47; 102; 119; 46; 85; 70; 50; 0; 7; 7].

(** A flash that refuses every page write and keeps what it holds; a page of
    a buffered block about to be written; a sector in use about to be
    erased. *)

Definition refusing_flash : Env :=
  {| millis := fun _ => 0;
     flash_unlock := fun _ _ => true;
     flash_erase_sector := fun m a => (true, erase_bytes m a 0x2000);
     flash_write := fun m _ _ => (false, m);
     flash_lock := fun _ _ => true;
     spi_done := false;
     spi_rx := [];
     f_stat := None;
     f_open := None;
     f_lseek := fun _ => true;
     f_read := fun _ => true |}.

(** A flash that stores the page and reports a failure all the same. *)

Definition storing_but_failing : Env :=
  {| millis := fun _ => 0;
     flash_unlock := fun _ _ => true;
     flash_erase_sector := fun m a => (true, erase_bytes m a 0x2000);
     flash_write := fun m a d => (false, store_bytes m a d);
     flash_lock := fun _ _ => true;
     spi_done := false;
     spi_rx := [];
     f_stat := None;
     f_open := None;
     f_lseek := fun _ => true;
     f_read := fun _ => true |}.

Definition writing_buffered_page : Globals :=
  set_haveDataInBuffer true five_pages.

Definition erasing_used_sector : Globals :=
  set_flash (fun _ => 0) erasing_first_sector.

(** What one pass may ask of the flash, by the state [s] it starts in. *)

Definition pass_calls_in_phase (cfg : Config) (s : Globals)
    (evs : list Event) : Prop :=
  let here := if is_same5x (chip cfg) then lock_region_start cfg
              else flashPos s in
  (forall a b, In (EvFlashUnlock a b) evs ->
     ((state s = Initializing \/ state s = UnlockingFlash) /\ a = here)
     \/ a = FirmwareFlashStart cfg)
  /\ (forall a, In (EvFlashErase a) evs ->
        state s = ErasingFlash /\ a = flashPos s)
  /\ (forall a d, In (EvFlashWrite a d) evs ->
        (state s = WritingUpgrade /\ a = flashPos s
         /\ List.length d = Z.to_nat (pageSize s))
        \/ (a = FirmwareFlashStart cfg
            /\ exists m, d = bytes_of_string (SafeVsnprintf m)))
  /\ (forall a b, In (EvFlashLock a b) evs ->
        state s = LockingFlash /\ a = here).

(** ** Progress in step with the cursor

    The states in which the cursor stands for what has been written, and a
    page small enough for the percentage to rise by 20 at most when it is
    written: a fifth of the total size or less. *)

Definition in_write_phase (st : ProcessState) : bool :=
  match st with
  | WritingUpgrade | VerifyingChecksum | SendingChecksumOK
  | SendingChecksumError => true
  | _ => false
  end.

Definition small_page (cfg : Config) (s : Globals) : Prop :=
  no_overflow cfg s /\ 100 * pageSize s <= 20 * totalSize cfg s.

(** The threshold is 20 above the number of messages times 20, the [k]-th
    message carries a percentage that has reached the [k]-th threshold and
    not the next one, and in the write phase the percentage at the cursor is
    below the threshold: no threshold reached is left unannounced. *)

Definition in_step (cfg : Config) (s : Globals) : Prop :=
  reportNextPercent s = 20 + 20 * Z.of_nat (List.length (reported (log s)))
  /\ (forall k q, nth_error (reported (log s)) k = Some q ->
        20 + 20 * Z.of_nat k <= q < 40 + 20 * Z.of_nat k)
  /\ (in_write_phase (state s) = true ->
      percent_at cfg (totalSize cfg s) (flashPos s) < reportNextPercent s).

(** A pass that announces nothing and, when it ends in the write phase,
    leaves the cursor where it was or takes it back to the start. *)

Definition calm (cfg : Config) (s s' : Globals) : Prop :=
  quiet s s'
  /\ (in_write_phase (state s') = true ->
      flashPos s' = FirmwareFlashStart cfg
      \/ (in_write_phase (state s) = true /\ flashPos s' = flashPos s)).

(** A file of one page on the card of the small file build. *)

Definition tiny_file : list Z := repeat 0x55 512.

Definition tiny_start : Globals :=
  set_upgradeBinary (mkFIL tiny_file 0)
    (set_firmwareFileSize 512
       (initial_globals small_config (fun _ => 0xFF))).

Definition tiny_card : Env := sample_env 0 false [] (Some tiny_file).

(** A small SBC build: a region of eight pages, an image of one block sent
    by the SBC, the block of 0xFF written once the link has gone idle, a
    checksum that does not match, and the image being sent again. *)

Definition small_sbc_config : Config :=
  {| chip := SAME70;
     IAP_VIA_SPI := true;
     FirmwareFlashStart := 0x00400000;
     FirmwareFlashEnd := 0x00401000;
     IFLASH_ADDR := 0x00400000;
     blockReadSize := 2048;
     maxRetries := 5;
     TransferCompleteDelay := 400;
     TransferTimeout := 2000;
     GetLockRegionSize := 0x2000;
     GetEraseRegionSize := 0x2000 |}.

Definition link_quiet : Env := sample_env 0 false [] None.
Definition block_sent : Env := sample_env 0 true (repeat 0x55 2048) None.
Definition link_idle : Env := sample_env 1000 false [] None.
Definition crc_sent : Env := sample_env 0 true checksum_request None.
Definition ack_taken : Env := sample_env 0 true [0] None.

Definition sbc_envs : list Env :=
  repeat link_quiet 10 ++ [block_sent] ++ repeat link_quiet 4
  ++ [link_idle] ++ repeat link_quiet 3
  ++ [crc_sent; ack_taken; link_quiet; block_sent].

Definition sbc_start : Globals :=
  initial_globals small_sbc_config (fun _ => 0xFF).

(** The small file build on a flash that is in use: the sector has to be
    erased. *)

Definition small_used_start : Globals := set_flash (fun _ => 0) small_start.

(** * Properties *)

(** ** The checksum engine: table-driven against bit-by-bit *)

Section Checksum.

Lemma crc_bit_lxor (a b : Z) :
  crc_bit (Z.lxor a b) = Z.lxor (crc_bit a) (crc_bit b).
Proof.
  unfold crc_bit. rewrite Z.lxor_spec, Z.shiftr_lxor.
  set (a' := Z.shiftr a 1). set (b' := Z.shiftr b 1).
  destruct (Z.testbit a 0), (Z.testbit b 0); cbn [xorb];
    apply Z.bits_inj'; intros n _; rewrite ?Z.lxor_spec;
    destruct (Z.testbit a' n), (Z.testbit b' n), (Z.testbit 40961 n);
    reflexivity.
Qed.

Lemma iter_crc_bit_lxor (n : nat) (a b : Z) :
  Nat.iter n crc_bit (Z.lxor a b)
  = Z.lxor (Nat.iter n crc_bit a) (Nat.iter n crc_bit b).
Proof.
  induction n as [|n IH]; [reflexivity|].
  rewrite !Nat.iter_succ, IH. apply crc_bit_lxor.
Qed.

Lemma crc_bit_shiftl (h k : Z) :
  0 < k -> crc_bit (Z.shiftl h k) = Z.shiftl h (k - 1).
Proof.
  intros Hk. unfold crc_bit.
  rewrite Z.shiftl_spec_low by lia.
  apply Z.shiftr_shiftl_l. lia.
Qed.

Lemma iter_crc_bit_high (h : Z) :
  Nat.iter 8 crc_bit (Z.shiftl h 8) = h.
Proof.
  rewrite !Nat.iter_succ. cbn [Nat.iter nat_rect].
  do 8 (rewrite crc_bit_shiftl by lia; rewrite ?Z.sub_add_distr).
  replace (8 - 1 - 1 - 1 - 1 - 1 - 1 - 1 - 1) with 0 by lia.
  apply Z.shiftl_0_r.
Qed.

Lemma split_low_byte (x : Z) :
  x = Z.lxor (Z.land x 255) (Z.shiftl (Z.shiftr x 8) 8).
Proof.
  apply Z.bits_inj'. intros n Hn.
  rewrite Z.lxor_spec, Z.land_spec. change 255 with (Z.ones 8).
  destruct (Z.ltb_spec n 8).
  - rewrite Z.ones_spec_low, Z.shiftl_spec_low by lia.
    now rewrite andb_true_r, xorb_false_r.
  - rewrite Z.ones_spec_high, Z.shiftl_spec, Z.shiftr_spec by lia.
    replace (n - 8 + 8) with n by lia.
    now rewrite andb_false_r.
Qed.

Lemma crc16_table_entries :
  forallb table_entry_ok (seq 0 256) = true.
Proof. vm_compute. reflexivity. Qed.

Lemma crc16_table_spec (i : Z) :
  0 <= i < 256 ->
  nth (Z.to_nat i) crc16_table 0 = Nat.iter 8 crc_bit i
  /\ 0 <= nth (Z.to_nat i) crc16_table 0 < 2 ^ 16.
Proof.
  intros Hi.
  pose proof crc16_table_entries as H.
  rewrite forallb_forall in H.
  specialize (H (Z.to_nat i)).
  assert (Hin : In (Z.to_nat i) (seq 0 256)) by (apply in_seq; lia).
  apply H in Hin. unfold table_entry_ok in Hin.
  rewrite Z2Nat.id in Hin by lia.
  apply andb_prop in Hin as [Hin H3]. apply andb_prop in Hin as [H1 H2].
  apply Z.eqb_eq in H1. apply Z.leb_le in H2. apply Z.ltb_lt in H3.
  rewrite H1. split; [reflexivity | lia].
Qed.

Lemma land_255_range (x : Z) : 0 <= Z.land x 255 < 256.
Proof.
  change 255 with (Z.ones 8). rewrite Z.land_ones by lia.
  apply Z.mod_pos_bound. lia.
Qed.

Lemma lxor_u16_range (a b : Z) :
  0 <= a < 2 ^ 16 -> 0 <= b < 2 ^ 16 -> 0 <= Z.lxor a b < 2 ^ 16.
Proof.
  intros Ha Hb.
  assert (H0 : 0 <= Z.lxor a b) by (apply Z.lxor_nonneg; lia).
  split; [exact H0|].
  destruct (Z.eq_dec (Z.lxor a b) 0) as [->|Hne]; [lia|].
  apply Z.log2_lt_pow2; [lia|].
  eapply Z.le_lt_trans; [apply Z.log2_lxor; lia|].
  apply Z.max_lub_lt.
  - destruct (Z.eq_dec a 0) as [->|]; [cbn; lia|].
    apply Z.log2_lt_pow2; lia.
  - destruct (Z.eq_dec b 0) as [->|]; [cbn; lia|].
    apply Z.log2_lt_pow2; lia.
Qed.

Lemma CRC16_step_range (c b : Z) : 0 <= CRC16_step c b < 2 ^ 16.
Proof. unfold CRC16_step, u16. apply Z.mod_pos_bound. lia. Qed.

Lemma CRC16_step_is_crc_byte (c b : Z) :
  0 <= c < 2 ^ 16 -> 0 <= b < 2 ^ 8 ->
  CRC16_step c b = crc_byte c b.
Proof.
  intros Hc Hb. unfold CRC16_step, crc_byte.
  assert (Hx : 0 <= Z.lxor c b < 2 ^ 16) by (apply lxor_u16_range; lia).
  unfold u16 at 2. rewrite (Z.mod_small (Z.lxor c b)) by lia.
  set (x := Z.lxor c b) in *.
  assert (Hhi : Z.shiftr c 8 = Z.shiftr x 8).
  { unfold x. rewrite Z.shiftr_lxor.
    rewrite (Z.shiftr_div_pow2 b) by lia.
    rewrite (Z.div_small b) by lia. now rewrite Z.lxor_0_r. }
  rewrite Hhi.
  destruct (crc16_table_spec (Z.land x 255) (land_255_range x)) as [Ht Hr].
  assert (Hs : 0 <= Z.shiftr x 8 < 2 ^ 16).
  { rewrite Z.shiftr_div_pow2 by lia. split.
    - apply Z.div_pos; lia.
    - apply Z.div_lt_upper_bound; lia. }
  unfold u16. rewrite Z.mod_small by (apply lxor_u16_range; lia).
  rewrite Ht.
  rewrite (split_low_byte x) at 3.
  rewrite iter_crc_bit_lxor, iter_crc_bit_high.
  apply Z.lxor_comm.
Qed.

Lemma fold_CRC16_is_reference (buffer : Z -> Z) (idx : list nat) (c : Z) :
  0 <= c < 2 ^ 16 ->
  (forall i, In i idx -> 0 <= buffer (Z.of_nat i) < 256) ->
  fold_left (fun Crc i => CRC16_step Crc (buffer (Z.of_nat i))) idx c
  = fold_left crc_byte (map (fun i => buffer (Z.of_nat i)) idx) c.
Proof.
  revert c. induction idx as [|i idx IH]; intros c Hc Hb; cbn [fold_left map].
  - reflexivity.
  - rewrite <- CRC16_step_is_crc_byte by (auto; apply Hb; now left).
    apply IH; [apply CRC16_step_range|].
    intros j Hj. apply Hb. now right.
Qed.

End Checksum.

Lemma read_mem_at_zero (buffer : Z -> Z) (n : Z) :
  read_mem buffer 0 n
  = map (fun i => buffer (Z.of_nat i)) (seq 0 (Z.to_nat n)).
Proof. reflexivity. Qed.

Lemma CRC16_is_reference (buffer : Z -> Z) (n : Z) :
  (forall i, 0 <= i < n -> 0 <= buffer i < 256) ->
  CRC16 buffer n = crc16_reference 0xFFFF 0 (read_mem buffer 0 n).
Proof.
  intros Hb. unfold CRC16, crc16_reference.
  rewrite Z.lxor_0_r, read_mem_at_zero.
  apply fold_CRC16_is_reference; [lia|].
  intros i Hi. apply in_seq in Hi. apply Hb. lia.
Qed.

Lemma CRC16_ext (buffer buffer' : Z -> Z) (n : Z) :
  (forall i, 0 <= i < n -> buffer' i = buffer i) ->
  CRC16 buffer' n = CRC16 buffer n.
Proof.
  intros He. unfold CRC16.
  assert (H : forall idx c,
             (forall i, In i idx -> buffer' (Z.of_nat i) = buffer (Z.of_nat i)) ->
             fold_left (fun Crc i => CRC16_step Crc (buffer' (Z.of_nat i))) idx c
             = fold_left (fun Crc i => CRC16_step Crc (buffer (Z.of_nat i))) idx c).
  { induction idx as [|i idx IH]; intros c Hi; cbn [fold_left]; [reflexivity|].
    rewrite Hi by now left. apply IH. intros j Hj. apply Hi. now right. }
  apply H. intros i Hi. apply in_seq in Hi. apply He. lia.
Qed.

(** C7.  [CRC16] is a function of the first [n] bytes of its buffer alone,
    and on every buffer of bytes it equals, bit for bit, the reference that
    processes one bit at a time with the reflected CRC-16/ARC polynomial, the
    initial value 0xFFFF and no final XOR.  On the empty buffer it is 0xFFFF;
    on the one byte 'A' (65) it is that reference's value, 0x707F. *)

Theorem CRC16_matches_reference (buffer : Z -> Z) (n : Z) :
  (forall i, 0 <= i < n -> 0 <= buffer i < 256) ->
  CRC16 buffer n = crc16_reference 0xFFFF 0 (read_mem buffer 0 n)
  /\ (forall buffer', (forall i, 0 <= i < n -> buffer' i = buffer i) ->
                      CRC16 buffer' n = CRC16 buffer n)
  /\ CRC16 buffer 0 = 0xFFFF
  /\ CRC16 (fun _ => 65) 1 = crc16_reference 0xFFFF 0 [65]
  /\ CRC16 (fun _ => 65) 1 = 0x707F.
Proof.
  intros Hb. repeat split.
  - now apply CRC16_is_reference.
  - intros buffer' He. now apply CRC16_ext.
Qed.

Lemma CRC16_matches_reference_witness :
  CRC16 (fun i => 65 + i) 3
  = crc16_reference 0xFFFF 0 (read_mem (fun i => 65 + i) 0 3).
Proof.
  refine (proj1 (CRC16_matches_reference (fun i => 65 + i) 3 _)).
  intros i Hi. lia.
Defined.

(** ** Progress reporting *)

Section Progress.

Variable cfg : Config.

Lemma u32_small (x : Z) : 0 <= x < 2 ^ 32 -> u32 x = x.
Proof. intros H. unfold u32. now apply Z.mod_small. Qed.

Lemma u32_range (x : Z) : 0 <= u32 x < 2 ^ 32.
Proof. unfold u32. apply Z.mod_pos_bound. lia. Qed.

Lemma reported_app (a b : list Event) :
  reported (a ++ b) = reported a ++ reported b.
Proof. unfold reported. apply flat_map_app. Qed.

(** One call, spelled out. *)

Lemma ShowProgress_unfold (s : Globals) :
  ShowProgress cfg s
  = if totalSize cfg s =? 0 then Fault s
    else if percentDone cfg s >=? reportNextPercent s
    then Ret tt
           (set_reportNextPercent
              (u32 (reportNextPercent s + reportPercentIncrement))
              (formatted (MsgProgress (percentDone cfg s)) s))
    else Ret tt s.
Proof.
  unfold ShowProgress.
  destruct (totalSize cfg s =? 0); [reflexivity|].
  destruct (percentDone cfg s >=? reportNextPercent s); reflexivity.
Qed.

Lemma percentDone_at (s : Globals) (c : Z) :
  0 <= 100 * (c - FirmwareFlashStart cfg) < 2 ^ 32 ->
  percentDone cfg (set_flashPos c s) = percent_at cfg (totalSize cfg s) c.
Proof.
  intros H. unfold percentDone, percent_at. cbn [flashPos set_flashPos].
  rewrite u32_small by lia. reflexivity.
Qed.

Lemma percent_at_mono (total a b : Z) :
  0 < total -> a <= b -> percent_at cfg total a <= percent_at cfg total b.
Proof.
  intros Ht Hab. unfold percent_at. apply Z.div_le_mono; lia.
Qed.

(** A list whose [k]-th element lies in the [k]-th window of width 20 from
    [t] is sorted. *)

Lemma windows_sorted (rep : list Z) :
  forall t,
    (forall k q, nth_error rep k = Some q ->
                 t + 20 * Z.of_nat k <= q < t + 20 * Z.of_nat k + 20) ->
    StronglySorted Z.le rep.
Proof.
  induction rep as [|p rep IH]; intros t H; constructor.
  - apply (IH (t + 20)). intros k q Hk.
    specialize (H (S k) q Hk). lia.
  - apply Forall_forall. intros q Hq.
    apply In_nth_error in Hq as [k Hk].
    pose proof (H 0%nat p eq_refl). pose proof (H (S k) q Hk). lia.
Qed.

(** What a run of calls does, by induction on the cursors it visits. *)

Lemma ShowProgress_run_facts (cursors : list Z) :
  forall s,
    0 < totalSize cfg s ->
    0 <= reportNextPercent s ->
    reportNextPercent s + 20 * Z.of_nat (List.length cursors) < 2 ^ 32 ->
    Forall (fun c => 0 <= 100 * (c - FirmwareFlashStart cfg) < 2 ^ 32)
           cursors ->
    exists s' rep,
      ShowProgress_run cfg cursors s = Ret tt s'
      /\ reported (log s') = reported (log s) ++ rep
      /\ reportNextPercent s'
         = reportNextPercent s + 20 * Z.of_nat (List.length rep)
      /\ (List.length rep <= List.length cursors)%nat
      /\ (forall k q, nth_error rep k = Some q ->
                      reportNextPercent s + 20 * Z.of_nat k <= q)
      /\ (forall q, In q rep ->
            exists c, In c cursors
                      /\ q = percent_at cfg (totalSize cfg s) c)
      /\ (StronglySorted Z.le cursors -> StronglySorted Z.le rep)
      /\ (percent_at cfg (totalSize cfg s) (flashPos s) < reportNextPercent s ->
          small_steps cfg (totalSize cfg s) (flashPos s) cursors ->
          forall k q, nth_error rep k = Some q ->
                      q < reportNextPercent s + 20 * Z.of_nat k + 20).
Proof.
  induction cursors as [|c rest IH]; intros s Htot Hthr Hcap Hrange.
  - exists s, []. cbn [ShowProgress_run List.length]. rewrite app_nil_r.
    split; [reflexivity|]. split; [reflexivity|]. split; [lia|].
    split; [lia|]. split; [intros [|k] q Hk; discriminate|].
    split; [intros q []|]. split; [constructor|].
    intros _ _ [|k] q Hk; discriminate.
  - inversion Hrange as [|c' rest' Hc Hrest]; subst.
    cbn [List.length] in Hcap.
    cbn [ShowProgress_run]. unfold bind at 1, modify at 1.
    unfold bind at 1. rewrite ShowProgress_unfold.
    rewrite !(percentDone_at s c Hc).
    change (totalSize cfg (set_flashPos c s)) with (totalSize cfg s).
    destruct (Z.eqb_spec (totalSize cfg s) 0) as [E|_]; [lia|].
    set (s0 := set_flashPos c s).
    set (total := totalSize cfg s) in *.
    set (p := percent_at cfg total c).
    change (reportNextPercent s0) with (reportNextPercent s).
    destruct (Z.geb_spec p (reportNextPercent s)) as [Hge|Hlt].
    + (* a message for the threshold [reportNextPercent s] *)
      set (s1 := set_reportNextPercent _ _).
      assert (Hn1 : reportNextPercent s1 = reportNextPercent s + 20).
      { unfold s1. cbn [reportNextPercent set_reportNextPercent].
        unfold reportPercentIncrement. apply u32_small. lia. }
      destruct (IH s1) as (s' & rep & Hrun & Hrep & Hnext & Hlen & Hnth
                           & Hin & Hsort & Hwin); try exact Hrest.
      { exact Htot. } { lia. } { lia. }
      exists s', (p :: rep). split; [exact Hrun|].
      split.
      { rewrite Hrep. unfold s1, formatted.
        cbn [log set_reportNextPercent set_log set_formatBuffer].
        unfold s0. cbn [log set_flashPos].
        rewrite reported_app. cbn. now rewrite <- app_assoc. }
      split; [rewrite Hnext, Hn1; cbn [List.length]; lia|].
      split; [cbn [List.length]; lia|].
      split.
      { intros [|k] q Hk; cbn in Hk.
        - injection Hk as <-. lia.
        - specialize (Hnth k q Hk). lia. }
      split.
      { intros q [<-|Hq].
        - exists c. split; [now left | reflexivity].
        - destruct (Hin q Hq) as (c0 & Hc0 & ->).
          exists c0. split; [now right | reflexivity]. }
      split.
      { intros Hs. inversion Hs as [|c0 rest0 Hs' Hall]; subst.
        constructor; [now apply Hsort|].
        apply Forall_forall. intros q Hq.
        destruct (Hin q Hq) as (c0 & Hc0 & ->).
        rewrite Forall_forall in Hall.
        apply percent_at_mono; [exact Htot | now apply Hall]. }
      { intros Hbelow [Hstep Hsteps] [|k] q Hk; cbn in Hk.
        - injection Hk as <-. fold p in Hstep. lia.
        - assert (Hb1 : percent_at cfg (totalSize cfg s1) (flashPos s1)
                        < reportNextPercent s1).
          { rewrite Hn1. change (p < reportNextPercent s + 20). lia. }
          specialize (Hwin Hb1 Hsteps k q Hk). lia. }
    + (* below the threshold: nothing is said *)
      destruct (IH s0) as (s' & rep & Hrun & Hrep & Hnext & Hlen & Hnth
                           & Hin & Hsort & Hwin); try exact Hrest.
      { exact Htot. } { exact Hthr. }
      { change (reportNextPercent s0) with (reportNextPercent s). lia. }
      exists s', rep. split; [exact Hrun|].
      split; [exact Hrep|].
      split; [exact Hnext|].
      split; [cbn [List.length]; lia|].
      split; [exact Hnth|].
      split.
      { intros q Hq. destruct (Hin q Hq) as (c0 & Hc0 & ->).
        exists c0. split; [now right | reflexivity]. }
      split.
      { intros Hs. inversion Hs; subst. now apply Hsort. }
      { intros Hbelow [Hstep Hsteps] k q Hk.
        assert (Hb0 : percent_at cfg (totalSize cfg s0) (flashPos s0)
                      < reportNextPercent s0).
        { change (percent_at cfg total c < reportNextPercent s). exact Hlt. }
        exact (Hwin Hb0 Hsteps k q Hk). }
Qed.

End Progress.

(** ** Stepping through a function body *)

Section Steps.

Context {A B : Type}.

Lemma bind_get (f : Globals -> A) (k : A -> M B) (s : Globals) :
  (x <- get f ;; k x) s = k (f s) s.
Proof. reflexivity. Qed.

Lemma bind_ret (a : A) (k : A -> M B) (s : Globals) :
  (x <- ret a ;; k x) s = k a s.
Proof. reflexivity. Qed.

Lemma bind_modify (f : Globals -> Globals) (k : M B) (s : Globals) :
  (modify f ;; k) s = k (f s).
Proof. reflexivity. Qed.

Lemma bind_emit (e : Event) (k : M B) (s : Globals) :
  (emit e ;; k) s = k (set_log (log s ++ [e]) s).
Proof. reflexivity. Qed.

Lemma bind_MessageF (m : Message) (k : M B) (s : Globals) :
  (MessageF m ;; k) s = k (formatted m s).
Proof. reflexivity. Qed.

Lemma bind_when_MessageF (b : bool) (m : Message) (k : M B) (s : Globals) :
  (when b (MessageF m) ;; k) s = k (if b then formatted m s else s).
Proof. destruct b; reflexivity. Qed.

Lemma bind_assoc {C : Type} (m : M A) (f : A -> M B) (g : B -> M C)
    (s : Globals) :
  (y <- (x <- m ;; f x) ;; g y) s = (x <- m ;; y <- f x ;; g y) s.
Proof. unfold bind. destruct (m s); reflexivity. Qed.

End Steps.

Lemma formatted_frame (b : bool) (m : Message) (s : Globals) :
  let s0 := if b then formatted m s else s in
  state s0 = state s /\ pageSize s0 = pageSize s /\ flashPos s0 = flashPos s
  /\ retry s0 = retry s /\ bytesRead s0 = bytesRead s
  /\ bytesWritten s0 = bytesWritten s
  /\ haveDataInBuffer s0 = haveDataInBuffer s
  /\ readData s0 = readData s /\ flash s0 = flash s
  /\ log s0 = log s ++ (if b then [EvMessage m] else []).
Proof.
  destruct b; cbn; rewrite ?app_nil_r; repeat split; reflexivity.
Qed.

(** Projections of updated globals, and nothing else, are computed. *)

Ltac simpl_globals :=
  cbn [final fst snd negb andb orb
       state pageSize flashPos retry bytesRead bytesWritten haveDataInBuffer
       reportNextPercent formatBuffer readData writeData transferStartTime
       transferPending transferReadyHigh bytesToTransfer firmwareFileSize
       isUf2File fwFile upgradeBinary flash log
       set_state set_pageSize set_flashPos set_retry set_bytesRead
       set_bytesWritten set_haveDataInBuffer set_reportNextPercent
       set_formatBuffer set_readData set_writeData set_transferStartTime
       set_transferPending set_transferReadyHigh set_bytesToTransfer
       set_firmwareFileSize set_isUf2File set_fwFile set_upgradeBinary
       set_flash set_log
       advance seek_to formatted incr_retry modify ret emit].

(** Case analysis on every test the goal still branches on. *)

Ltac split_ifs :=
  cbn;
  repeat (match goal with
          | |- context [let (_, _) := ?e in _] => destruct e
          | |- context [if ?c then _ else _] => destruct c
          end; cbn).

(** ** [Reset] *)

Section ResetFacts.

Variable cfg : Config.
Variable env : Env.

(** What [Reset] appends to the trace before the reboot when it writes the
    last message to the start of the flash. *)

Lemma Reset_halts {A : Type} (success : bool) (s : Globals) :
  exists s',
    @Reset cfg env A success s = Halt success s'
    /\ state s' = state s /\ flashPos s' = flashPos s
    /\ retry s' = retry s /\ formatBuffer s' = formatBuffer s
    /\ log s'
       = log s
         ++ (if negb success
                && (state_index WritingUpgrade <=? state_index (state s))
             then [EvFlashUnlock (FirmwareFlashStart cfg)
                     (if is_same5x (chip cfg) then pageSize s
                      else u32 (FirmwareFlashStart cfg + pageSize s));
                   EvFlashWrite (FirmwareFlashStart cfg)
                     (bytes_of_string (formatBuffer s))]
                  ++ (if is_same5x (chip cfg) then [] else [EvClearGpnvm 1])
             else [])
         ++ (if IAP_VIA_SPI cfg then [EvTfrReadyPin false] else [])
         ++ [EvReboot]
    /\ flash s'
       = (if negb success
             && (state_index WritingUpgrade <=? state_index (state s))
          then snd (flash_write env (flash s) (FirmwareFlashStart cfg)
                      (bytes_of_string (formatBuffer s)))
          else flash s).
Proof.
  unfold Reset, when, write_error_to_flash, do_flash_unlock, do_flash_write,
    emit, bind, modify, get, ret.
  destruct success; cbn [negb andb].
  - destruct (IAP_VIA_SPI cfg); eexists; (split; [reflexivity|]);
      cbn; rewrite <- ?app_assoc; repeat split; reflexivity.
  - destruct (state_index WritingUpgrade <=? state_index (state s)).
    + destruct (is_same5x (chip cfg)); cbn;
        destruct (flash_write env (flash s) (FirmwareFlashStart cfg)
                    (bytes_of_string (formatBuffer s))) as [ok m'];
        destruct (IAP_VIA_SPI cfg); eexists; (split; [reflexivity|]);
        cbn; rewrite <- ?app_assoc; repeat split; reflexivity.
    + destruct (IAP_VIA_SPI cfg); eexists; (split; [reflexivity|]);
        cbn; rewrite <- ?app_assoc; repeat split; reflexivity.
Qed.

(** C9, as the code has it.  A fatal failure is a message followed by
    [Reset (false)], and [Reset] always ends in the reboot.  When the
    failure is met in [WritingUpgrade] or a later state, [Reset] first
    unlocks the start of the flash region and writes the text of that last
    message there (and, on the chips other than SAME5x, clears GPNVM bit 1
    so that the bootloader runs next).  When it is met in an earlier state
    ([Initializing], [UnlockingFlash], [ErasingFlash]) nothing is written
    and the flash is left as it is: the device only reboots, as it does
    after a success. *)

Theorem Reset_persists_from_WritingUpgrade (m : Message) (s : Globals) :
  let late := state_index WritingUpgrade <=? state_index (state s) in
  let ready := if IAP_VIA_SPI cfg then [EvTfrReadyPin false] else [] in
  (exists s',
     (MessageF m ;; @Reset cfg env unit false) s = Halt false s'
     /\ log s'
        = log s ++ [EvMessage m]
          ++ (if late
              then [EvFlashUnlock (FirmwareFlashStart cfg)
                      (if is_same5x (chip cfg) then pageSize s
                       else u32 (FirmwareFlashStart cfg + pageSize s));
                    EvFlashWrite (FirmwareFlashStart cfg)
                      (bytes_of_string (SafeVsnprintf m))]
                   ++ (if is_same5x (chip cfg) then [] else [EvClearGpnvm 1])
              else [])
          ++ ready ++ [EvReboot]
     /\ flash s'
        = (if late
           then snd (flash_write env (flash s) (FirmwareFlashStart cfg)
                       (bytes_of_string (SafeVsnprintf m)))
           else flash s))
  /\ (exists s',
       (MessageF m ;; @Reset cfg env unit true) s = Halt true s'
       /\ log s' = log s ++ [EvMessage m] ++ ready ++ [EvReboot]
       /\ flash s' = flash s).
Proof.
  intros late ready. split.
  - rewrite bind_MessageF.
    destruct (@Reset_halts unit false (formatted m s))
      as (s' & H & _ & _ & _ & _ & Hl & Hf).
    exists s'. split; [exact H|]. split.
    + rewrite Hl. cbn [negb andb].
      change (state (formatted m s)) with (state s). fold late. fold ready.
      cbn [log formatted set_log set_formatBuffer formatBuffer pageSize].
      now rewrite <- app_assoc.
    + rewrite Hf. cbn [negb andb].
      change (state (formatted m s)) with (state s). fold late.
      reflexivity.
  - rewrite bind_MessageF.
    destruct (@Reset_halts unit true (formatted m s))
      as (s' & H & _ & _ & _ & _ & Hl & Hf).
    exists s'. split; [exact H|]. split.
    + rewrite Hl. cbn [negb andb app]. fold ready.
      cbn [log formatted set_log set_formatBuffer].
      now rewrite <- app_assoc.
    + rewrite Hf. reflexivity.
Qed.

End ResetFacts.

(** ** [WritingUpgrade]: write one page, compare, advance *)

Section WritePage.

Variable cfg : Config.
Variable env : Env.

Lemma bytes_eqb_eq (a b : list Z) : bytes_eqb a b = true <-> a = b.
Proof.
  unfold bytes_eqb. destruct (list_eq_dec Z.eq_dec a b); split; intros H;
    try assumption; try reflexivity; try discriminate; contradiction.
Qed.

(** [ShowProgress] and the end-of-block bookkeeping leave the cursor, the
    write offset and the retry counter alone, and only add to the trace. *)

Lemma ShowProgress_frame (s : Globals) :
  exists s' evs,
    (ShowProgress cfg s = Ret tt s' \/ ShowProgress cfg s = Fault s')
    /\ flashPos s' = flashPos s /\ bytesWritten s' = bytesWritten s
    /\ retry s' = retry s /\ bytesRead s' = bytesRead s
    /\ state s' = state s /\ haveDataInBuffer s' = haveDataInBuffer s
    /\ flash s' = flash s
    /\ log s' = log s ++ evs.
Proof.
  unfold ShowProgress, bind, MessageF, modify.
  destruct (totalSize cfg s =? 0).
  - exists s, []. rewrite app_nil_r. repeat split; auto.
  - destruct (percentDone cfg s >=? reportNextPercent s).
    + eexists. eexists. split; [left; reflexivity|].
      cbn. repeat split; reflexivity.
    + exists s, []. rewrite app_nil_r. repeat split; auto.
Qed.

Lemma block_done_frame (s : Globals) :
  exists s' evs,
    block_done cfg env s = Ret tt s'
    /\ flashPos s' = flashPos s /\ bytesWritten s' = bytesWritten s
    /\ retry s' = retry s /\ flash s' = flash s
    /\ log s' = log s ++ evs
    /\ (state s' = state s
        \/ state s'
           = if IAP_VIA_SPI cfg then VerifyingChecksum else LockingFlash).
Proof.
  unfold block_done, bind, get, when, modify, ret, setup_spi, closeBinary,
    emit.
  destruct (bytesWritten s =? blockReadSize cfg).
  - cbn. destruct (bytesRead s <? blockReadSize cfg).
    + destruct (IAP_VIA_SPI cfg); eexists; eexists;
        (split; [reflexivity|]); cbn;
        (repeat split; try reflexivity); right; reflexivity.
    + exists (set_haveDataInBuffer false s), [].
      rewrite app_nil_r. repeat split; try reflexivity. left; reflexivity.
  - exists s, []. rewrite app_nil_r. repeat split; try reflexivity.
    left; reflexivity.
Qed.

(** The page write proper, for whatever globals it starts from. *)

Lemma write_page_facts (s : Globals) :
  let pos := flashPos s in
  let page := pageSize s in
  let src := slice (readData s) (bytesWritten s) page in
  let ok := fst (flash_write env (flash s) pos src) in
  let m' := snd (flash_write env (flash s) pos src) in
  exists s' pre post,
    final (write_page cfg env s) = Some s'
    /\ (pre = log s
        \/ pre = log s ++ [EvMessage (MsgFlashWriteRetry (retry s))])
    /\ log s'
       = pre ++ EvFlashWrite pos src
             :: (if ok then EvFlashVerify pos page :: post else [])
    /\ if ok && bytes_eqb src (read_mem m' pos page)
       then flashPos s' = u32 (pos + page)
            /\ bytesWritten s' = u32 (bytesWritten s + page)
            /\ retry s' = 0
       else write_page cfg env s = Ret tt s'
            /\ flashPos s' = pos
            /\ bytesWritten s' = bytesWritten s
            /\ retry s' = u32 (retry s + 1)
            /\ state s' = state s
            /\ haveDataInBuffer s' = haveDataInBuffer s
            /\ post = [].
Proof.
  intros pos page src ok m'.
  unfold write_page, bind, get, when.
  set (s0 := if negb (retry s =? 0)
             then formatted (MsgFlashWriteRetry (retry s)) s else s).
  assert (Hs0 : (if negb (retry s =? 0)
                 then MessageF (MsgFlashWriteRetry (retry s))
                 else ret tt) s = Ret tt s0).
  { unfold s0. now destruct (negb (retry s =? 0)). }
  rewrite Hs0. clear Hs0.
  unfold do_flash_write, emit, modify, incr_retry, ret.
  assert (Hfr : flashPos s0 = pos /\ pageSize s0 = page
                /\ readData s0 = readData s
                /\ bytesWritten s0 = bytesWritten s /\ flash s0 = flash s
                /\ retry s0 = retry s /\ state s0 = state s
                /\ haveDataInBuffer s0 = haveDataInBuffer s).
  { unfold s0. destruct (negb (retry s =? 0)); repeat split; reflexivity. }
  destruct Hfr as (E1 & E2 & E3 & E4 & E5 & E6 & E7 & E8).
  rewrite E1, E2, E3, E4, E5. fold src.
  assert (Hpre : log s0 = log s
                 \/ log s0 = log s ++ [EvMessage (MsgFlashWriteRetry (retry s))]).
  { unfold s0. destruct (negb (retry s =? 0)); [right | left]; reflexivity. }
  subst ok m'.
  destruct (flash_write env (flash s) pos src) as [ok m']. cbn [fst snd].
  destruct ok; cbn [negb andb].
  - (* the write reports success: the comparison follows *)
    cbn [flash set_flash set_log].
    destruct (bytes_eqb src (read_mem m' pos page)); cbn [negb].
    + (* same bytes *)
      match goal with
      | |- context [ShowProgress cfg ?t] => set (s3 := t)
      end.
      destruct (ShowProgress_frame s3)
        as (s4 & evs & Hsp & F1 & F2 & F3 & _ & _ & _ & _ & F4).
      destruct Hsp as [Hsp | Hsp]; rewrite Hsp.
      * destruct (block_done_frame s4)
          as (s5 & evs' & Hbd & G1 & G2 & G3 & _ & G4 & _).
        rewrite Hbd. exists s5, (log s0), (evs ++ evs').
        split; [reflexivity|]. split; [exact Hpre|].
        split.
        { rewrite G4, F4. unfold s3. cbn. rewrite <- !app_assoc.
          reflexivity. }
        rewrite G1, G2, G3, F1, F2, F3. unfold s3. cbn.
        rewrite E4. repeat split; reflexivity.
      * exists s4, (log s0), evs.
        split; [reflexivity|]. split; [exact Hpre|].
        split.
        { rewrite F4. unfold s3. cbn. rewrite <- !app_assoc. reflexivity. }
        rewrite F1, F2, F3. unfold s3. cbn.
        rewrite E4. repeat split; reflexivity.
    + (* the flash differs from the buffer *)
      eexists. exists (log s0), []. split; [reflexivity|].
      split; [exact Hpre|].
      split; [cbn; rewrite <- app_assoc; reflexivity|].
      split; [reflexivity|].
      cbn. rewrite E1, E4, E6, E7, E8. repeat split; reflexivity.
  - (* the write fails *)
    eexists. exists (log s0), []. split; [reflexivity|].
    split; [exact Hpre|].
    split; [reflexivity|].
    split; [reflexivity|].
    cbn. rewrite E1, E4, E6, E7, E8. repeat split; reflexivity.
Qed.

(** Where a page write leaves the state. *)

Lemma write_page_state (s s' : Globals) :
  final (write_page cfg env s) = Some s' ->
  state s' = state s
  \/ state s' = if IAP_VIA_SPI cfg then VerifyingChecksum else LockingFlash.
Proof.
  unfold write_page. rewrite bind_get, bind_when_MessageF.
  set (s0 := if negb (retry s =? 0)
             then formatted (MsgFlashWriteRetry (retry s)) s else s).
  destruct (formatted_frame (negb (retry s =? 0))
              (MsgFlashWriteRetry (retry s)) s) as (E1 & _).
  fold s0 in E1. rewrite <- E1.
  rewrite !bind_get.
  unfold bind at 1, do_flash_write at 1.
  destruct (flash_write env (flash s0) (flashPos s0)
              (slice (readData s0) (bytesWritten s0) (pageSize s0)))
    as [ok m'].
  destruct ok; cbn [negb].
  - rewrite bind_emit, bind_get.
    match goal with |- context [negb ?b] => destruct b end; cbn [negb].
    + rewrite bind_modify.
      match goal with
      | |- context [(ShowProgress cfg ;; _) ?t] => set (s3 := t)
      end.
      unfold bind.
      destruct (ShowProgress_frame s3)
        as (s4 & evs & Hsp & _ & _ & _ & _ & F5 & _).
      destruct Hsp as [Hsp | Hsp]; rewrite Hsp.
      * destruct (block_done_frame s4)
          as (s5 & evs' & Hbd & _ & _ & _ & _ & _ & G5).
        rewrite Hbd. cbn [final]. intros H. injection H as <-.
        rewrite F5 in G5. exact G5.
      * cbn [final]. intros H. injection H as <-. left. exact F5.
    + unfold incr_retry, modify. cbn [final]. intros H. injection H as <-.
      left. reflexivity.
  - unfold incr_retry, modify. cbn [final]. intros H. injection H as <-.
    left. reflexivity.
Qed.

(** What the comparison compares: the page in the flash and the page of
    the buffer hold the same bytes when they agree at every offset. *)

Lemma page_compare_spec (m : Mem) (buf : list Z) (pos off n : Z) :
  slice buf off n = read_mem m pos n
  <-> forall i, 0 <= i < n -> m (pos + i) = byte_at buf (off + i).
Proof.
  unfold slice, read_mem. rewrite map_ext_in_iff. split.
  - intros H i Hi.
    specialize (H (Z.to_nat i)). rewrite Z2Nat.id in H by lia.
    symmetry. apply H. apply in_seq. lia.
  - intros H k Hk. apply in_seq in Hk. symmetry. apply H. lia.
Qed.

(** C1, as the code has it.  In [WritingUpgrade] a pass of [writeBinary]
    reaches the flash only through the page write, straight away when a
    block is buffered and after a successful [ReadBlock] otherwise.  For the
    page write, wherever it starts, with [same] saying that each of the
    [pageSize] bytes the flash holds at the cursor after the write is the
    byte of the buffer at the write offset:
    - a write the flash reports failed ends the pass at once, no comparison
      made: cursor and write offset where they were, retry counter one
      higher;
    - a write the flash reports done is followed at once by the comparison;
      when a byte differs the pass ends with cursor and write offset where
      they were and the retry counter one higher;
    - when it is done and every byte is the same, the cursor and the write
      offset move on by exactly one page and the retry counter is
      cleared. *)

Theorem WritingUpgrade_write_then_verify (s : Globals) :
  state s = WritingUpgrade ->
  retry s <= maxRetries cfg ->
  writeBinary cfg env s
  = (if haveDataInBuffer s
     then write_page cfg env
     else ok <- ReadBlock cfg env ;;
          if negb ok then ret tt
          else modify (fun s1 =>
                 set_bytesWritten 0
                   (set_retry 0 (set_haveDataInBuffer true s1))) ;;
               write_page cfg env) s
  /\ forall s0,
      let pos := flashPos s0 in
      let page := pageSize s0 in
      let src := slice (readData s0) (bytesWritten s0) page in
      let ok := fst (flash_write env (flash s0) pos src) in
      let m' := snd (flash_write env (flash s0) pos src) in
      let same := forall i, 0 <= i < page ->
                    m' (pos + i)
                    = byte_at (readData s0) (bytesWritten s0 + i) in
      exists s' pre,
        final (write_page cfg env s0) = Some s'
        /\ (pre = log s0
            \/ pre = log s0 ++ [EvMessage (MsgFlashWriteRetry (retry s0))])
        /\ (ok = false ->
            write_page cfg env s0 = Ret tt s'
            /\ log s' = pre ++ [EvFlashWrite pos src]
            /\ flashPos s' = pos
            /\ bytesWritten s' = bytesWritten s0
            /\ retry s' = u32 (retry s0 + 1)
            /\ state s' = state s0
            /\ haveDataInBuffer s' = haveDataInBuffer s0)
        /\ (ok = true -> ~ same ->
            write_page cfg env s0 = Ret tt s'
            /\ log s' = pre ++ [EvFlashWrite pos src; EvFlashVerify pos page]
            /\ flashPos s' = pos
            /\ bytesWritten s' = bytesWritten s0
            /\ retry s' = u32 (retry s0 + 1)
            /\ state s' = state s0
            /\ haveDataInBuffer s' = haveDataInBuffer s0)
        /\ (ok = true -> same ->
            (exists post,
               log s' = pre ++ EvFlashWrite pos src
                            :: EvFlashVerify pos page :: post)
            /\ flashPos s' = u32 (pos + page)
            /\ bytesWritten s' = u32 (bytesWritten s0 + page)
            /\ retry s' = 0).
Proof.
  intros Hst Hre. split.
  - unfold writeBinary. rewrite Hst.
    destruct (Z.gtb_spec (retry s) (maxRetries cfg)) as [Hgt|_]; [lia|].
    unfold case_WritingUpgrade, bind at 1, get.
    destruct (haveDataInBuffer s); reflexivity.
  - intros s0 pos page src ok m' same.
    destruct (write_page_facts s0) as (s' & pre & post & Hfin & Hpre & Hlog & H).
    fold pos page src ok m' in Hlog, H.
    assert (Hsame : bytes_eqb src (read_mem m' pos page) = true <-> same).
    { rewrite bytes_eqb_eq. apply page_compare_spec. }
    exists s', pre. split; [exact Hfin|]. split; [exact Hpre|].
    split; [|split].
    + intros Hok. rewrite Hok in Hlog, H. cbn [andb] in H.
      destruct H as (H1 & H2 & H3 & H4 & H5 & H6 & _).
      repeat split; assumption.
    + intros Hok Hdiff. rewrite Hok in Hlog, H. cbn [andb] in H.
      destruct (bytes_eqb src (read_mem m' pos page)) eqn:Hcmp.
      { exfalso. apply Hdiff, Hsame. reflexivity. }
      destruct H as (H1 & H2 & H3 & H4 & H5 & H6 & Hpost).
      rewrite Hpost in Hlog.
      repeat split; assumption.
    + intros Hok Hall. rewrite Hok in Hlog, H. cbn [andb] in H.
      apply Hsame in Hall. rewrite Hall in H.
      destruct H as (H1 & H2 & H3).
      split; [exists post; exact Hlog|].
      repeat split; assumption.
Qed.

End WritePage.

(** ** [ErasingFlash]: erase only what is not erased, and check *)

Section Erasing.

Variable cfg : Config.
Variable env : Env.

(** [IsSectorErased] reads the sector word by word: it holds exactly when
    every byte of the sector is 0xFF. *)

Lemma word_is_erased_spec (m : Mem) (p : Z) :
  word_is_erased m p = true <-> forall a, p <= a < p + 4 -> m a = 0xFF.
Proof.
  unfold word_is_erased. rewrite !andb_true_iff, !Z.eqb_eq. split.
  - intros [[[H0 H1] H2] H3] a Ha.
    assert (Hcase : a = p \/ a = p + 1 \/ a = p + 2 \/ a = p + 3) by lia.
    destruct Hcase as [E|[E|[E|E]]]; rewrite E; assumption.
  - intros H. repeat split; apply H; lia.
Qed.

Lemma IsSectorErased_loop_spec (m : Mem) (lim : Z) (fuel : nat) :
  forall p,
    0 <= p -> lim + 4 <= 2 ^ 32 ->
    lim - p <= 4 * Z.of_nat fuel ->
    (lim - p) mod 4 = 0 ->
    (IsSectorErased_loop fuel m p lim = true
     <-> forall a, p <= a < lim -> m a = 0xFF).
Proof.
  induction fuel as [|fuel IH]; intros p Hp Hlim Hfuel Hmod;
    cbn [IsSectorErased_loop]; destruct (Z.ltb_spec p lim) as [Hlt|Hge].
  - lia.
  - split; [intros _ a Ha; lia | reflexivity].
  - assert (Hfour : 4 <= lim - p).
    { apply Z.mod_divide in Hmod; [|lia]. destruct Hmod as [q Hq]. lia. }
    rewrite u32_small by lia.
    destruct (word_is_erased m p) eqn:Hw.
    + rewrite IH; try lia.
      * pose proof (proj1 (word_is_erased_spec m p) Hw) as Hbytes. split.
        -- intros H a Ha. destruct (Z.lt_ge_cases a (p + 4)).
           ++ apply Hbytes. lia.
           ++ apply H. lia.
        -- intros H a Ha. apply H. lia.
      * replace (lim - (p + 4)) with (lim - p + (-1) * 4) by lia.
        now rewrite Z.mod_add by lia.
    + split; [discriminate|]. intros H.
      assert (Hw' : word_is_erased m p = true).
      { apply (proj2 (word_is_erased_spec m p)). intros a Ha. apply H. lia. }
      congruence.
  - split; [intros _ a Ha; lia | reflexivity].
Qed.

(** [IsSectorErased] answers for the bytes: on a sector of a whole number
    of words that lies in the address space, it returns [true] exactly when
    every byte of the sector reads 0xFF. *)

Lemma IsSectorErased_spec (m : Mem) (addr sectorSize : Z) :
  0 <= addr -> 0 <= sectorSize -> sectorSize mod 4 = 0 ->
  addr + sectorSize + 4 <= 2 ^ 32 ->
  (IsSectorErased m addr sectorSize = true
   <-> forall a, addr <= a < addr + sectorSize -> m a = 0xFF).
Proof.
  intros Ha Hs Hmod Hlim. unfold IsSectorErased.
  rewrite u32_small by lia.
  apply IsSectorErased_loop_spec; try lia.
  - rewrite Z2Nat.id by (apply Z.div_pos; lia).
    pose proof (Z.div_mod (sectorSize + 3) 4 ltac:(lia)).
    pose proof (Z.mod_pos_bound (sectorSize + 3) 4 ltac:(lia)). lia.
  - now replace (addr + sectorSize - addr) with sectorSize by lia.
Qed.

(** One pass in [ErasingFlash], case by case. *)


(** C6.  A pass of [writeBinary] in [ErasingFlash], with the cursor inside
    the firmware region.  The erase primitive is called if and only if the
    sector at the cursor does not already read as erased: the trace gains no
    erase call otherwise, and the flash is left as it was.  The cursor moves
    on by the size of the sector, with the retry counter cleared, exactly
    when the sector was found erased or the erase reported success, and the
    sector, read again afterwards, is erased; at the end of the region the
    cursor then returns to the start and the state becomes
    [WritingUpgrade].  In every other case the retry counter is one higher
    and cursor and state are unchanged.  Either way the cursor is inside
    the region again whenever the state is still [ErasingFlash]. *)


End Erasing.

(** ** The SBC link: waiting for a block, and the checksum exchange *)

Section HostLink.

Variable cfg : Config.
Variable env : Env.

Hypothesis via_spi : IAP_VIA_SPI cfg = true.

Lemma ReadBlock_spi_pending (s : Globals) :
  transferPending s = true ->
  spi_done env = false ->
  ReadBlock cfg env s
  = if negb (flashPos s =? FirmwareFlashStart cfg)
       && (u32 (millis env 0 - transferStartTime s)
           >? TransferCompleteDelay cfg)
    then Ret true
           (set_readData
              (memset (readData s) 0 0xFF (blockReadSize cfg))
              (set_log (log s ++ [EvSpiDisable]) (set_bytesRead 0 s)))
    else if u32 (millis env 1 - transferStartTime s) >? TransferTimeout cfg
    then @Reset cfg env bool false (formatted MsgTimeoutResponse s)
    else Ret false s.
Proof.
  intros Hpend Hdone.
  unfold ReadBlock. rewrite via_spi.
  unfold ReadBlock_spi. rewrite Hpend.
  unfold bind at 1, is_spi_transfer_complete at 1. rewrite Hdone.
  destruct (negb (flashPos s =? FirmwareFlashStart cfg)
            && (u32 (millis env 0 - transferStartTime s)
                >? TransferCompleteDelay cfg)); [reflexivity|].
  destruct (u32 (millis env 1 - transferStartTime s) >? TransferTimeout cfg);
    reflexivity.
Qed.

(** C4, as the code has it.  [ReadBlock] of the SBC build never touches the
    retry counter, whichever way it goes, and it always ends:
    - no transfer pending: it arms one for a whole block and returns
      [false];
    - the pending transfer is complete: it returns [true] with
      [bytesRead = blockReadSize];
    - pending, not complete, the cursor past the start of the region and
      more than [TransferCompleteDelay] waited: that is taken as the end of
      the image, zero bytes read, the buffer filled with 0xFF, [true];
    - otherwise, more than [TransferTimeout] waited: a message and
      [Reset (false)], at once.  With the cursor still at the start of the
      region this is what every timeout comes to;
    - otherwise the block is simply not there yet: [false], nothing
      changed. *)

Theorem ReadBlock_spi_never_retries (s : Globals) :
  let waited0 := u32 (millis env 0 - transferStartTime s) in
  let waited1 := u32 (millis env 1 - transferStartTime s) in
  exists s',
    final (ReadBlock cfg env s) = Some s'
    /\ retry s' = retry s
    /\ if negb (transferPending s)
       then ReadBlock cfg env s = Ret false s'
            /\ transferPending s' = true
            /\ bytesToTransfer s' = blockReadSize cfg
            /\ log s'
               = log s
                 ++ [EvSpiSetup (blockReadSize cfg)
                                (slice (writeData s) 0 (blockReadSize cfg));
                     EvTfrReadyPin (negb (transferReadyHigh s))]
       else if spi_done env
       then ReadBlock cfg env s = Ret true s'
            /\ bytesRead s' = blockReadSize cfg
            /\ transferPending s' = false
            /\ readData s'
               = memcpy (readData s) 0
                        (firstn (Z.to_nat (bytesToTransfer s)) (spi_rx env))
            /\ log s' = log s
       else if negb (flashPos s =? FirmwareFlashStart cfg)
               && (waited0 >? TransferCompleteDelay cfg)
       then ReadBlock cfg env s = Ret true s'
            /\ bytesRead s' = 0
            /\ readData s' = memset (readData s) 0 0xFF (blockReadSize cfg)
            /\ log s' = log s ++ [EvSpiDisable]
       else if waited1 >? TransferTimeout cfg
       then ReadBlock cfg env s = Halt false s'
            /\ exists rest,
                 log s' = log s ++ EvMessage MsgTimeoutResponse :: rest
       else ReadBlock cfg env s = Ret false s' /\ s' = s.
Proof.
  intros waited0 waited1.
  destruct (transferPending s) eqn:Hpend; cbn [negb].
  - destruct (spi_done env) eqn:Hdone.
    + unfold ReadBlock. rewrite via_spi.
      unfold ReadBlock_spi. rewrite Hpend.
      unfold bind, is_spi_transfer_complete. rewrite Hdone.
      unfold modify, ret.
      eexists. split; [reflexivity|]. repeat split; reflexivity.
    + rewrite (ReadBlock_spi_pending s Hpend Hdone).
      fold waited0. fold waited1.
      destruct (negb (flashPos s =? FirmwareFlashStart cfg)
                && (waited0 >? TransferCompleteDelay cfg)).
      * eexists. split; [reflexivity|]. cbn. repeat split; reflexivity.
      * destruct (waited1 >? TransferTimeout cfg).
        -- destruct (@Reset_halts cfg env bool false
                       (formatted MsgTimeoutResponse s))
             as (s' & Hres & _ & _ & Hretry & _ & Hlog & _).
           rewrite Hres. exists s'. split; [reflexivity|].
           split; [exact Hretry|]. split; [reflexivity|].
           rewrite Hlog. cbn [log formatted set_log set_formatBuffer].
           rewrite <- app_assoc. eexists. reflexivity.
        -- exists s. repeat split; reflexivity.
  - unfold ReadBlock. rewrite via_spi.
    unfold ReadBlock_spi. rewrite Hpend.
    unfold bind, setup_spi, ret.
    eexists. split; [reflexivity|]. repeat split; reflexivity.
Qed.

Lemma ReadBlock_spi_state (s s' : Globals) :
  final (ReadBlock cfg env s) = Some s' -> state s' = state s.
Proof.
  unfold ReadBlock. rewrite via_spi. unfold ReadBlock_spi.
  destruct (transferPending s).
  - unfold bind at 1, is_spi_transfer_complete at 1.
    destruct (spi_done env).
    + cbn. intros H. injection H as <-. reflexivity.
    + destruct (negb (flashPos s =? FirmwareFlashStart cfg)
                && (u32 (millis env 0 - transferStartTime s)
                    >? TransferCompleteDelay cfg)).
      * cbn. intros H. injection H as <-. reflexivity.
      * destruct (u32 (millis env 1 - transferStartTime s)
                  >? TransferTimeout cfg).
        -- rewrite bind_MessageF.
           destruct (@Reset_halts cfg env bool false
                       (formatted MsgTimeoutResponse s))
             as (s1 & Hres & Hst & _).
           rewrite Hres. cbn [final]. intros H. injection H as <-.
           exact Hst.
        -- cbn. intros H. injection H as <-. reflexivity.
  - cbn. intros H. injection H as <-. reflexivity.
Qed.

(** C5.  [VerifyingChecksum], once the request has arrived in time: the
    CRC16 of the flash from the start of the region, over the length the
    request gives, is compared with the request's; the reply armed is the
    one byte 0x0C on a match and 0xFF otherwise, the state
    [SendingChecksumOK] or [SendingChecksumError], the retry counter zero.
    [SendingChecksumError], once that reply has gone in time: the cursor is
    back at the start of the region, the retry counter is zero and the state
    is [WritingUpgrade]; when the time is over instead, [Reset (false)].
    And from [WritingUpgrade] no pass leads to [LockingFlash]: the way
    there is a new checksum exchange after the image has been written
    again. *)

Theorem checksum_error_rewrites_image (s : Globals) :
  retry s <= maxRetries cfg ->
  (state s = VerifyingChecksum ->
   timed_out cfg env s = false ->
   spi_done env = true ->
   let request :=
     memcpy (readData s) 0
            (firstn (Z.to_nat (bytesToTransfer s)) (spi_rx env)) in
   let crc16 :=
     CRC16 (fun i => flash s (FirmwareFlashStart cfg + i))
           (request_firmwareLength request) in
   let same := request_crc16 request =? crc16 in
   exists s' pre,
     writeBinary cfg env s = Ret tt s'
     /\ state s' = (if same then SendingChecksumOK else SendingChecksumError)
     /\ retry s' = 0
     /\ flashPos s' = flashPos s
     /\ log s' = pre ++ [EvSpiSetup 1 [if same then 0x0C else 0xFF];
                         EvTfrReadyPin (negb (transferReadyHigh s))])
  /\ (state s = SendingChecksumError ->
      timed_out cfg env s = false ->
      spi_done env = true ->
      exists s',
        writeBinary cfg env s = Ret tt s'
        /\ flashPos s' = FirmwareFlashStart cfg
        /\ retry s' = 0
        /\ state s' = WritingUpgrade)
  /\ (state s = SendingChecksumError ->
      timed_out cfg env s = true ->
      exists s' rest,
        writeBinary cfg env s = Halt false s'
        /\ log s' = log s ++ EvMessage MsgTimeoutCrcError :: rest)
  /\ (state s = WritingUpgrade ->
      forall s', final (writeBinary cfg env s) = Some s' ->
                 state s' = WritingUpgrade \/ state s' = VerifyingChecksum).
Proof.
  intros Hre.
  assert (Hgt : (retry s >? maxRetries cfg) = false).
  { destruct (Z.gtb_spec (retry s) (maxRetries cfg)); [lia | reflexivity]. }
  split; [|split; [|split]].
  - intros Hst Hto Hdone request crc16 same.
    unfold writeBinary. rewrite Hgt, Hst, via_spi.
    unfold case_VerifyingChecksum.
    rewrite bind_get, Hto.
    unfold bind at 1, is_spi_transfer_complete at 1. rewrite Hdone.
    unfold when. rewrite bind_get.
    cbn [readData set_readData set_transferPending]. fold request.
    rewrite bind_get.
    cbn [flash set_readData set_transferPending]. fold crc16. fold same.
    destruct same.
    + eexists. eexists. split; [reflexivity|].
      repeat split; reflexivity.
    + eexists. exists (log s ++ [EvMessage MsgCrcMismatch]).
      split; [reflexivity|]. repeat split; reflexivity.
  - intros Hst Hto Hdone.
    unfold writeBinary. rewrite Hgt, Hst, via_spi.
    unfold case_SendingChecksumError.
    rewrite bind_get, Hto.
    unfold bind at 1, is_spi_transfer_complete at 1. rewrite Hdone.
    eexists. split; [reflexivity|]. cbn. repeat split; reflexivity.
  - intros Hst Hto.
    unfold writeBinary. rewrite Hgt, Hst, via_spi.
    unfold case_SendingChecksumError.
    rewrite bind_get, Hto, bind_MessageF.
    destruct (@Reset_halts cfg env unit false
                (formatted MsgTimeoutCrcError s))
      as (s' & Hres & _ & _ & _ & _ & Hlog & _).
    rewrite Hres. exists s'. eexists. split; [reflexivity|].
    rewrite Hlog. cbn [log formatted set_log set_formatBuffer].
    rewrite <- app_assoc. reflexivity.
  - intros Hst s'.
    unfold writeBinary. rewrite Hgt, Hst.
    unfold case_WritingUpgrade. rewrite bind_get.
    rewrite <- Hst.
    destruct (haveDataInBuffer s); cbn [negb].
    + intros H. apply write_page_state in H. now rewrite via_spi in H.
    + unfold bind at 1.
      destruct (ReadBlock cfg env s) as [ok s1|b s1|s1|] eqn:Hread;
        cbn [final]; try discriminate;
        pose proof (ReadBlock_spi_state s s1) as Hs1;
        rewrite Hread in Hs1; specialize (Hs1 eq_refl).
      * destruct ok; cbn [negb].
        -- rewrite bind_modify. intros H. apply write_page_state in H.
           rewrite via_spi in H. cbn [state set_bytesWritten set_retry
             set_haveDataInBuffer] in H. now rewrite Hs1 in H.
        -- cbn [ret final]. intros H. injection H as <-. now left.
      * intros H. injection H as <-. now left.
      * intros H. injection H as <-. now left.
Qed.

End HostLink.

(** ** A file of no bytes *)

Section ZeroSize.

Variable cfg : Config.
Variable env : Env.

Lemma slice_length (buf : list Z) (off n : Z) :
  List.length (slice buf off n) = Z.to_nat n.
Proof. unfold slice. now rewrite length_map, length_seq. Qed.

Lemma read_mem_store_bytes (m : Mem) (a n : Z) (d : list Z) :
  List.length d = Z.to_nat n ->
  read_mem (store_bytes m a d) a n = d.
Proof.
  intros Hlen. unfold read_mem. rewrite <- Hlen.
  apply (nth_ext _ _ 0 0).
  - now rewrite length_map, length_seq.
  - intros i Hi. rewrite length_map, length_seq in Hi.
    set (f := fun i => store_bytes m a d (a + Z.of_nat i)).
    rewrite (nth_indep _ 0 (f 0%nat))
      by (rewrite length_map, length_seq; exact Hi).
    rewrite map_nth, seq_nth by exact Hi. cbn [Nat.add]. unfold f.
    unfold store_bytes.
    replace (a + Z.of_nat i - a) with (Z.of_nat i) by lia.
    rewrite Nat2Z.id.
    destruct (Z.leb_spec a (a + Z.of_nat i)); [|lia].
    destruct (Z.ltb_spec (a + Z.of_nat i) (a + Z.of_nat (List.length d)));
      [reflexivity | lia].
Qed.

(** With a flash that stores what it is given, and nothing to divide by,
    the page write ends in the division. *)

Lemma write_page_divides (s : Globals) :
  totalSize cfg s = 0 ->
  (forall m a d, flash_write env m a d = (true, store_bytes m a d)) ->
  exists s', write_page cfg env s = Fault s'.
Proof.
  intros Htot Hhw.
  unfold write_page. rewrite bind_get, bind_when_MessageF.
  set (s0 := if negb (retry s =? 0)
             then formatted (MsgFlashWriteRetry (retry s)) s else s).
  assert (Htot0 : totalSize cfg s0 = 0).
  { unfold s0. destruct (negb (retry s =? 0)); exact Htot. }
  rewrite !bind_get.
  unfold bind at 1, do_flash_write at 1. rewrite Hhw. cbn [negb].
  rewrite bind_emit, bind_get.
  cbn [flash set_flash set_log].
  rewrite read_mem_store_bytes by apply slice_length.
  assert (Heq : forall l, bytes_eqb l l = true)
    by (intros l; unfold bytes_eqb; destruct (list_eq_dec Z.eq_dec l l);
        [reflexivity | contradiction]).
  rewrite Heq. cbn [negb]. rewrite bind_modify.
  unfold bind, ShowProgress.
  match goal with
  | |- context [totalSize cfg ?t =? 0] =>
      change (totalSize cfg t) with (totalSize cfg s0)
  end.
  rewrite Htot0. cbn [Z.eqb]. eexists. reflexivity.
Qed.

(** C10.  [ShowProgress] has no defined result exactly when the size it
    divides by is zero.  A file of zero bytes passes [openBinary], which
    only refuses a file that is too big, and leaves that size at zero; the
    first pass of [WritingUpgrade] that reads the (empty) block and whose
    page write and comparison succeed then reaches the division by zero. *)

Theorem ShowProgress_divides_by_zero :
  (forall s, ShowProgress cfg s = Fault s <-> totalSize cfg s = 0)
  /\ (forall s data,
        IAP_VIA_SPI cfg = false ->
        f_stat env = Some 0 ->
        f_open env = Some data ->
        exists s',
          openBinary cfg env s = Ret tt s'
          /\ firmwareFileSize s' = 0
          /\ totalSize cfg s' = 0)
  /\ (forall s,
        IAP_VIA_SPI cfg = false ->
        state s = WritingUpgrade ->
        retry s <= maxRetries cfg ->
        firmwareFileSize s = 0 ->
        flashPos s = FirmwareFlashStart cfg ->
        f_lseek env 0 = true ->
        f_read env 0 = true ->
        (forall m a d, flash_write env m a d = (true, store_bytes m a d)) ->
        exists s', writeBinary cfg env s = Fault s').
Proof.
  split; [|split].
  - intros s. rewrite ShowProgress_unfold. split.
    + destruct (Z.eqb_spec (totalSize cfg s) 0); [auto|].
      destruct (percentDone cfg s >=? reportNextPercent s); discriminate.
    + intros ->. reflexivity.
  - intros s data Hfile Hstat Hopen.
    unfold openBinary. rewrite bind_get, Hstat, bind_ret, bind_get.
    assert (Hcap : forall b v, ((0 >? (if b : bool then u32 (v * 2) else u32 v))
                                = false)).
    { intros b v. destruct b;
        [pose proof (u32_range (v * 2)) | pose proof (u32_range v)];
        destruct (Z.gtb_spec 0 (u32 (v * 2)));
        destruct (Z.gtb_spec 0 (u32 v)); try reflexivity; lia. }
    cbv zeta.
    replace (if isUf2File s
             then u32 (u32 (FirmwareFlashEnd cfg - FirmwareFlashStart cfg) * 2)
             else u32 (FirmwareFlashEnd cfg - FirmwareFlashStart cfg))
      with (if isUf2File s
            then u32 (u32 (FirmwareFlashEnd cfg - FirmwareFlashStart cfg) * 2)
            else u32 (u32 (FirmwareFlashEnd cfg - FirmwareFlashStart cfg)))
      by (destruct (isUf2File s); [reflexivity|];
          apply u32_small, u32_range).
    rewrite Hcap. unfold when. rewrite bind_ret, bind_modify, Hopen.
    eexists. split; [reflexivity|].
    cbn. unfold totalSize. rewrite Hfile. cbn.
    split; [reflexivity|]. now destruct (isUf2File s).
  - intros s Hfile Hst Hre Hsize Hpos Hseek Hread Hhw.
    assert (Htot : totalSize cfg s = 0).
    { unfold totalSize. rewrite Hfile, Hsize. now destruct (isUf2File s). }
    unfold writeBinary. rewrite Hst.
    destruct (Z.gtb_spec (retry s) (maxRetries cfg)) as [Hgt|_]; [lia|].
    unfold case_WritingUpgrade. rewrite bind_get.
    destruct (haveDataInBuffer s); cbn [negb].
    + now apply write_page_divides.
    + unfold ReadBlock. rewrite Hfile.
      unfold ReadBlock_file.
      rewrite bind_assoc, bind_get, bind_assoc, bind_when_MessageF.
      set (s0 := if negb (retry s =? 0)
                 then formatted (MsgReadFileRetry (retry s)) s else s).
      assert (Hs0 : isUf2File s0 = isUf2File s
                    /\ firmwareFileSize s0 = 0
                    /\ flashPos s0 = FirmwareFlashStart cfg).
      { unfold s0. destruct (negb (retry s =? 0)); cbn;
          repeat split; assumption. }
      destruct Hs0 as (Hu & Hf & Hp).
      rewrite bind_assoc, bind_get.
      destruct (isUf2File s0) eqn:Huf2.
      * (* structured layout: the end of the file is met at once *)
        unfold bind at 1, ReadBlockUf2 at 1.
        rewrite Hp, Z.sub_diag. change (u32 (0 * 2)) with 0.
        rewrite Hseek. cbn [negb].
        destruct (Z.to_nat (blockReadSize cfg / 256)) as [|fuel];
          cbn [ReadBlockUf2_loop];
          cbn [bytesRead set_bytesRead seek_to set_upgradeBinary
               firmwareFileSize];
          change (u32 (0 + 0 * 2)) with 0; rewrite Hf; cbn [Z.eqb negb];
          rewrite bind_modify; apply write_page_divides; try exact Hhw;
          unfold totalSize; rewrite Hfile; cbn;
          rewrite Hf, Huf2; reflexivity.
      * (* raw layout *)
        unfold bind at 1.
        rewrite Hp, Z.sub_diag. change (u32 0) with 0.
        rewrite Hseek, Hread. cbn [negb].
        match goal with
        | |- context [if ?c then Ret true ?a else Ret true ?b] =>
            destruct c
        end; cbn [negb]; rewrite bind_modify; apply write_page_divides;
          try exact Hhw; unfold totalSize; rewrite Hfile; cbn;
          rewrite Hf, Huf2; reflexivity.
Qed.

End ZeroSize.

(** ** The file source: how a read ends *)

Section FileSource.

Variable cfg : Config.
Variable env : Env.

Lemma ReadBlockUf2_loop_outcome (fuel : nat) :
  forall k seekPos s,
    read_outcome s (ReadBlockUf2_loop cfg env fuel k seekPos s).
Proof.
  assert (Hbody : forall (rec : nat -> Z -> M bool) k seekPos s,
            (forall k' s2, read_outcome s2 (rec k' seekPos s2)) ->
            read_outcome s
              (if u32 (seekPos + bytesRead s * 2) =? firmwareFileSize s
               then Ret true
                      (set_readData
                         (memset (readData s) (bytesRead s) 0xFF
                                 (blockReadSize cfg - bytesRead s)) s)
               else if negb (f_read env k)
               then (incr_retry ;; ret false) s
               else
                 let uf2Buffer := file_bytes sizeof_UF2_Block s in
                 let locBytesRead := Z.of_nat (List.length uf2Buffer) in
                 let s1 := advance locBytesRead s in
                 if negb (locBytesRead =? sizeof_UF2_Block)
                 then (incr_retry ;; ret false) s1
                 else if negb (magicStart0 uf2Buffer =? MagicStart0Val)
                         || negb (magicStart1 uf2Buffer =? MagicStart1Val)
                         || negb (magicEnd uf2Buffer =? MagicEndVal)
                 then (MessageF (MsgBadUf2Block
                                   (u32 (seekPos + bytesRead s1))) ;;
                       Reset cfg env false) s1
                 else if negb (targetAddr uf2Buffer
                               =? u32 (flashPos s1 + bytesRead s1))
                         || negb (payloadSize uf2Buffer =? 256)
                 then (MessageF (MsgUnexpectedUf2Data
                                   (u32 (seekPos + bytesRead s1))) ;;
                       Reset cfg env false) s1
                 else
                   let s2 :=
                     set_bytesRead (u32 (bytesRead s1 + 256))
                       (set_readData
                          (memcpy (readData s1) (bytesRead s1)
                                  (uf2_data uf2Buffer)) s1) in
                   if bytesRead s2 <? blockReadSize cfg
                   then rec (S k) seekPos s2
                   else Ret true s2)).
  { intros rec k seekPos s Hrec.
    destruct (u32 (seekPos + bytesRead s * 2) =? firmwareFileSize s).
    { cbn. repeat split; reflexivity. }
    destruct (negb (f_read env k)).
    { cbn. repeat split; reflexivity. }
    cbv zeta.
    destruct (negb (Z.of_nat (List.length (file_bytes sizeof_UF2_Block s))
                    =? sizeof_UF2_Block)).
    { cbn. repeat split; reflexivity. }
    match goal with |- context [if ?c then (MessageF _ ;; _) _ else _] =>
      destruct c end.
    { rewrite bind_MessageF.
      match goal with |- context [Reset cfg env false ?t] =>
        destruct (@Reset_halts cfg env bool false t)
          as (s' & Hres & Hst & Hfp & Hre & _ & Hlog & _)
      end.
      rewrite Hres. cbn [read_outcome].
      split; [reflexivity|]. split; [exact Hre|]. split; [exact Hst|].
      split; [exact Hfp|].
      eexists. eexists. eexists. left. rewrite Hlog.
      cbn [log formatted set_log set_formatBuffer].
      rewrite <- app_assoc. reflexivity. }
    match goal with |- context [if ?c then (MessageF _ ;; _) _ else _] =>
      destruct c end.
    { rewrite bind_MessageF.
      match goal with |- context [Reset cfg env false ?t] =>
        destruct (@Reset_halts cfg env bool false t)
          as (s' & Hres & Hst & Hfp & Hre & _ & Hlog & _)
      end.
      rewrite Hres. cbn [read_outcome].
      split; [reflexivity|]. split; [exact Hre|]. split; [exact Hst|].
      split; [exact Hfp|].
      eexists. eexists. eexists. right. rewrite Hlog.
      cbn [log formatted set_log set_formatBuffer].
      rewrite <- app_assoc. reflexivity. }
    match goal with |- context [if ?c then rec _ _ ?t else _] =>
      destruct c; [pose proof (Hrec (S k) t) as H;
                   destruct (rec (S k) seekPos t) as [[|] s'|b s'|s'|];
                   cbn [read_outcome] in *; exact H
                  | cbn; repeat split; reflexivity]
    end. }
  induction fuel as [|fuel IH]; intros k seekPos s.
  - apply (Hbody (fun _ _ _ => OutOfFuel)). intros; exact I.
  - apply (Hbody (ReadBlockUf2_loop cfg env fuel)). intros k' s2. apply IH.
Qed.

Lemma ReadBlock_file_outcome (s : Globals) :
  read_outcome s (ReadBlock_file cfg env s).
Proof.
  unfold ReadBlock_file.
  rewrite bind_get, bind_when_MessageF.
  set (s0 := if negb (retry s =? 0)
             then formatted (MsgReadFileRetry (retry s)) s else s).
  destruct (formatted_frame (negb (retry s =? 0))
              (MsgReadFileRetry (retry s)) s)
    as (E1 & E2 & E3 & E4 & _).
  fold s0 in E1, E2, E3, E4.
  rewrite bind_get.
  assert (Hgoal : forall r, read_outcome s0 r -> read_outcome s r).
  { intros r. unfold read_outcome. rewrite E1, E2, E3, E4. exact id. }
  apply Hgoal.
  destruct (isUf2File s0).
  - unfold ReadBlockUf2.
    destruct (negb (f_lseek env
                (u32 ((flashPos s0 - FirmwareFlashStart cfg) * 2)))).
    + cbn. repeat split; reflexivity.
    + match goal with
      | |- read_outcome _ (ReadBlockUf2_loop _ _ ?f ?k ?p ?t) =>
          pose proof (ReadBlockUf2_loop_outcome f k p t) as H;
          destruct (ReadBlockUf2_loop cfg env f k p t)
            as [[|] s'|b s'|s'|]; cbn [read_outcome] in *; exact H
      end.
  - destruct (negb (f_lseek env (u32 (flashPos s0 - FirmwareFlashStart cfg)))).
    + cbn. repeat split; reflexivity.
    + destruct (negb (f_read env 0)).
      * cbn. repeat split; reflexivity.
      * cbv zeta.
        match goal with |- context [if ?c then Ret true _ else _] =>
          destruct c end; cbn; repeat split; reflexivity.
Qed.

End FileSource.

(** ** The file source: what a block of valid records decodes to *)

Section Uf2Decoding.

Variable cfg : Config.
Variable env : Env.

Hypothesis reads_ok : forall k, f_read env k = true.

Lemma memcpy_at_end (done rest data : list Z) :
  memcpy (done ++ rest) (Z.of_nat (List.length done)) data
  = done ++ data ++ skipn (List.length data) rest.
Proof.
  unfold memcpy. rewrite Nat2Z.id.
  rewrite firstn_app, firstn_all, Nat.sub_diag, firstn_O, app_nil_r.
  rewrite skipn_app, skipn_all2 by lia.
  replace (List.length done + List.length data - List.length done)%nat
    with (List.length data) by lia.
  reflexivity.
Qed.

Lemma ReadBlockUf2_loop_decodes (tail : list Z) (seekPos : Z) (recs : list (list Z)) :
  forall fuel (j k : nat) (s : Globals) (done rest : list Z),
    recs <> [] ->
    (List.length recs <= fuel + 1)%nat ->
    bytesRead s = 256 * Z.of_nat j ->
    blockReadSize cfg = 256 * Z.of_nat (j + List.length recs) ->
    blockReadSize cfg < 2 ^ 32 ->
    0 <= fptr (upgradeBinary s) ->
    skipn (Z.to_nat (fptr (upgradeBinary s))) (fdata (upgradeBinary s))
    = List.concat recs ++ tail ->
    (forall i rec, nth_error recs i = Some rec ->
                   valid_record (flashPos s) (j + i) rec) ->
    (forall i, (i < List.length recs)%nat ->
               u32 (seekPos + 256 * Z.of_nat (j + i) * 2)
               <> firmwareFileSize s) ->
    readData s = done ++ rest ->
    List.length done = (256 * j)%nat ->
    List.length rest = (256 * List.length recs)%nat ->
    exists s',
      ReadBlockUf2_loop cfg env fuel k seekPos s = Ret true s'
      /\ readData s' = done ++ List.concat (map uf2_data recs)
      /\ bytesRead s' = blockReadSize cfg
      /\ retry s' = retry s.
Proof.
  induction recs as [|r rs IH];
    intros fuel j k s done rest Hne Hfuel Hbytes Hblock Hcap Hptr Hfile
           Hvalid Heof Hbuf Hdone Hrest; [contradiction|].
  destruct (Hvalid 0%nat r eq_refl) as (Hlen & Hm0 & Hm1 & Hme & Hta & Hps).
  assert (Hbody :
    ReadBlockUf2_loop cfg env fuel k seekPos s
    = let s2 :=
        set_bytesRead (u32 (bytesRead s + 256))
          (set_readData (memcpy (readData s) (bytesRead s) (uf2_data r))
             (advance 512 s)) in
      if bytesRead s2 <? blockReadSize cfg
      then match fuel with
           | O => OutOfFuel
           | S fuel' => ReadBlockUf2_loop cfg env fuel' (S k) seekPos s2
           end
      else Ret true s2).
  { destruct fuel; cbn [ReadBlockUf2_loop];
      (destruct (Z.eqb_spec (u32 (seekPos + bytesRead s * 2))
                            (firmwareFileSize s)) as [E|_];
       [exfalso; apply (Heof 0%nat); [cbn; lia|];
        rewrite Hbytes in E; rewrite Nat.add_0_r; exact E|]);
      rewrite reads_ok; cbn [negb];
      assert (Hrec : file_bytes sizeof_UF2_Block s = r)
        by (unfold file_bytes, sizeof_UF2_Block; rewrite Hfile;
            cbn [List.concat]; rewrite <- app_assoc;
            change (Z.to_nat 512) with 512%nat; rewrite <- Hlen;
            rewrite firstn_app, firstn_all, Nat.sub_diag, firstn_O;
            apply app_nil_r);
      rewrite Hrec; cbv zeta; rewrite Hlen;
      change (Z.of_nat 512 =? sizeof_UF2_Block) with true; cbn [negb];
      rewrite Hm0, Hm1, Hme, !Z.eqb_refl; cbn [negb orb];
      simpl_globals; rewrite Hta, Hbytes, Nat.add_0_r, Hps, !Z.eqb_refl;
      cbn [negb orb]; reflexivity. }
  rewrite Hbody. cbv zeta. simpl_globals.
  assert (Hj : 256 * Z.of_nat j + 256 <= blockReadSize cfg)
    by (rewrite Hblock; cbn [List.length]; lia).
  rewrite Hbytes, u32_small by lia.
  assert (Hcopy : memcpy (readData s) (256 * Z.of_nat j) (uf2_data r)
                  = (done ++ uf2_data r) ++ skipn 256 rest).
  { rewrite Hbuf.
    replace (256 * Z.of_nat j) with (Z.of_nat (List.length done))
      by (rewrite Hdone; lia).
    rewrite memcpy_at_end. unfold uf2_data at 2. rewrite slice_length.
    change (Z.to_nat 256) with 256%nat. now rewrite <- app_assoc. }
  rewrite Hcopy.
  destruct rs as [|r' rs'].
  - (* the last record of the block *)
    cbn [List.length] in Hblock.
    destruct (Z.ltb_spec (256 * Z.of_nat j + 256) (blockReadSize cfg));
      [lia|].
    eexists. split; [reflexivity|]. simpl_globals.
    cbn [List.length] in Hrest.
    rewrite skipn_all2 by lia. cbn [map List.concat].
    rewrite !app_nil_r. repeat split; try reflexivity. lia.
  - destruct (Z.ltb_spec (256 * Z.of_nat j + 256) (blockReadSize cfg));
      [|cbn [List.length] in Hblock; lia].
    destruct fuel as [|fuel]; [cbn [List.length] in Hfuel; lia|].
    match goal with
    | |- context [ReadBlockUf2_loop cfg env fuel (S k) seekPos ?t] =>
        set (s2 := t)
    end.
    destruct (IH fuel (S j) (S k) s2 (done ++ uf2_data r) (skipn 256 rest))
      as (s' & Hrun & Hdata & Hread & Hretry).
    + discriminate.
    + cbn [List.length] in *. lia.
    + unfold s2. simpl_globals. lia.
    + rewrite Hblock. f_equal. cbn [List.length]. lia.
    + exact Hcap.
    + unfold s2, advance. simpl_globals. cbn [fptr fdata]. lia.
    + unfold s2, advance. simpl_globals. cbn [fptr fdata].
      rewrite Z2Nat.inj_add by lia.
      change (Z.to_nat 512) with 512%nat.
      rewrite Nat.add_comm, <- skipn_skipn, Hfile.
      cbn [List.concat]. rewrite <- app_assoc, <- Hlen.
      rewrite skipn_app, skipn_all, Nat.sub_diag, skipn_O. reflexivity.
    + intros i rec Hi. unfold s2, advance. simpl_globals.
      replace (S j + i)%nat with (j + S i)%nat by lia.
      apply Hvalid. exact Hi.
    + intros i Hi. unfold s2, advance. simpl_globals.
      replace (S j + i)%nat with (j + S i)%nat by lia.
      apply Heof. cbn [List.length] in *. lia.
    + unfold s2, advance. simpl_globals. reflexivity.
    + rewrite length_app. unfold uf2_data. rewrite slice_length, Hdone.
      change (Z.to_nat 256) with 256%nat. lia.
    + rewrite length_skipn, Hrest. cbn [List.length]. lia.
    + exists s'. split; [exact Hrun|]. split.
      * rewrite Hdata. cbn [map List.concat]. now rewrite <- app_assoc.
      * split; [exact Hread|]. rewrite Hretry. unfold s2, advance.
        reflexivity.
Qed.

(** A block of valid UF2 records: when the file holds, from the seek
    position on, records whose magic numbers are right, whose target
    addresses follow the cursor in steps of 256 and whose payload size is
    256, and the end of the file is not met inside the block, [ReadBlockUf2]
    returns [true] with [readData] holding exactly the payloads of the
    records, in order, [bytesRead] the block size, and the retry counter
    untouched. *)

Theorem ReadBlockUf2_decodes (s : Globals) (recs : list (list Z))
    (tail : list Z) :
  let seekPos := u32 ((flashPos s - FirmwareFlashStart cfg) * 2) in
  f_lseek env seekPos = true ->
  recs <> [] ->
  blockReadSize cfg = 256 * Z.of_nat (List.length recs) ->
  blockReadSize cfg < 2 ^ 32 ->
  skipn (Z.to_nat seekPos) (fdata (upgradeBinary s))
  = List.concat recs ++ tail ->
  (forall i rec, nth_error recs i = Some rec ->
                 valid_record (flashPos s) i rec) ->
  (forall i, (i < List.length recs)%nat ->
             u32 (seekPos + 256 * Z.of_nat i * 2) <> firmwareFileSize s) ->
  List.length (readData s) = Z.to_nat (blockReadSize cfg) ->
  exists s',
    ReadBlockUf2 cfg env s = Ret true s'
    /\ readData s' = List.concat (map uf2_data recs)
    /\ bytesRead s' = blockReadSize cfg
    /\ retry s' = retry s.
Proof.
  intros seekPos Hseek Hne Hblock Hcap Hfile Hvalid Heof Hbuf.
  assert (Hpos : 0 <= seekPos) by (apply u32_range).
  assert (Hin : seekPos <= Z.of_nat (List.length (fdata (upgradeBinary s)))).
  { destruct recs as [|r rs]; [contradiction|].
    destruct (Hvalid 0%nat r eq_refl) as (Hlen & _).
    apply (f_equal (@List.length Z)) in Hfile.
    rewrite length_skipn in Hfile. cbn [List.concat] in Hfile.
    rewrite !length_app, Hlen in Hfile. lia. }
  unfold ReadBlockUf2. fold seekPos. cbv zeta. fold seekPos.
  rewrite Hseek. cbn [negb].
  destruct (ReadBlockUf2_loop_decodes tail seekPos recs
              (Z.to_nat (blockReadSize cfg / 256)) 0 0
              (set_bytesRead 0 (seek_to seekPos s)) [] (readData s))
    as (s' & Hrun & Hdata & Hread & Hretry).
  - exact Hne.
  - rewrite Hblock, Z.mul_comm, Z.div_mul, Nat2Z.id by lia. lia.
  - reflexivity.
  - exact Hblock.
  - exact Hcap.
  - unfold seek_to. simpl_globals. cbn [fptr]. lia.
  - unfold seek_to. simpl_globals. cbn [fptr fdata].
    rewrite Z.min_l by lia. exact Hfile.
  - intros i rec Hi. unfold seek_to. simpl_globals. now apply Hvalid.
  - intros i Hi. unfold seek_to. simpl_globals. now apply Heof.
  - reflexivity.
  - reflexivity.
  - rewrite Hbuf, Hblock. lia.
  - exists s'. split; [exact Hrun|]. split; [exact Hdata|].
    split; [exact Hread|]. exact Hretry.
Qed.

End Uf2Decoding.

(** ** The retry counter over a pass *)

Section RetryCounter.

Variable cfg : Config.
Variable env : Env.

Ltac leaf :=
  cbn; intros Hleaf; injection Hleaf as <-; cbn; auto.

Lemma case_UnlockingFlash_retry (s s' : Globals) :
  final (case_UnlockingFlash cfg env s) = Some s' -> retry_step s s'.
Proof.
  unfold retry_step, case_UnlockingFlash, bind, do_flash_unlock, get, modify,
    emit, ret, when, incr_retry, MessageF.
  split_ifs; leaf.
Qed.

Lemma case_ErasingFlash_retry (s s' : Globals) :
  final (case_ErasingFlash cfg env s) = Some s' -> retry_step s s'.
Proof.
  unfold retry_step, case_ErasingFlash.
  rewrite bind_get, bind_when_MessageF.
  set (s0 := if negb (retry s =? 0)
             then formatted (MsgEraseRetry (retry s)) s else s).
  destruct (formatted_frame (negb (retry s =? 0))
              (MsgEraseRetry (retry s)) s) as (_ & _ & _ & E4 & _).
  fold s0 in E4. rewrite <- E4. clearbody s0.
  unfold erased_or_erase, bind, do_flash_erase, get, modify,
    emit, ret, when, incr_retry, MessageF.
  split_ifs; leaf.
Qed.

Lemma ReadBlock_spi_frame (s : Globals) :
  match ReadBlock_spi cfg env s with
  | Ret _ s' => retry s' = retry s /\ state s' = state s
  | Halt b s' => b = false /\ retry s' = retry s /\ state s' = state s
  | Fault _ => False
  | OutOfFuel => False
  end.
Proof.
  unfold ReadBlock_spi.
  destruct (transferPending s); [|cbn; auto].
  unfold bind at 1, is_spi_transfer_complete at 1.
  destruct (spi_done env); [cbn; auto|].
  destruct (negb (flashPos s =? FirmwareFlashStart cfg)
            && (u32 (millis env 0 - transferStartTime s)
                >? TransferCompleteDelay cfg)); [cbn; auto|].
  destruct (u32 (millis env 1 - transferStartTime s) >? TransferTimeout cfg);
    [|cbn; auto].
  rewrite bind_MessageF.
  destruct (@Reset_halts cfg env bool false (formatted MsgTimeoutResponse s))
    as (s1 & Hres & Hst & _ & Hre & _).
  rewrite Hres. auto.
Qed.

Lemma write_page_retry (s s' : Globals) :
  final (write_page cfg env s) = Some s' ->
  retry s' = 0 \/ retry s' = u32 (retry s + 1).
Proof.
  intros H.
  destruct (write_page_facts cfg env s) as (s1 & pre & post & Hf & _ & _ & Hc).
  rewrite H in Hf. injection Hf as <-.
  match type of Hc with (if ?c then _ else _) => destruct c end.
  - left. tauto.
  - right. tauto.
Qed.

Lemma case_WritingUpgrade_retry (s s' : Globals) :
  final (case_WritingUpgrade cfg env s) = Some s' -> retry_step s s'.
Proof.
  unfold case_WritingUpgrade. rewrite bind_get.
  destruct (haveDataInBuffer s); cbn [negb].
  - intros H. apply write_page_retry in H. unfold retry_step. tauto.
  - unfold bind at 1, ReadBlock.
    destruct (IAP_VIA_SPI cfg).
    + pose proof (ReadBlock_spi_frame s) as Hr.
      destruct (ReadBlock_spi cfg env s) as [[|] s1|b s1|s1|];
        try contradiction.
      * cbn [negb]. rewrite bind_modify. intros H.
        apply write_page_retry in H. unfold retry_step.
        cbn [retry set_bytesWritten set_retry] in H.
        change (u32 (0 + 1)) with 1 in H. tauto.
      * cbn. intros H. injection H as <-. unfold retry_step. tauto.
      * cbn. intros H. injection H as <-. unfold retry_step. tauto.
    + pose proof (ReadBlock_file_outcome cfg env s) as Hr.
      destruct (ReadBlock_file cfg env s) as [[|] s1|b s1|s1|];
        cbn [read_outcome] in Hr; try contradiction.
      * cbn [negb]. rewrite bind_modify. intros H.
        apply write_page_retry in H. unfold retry_step.
        cbn [retry set_bytesWritten set_retry] in H.
        change (u32 (0 + 1)) with 1 in H. tauto.
      * cbn. intros H. injection H as <-. unfold retry_step. tauto.
      * cbn. intros H. injection H as <-. unfold retry_step. tauto.
      * cbn. discriminate.
Qed.

Lemma checksum_cases_retry (s s' : Globals) :
  (final (case_VerifyingChecksum cfg env s) = Some s' -> retry_step s s')
  /\ (final (case_SendingChecksumOK cfg env s) = Some s' -> retry_step s s')
  /\ (final (case_SendingChecksumError cfg env s) = Some s' ->
      retry_step s s').
Proof.
  unfold retry_step, case_VerifyingChecksum, case_SendingChecksumOK,
    case_SendingChecksumError.
  rewrite !bind_get.
  destruct (timed_out cfg env s).
  - rewrite !bind_MessageF.
    destruct (@Reset_halts cfg env unit false (formatted MsgTimeoutChecksum s))
      as (s1 & Hres1 & _ & _ & Hre1 & _).
    destruct (@Reset_halts cfg env unit false (formatted MsgTimeoutCrcError s))
      as (s2 & Hres2 & _ & _ & Hre2 & _).
    rewrite Hres1, Hres2. repeat split; leaf.
  - unfold bind, is_spi_transfer_complete, when, get, modify, ret, MessageF,
      setup_spi.
    destruct (spi_done env); repeat split; split_ifs; leaf.
Qed.

Lemma bind_do_flash_lock {B : Type} (a b : Z) (k : bool -> M B)
    (s : Globals) :
  (ok <- do_flash_lock env a b ;; k ok) s
  = k (flash_lock env a b) (set_log (log s ++ [EvFlashLock a b]) s).
Proof. reflexivity. Qed.

Lemma case_LockingFlash_retry (s s' : Globals) :
  final (case_LockingFlash cfg env s) = Some s' -> retry_step s s'.
Proof.
  unfold retry_step, case_LockingFlash.
  destruct (is_same5x (chip cfg)).
  - rewrite bind_do_flash_lock.
    destruct (flash_lock env _ _).
    + rewrite bind_MessageF.
      match goal with |- context [Reset cfg env true ?t] =>
        destruct (@Reset_halts cfg env unit true t)
          as (s1 & Hres & _ & _ & Hre & _)
      end.
      rewrite Hres. leaf.
    + unfold incr_retry, modify. leaf.
  - rewrite !bind_get, bind_do_flash_lock.
    destruct (flash_lock env _ _).
    + rewrite bind_modify, bind_get. unfold when.
      cbn [flashPos set_flashPos set_log].
      destruct (u32 (flashPos s + pageSize s) >=? FirmwareFlashEnd cfg).
      * unfold bind at 1. rewrite bind_MessageF.
        match goal with |- context [Reset cfg env true ?t] =>
          destruct (@Reset_halts cfg env unit true t)
            as (s1 & Hres & _ & _ & Hre & _)
        end.
        rewrite Hres. leaf.
      * unfold bind, ret, modify. leaf.
    + unfold incr_retry, modify. leaf.
Qed.

Lemma writeBinary_retry_step (s s' : Globals) :
  retry s <= maxRetries cfg ->
  final (writeBinary cfg env s) = Some s' -> retry_step s s'.
Proof.
  intros Hre. unfold writeBinary.
  destruct (Z.gtb_spec (retry s) (maxRetries cfg)) as [Hgt|_]; [lia|].
  destruct (checksum_cases_retry s s') as (Hv & Hok & Herr).
  destruct (state s).
  - rewrite bind_MessageF, bind_modify. intros H.
    apply case_UnlockingFlash_retry in H. exact H.
  - apply case_UnlockingFlash_retry.
  - destruct (has_erase_state (chip cfg)).
    + apply case_ErasingFlash_retry.
    + cbn. intros H. injection H as <-. left. reflexivity.
  - apply case_WritingUpgrade_retry.
  - destruct (IAP_VIA_SPI cfg); [exact Hv|].
    cbn. intros H. injection H as <-. left. reflexivity.
  - destruct (IAP_VIA_SPI cfg); [exact Hok|].
    cbn. intros H. injection H as <-. left. reflexivity.
  - destruct (IAP_VIA_SPI cfg); [exact Herr|].
    cbn. intros H. injection H as <-. left. reflexivity.
  - apply case_LockingFlash_retry.
Qed.

(** The retry counter over the passes of [writeBinary].  A pass that starts
    with the counter above [maxRetries] does nothing but report the state
    and [maxRetries] and call [Reset (false)]; any other pass leaves the
    counter unchanged, clears it, or raises it by one (or clears it for a
    fetched block and raises it for its failed page write).  So a counter
    that starts within [0, maxRetries + 1] stays there, and the value
    [maxRetries + 1] is only ever met by the test that aborts. *)

Theorem writeBinary_retry_bounded (s : Globals) :
  0 <= retry s <= maxRetries cfg + 1 ->
  maxRetries cfg + 1 < 2 ^ 32 ->
  (maxRetries cfg < retry s ->
   exists s' rest,
     writeBinary cfg env s = Halt false s'
     /\ log s'
        = log s
          ++ EvMessage (MsgOperationFailed (state_index (state s))
                                           (maxRetries cfg)) :: rest)
  /\ (forall s', final (writeBinary cfg env s) = Some s' ->
                 0 <= retry s' <= maxRetries cfg + 1).
Proof.
  intros Hre Hmax.
  assert (Habort : maxRetries cfg < retry s ->
            exists s' rest,
              writeBinary cfg env s = Halt false s'
              /\ retry s' = retry s
              /\ log s'
                 = log s
                   ++ EvMessage (MsgOperationFailed (state_index (state s))
                                                    (maxRetries cfg)) :: rest).
  { intros Hgt. unfold writeBinary.
    destruct (Z.gtb_spec (retry s) (maxRetries cfg)) as [_|]; [|lia].
    rewrite bind_MessageF.
    match goal with |- context [Reset cfg env false ?t] =>
      destruct (@Reset_halts cfg env unit false t)
        as (s1 & Hres & _ & _ & Hr1 & _ & Hlog & _)
    end.
    rewrite Hres. exists s1. eexists. split; [reflexivity|].
    split; [exact Hr1|]. rewrite Hlog.
    cbn [log formatted set_log set_formatBuffer].
    rewrite <- app_assoc. reflexivity. }
  split.
  - intros Hgt. destruct (Habort Hgt) as (s' & rest & H & _ & Hl).
    now exists s', rest.
  - intros s' Hfin.
    destruct (Z.lt_ge_cases (maxRetries cfg) (retry s)) as [Hgt|Hle].
    + destruct (Habort Hgt) as (s1 & rest & H & Hr & _).
      rewrite H in Hfin. injection Hfin as <-. lia.
    + apply writeBinary_retry_step in Hfin; [|exact Hle].
      destruct Hfin as [H|[H|[H|H]]]; rewrite H; try lia.
      rewrite u32_small; lia.
Qed.

End RetryCounter.

(** ** The lock phase of the chips that lock page by page *)

Section Locking.

Variable cfg : Config.
Variable env : Env.

(** A pass in [LockingFlash] on a chip other than SAME5x locks the page at
    the cursor, wherever the phase before has left it: the cursor is not
    taken back to [FirmwareFlashStart].  A lock that succeeds moves the
    cursor up by one page, and the pass ends in [Reset (true)] exactly when
    the new cursor has reached [FirmwareFlashEnd]; a lock that fails raises
    the retry counter and leaves the cursor. *)

Theorem LockingFlash_locks_at_cursor (s : Globals) :
  is_same5x (chip cfg) = false ->
  state s = LockingFlash ->
  retry s <= maxRetries cfg ->
  let pos := flashPos s in
  let last := u32 (pos + pageSize s - 1) in
  let next := u32 (pos + pageSize s) in
  exists s' post,
    log s' = log s ++ EvFlashLock pos last :: post
    /\ if flash_lock env pos last
       then flashPos s' = next
            /\ if next >=? FirmwareFlashEnd cfg
               then writeBinary cfg env s = Halt true s'
                    /\ hd_error post
                       = Some (EvMessage MsgUpdateSuccessful)
               else writeBinary cfg env s = Ret tt s'
                    /\ retry s' = 0 /\ state s' = LockingFlash
                    /\ post = []
       else writeBinary cfg env s = Ret tt s'
            /\ flashPos s' = pos
            /\ retry s' = u32 (retry s + 1)
            /\ state s' = LockingFlash
            /\ post = [].
Proof.
  intros Hchip Hstate Hretry pos last next.
  unfold writeBinary.
  destruct (Z.gtb_spec (retry s) (maxRetries cfg)) as [Hgt|_]; [lia|].
  rewrite Hstate. unfold case_LockingFlash. rewrite Hchip.
  rewrite !bind_get, bind_do_flash_lock.
  fold pos. fold last.
  destruct (flash_lock env pos last).
  - rewrite bind_modify, bind_get. simpl_globals. fold next.
    destruct (next >=? FirmwareFlashEnd cfg).
    + unfold when, bind at 1. rewrite bind_MessageF.
      match goal with
      | |- context [Reset cfg env true ?t] =>
          destruct (@Reset_halts cfg env unit true t)
            as (s' & Hrun & _ & Hpos & _ & _ & Hlog & _)
      end.
      rewrite Hrun. exists s'. eexists.
      split; [|split; [|split; [reflexivity|]]].
      * rewrite Hlog. cbn [negb andb app formatted]. simpl_globals.
        rewrite <- !app_assoc. cbn [app]. reflexivity.
      * rewrite Hpos. reflexivity.
      * reflexivity.
    + unfold when. rewrite bind_ret. unfold modify.
      eexists. exists []. simpl_globals.
      repeat split; try reflexivity. exact Hstate.
  - unfold incr_retry, modify.
    eexists. exists []. simpl_globals.
    repeat split; try reflexivity. exact Hstate.
Qed.

End Locking.

(** ** Every pass ends *)

Section Totality.

Variable cfg : Config.
Variable env : Env.

Hypothesis block_size :
  0 <= blockReadSize cfg /\ blockReadSize cfg + 256 < 2 ^ 32.

Lemma Reset_ends {A : Type} (b : bool) (s : Globals) :
  exists s', final (@Reset cfg env A b s) = Some s'.
Proof.
  destruct (@Reset_halts cfg env A b s) as (s' & H & _).
  rewrite H. now exists s'.
Qed.

(** The do-while loop of [ReadBlockUf2] makes one turn per 256 bytes of the
    block: the fuel [ReadBlockUf2] hands over is enough. *)

Lemma ReadBlockUf2_loop_ends (fuel : nat) :
  forall k seekPos s,
    0 <= bytesRead s <= blockReadSize cfg ->
    blockReadSize cfg - bytesRead s <= 256 * (Z.of_nat fuel + 1) ->
    exists s', final (ReadBlockUf2_loop cfg env fuel k seekPos s) = Some s'.
Proof.
  induction fuel as [|fuel IH]; intros k seekPos s Hb Hfuel;
    cbn [ReadBlockUf2_loop];
    (destruct (u32 (seekPos + bytesRead s * 2) =? firmwareFileSize s);
     [eexists; reflexivity|]);
    (destruct (negb (f_read env k)); [eexists; reflexivity|]);
    cbv zeta;
    (destruct (negb (Z.of_nat (List.length (file_bytes sizeof_UF2_Block s))
                     =? sizeof_UF2_Block)); [eexists; reflexivity|]);
    (match goal with |- context [if ?c then (MessageF _ ;; _) _ else _] =>
       destruct c end; [rewrite bind_MessageF; apply Reset_ends|]);
    (match goal with |- context [if ?c then (MessageF _ ;; _) _ else _] =>
       destruct c end; [rewrite bind_MessageF; apply Reset_ends|]);
    cbn [bytesRead set_bytesRead set_readData advance set_upgradeBinary];
    rewrite u32_small by lia;
    destruct (Z.ltb_spec (bytesRead s + 256) (blockReadSize cfg));
    try (eexists; reflexivity).
  - lia.
  - apply IH; cbn [bytesRead set_bytesRead set_readData advance
                   set_upgradeBinary]; rewrite ?u32_small by lia; lia.
Qed.

Lemma ReadBlock_ends (s : Globals) :
  exists s', final (ReadBlock cfg env s) = Some s'.
Proof.
  unfold ReadBlock. destruct (IAP_VIA_SPI cfg).
  - pose proof (ReadBlock_spi_frame cfg env s) as H.
    destruct (ReadBlock_spi cfg env s) as [a s'|b s'|s'|];
      try contradiction; now exists s'.
  - unfold ReadBlock_file.
    rewrite bind_get, bind_when_MessageF, bind_get.
    match goal with |- context [isUf2File ?t] => set (s0 := t) end.
    destruct (isUf2File s0).
    + unfold ReadBlockUf2.
      destruct (negb (f_lseek env _)); [eexists; reflexivity|].
      apply ReadBlockUf2_loop_ends; cbn [bytesRead set_bytesRead]; [lia|].
      rewrite Z2Nat.id by (apply Z.div_pos; lia).
      pose proof (Z.div_mod (blockReadSize cfg) 256 ltac:(lia)).
      pose proof (Z.mod_pos_bound (blockReadSize cfg) 256 ltac:(lia)). lia.
    + split_ifs; eexists; reflexivity.
Qed.

Lemma write_page_ends (s : Globals) :
  exists s', final (write_page cfg env s) = Some s'.
Proof.
  destruct (write_page_facts cfg env s) as (s' & _ & _ & H & _).
  now exists s'.
Qed.

(** Every pass of [writeBinary] ends: it returns, or it has called [Reset],
    or it has met the division by zero of [ShowProgress]. *)

Theorem writeBinary_ends (s : Globals) :
  exists s', final (writeBinary cfg env s) = Some s'.
Proof.
  unfold writeBinary.
  destruct (retry s >? maxRetries cfg).
  { rewrite bind_MessageF. apply Reset_ends. }
  destruct (state s).
  - rewrite bind_MessageF, bind_modify.
    unfold case_UnlockingFlash, bind, do_flash_unlock, get, modify,
      emit, ret, when, incr_retry, MessageF.
    split_ifs; eexists; reflexivity.
  - unfold case_UnlockingFlash, bind, do_flash_unlock, get, modify,
      emit, ret, when, incr_retry, MessageF.
    split_ifs; eexists; reflexivity.
  - unfold case_ErasingFlash, erased_or_erase, bind, do_flash_erase, get,
      modify, emit, ret, when, incr_retry, MessageF.
    split_ifs; eexists; reflexivity.
  - unfold case_WritingUpgrade. rewrite bind_get.
    destruct (haveDataInBuffer s); cbn [negb]; [apply write_page_ends|].
    unfold bind at 1.
    destruct (ReadBlock_ends s) as (s1 & H1).
    destruct (ReadBlock cfg env s) as [[|] s2|b s2|s2|]; cbn [negb];
      try (eexists; reflexivity); [|discriminate].
    rewrite bind_modify. apply write_page_ends.
  - destruct (IAP_VIA_SPI cfg); [|eexists; reflexivity].
    unfold case_VerifyingChecksum. rewrite bind_get.
    destruct (timed_out cfg env s).
    + rewrite bind_MessageF. apply Reset_ends.
    + unfold bind, is_spi_transfer_complete, when, get, modify, ret,
        MessageF, setup_spi.
      split_ifs; eexists; reflexivity.
  - destruct (IAP_VIA_SPI cfg); [|eexists; reflexivity].
    unfold case_SendingChecksumOK, bind, is_spi_transfer_complete, when, get,
      modify, ret, MessageF.
    split_ifs; eexists; reflexivity.
  - destruct (IAP_VIA_SPI cfg); [|eexists; reflexivity].
    unfold case_SendingChecksumError. rewrite bind_get.
    destruct (timed_out cfg env s).
    + rewrite bind_MessageF. apply Reset_ends.
    + unfold bind, is_spi_transfer_complete, when, get, modify, ret.
      split_ifs; eexists; reflexivity.
  - unfold case_LockingFlash.
    destruct (is_same5x (chip cfg)).
    + rewrite bind_do_flash_lock.
      destruct (flash_lock env _ _);
        [rewrite bind_MessageF; apply Reset_ends | eexists; reflexivity].
    + rewrite !bind_get, bind_do_flash_lock.
      destruct (flash_lock env _ _); [|eexists; reflexivity].
      rewrite bind_modify, bind_get. unfold when.
      destruct (_ >=? _).
      * unfold bind at 1. rewrite bind_MessageF.
        match goal with |- context [Reset cfg env true ?t] =>
          destruct (@Reset_halts cfg env unit true t) as (s1 & Hres & _)
        end.
        rewrite Hres. eexists; reflexivity.
      * eexists; reflexivity.
Qed.

End Totality.

(** ** Progress over a run of the file build *)

Section FileRun.

Variable cfg : Config.

Hypothesis from_file : IAP_VIA_SPI cfg = false.

Ltac quiet_now :=
  unfold quiet; simpl_globals; rewrite ?reported_app;
  cbn [reported flat_map progress_of app]; rewrite ?app_nil_r;
  repeat split; reflexivity.

Ltac quiet_leaf :=
  simpl_globals; intros Hleaf; injection Hleaf as <-; quiet_now.

Lemma quiet_refl (s : Globals) : quiet s s.
Proof. unfold quiet. repeat split; reflexivity. Qed.

Lemma quiet_trans (a b c : Globals) : quiet a b -> quiet b c -> quiet a c.
Proof.
  unfold quiet. intros (A1 & A2 & A3 & A4) (B1 & B2 & B3 & B4).
  repeat split; congruence.
Qed.

Lemma quiet_formatted (b : bool) (m : Message) (s : Globals) :
  progress_of (EvMessage m) = [] ->
  quiet s (if b then formatted m s else s).
Proof.
  intros Hm. destruct b; [|apply quiet_refl].
  unfold quiet. cbn [log formatted set_log set_formatBuffer
                     reportNextPercent isUf2File firmwareFileSize].
  rewrite reported_app. cbn [reported flat_map]. rewrite Hm.
  cbn [app]. rewrite app_nil_r. repeat split; reflexivity.
Qed.

Lemma Reset_quiet {A : Type} (env : Env) (b : bool) (s : Globals) :
  exists s',
    @Reset cfg env A b s = Halt b s'
    /\ quiet s s' /\ state s' = state s /\ flashPos s' = flashPos s.
Proof.
  clear from_file.
  unfold Reset, when, write_error_to_flash, do_flash_unlock, do_flash_write,
    emit, bind, modify, get, ret.
  destruct b; split_ifs; eexists; (split; [reflexivity|]);
    (split; [quiet_now | split; reflexivity]).
Qed.

Ltac via_Reset env :=
  rewrite bind_MessageF;
  match goal with
  | |- context [@Reset cfg env ?A ?b ?t] =>
      let s2 := fresh "s2" in
      let Hres := fresh "Hres" in
      let Hq := fresh "Hq" in
      let Hst := fresh "Hst" in
      let Hfp := fresh "Hfp" in
      destruct (@Reset_quiet A env b t) as (s2 & Hres & Hq & Hst & Hfp);
      rewrite Hres; cbn [final]; intros Hleaf; injection Hleaf as <-
  end.

Lemma case_UnlockingFlash_quiet (env : Env) (s s' : Globals) :
  final (case_UnlockingFlash cfg env s) = Some s' -> quiet s s'.
Proof.
  unfold case_UnlockingFlash, bind, do_flash_unlock, get, modify,
    emit, ret, when, incr_retry, MessageF.
  split_ifs; quiet_leaf.
Qed.

Lemma case_ErasingFlash_quiet (env : Env) (s s' : Globals) :
  final (case_ErasingFlash cfg env s) = Some s' -> quiet s s'.
Proof.
  clear from_file.
  unfold case_ErasingFlash, erased_or_erase, bind, do_flash_erase, get,
    modify, emit, ret, when, incr_retry, MessageF.
  split_ifs; quiet_leaf.
Qed.

Lemma case_LockingFlash_quiet (env : Env) (s s' : Globals) :
  final (case_LockingFlash cfg env s) = Some s' ->
  quiet s s' /\ state s' = state s.
Proof.
  unfold case_LockingFlash.
  destruct (is_same5x (chip cfg)).
  - rewrite bind_do_flash_lock.
    destruct (flash_lock env _ _).
    + via_Reset env. split; [|exact Hst].
      eapply quiet_trans; [|exact Hq]. quiet_now.
    + unfold incr_retry, modify. cbn. intros H. injection H as <-.
      split; [quiet_now | reflexivity].
  - rewrite !bind_get, bind_do_flash_lock.
    destruct (flash_lock env _ _).
    + rewrite bind_modify, bind_get. unfold when.
      destruct (_ >=? _).
      * unfold bind at 1. via_Reset env. split; [|exact Hst].
        eapply quiet_trans; [|exact Hq]. quiet_now.
      * cbn. intros H. injection H as <-. split; [quiet_now | reflexivity].
    + unfold incr_retry, modify. cbn. intros H. injection H as <-.
      split; [quiet_now | reflexivity].
Qed.

Lemma ReadBlockUf2_loop_quiet (env : Env) (fuel : nat) :
  forall k seekPos s s',
    final (ReadBlockUf2_loop cfg env fuel k seekPos s) = Some s' ->
    quiet s s'.
Proof.
  induction fuel as [|fuel IH]; intros k seekPos s s';
    cbn [ReadBlockUf2_loop];
    (destruct (u32 (seekPos + bytesRead s * 2) =? firmwareFileSize s);
     [quiet_leaf|]);
    (destruct (negb (f_read env k)); [quiet_leaf|]);
    cbv zeta;
    (destruct (negb (Z.of_nat (List.length (file_bytes sizeof_UF2_Block s))
                     =? sizeof_UF2_Block)); [quiet_leaf|]);
    (match goal with |- context [if ?c then (MessageF _ ;; _) _ else _] =>
       destruct c end;
     [via_Reset env; (eapply quiet_trans; [|exact Hq]); quiet_now|]);
    (match goal with |- context [if ?c then (MessageF _ ;; _) _ else _] =>
       destruct c end;
     [via_Reset env; (eapply quiet_trans; [|exact Hq]); quiet_now|]);
    match goal with |- context [if ?c then _ else Ret true _] =>
      destruct c end;
    try quiet_leaf.
  - cbn. discriminate.
  - intros H. apply IH in H. eapply quiet_trans; [|exact H]. quiet_now.
Qed.

Lemma ReadBlock_quiet (env : Env) (s s' : Globals) :
  final (ReadBlock cfg env s) = Some s' ->
  quiet s s' /\ state s' = state s /\ flashPos s' = flashPos s.
Proof.
  intros H.
  assert (Hq : quiet s s').
  { revert H. unfold ReadBlock. rewrite from_file. unfold ReadBlock_file.
    rewrite bind_get, bind_when_MessageF, bind_get.
    match goal with |- context [isUf2File ?t] => set (s0 := t) end.
    assert (Hq0 : quiet s s0) by (apply quiet_formatted; reflexivity).
    destruct (isUf2File s0).
    - unfold ReadBlockUf2.
      destruct (negb (f_lseek env _)).
      + cbn. intros H. injection H as <-.
        eapply quiet_trans; [exact Hq0|]. quiet_now.
      + intros H. apply ReadBlockUf2_loop_quiet in H.
        eapply quiet_trans; [exact Hq0|].
        eapply quiet_trans; [|exact H]. quiet_now.
    - clearbody s0. intros H. eapply quiet_trans; [exact Hq0|].
      revert H. split_ifs; quiet_leaf. }
  split; [exact Hq|].
  revert H. unfold ReadBlock. rewrite from_file.
  pose proof (ReadBlock_file_outcome cfg env s) as Ho.
  destruct (ReadBlock_file cfg env s) as [[|] s1|b s1|s1|];
    cbn [read_outcome final] in *; try contradiction; try discriminate;
    intros H; injection H as <-; tauto.
Qed.

Lemma block_done_quiet (env : Env) (s : Globals) :
  exists s',
    block_done cfg env s = Ret tt s'
    /\ quiet s s' /\ flashPos s' = flashPos s
    /\ (state s' = state s
        \/ state s'
           = if IAP_VIA_SPI cfg then VerifyingChecksum else LockingFlash).
Proof.
  clear from_file.
  unfold block_done, bind, get, when, modify, ret, setup_spi, closeBinary,
    emit.
  destruct (bytesWritten s =? blockReadSize cfg); simpl_globals.
  - destruct (bytesRead s <? blockReadSize cfg);
      [destruct (IAP_VIA_SPI cfg)|]; eexists;
      (split; [reflexivity|]); (split; [quiet_now|]);
      (split; [reflexivity|]); first [right; reflexivity | left; reflexivity].
  - exists s. split; [reflexivity|]. split; [apply quiet_refl|].
    split; [reflexivity | left; reflexivity].
Qed.

(** A page write, as the progress report sees it: either nothing is
    announced and the cursor stays, or the cursor moves on by a page and
    the percentage there is announced if it has reached the threshold. *)

Lemma write_page_progress (env : Env) (s s' : Globals) :
  no_overflow cfg s ->
  final (write_page cfg env s) = Some s' ->
  (quiet s s' /\ state s' = state s /\ flashPos s' = flashPos s)
  \/ (flashPos s' = flashPos s + pageSize s
      /\ (state s' = state s
          \/ state s'
             = if IAP_VIA_SPI cfg then VerifyingChecksum else LockingFlash)
      /\ isUf2File s' = isUf2File s
      /\ firmwareFileSize s' = firmwareFileSize s
      /\ let p := percent_at cfg (totalSize cfg s)
                             (flashPos s + pageSize s) in
         (p < reportNextPercent s
          /\ reported (log s') = reported (log s)
          /\ reportNextPercent s' = reportNextPercent s)
         \/ (reportNextPercent s <= p
             /\ reported (log s') = reported (log s) ++ [p]
             /\ reportNextPercent s' = u32 (reportNextPercent s + 20))).
Proof.
  intros (Hstart & Hpage & Hfit & Hcap & Htot).
  unfold write_page. rewrite bind_get, bind_when_MessageF.
  set (s0 := if negb (retry s =? 0)
             then formatted (MsgFlashWriteRetry (retry s)) s else s).
  assert (Hq0 : quiet s s0) by (apply quiet_formatted; reflexivity).
  destruct (formatted_frame (negb (retry s =? 0))
              (MsgFlashWriteRetry (retry s)) s)
    as (E1 & E2 & E3 & _).
  fold s0 in E1, E2, E3.
  assert (Htot0 : totalSize cfg s0 = totalSize cfg s).
  { unfold totalSize. destruct Hq0 as (_ & _ & -> & ->). reflexivity. }
  rewrite <- E1, <- E2, <- E3, <- Htot0.
  pose proof Hq0 as (Q1 & Q2 & Q3 & Q4).
  rewrite <- Q1, <- Q2, <- Q3, <- Q4.
  rewrite <- E3 in Hstart. rewrite <- E2 in Hpage.
  rewrite <- E2, <- E3 in Hfit. rewrite <- E2, <- E3 in Hcap.
  rewrite <- Htot0 in Htot.
  clearbody s0. clear E1 E2 E3 Htot0 Q1 Q2 Q3 Q4.
  rewrite !bind_get.
  unfold bind at 1, do_flash_write at 1.
  destruct (flash_write env (flash s0) (flashPos s0)
              (slice (readData s0) (bytesWritten s0) (pageSize s0)))
    as [ok m'].
  destruct ok; simpl_globals.
  - rewrite bind_emit, bind_get.
    match goal with |- context [negb ?b] => destruct b end; simpl_globals.
    + rewrite bind_modify.
      match goal with
      | |- context [(ShowProgress cfg ;; _) ?t] => set (s3 := t)
      end.
      unfold bind. rewrite ShowProgress_unfold.
      assert (Htot3 : totalSize cfg s3 = totalSize cfg s0) by reflexivity.
      assert (Hpct : percentDone cfg s3
                     = percent_at cfg (totalSize cfg s0)
                                  (flashPos s0 + pageSize s0)).
      { unfold percentDone, percent_at. rewrite Htot3.
        unfold s3. simpl_globals.
        rewrite (u32_small (flashPos s0 + pageSize s0)) by lia.
        rewrite u32_small by lia. reflexivity. }
      rewrite Htot3, Hpct.
      destruct (Z.eqb_spec (totalSize cfg s0) 0) as [E|_]; [lia|].
      change (reportNextPercent s3) with (reportNextPercent s0).
      set (p := percent_at cfg (totalSize cfg s0)
                           (flashPos s0 + pageSize s0)).
      destruct (Z.geb_spec p (reportNextPercent s0)) as [Hge|Hlt].
      * match goal with |- context [block_done cfg env ?t] =>
          destruct (block_done_quiet env t)
            as (s5 & Hbd & (B1 & B2 & B3 & B4) & Bf & Bs); rewrite Hbd
        end.
        simpl_globals. intros H. injection H as <-. right.
        rewrite Bf, B1, B2, B3, B4. unfold s3. simpl_globals.
        rewrite u32_small by lia.
        split; [reflexivity|]. split; [exact Bs|].
        split; [reflexivity|]. split; [reflexivity|].
        right. split; [lia|]. split; [|reflexivity].
        rewrite !reported_app. cbn [reported flat_map progress_of app].
        now rewrite !app_nil_r.
      * destruct (block_done_quiet env s3)
          as (s5 & Hbd & (B1 & B2 & B3 & B4) & Bf & Bs); rewrite Hbd.
        simpl_globals. intros H. injection H as <-. right.
        rewrite Bf, B1, B2, B3, B4. unfold s3. simpl_globals.
        rewrite u32_small by lia.
        split; [reflexivity|]. split; [exact Bs|].
        split; [reflexivity|]. split; [reflexivity|].
        left. split; [lia|]. split; [|reflexivity].
        rewrite !reported_app. cbn [reported flat_map progress_of app].
        now rewrite !app_nil_r.
    + intros H. injection H as <-. left.
      split; [|split; reflexivity].
      eapply quiet_trans; [exact Hq0|]. quiet_now.
  - intros H. injection H as <-. left.
    split; [|split; reflexivity].
    eapply quiet_trans; [exact Hq0|]. quiet_now.
Qed.

Lemma totalSize_quiet (s s' : Globals) :
  quiet s s' -> totalSize cfg s' = totalSize cfg s.
Proof.
  intros (_ & _ & Hu & Hf). unfold totalSize. now rewrite Hu, Hf.
Qed.

Lemma progress_inv_same (s s' : Globals) :
  progress_inv cfg s -> quiet s s' ->
  state s' = state s -> flashPos s' = flashPos s ->
  progress_inv cfg s'.
Proof.
  intros (I1 & I2 & I3 & I4 & I5) Hq Hst Hfp.
  pose proof (totalSize_quiet s s' Hq) as Ht.
  destruct Hq as (Q1 & Q2 & _).
  unfold progress_inv. rewrite Q1, Q2, Hst, Hfp, Ht.
  repeat split; assumption.
Qed.

Lemma progress_inv_early (s s' : Globals) :
  progress_inv cfg s -> quiet s s' ->
  state_index (state s) < state_index WritingUpgrade ->
  progress_inv cfg s'.
Proof.
  intros (I1 & I2 & I3 & I4 & I5) (Q1 & Q2 & _) Hst.
  specialize (I5 Hst).
  unfold progress_inv. rewrite Q1, Q2, I5 in *.
  repeat split; try assumption; try constructor; auto.
Qed.

Lemma progress_inv_late (s s' : Globals) :
  progress_inv cfg s -> quiet s s' ->
  state s' = LockingFlash ->
  progress_inv cfg s'.
Proof.
  intros (I1 & I2 & I3 & I4 & I5) (Q1 & Q2 & _) Hst.
  unfold progress_inv. rewrite Q1, Q2, Hst.
  repeat split; try assumption.
  - discriminate.
  - cbn. lia.
Qed.

Lemma StronglySorted_snoc (l : list Z) (p : Z) :
  StronglySorted Z.le l -> Forall (fun q => q <= p) l ->
  StronglySorted Z.le (l ++ [p]).
Proof.
  induction 1 as [|a l Hs IH Ha]; intros Hall; cbn.
  - repeat constructor.
  - inversion Hall as [|a' l' Hap Hlp]; subst.
    constructor; [now apply IH|].
    apply Forall_app. split; [exact Ha | now constructor].
Qed.

(** The page has been written: the cursor is one page further and the
    percentage there has been announced if it reached the threshold. *)

Lemma progress_inv_page (s s' : Globals) :
  progress_inv cfg s -> no_overflow cfg s ->
  state s = WritingUpgrade ->
  flashPos s' = flashPos s + pageSize s ->
  state s' = state s \/ state s' = LockingFlash ->
  isUf2File s' = isUf2File s ->
  firmwareFileSize s' = firmwareFileSize s ->
  (let p := percent_at cfg (totalSize cfg s) (flashPos s + pageSize s) in
   (p < reportNextPercent s
    /\ reported (log s') = reported (log s)
    /\ reportNextPercent s' = reportNextPercent s)
   \/ (reportNextPercent s <= p
       /\ reported (log s') = reported (log s) ++ [p]
       /\ reportNextPercent s' = u32 (reportNextPercent s + 20))) ->
  progress_inv cfg s'.
Proof.
  intros (I1 & I2 & I3 & I4 & I5) (Hstart & Hpage & Hfit & Hcap & Htot)
         Hst Hfp Hst' Hu Hf Hrep.
  specialize (I4 Hst).
  assert (Ht : totalSize cfg s' = totalSize cfg s)
    by (unfold totalSize; now rewrite Hu, Hf).
  set (p := percent_at cfg (totalSize cfg s) (flashPos s + pageSize s))
    in *.
  assert (Hmono : Forall (fun q => q <= p) (reported (log s))).
  { eapply Forall_impl; [|exact I4]. cbn. intros q Hq.
    etransitivity; [exact Hq|]. apply percent_at_mono; lia. }
  assert (Hidx : 3 <= state_index (state s')).
  { destruct Hst' as [-> | ->]; [rewrite Hst|]; cbn; lia. }
  cbv zeta in Hrep.
  destruct Hrep as [(Hlt & Hr & Hn) | (Hge & Hr & Hn)];
    unfold progress_inv; rewrite Hr, Hn, Hfp, Ht; fold p.
  - split; [exact I1|]. split; [exact I2|]. split; [exact I3|].
    split; [intros _; exact Hmono|].
    cbn in *. intros. lia.
  - assert (Hp : p <= 100 * (flashPos s + pageSize s - FirmwareFlashStart cfg)).
    { unfold p, percent_at.
      apply Z.div_le_upper_bound; [lia|].
      assert (0 <= 100 * (flashPos s + pageSize s - FirmwareFlashStart cfg))
        by lia.
      nia. }
    rewrite u32_small by lia.
    rewrite length_app. cbn [List.length].
    split; [now apply StronglySorted_snoc|].
    split; [lia|].
    split.
    { intros k q Hk.
      destruct (Nat.lt_ge_cases k (List.length (reported (log s))))
        as [Hlt|Hge'].
      - rewrite nth_error_app1 in Hk by exact Hlt. now apply I3.
      - rewrite nth_error_app2 in Hk by exact Hge'.
        destruct (k - List.length (reported (log s)))%nat as [|j] eqn:Hj;
          cbn in Hk.
        + injection Hk as <-.
          assert (k = List.length (reported (log s))) by lia. subst k. lia.
        + destruct j; discriminate. }
    split.
    { intros _. apply Forall_app. split; [exact Hmono|].
      constructor; [lia | constructor]. }
    cbn. intros. lia.
Qed.

(** One pass keeps what holds of the announced percentages. *)

Lemma writeBinary_progress_inv (env : Env) (s s' : Globals) :
  progress_inv cfg s -> no_overflow cfg s ->
  final (writeBinary cfg env s) = Some s' ->
  progress_inv cfg s'.
Proof.
  intros Hinv Hno. unfold writeBinary.
  destruct (retry s >? maxRetries cfg).
  { via_Reset env.
    apply (progress_inv_same s); try assumption.
    eapply quiet_trans; [|exact Hq]. quiet_now. }
  destruct (state s) eqn:Hst.
  - rewrite bind_MessageF, bind_modify. intros H.
    apply case_UnlockingFlash_quiet in H.
    apply (progress_inv_early s); [exact Hinv | | rewrite Hst; cbn; lia].
    eapply quiet_trans; [|exact H]. quiet_now.
  - intros H. apply case_UnlockingFlash_quiet in H.
    apply (progress_inv_early s); [exact Hinv | exact H
                                   | rewrite Hst; cbn; lia].
  - destruct (has_erase_state (chip cfg)).
    + intros H. apply case_ErasingFlash_quiet in H.
      apply (progress_inv_early s); [exact Hinv | exact H
                                     | rewrite Hst; cbn; lia].
    + cbn. intros H. injection H as <-. exact Hinv.
  - unfold case_WritingUpgrade. rewrite bind_get.
    destruct (haveDataInBuffer s); cbn [negb].
    + intros H. apply (write_page_progress env s s' Hno) in H.
      destruct H as [(Hq & Hs & Hf) | (Hf & Hs & Hu & Hz & Hrep)].
      * now apply (progress_inv_same s).
      * rewrite from_file in Hs. now apply (progress_inv_page s s').
    + unfold bind at 1.
      pose proof (ReadBlock_quiet env s) as Hrq.
      pose proof (ReadBlock_file_outcome cfg env s) as Hout.
      unfold ReadBlock in *. rewrite from_file in *.
      destruct (ReadBlock_file cfg env s) as [[|] s1|b s1|s1|];
        cbn [final read_outcome negb] in *; try discriminate.
      * destruct (Hrq s1 eq_refl) as (Hq1 & Hs1 & Hf1).
        destruct Hout as (_ & _ & _ & Hp1).
        rewrite bind_modify.
        match goal with |- context [write_page cfg env ?t] =>
          set (s2 := t) end.
        assert (Hq2 : quiet s s2)
          by (eapply quiet_trans; [exact Hq1|]; unfold s2; quiet_now).
        assert (Hinv2 : progress_inv cfg s2)
          by (apply (progress_inv_same s); try assumption;
              unfold s2; simpl_globals; assumption).
        assert (Hno2 : no_overflow cfg s2).
        { unfold no_overflow in *.
          rewrite (totalSize_quiet s s2 Hq2).
          unfold s2. simpl_globals. rewrite Hf1, Hp1. exact Hno. }
        intros H. apply (write_page_progress env s2 s' Hno2) in H.
        destruct H as [(Hq & Hs & Hf) | (Hf & Hs & Hu & Hz & Hrep)].
        -- now apply (progress_inv_same s2).
        -- rewrite from_file in Hs.
           apply (progress_inv_page s2 s'); try assumption.
           unfold s2. simpl_globals. now rewrite Hs1.
      * intros H. injection H as <-.
        destruct (Hrq s1 eq_refl) as (Hq1 & Hs1 & Hf1).
        now apply (progress_inv_same s).
      * intros H. injection H as <-.
        destruct (Hrq s1 eq_refl) as (Hq1 & Hs1 & Hf1).
        now apply (progress_inv_same s).
      * contradiction.
  - rewrite from_file. cbn. intros H. injection H as <-. exact Hinv.
  - rewrite from_file. cbn. intros H. injection H as <-. exact Hinv.
  - rewrite from_file. cbn. intros H. injection H as <-. exact Hinv.
  - intros H. apply case_LockingFlash_quiet in H. destruct H as (Hq & Hs).
    apply (progress_inv_late s); try assumption. now rewrite Hs.
Qed.

(** Over any run of the file build that starts before anything has been
    announced and in which the arithmetic stays within 32 bits, the
    percentages announced are in non-decreasing order and the [k]-th of
    them has reached the [k]-th threshold: no threshold is announced
    twice. *)

Lemma file_run_progress (envs : list Env) :
  forall s,
    progress_inv cfg s ->
    along cfg (no_overflow cfg) envs s ->
    forall s', final (run cfg envs s) = Some s' -> progress_inv cfg s'.
Proof.
  induction envs as [|env rest IH]; intros s Hinv Halong s'; cbn [run].
  - cbn. intros H. injection H as <-. exact Hinv.
  - destruct Halong as (Hno & Hrest).
    pose proof (writeBinary_progress_inv env s) as Hstep.
    destruct (writeBinary cfg env s) as [[] s1|b s1|s1|]; cbn [final] in *.
    + apply (IH s1); [now apply Hstep | exact Hrest].
    + intros H. injection H as <-. now apply Hstep.
    + intros H. injection H as <-. now apply Hstep.
    + discriminate.
Qed.

End FileRun.

(** ** Progress in step with the cursor, in either build *)

Section InStep.

Variable cfg : Config.

Ltac calm_now :=
  unfold quiet; simpl_globals; rewrite ?reported_app;
  cbn [reported flat_map progress_of app]; rewrite ?app_nil_r;
  repeat split; reflexivity.

Ltac leaf :=
  simpl_globals; intros Hleaf; injection Hleaf as <-; simpl_globals.

Lemma percent_at_start (total : Z) :
  percent_at cfg total (FirmwareFlashStart cfg) = 0.
Proof.
  unfold percent_at. rewrite Z.sub_diag, Z.mul_0_r. apply Zdiv_0_l.
Qed.

(** A page that is a fifth of the total or less raises the percentage by
    20 at most. *)

Lemma percent_at_page (total c page : Z) :
  0 < total -> 100 * page <= 20 * total ->
  percent_at cfg total (c + page) <= percent_at cfg total c + 20.
Proof.
  intros Ht Hp. unfold percent_at.
  rewrite <- Z.div_add by lia. apply Z.div_le_mono; lia.
Qed.

Lemma in_step_calm (s s' : Globals) :
  in_step cfg s -> calm cfg s s' -> in_step cfg s'.
Proof.
  intros (I1 & I2 & I3) (Hq & Hpos).
  pose proof (totalSize_quiet cfg s s' Hq) as Ht.
  destruct Hq as (Q1 & Q2 & _).
  unfold in_step. rewrite Q1, Q2, Ht.
  split; [exact I1|]. split; [exact I2|].
  intros Hw. destruct (Hpos Hw) as [-> | [Hw0 ->]].
  - rewrite percent_at_start. lia.
  - now apply I3.
Qed.

(** The page has been written and the cursor is one page further. *)

Lemma in_step_page (s s' : Globals) :
  in_step cfg s -> small_page cfg s ->
  state s = WritingUpgrade ->
  flashPos s' = flashPos s + pageSize s ->
  isUf2File s' = isUf2File s ->
  firmwareFileSize s' = firmwareFileSize s ->
  (let p := percent_at cfg (totalSize cfg s) (flashPos s + pageSize s) in
   (p < reportNextPercent s
    /\ reported (log s') = reported (log s)
    /\ reportNextPercent s' = reportNextPercent s)
   \/ (reportNextPercent s <= p
       /\ reported (log s') = reported (log s) ++ [p]
       /\ reportNextPercent s' = u32 (reportNextPercent s + 20))) ->
  in_step cfg s'.
Proof.
  intros (I1 & I2 & I3) ((Hstart & Hpage & Hfit & Hcap & Htot) & Hsmall)
         Hst Hfp Hu Hf Hrep.
  assert (Hbelow : percent_at cfg (totalSize cfg s) (flashPos s)
                   < reportNextPercent s)
    by (apply I3; rewrite Hst; reflexivity).
  assert (Ht : totalSize cfg s' = totalSize cfg s)
    by (unfold totalSize; now rewrite Hu, Hf).
  pose proof (percent_at_page (totalSize cfg s) (flashPos s) (pageSize s)
                Htot Hsmall) as Hrise.
  set (p := percent_at cfg (totalSize cfg s) (flashPos s + pageSize s))
    in *.
  cbv zeta in Hrep.
  destruct Hrep as [(Hlt & Hr & Hn) | (Hge & Hr & Hn)];
    unfold in_step; rewrite Hr, Hn, Hfp, Ht; fold p.
  - split; [exact I1|]. split; [exact I2|]. intros _. exact Hlt.
  - assert (Hp : p <= 100 * (flashPos s + pageSize s - FirmwareFlashStart cfg)).
    { unfold p, percent_at.
      apply Z.div_le_upper_bound; [lia|].
      assert (0 <= 100 * (flashPos s + pageSize s - FirmwareFlashStart cfg))
        by lia.
      nia. }
    rewrite u32_small by lia.
    rewrite length_app. cbn [List.length].
    split; [lia|].
    split; [|intros _; lia].
    intros k q Hk.
    destruct (Nat.lt_ge_cases k (List.length (reported (log s))))
      as [Hlt|Hge'].
    + rewrite nth_error_app1 in Hk by exact Hlt. now apply I2.
    + rewrite nth_error_app2 in Hk by exact Hge'.
      destruct (k - List.length (reported (log s)))%nat as [|j] eqn:Hj;
        cbn in Hk.
      * injection Hk as <-.
        assert (k = List.length (reported (log s))) by lia. subst k. lia.
      * destruct j; discriminate.
Qed.

(** The passes that write no page. *)

Lemma Reset_calm {A : Type} (env : Env) (b : bool) (s0 s s' : Globals) :
  quiet s0 s -> state s = state s0 -> flashPos s = flashPos s0 ->
  final (@Reset cfg env A b s) = Some s' -> calm cfg s0 s'.
Proof.
  intros Hq0 Hst0 Hfp0.
  destruct (@Reset_quiet cfg A env b s) as (t & Hres & Hq & Hst & Hfp).
  rewrite Hres. cbn [final]. intros H. injection H as <-.
  split; [eapply quiet_trans; eassumption|].
  intros Hw. right. rewrite Hst, Hst0 in Hw.
  split; [exact Hw | congruence].
Qed.

Lemma case_UnlockingFlash_calm (env : Env) (s s' : Globals) :
  in_write_phase (state s) = false ->
  final (case_UnlockingFlash cfg env s) = Some s' -> calm cfg s s'.
Proof.
  intros Hw H. split; [now apply (case_UnlockingFlash_quiet cfg env)|].
  revert H.
  unfold case_UnlockingFlash, bind, do_flash_unlock, get, modify,
    emit, ret, when, incr_retry, MessageF.
  split_ifs; leaf; cbn [in_write_phase]; rewrite ?Hw; intros Hw';
    first [discriminate Hw' | left; reflexivity].
Qed.

Lemma case_ErasingFlash_calm (env : Env) (s s' : Globals) :
  in_write_phase (state s) = false ->
  final (case_ErasingFlash cfg env s) = Some s' -> calm cfg s s'.
Proof.
  intros Hw H. split; [now apply (case_ErasingFlash_quiet cfg env)|].
  revert H.
  unfold case_ErasingFlash, erased_or_erase, bind, do_flash_erase, get,
    modify, emit, ret, when, incr_retry, MessageF.
  split_ifs; leaf; cbn [in_write_phase]; rewrite ?Hw; intros Hw';
    first [discriminate Hw' | left; reflexivity].
Qed.

Lemma case_LockingFlash_calm (env : Env) (s s' : Globals) :
  state s = LockingFlash ->
  final (case_LockingFlash cfg env s) = Some s' -> calm cfg s s'.
Proof.
  intros Hst H. apply case_LockingFlash_quiet in H as (Hq & Hs).
  split; [exact Hq|]. rewrite Hs, Hst. discriminate.
Qed.

(** The checksum exchange of the SBC build: the cursor stays, or goes back
    to the start of the region after a mismatch. *)

Lemma checksum_cases_calm (env : Env) (s s' : Globals) :
  in_write_phase (state s) = true ->
  (final (case_VerifyingChecksum cfg env s) = Some s' -> calm cfg s s')
  /\ (final (case_SendingChecksumOK cfg env s) = Some s' -> calm cfg s s')
  /\ (final (case_SendingChecksumError cfg env s) = Some s' ->
      calm cfg s s').
Proof.
  intros Hw.
  assert (Hend : forall t,
             quiet s t ->
             flashPos t = flashPos s \/ flashPos t = FirmwareFlashStart cfg ->
             calm cfg s t).
  { intros t Hq [Hfp | Hfp]; (split; [exact Hq|]); intros _;
      [right; split; assumption | left; exact Hfp]. }
  split; [|split].
  - unfold case_VerifyingChecksum. rewrite bind_get.
    destruct (timed_out cfg env s).
    + rewrite bind_MessageF. apply Reset_calm; try reflexivity. calm_now.
    + unfold bind, is_spi_transfer_complete, when, get, modify, ret,
        MessageF, setup_spi.
      destruct (spi_done env); split_ifs; leaf;
        (apply Hend; [calm_now | left; reflexivity]).
  - unfold case_SendingChecksumOK, bind, is_spi_transfer_complete, when,
      get, modify, ret, MessageF.
    split_ifs; leaf; (apply Hend; [calm_now | left; reflexivity]).
  - unfold case_SendingChecksumError. rewrite bind_get.
    destruct (timed_out cfg env s).
    + rewrite bind_MessageF. apply Reset_calm; try reflexivity. calm_now.
    + unfold bind, is_spi_transfer_complete, when, get, modify, ret.
      split_ifs; leaf;
        (apply Hend; [calm_now | first [left; reflexivity
                                        | right; reflexivity]]).
Qed.

(** [ReadBlock], of either build, announces nothing and leaves state,
    cursor and page size alone. *)

Lemma ReadBlock_calm (env : Env) (s : Globals) :
  match ReadBlock cfg env s with
  | Ret _ s1 =>
      quiet s s1 /\ state s1 = state s /\ flashPos s1 = flashPos s
      /\ pageSize s1 = pageSize s
  | Halt _ s1 =>
      quiet s s1 /\ state s1 = state s /\ flashPos s1 = flashPos s
  | Fault _ => False
  | OutOfFuel => True
  end.
Proof.
  destruct (IAP_VIA_SPI cfg) eqn:Hbuild.
  - unfold ReadBlock. rewrite Hbuild. unfold ReadBlock_spi.
    destruct (transferPending s).
    + unfold bind at 1, is_spi_transfer_complete at 1.
      destruct (spi_done env).
      * cbn. split; [calm_now | repeat split; reflexivity].
      * destruct (negb (flashPos s =? FirmwareFlashStart cfg)
                  && (u32 (millis env 0 - transferStartTime s)
                      >? TransferCompleteDelay cfg)).
        -- cbn. split; [calm_now | repeat split; reflexivity].
        -- destruct (u32 (millis env 1 - transferStartTime s)
                     >? TransferTimeout cfg).
           ++ rewrite bind_MessageF.
              destruct (@Reset_quiet cfg bool env false
                          (formatted MsgTimeoutResponse s))
                as (t & Hres & Hq & Hst & Hfp).
              rewrite Hres. split; [|split; assumption].
              eapply quiet_trans; [|exact Hq]. calm_now.
           ++ split; [apply quiet_refl | repeat split; reflexivity].
    + cbn. split; [calm_now | repeat split; reflexivity].
  - pose proof (ReadBlock_quiet cfg Hbuild env s) as Hq.
    pose proof (ReadBlock_file_outcome cfg env s) as Ho.
    unfold ReadBlock in *. rewrite Hbuild in *.
    destruct (ReadBlock_file cfg env s) as [[|] s1|b s1|s1|];
      cbn [read_outcome final] in *; try exact I; try contradiction;
      destruct (Hq s1 eq_refl) as (Q & Hs & Hf); tauto.
Qed.

(** One pass keeps progress in step. *)

Lemma writeBinary_in_step (env : Env) (s s' : Globals) :
  in_step cfg s -> small_page cfg s ->
  final (writeBinary cfg env s) = Some s' ->
  in_step cfg s'.
Proof.
  intros Hinv Hsmall. pose proof Hsmall as (Hno & Hfifth).
  unfold writeBinary.
  destruct (retry s >? maxRetries cfg).
  { rewrite bind_MessageF. intros H.
    apply (in_step_calm s); [exact Hinv|].
    revert H. apply Reset_calm; try reflexivity. calm_now. }
  destruct (state s) eqn:Hst.
  - rewrite bind_MessageF, bind_modify. intros H.
    apply case_UnlockingFlash_calm in H; [|reflexivity].
    apply (in_step_calm s); [exact Hinv|].
    destruct H as (Hq & Hpos). split.
    + eapply quiet_trans; [|exact Hq]. calm_now.
    + intros Hw. destruct (Hpos Hw) as [Hp | [Hp _]];
        [now left | discriminate Hp].
  - intros H. apply (in_step_calm s); [exact Hinv|].
    apply (case_UnlockingFlash_calm env); [now rewrite Hst | exact H].
  - destruct (has_erase_state (chip cfg)).
    + intros H. apply (in_step_calm s); [exact Hinv|].
      apply (case_ErasingFlash_calm env); [now rewrite Hst | exact H].
    + cbn. intros H. injection H as <-. exact Hinv.
  - unfold case_WritingUpgrade. rewrite bind_get.
    assert (Hpage : forall t,
               in_step cfg t -> small_page cfg t ->
               state t = WritingUpgrade ->
               final (write_page cfg env t) = Some s' -> in_step cfg s').
    { intros t Jt St Ht H.
      apply (write_page_progress cfg env t s' (proj1 St)) in H.
      destruct H as [(Hq & Hs & Hf) | (Hf & Hs & Hu & Hz & Hrep)].
      - apply (in_step_calm t); [exact Jt|]. split; [exact Hq|].
        intros Hw. right. split; [now rewrite <- Hs | exact Hf].
      - now apply (in_step_page t s'). }
    destruct (haveDataInBuffer s); cbn [negb].
    + now apply Hpage.
    + unfold bind at 1.
      pose proof (ReadBlock_calm env s) as Hread.
      destruct (ReadBlock cfg env s) as [ok s1|b s1|s1|];
        cbn [final]; try contradiction; try discriminate.
      * destruct Hread as (Hq1 & Hs1 & Hf1 & Hp1).
        assert (J1 : in_step cfg s1).
        { apply (in_step_calm s); [exact Hinv|]. split; [exact Hq1|].
          intros Hw. right. split; [now rewrite <- Hs1 | exact Hf1]. }
        destruct ok; cbn [negb].
        -- rewrite bind_modify.
           match goal with |- context [write_page cfg env ?t] =>
             set (s2 := t) end.
           assert (Hq2 : quiet s1 s2) by (unfold s2; calm_now).
           assert (J2 : in_step cfg s2).
           { apply (in_step_calm s1); [exact J1|]. split; [exact Hq2|].
             intros Hw. right. split; [exact Hw | reflexivity]. }
           assert (Hsmall2 : small_page cfg s2).
           { unfold small_page, no_overflow in *.
             rewrite (totalSize_quiet cfg s1 s2 Hq2),
                     (totalSize_quiet cfg s s1 Hq1).
             unfold s2. simpl_globals. rewrite Hf1, Hp1.
             exact Hsmall. }
           apply (Hpage s2 J2 Hsmall2).
           unfold s2. simpl_globals. now rewrite Hs1.
        -- cbn [ret final]. intros H. injection H as <-. exact J1.
      * destruct Hread as (Hq1 & Hs1 & Hf1).
        intros H. injection H as <-.
        apply (in_step_calm s); [exact Hinv|]. split; [exact Hq1|].
        intros Hw. right. split; [now rewrite <- Hs1 | exact Hf1].
  - destruct (IAP_VIA_SPI cfg);
      [|cbn; intros H; injection H as <-; exact Hinv].
    intros H. apply (in_step_calm s); [exact Hinv|].
    apply (proj1 (checksum_cases_calm env s s'
                    ltac:(rewrite Hst; reflexivity))), H.
  - destruct (IAP_VIA_SPI cfg);
      [|cbn; intros H; injection H as <-; exact Hinv].
    intros H. apply (in_step_calm s); [exact Hinv|].
    apply (proj1 (proj2 (checksum_cases_calm env s s'
                           ltac:(rewrite Hst; reflexivity)))), H.
  - destruct (IAP_VIA_SPI cfg);
      [|cbn; intros H; injection H as <-; exact Hinv].
    intros H. apply (in_step_calm s); [exact Hinv|].
    apply (proj2 (proj2 (checksum_cases_calm env s s'
                           ltac:(rewrite Hst; reflexivity)))), H.
  - intros H. apply (in_step_calm s); [exact Hinv|].
    apply (case_LockingFlash_calm env); assumption.
Qed.

(** Over any run, of either build, whose pages are a fifth of the total
    size or less. *)

Lemma run_in_step (envs : list Env) :
  forall s,
    in_step cfg s ->
    along cfg (small_page cfg) envs s ->
    forall s', final (run cfg envs s) = Some s' -> in_step cfg s'.
Proof.
  induction envs as [|env rest IH]; intros s Hinv Halong s'; cbn [run].
  - cbn. intros H. injection H as <-. exact Hinv.
  - destruct Halong as (Hsmall & Hrest).
    pose proof (writeBinary_in_step env s) as Hstep.
    destruct (writeBinary cfg env s) as [[] s1|b s1|s1|]; cbn [final] in *.
    + apply (IH s1); [now apply Hstep | exact Hrest].
    + intros H. injection H as <-. now apply Hstep.
    + intros H. injection H as <-. now apply Hstep.
    + discriminate.
Qed.

End InStep.

(** ** Progress reporting: the claim *)

Section ProgressClaim.

Variable cfg : Config.

(** Calls whose percentage starts below the threshold and rises by 20 at
    most from one to the next: after them, the percentage of every one of
    them is below the threshold.  So the threshold in force at a call has
    not been reached by any call before it. *)

Lemma ShowProgress_run_below (cursors : list Z) :
  forall s s',
    0 < totalSize cfg s ->
    0 <= reportNextPercent s ->
    reportNextPercent s + 20 * Z.of_nat (List.length cursors) < 2 ^ 32 ->
    Forall (fun c => 0 <= 100 * (c - FirmwareFlashStart cfg) < 2 ^ 32)
           cursors ->
    percent_at cfg (totalSize cfg s) (flashPos s) < reportNextPercent s ->
    small_steps cfg (totalSize cfg s) (flashPos s) cursors ->
    ShowProgress_run cfg cursors s = Ret tt s' ->
    reportNextPercent s <= reportNextPercent s'
    /\ forall c, In c cursors ->
                 percent_at cfg (totalSize cfg s) c < reportNextPercent s'.
Proof.
  induction cursors as [|c rest IH];
    intros s s' Htot Hthr Hcap Hrange Hbelow Hsteps.
  - cbn [ShowProgress_run]. intros H. injection H as <-.
    split; [lia | intros c []].
  - inversion Hrange as [|c' rest' Hc Hrest]; subst.
    destruct Hsteps as [Hstep Hsteps].
    cbn [List.length] in Hcap.
    cbn [ShowProgress_run]. unfold bind at 1, modify at 1.
    unfold bind at 1. rewrite ShowProgress_unfold.
    rewrite !(percentDone_at cfg s c Hc).
    change (totalSize cfg (set_flashPos c s)) with (totalSize cfg s).
    destruct (Z.eqb_spec (totalSize cfg s) 0) as [E|_]; [lia|].
    set (s0 := set_flashPos c s).
    set (total := totalSize cfg s) in *.
    set (p := percent_at cfg total c) in *.
    change (reportNextPercent s0) with (reportNextPercent s).
    destruct (Z.geb_spec p (reportNextPercent s)) as [Hge|Hlt].
    + set (s1 := set_reportNextPercent _ _).
      assert (Hn1 : reportNextPercent s1 = reportNextPercent s + 20).
      { unfold s1. cbn [reportNextPercent set_reportNextPercent].
        unfold reportPercentIncrement. apply u32_small. lia. }
      intros Hrun.
      destruct (IH s1 s') as (Hup & Hall); try assumption.
      { lia. } { lia. }
      { rewrite Hn1. change (p < reportNextPercent s + 20). lia. }
      split; [lia|].
      intros c0 [<- | Hin]; [fold p; lia | now apply Hall].
    + intros Hrun.
      destruct (IH s0 s') as (Hup & Hall); try assumption.
      { change (reportNextPercent s0) with (reportNextPercent s). lia. }
      change (reportNextPercent s0) with (reportNextPercent s) in Hup.
      split; [exact Hup|].
      intros c0 [<- | Hin]; [fold p; lia | now apply Hall].
Qed.

(** C8, as the code has it.
    - One call.  The percentage is [100 * (cursor - start) / total] in
      32-bit arithmetic.  Below [reportNextPercent] the call says nothing
      and changes nothing; at or above it the call sends one message, with
      that percentage, and raises [reportNextPercent] by 20.
    - A run of calls whose cursor never moves back, or whose percentage
      never rises by more than 20 from one call to the next: the percentages
      announced are each that quotient at a cursor of the run, come in
      non-decreasing order, and the [k]-th of them has reached the [k]-th
      threshold, [reportNextPercent + 20 * k]: the threshold moves up with
      every message, so none is announced twice.
    - A run of calls whose percentage starts below the threshold and never
      rises by more than 20: the [k]-th message has reached the [k]-th
      threshold and not the next, the threshold has moved up by 20 for each
      message, and in the end every percentage of the run is below it: each
      threshold is announced by the first call that reaches it.
    - Any run of [writeBinary] in the file build that starts with nothing
      announced: the percentages announced are in non-decreasing order, the
      [k]-th having reached [20 + 20 * k].
    - Any run of [writeBinary], in either build, whose pages are a fifth of
      the total size or less: the [k]-th percentage announced has reached
      [20 + 20 * k] and not [40 + 20 * k], and while the image is being
      written the percentage at the cursor is below the threshold, also
      after the cursor has been taken back to write the image again. *)

Theorem ShowProgress_reports_once_in_order :
  (forall s1, totalSize cfg s1 <> 0 ->
              percentDone cfg s1 < reportNextPercent s1 ->
              ShowProgress cfg s1 = Ret tt s1)
  /\ (forall s1, totalSize cfg s1 <> 0 ->
                 reportNextPercent s1 <= percentDone cfg s1 ->
                 ShowProgress cfg s1
                 = Ret tt
                     (set_reportNextPercent
                        (u32 (reportNextPercent s1 + 20))
                        (set_formatBuffer
                           (SafeVsnprintf (MsgProgress (percentDone cfg s1)))
                           (set_log
                              (log s1
                               ++ [EvMessage
                                     (MsgProgress (percentDone cfg s1))])
                              s1))))
  /\ (forall s cursors,
        0 < totalSize cfg s ->
        0 <= reportNextPercent s ->
        reportNextPercent s + 20 * Z.of_nat (List.length cursors) < 2 ^ 32 ->
        Forall (fun c => 0 <= 100 * (c - FirmwareFlashStart cfg) < 2 ^ 32)
               cursors ->
        Sorted Z.le cursors
        \/ (percent_at cfg (totalSize cfg s) (flashPos s)
            < reportNextPercent s
            /\ small_steps cfg (totalSize cfg s) (flashPos s) cursors) ->
        exists s' rep,
          ShowProgress_run cfg cursors s = Ret tt s'
          /\ reported (log s') = reported (log s) ++ rep
          /\ (forall q, In q rep ->
                exists c, In c cursors
                          /\ q = 100 * (c - FirmwareFlashStart cfg)
                                 / totalSize cfg s)
          /\ Sorted Z.le rep
          /\ reportNextPercent s'
             = reportNextPercent s + 20 * Z.of_nat (List.length rep)
          /\ (forall k q, nth_error rep k = Some q ->
                          reportNextPercent s + 20 * Z.of_nat k <= q))
  /\ (forall s cursors,
        0 < totalSize cfg s ->
        0 <= reportNextPercent s ->
        reportNextPercent s + 20 * Z.of_nat (List.length cursors) < 2 ^ 32 ->
        Forall (fun c => 0 <= 100 * (c - FirmwareFlashStart cfg) < 2 ^ 32)
               cursors ->
        percent_at cfg (totalSize cfg s) (flashPos s) < reportNextPercent s ->
        small_steps cfg (totalSize cfg s) (flashPos s) cursors ->
        exists s' rep,
          ShowProgress_run cfg cursors s = Ret tt s'
          /\ reported (log s') = reported (log s) ++ rep
          /\ reportNextPercent s'
             = reportNextPercent s + 20 * Z.of_nat (List.length rep)
          /\ (forall k q, nth_error rep k = Some q ->
                reportNextPercent s + 20 * Z.of_nat k <= q
                < reportNextPercent s + 20 * Z.of_nat k + 20)
          /\ (forall c, In c cursors ->
                100 * (c - FirmwareFlashStart cfg) / totalSize cfg s
                < reportNextPercent s'))
  /\ (forall envs s s',
        IAP_VIA_SPI cfg = false ->
        reported (log s) = [] ->
        reportNextPercent s = reportPercentIncrement ->
        along cfg (no_overflow cfg) envs s ->
        final (run cfg envs s) = Some s' ->
        Sorted Z.le (reported (log s'))
        /\ reportNextPercent s'
           = 20 + 20 * Z.of_nat (List.length (reported (log s')))
        /\ (forall k q, nth_error (reported (log s')) k = Some q ->
                        20 + 20 * Z.of_nat k <= q))
  /\ (forall envs s s',
        reported (log s) = [] ->
        reportNextPercent s = reportPercentIncrement ->
        in_write_phase (state s) = false ->
        along cfg (small_page cfg) envs s ->
        final (run cfg envs s) = Some s' ->
        reportNextPercent s'
        = 20 + 20 * Z.of_nat (List.length (reported (log s')))
        /\ (forall k q, nth_error (reported (log s')) k = Some q ->
              20 + 20 * Z.of_nat k <= q < 40 + 20 * Z.of_nat k)
        /\ (in_write_phase (state s') = true ->
            100 * (flashPos s' - FirmwareFlashStart cfg) / totalSize cfg s'
            < reportNextPercent s')).
Proof.
  split; [|split; [|split; [|split; [|split]]]].
  - intros s1 Hne Hlt. rewrite ShowProgress_unfold.
    destruct (Z.eqb_spec (totalSize cfg s1) 0) as [E|_]; [contradiction|].
    destruct (Z.geb_spec (percentDone cfg s1) (reportNextPercent s1));
      [lia | reflexivity].
  - intros s1 Hne Hge. rewrite ShowProgress_unfold.
    destruct (Z.eqb_spec (totalSize cfg s1) 0) as [E|_]; [contradiction|].
    destruct (Z.geb_spec (percentDone cfg s1) (reportNextPercent s1));
      [reflexivity | lia].
  - intros s cursors Htot Hthr Hcap Hrange Hrun.
    destruct (ShowProgress_run_facts cfg cursors s Htot Hthr Hcap Hrange)
      as (s' & rep & Hret & Hrep & Hnext & _ & Hnth & Hin & Hsort & Hwin).
    exists s', rep. repeat split; try assumption.
    destruct Hrun as [Hmono | [Hbelow Hsteps]].
    + apply StronglySorted_Sorted, Hsort.
      apply Sorted_StronglySorted; [|exact Hmono].
      intros x y z. apply Z.le_trans.
    + apply StronglySorted_Sorted.
      apply (windows_sorted rep (reportNextPercent s)).
      intros k q Hk. split; [now apply Hnth | now apply Hwin].
  - intros s cursors Htot Hthr Hcap Hrange Hbelow Hsteps.
    destruct (ShowProgress_run_facts cfg cursors s Htot Hthr Hcap Hrange)
      as (s' & rep & Hret & Hrep & Hnext & _ & Hnth & _ & _ & Hwin).
    exists s', rep. split; [exact Hret|]. split; [exact Hrep|].
    split; [exact Hnext|].
    split.
    + intros k q Hk. split; [now apply Hnth | now apply Hwin].
    + apply (ShowProgress_run_below cursors s s'); assumption.
  - intros envs s s' Hfile Hnone Hfirst Halong Hfin.
    assert (Hinv : progress_inv cfg s).
    { unfold progress_inv. rewrite Hnone, Hfirst.
      repeat split; try constructor.
      intros [|k] q Hk; discriminate. }
    destruct (file_run_progress cfg Hfile envs s Hinv Halong s' Hfin)
      as (I1 & I2 & I3 & _).
    split; [now apply StronglySorted_Sorted|]. split; assumption.
  - intros envs s s' Hnone Hfirst Hphase Halong Hfin.
    assert (Hinv : in_step cfg s).
    { unfold in_step. rewrite Hnone, Hfirst, Hphase.
      split; [reflexivity|].
      split; [intros [|k] q Hk; discriminate | discriminate]. }
    exact (run_in_step cfg envs s Hinv Halong s' Hfin).
Qed.

End ProgressClaim.

(** ** The checksum engine: what it tells apart *)

Section ChecksumDetects.

Lemma crc_bit_range (x : Z) : 0 <= x < 2 ^ 16 -> 0 <= crc_bit x < 2 ^ 16.
Proof.
  intros Hx. unfold crc_bit.
  assert (Hs : 0 <= Z.shiftr x 1 < 2 ^ 15).
  { rewrite Z.shiftr_div_pow2 by lia. split.
    - apply Z.div_pos; lia.
    - apply Z.div_lt_upper_bound; lia. }
  destruct (Z.testbit x 0); [apply lxor_u16_range|]; lia.
Qed.

Lemma crc_bit_kernel (z : Z) : 0 <= z < 2 ^ 16 -> crc_bit z = 0 -> z = 0.
Proof.
  intros Hz H. unfold crc_bit in H.
  assert (Hs : 0 <= Z.shiftr z 1 < 2 ^ 15).
  { rewrite Z.shiftr_div_pow2 by lia. split.
    - apply Z.div_pos; lia.
    - apply Z.div_lt_upper_bound; lia. }
  destruct (Z.testbit z 0) eqn:Hb.
  - apply Z.lxor_eq in H. lia.
  - rewrite Z.shiftr_div_pow2 in H by lia.
    rewrite Z.bit0_odd in Hb.
    assert (Hz2 : z = 2 * (z / 2) + z mod 2) by (apply Z.div_mod; lia).
    change (2 ^ 1) with 2 in H.
    rewrite Zmod_odd, Hb in Hz2. lia.
Qed.

Lemma crc_bit_inj (x y : Z) :
  0 <= x < 2 ^ 16 -> 0 <= y < 2 ^ 16 -> crc_bit x = crc_bit y -> x = y.
Proof.
  intros Hx Hy H. apply Z.lxor_eq.
  apply crc_bit_kernel; [now apply lxor_u16_range|].
  rewrite crc_bit_lxor, H. apply Z.lxor_nilpotent.
Qed.

Lemma iter_crc_bit_range (n : nat) (x : Z) :
  0 <= x < 2 ^ 16 -> 0 <= Nat.iter n crc_bit x < 2 ^ 16.
Proof.
  intros Hx. induction n as [|n IH]; [exact Hx|].
  rewrite Nat.iter_succ. now apply crc_bit_range.
Qed.

Lemma iter_crc_bit_inj (n : nat) (x y : Z) :
  0 <= x < 2 ^ 16 -> 0 <= y < 2 ^ 16 ->
  Nat.iter n crc_bit x = Nat.iter n crc_bit y -> x = y.
Proof.
  intros Hx Hy. induction n as [|n IH]; [auto|].
  rewrite !Nat.iter_succ. intros H. apply IH.
  apply crc_bit_inj; auto using iter_crc_bit_range.
Qed.

Lemma crc_byte_range (c b : Z) :
  0 <= c < 2 ^ 16 -> 0 <= b < 256 -> 0 <= crc_byte c b < 2 ^ 16.
Proof.
  intros Hc Hb. unfold crc_byte.
  apply iter_crc_bit_range, lxor_u16_range; lia.
Qed.

Lemma crc_byte_inj (c c' b b' : Z) :
  0 <= c < 2 ^ 16 -> 0 <= c' < 2 ^ 16 ->
  0 <= b < 256 -> 0 <= b' < 256 ->
  crc_byte c b = crc_byte c' b' -> Z.lxor c b = Z.lxor c' b'.
Proof.
  intros Hc Hc' Hb Hb' H. unfold crc_byte in H.
  apply iter_crc_bit_inj in H; auto; apply lxor_u16_range; lia.
Qed.

Lemma fold_crc_byte_range (bytes : list Z) :
  forall c, 0 <= c < 2 ^ 16 -> Forall (fun b => 0 <= b < 256) bytes ->
            0 <= fold_left crc_byte bytes c < 2 ^ 16.
Proof.
  induction bytes as [|b bytes IH]; intros c Hc Hb; cbn [fold_left]; [lia|].
  inversion Hb; subst. apply IH; [now apply crc_byte_range | assumption].
Qed.

Lemma fold_crc_byte_inj (bytes : list Z) :
  forall c c', 0 <= c < 2 ^ 16 -> 0 <= c' < 2 ^ 16 ->
               Forall (fun b => 0 <= b < 256) bytes ->
               fold_left crc_byte bytes c = fold_left crc_byte bytes c' ->
               c = c'.
Proof.
  induction bytes as [|b bytes IH]; intros c c' Hc Hc' Hb H;
    cbn [fold_left] in H; [exact H|].
  inversion Hb; subst.
  apply IH in H; auto using crc_byte_range.
  apply crc_byte_inj in H; auto.
  apply (f_equal (fun z => Z.lxor z b)) in H.
  now rewrite !Z.lxor_assoc, Z.lxor_nilpotent, !Z.lxor_0_r in H.
Qed.

Lemma map_seq_from {A : Type} (f : nat -> A) (n : nat) :
  forall a, map f (seq a n) = map (fun i => f (a + i)%nat) (seq 0 n).
Proof.
  induction n as [|n IH]; intros a; [reflexivity|].
  cbn [seq map]. rewrite Nat.add_0_r. f_equal.
  rewrite IH, <- seq_shift, map_map. apply map_ext.
  intros i. f_equal. lia.
Qed.

Lemma read_mem_split (m : Mem) (n k : Z) :
  0 <= k < n ->
  read_mem m 0 n
  = read_mem m 0 k ++ m k :: read_mem (fun i => m (k + 1 + i)) 0 (n - k - 1).
Proof.
  intros Hk. unfold read_mem.
  replace (Z.to_nat n) with (Z.to_nat k + S (Z.to_nat (n - k - 1)))%nat
    by lia.
  rewrite seq_app, map_app. f_equal.
  rewrite map_seq_from. cbn [seq map]. f_equal.
  - f_equal. lia.
  - rewrite <- seq_shift, map_map. apply map_ext.
    intros i. f_equal. lia.
Qed.

Lemma read_mem_bytes (m : Mem) (a n : Z) :
  (forall i, 0 <= i < n -> 0 <= m (a + i) < 256) ->
  Forall (fun b => 0 <= b < 256) (read_mem m a n).
Proof.
  intros H. unfold read_mem. apply Forall_forall. intros b Hb.
  apply in_map_iff in Hb as (i & <- & Hi). apply in_seq in Hi.
  apply H. lia.
Qed.

Lemma CRC16_single_byte (buffer buffer' : Z -> Z) (n k : Z) :
  (forall i, 0 <= i < n -> 0 <= buffer i < 256) ->
  (forall i, 0 <= i < n -> 0 <= buffer' i < 256) ->
  0 <= k < n ->
  buffer' k <> buffer k ->
  (forall i, 0 <= i < n -> i <> k -> buffer' i = buffer i) ->
  CRC16 buffer' n <> CRC16 buffer n.
Proof.
  intros Hb Hb' Hk Hne Hsame.
  rewrite !CRC16_is_reference by assumption.
  unfold crc16_reference. rewrite !Z.lxor_0_r.
  rewrite (read_mem_split buffer n k), (read_mem_split buffer' n k) by lia.
  assert (Hpre : read_mem buffer' 0 k = read_mem buffer 0 k).
  { unfold read_mem. apply map_ext_in. intros i Hi. apply in_seq in Hi.
    apply Hsame; lia. }
  assert (Hpost : read_mem (fun i => buffer' (k + 1 + i)) 0 (n - k - 1)
                  = read_mem (fun i => buffer (k + 1 + i)) 0 (n - k - 1)).
  { unfold read_mem. apply map_ext_in. intros i Hi. apply in_seq in Hi.
    apply Hsame; lia. }
  rewrite Hpre, Hpost, !fold_left_app. cbn [fold_left].
  set (c := fold_left crc_byte (read_mem buffer 0 k) 65535).
  assert (Hc : 0 <= c < 2 ^ 16).
  { apply fold_crc_byte_range; [lia|].
    apply read_mem_bytes. intros i Hi. apply Hb. lia. }
  intros H. apply fold_crc_byte_inj in H.
  - apply crc_byte_inj in H; try (apply Hb || apply Hb'); auto.
    apply Hne. apply (f_equal (Z.lxor c)) in H.
    now rewrite <- !Z.lxor_assoc, Z.lxor_nilpotent, !Z.lxor_0_l in H.
  - apply crc_byte_range; auto.
  - apply crc_byte_range; auto.
  - apply read_mem_bytes. intros i Hi. apply Hb. lia.
Qed.

(** Two buffers of bytes that agree everywhere but, possibly, at one index
    below the length have the same [CRC16] exactly when they agree at that
    index too: a change of a single byte always changes the checksum. *)

Theorem CRC16_detects_single_byte_change (buffer buffer' : Z -> Z) (n k : Z) :
  (forall i, 0 <= i < n -> 0 <= buffer i < 256) ->
  (forall i, 0 <= i < n -> 0 <= buffer' i < 256) ->
  0 <= k < n ->
  (forall i, 0 <= i < n -> i <> k -> buffer' i = buffer i) ->
  (CRC16 buffer' n = CRC16 buffer n <-> buffer' k = buffer k).
Proof.
  intros Hb Hb' Hk Hsame. split.
  - intros Hcrc.
    destruct (Z.eq_dec (buffer' k) (buffer k)) as [E|Hne]; [exact E|].
    exfalso. revert Hcrc. now apply CRC16_single_byte with (k := k).
  - intros E. apply CRC16_ext. intros i Hi.
    destruct (Z.eq_dec i k) as [->|Hik]; [exact E|].
    now apply Hsame.
Qed.

End ChecksumDetects.

(** ** The checksum exchange: what the verdict says about the flash *)

Section Verdict.

Variable cfg : Config.
Variable env : Env.

Hypothesis via_spi : IAP_VIA_SPI cfg = true.

Lemma VerifyingChecksum_verdict (s : Globals) :
  state s = VerifyingChecksum ->
  retry s <= maxRetries cfg ->
  timed_out cfg env s = false ->
  spi_done env = true ->
  let request :=
    memcpy (readData s) 0
           (firstn (Z.to_nat (bytesToTransfer s)) (spi_rx env)) in
  let crc16 :=
    CRC16 (fun i => flash s (FirmwareFlashStart cfg + i))
          (request_firmwareLength request) in
  let same := request_crc16 request =? crc16 in
  exists s' pre,
    writeBinary cfg env s = Ret tt s'
    /\ state s' = (if same then SendingChecksumOK else SendingChecksumError)
    /\ flash s' = flash s
    /\ log s' = pre ++ [EvSpiSetup 1 [if same then 0x0C else 0xFF];
                        EvTfrReadyPin (negb (transferReadyHigh s))].
Proof.
  intros Hst Hre Hto Hdone request crc16 same.
  unfold writeBinary.
  destruct (Z.gtb_spec (retry s) (maxRetries cfg)) as [Hgt|_]; [lia|].
  rewrite Hst, via_spi. unfold case_VerifyingChecksum.
  rewrite bind_get, Hto.
  unfold bind at 1, is_spi_transfer_complete at 1. rewrite Hdone.
  unfold when. rewrite bind_get.
  cbn [readData set_readData set_transferPending]. fold request.
  rewrite bind_get.
  cbn [flash set_readData set_transferPending]. fold crc16. fold same.
  destruct same.
  - eexists. eexists. split; [reflexivity|]. repeat split; reflexivity.
  - eexists. exists (log s ++ [EvMessage MsgCrcMismatch]).
    split; [reflexivity|]. repeat split; reflexivity.
Qed.

(** The verdict of [VerifyingChecksum] against the image the SBC sent.  When
    the request carries the length of that image and its [CRC16], a flash
    that holds the image over that length is acknowledged with 0x0C and the
    machine goes on to [SendingChecksumOK]; a flash that differs from the
    image in exactly one byte is answered with 0xFF and the machine goes to
    [SendingChecksumError]. *)

Theorem VerifyingChecksum_catches_corrupted_byte (s : Globals)
    (image : Z -> Z) :
  state s = VerifyingChecksum ->
  retry s <= maxRetries cfg ->
  timed_out cfg env s = false ->
  spi_done env = true ->
  let request :=
    memcpy (readData s) 0
           (firstn (Z.to_nat (bytesToTransfer s)) (spi_rx env)) in
  let n := request_firmwareLength request in
  let written := fun i => flash s (FirmwareFlashStart cfg + i) in
  request_crc16 request = CRC16 image n ->
  (forall i, 0 <= i < n -> 0 <= image i < 256) ->
  (forall i, 0 <= i < n -> 0 <= written i < 256) ->
  ((forall i, 0 <= i < n -> written i = image i) ->
   exists s' pre,
     writeBinary cfg env s = Ret tt s'
     /\ state s' = SendingChecksumOK
     /\ log s' = pre ++ [EvSpiSetup 1 [0x0C];
                         EvTfrReadyPin (negb (transferReadyHigh s))])
  /\ (forall k,
        0 <= k < n ->
        written k <> image k ->
        (forall i, 0 <= i < n -> i <> k -> written i = image i) ->
        exists s' pre,
          writeBinary cfg env s = Ret tt s'
          /\ state s' = SendingChecksumError
          /\ log s' = pre ++ [EvSpiSetup 1 [0xFF];
                              EvTfrReadyPin (negb (transferReadyHigh s))]).
Proof.
  intros Hst Hre Hto Hdone request n written Hcrc Himage Hflash.
  destruct (VerifyingChecksum_verdict s Hst Hre Hto Hdone)
    as (s' & pre & Hrun & Hstate & _ & Hlog).
  fold request in Hstate, Hlog. fold n in Hstate, Hlog.
  fold written in Hstate, Hlog.
  split.
  - intros Hsame.
    assert (E : (request_crc16 request =? CRC16 written n) = true).
    { apply Z.eqb_eq. rewrite Hcrc. symmetry. now apply CRC16_ext. }
    rewrite E in Hstate, Hlog. now exists s', pre.
  - intros k Hk Hne Hsame.
    assert (E : (request_crc16 request =? CRC16 written n) = false).
    { apply Z.eqb_neq. rewrite Hcrc. intros H. symmetry in H. revert H.
      now apply CRC16_single_byte with (k := k). }
    rewrite E in Hstate, Hlog. now exists s', pre.
Qed.

End Verdict.

(** ** The file source: the block a raw file gives *)

Section RawFile.

Variable cfg : Config.
Variable env : Env.

Lemma firstn_of_repeat {A : Type} (c : A) (n : nat) :
  forall k, firstn k (repeat c n) = repeat c (Nat.min k n).
Proof.
  induction n as [|n IH]; intros [|k]; cbn; try reflexivity.
  now rewrite IH.
Qed.

Lemma firstn_padded {A : Type} (n : nat) (l : list A) (c : A) :
  firstn n (l ++ repeat c n)
  = firstn n l ++ repeat c (n - List.length (firstn n l)).
Proof.
  rewrite firstn_app, length_firstn, firstn_of_repeat.
  f_equal. f_equal. lia.
Qed.

Lemma memcpy_whole (buf data : list Z) :
  memcpy buf 0 data = data ++ skipn (List.length data) buf.
Proof. reflexivity. Qed.

Lemma memset_tail (data rest : list Z) (c : Z) :
  memset (data ++ rest) (Z.of_nat (List.length data)) c
         (Z.of_nat (List.length rest))
  = data ++ repeat c (List.length rest).
Proof.
  unfold memset, memcpy.
  rewrite !Nat2Z.id, repeat_length.
  rewrite firstn_app, firstn_all, Nat.sub_diag, firstn_O, app_nil_r.
  rewrite skipn_all2 by (rewrite length_app; lia).
  now rewrite app_nil_r.
Qed.

Lemma skipn_clamped {A : Type} (l : list A) (pos : Z) :
  0 <= pos ->
  skipn (Z.to_nat (Z.min pos (Z.of_nat (List.length l)))) l
  = skipn (Z.to_nat pos) l.
Proof.
  intros Hpos.
  destruct (Z.le_gt_cases pos (Z.of_nat (List.length l))).
  - now rewrite Z.min_l.
  - rewrite Z.min_r, Nat2Z.id by lia.
    rewrite skipn_all. symmetry. apply skipn_all2. lia.
Qed.

(** [ReadBlock] on a raw file, when the seek and the read succeed: the block
    handed over is what the file holds from offset
    [flashPos - FirmwareFlashStart] on, cut at [blockReadSize] bytes and, when
    the file ends before that, filled up with 0xFF; [bytesRead] is the number
    of bytes that came from the file.  At or past the end of the file the read
    still succeeds, with [bytesRead = 0] and a block of 0xFF. *)

Theorem ReadBlock_raw_delivers (s : Globals) :
  IAP_VIA_SPI cfg = false ->
  isUf2File s = false ->
  let pos := u32 (flashPos s - FirmwareFlashStart cfg) in
  let size := Z.to_nat (blockReadSize cfg) in
  let rest := skipn (Z.to_nat pos) (fdata (upgradeBinary s)) in
  f_lseek env pos = true ->
  f_read env 0 = true ->
  List.length (readData s) = size ->
  exists s',
    ReadBlock cfg env s = Ret true s'
    /\ readData s' = firstn size (rest ++ repeat 0xFF size)
    /\ bytesRead s' = Z.of_nat (Nat.min size (List.length rest))
    /\ retry s' = retry s
    /\ flashPos s' = flashPos s
    /\ flash s' = flash s.
Proof.
  intros Hfile Hraw pos size rest Hseek Hread Hbuf.
  unfold ReadBlock. rewrite Hfile. unfold ReadBlock_file.
  rewrite bind_get, bind_when_MessageF, bind_get.
  destruct (formatted_frame (negb (retry s =? 0))
              (MsgReadFileRetry (retry s)) s)
    as (_ & _ & Hpos & Hretry & _ & _ & _ & Hdata & Hflash & _).
  set (s0 := if negb (retry s =? 0)
             then formatted (MsgReadFileRetry (retry s)) s else s) in *.
  assert (Huf2 : isUf2File s0 = false)
    by (unfold s0; destruct (negb (retry s =? 0)); exact Hraw).
  assert (Hbin : upgradeBinary s0 = upgradeBinary s)
    by (unfold s0; destruct (negb (retry s =? 0)); reflexivity).
  rewrite Huf2, Hpos. fold pos. cbv zeta. rewrite Hseek, Hread. cbn [negb].
  assert (Hget : file_bytes (blockReadSize cfg) (seek_to pos s0)
                 = firstn size rest).
  { unfold file_bytes, seek_to. simpl_globals. cbn [fdata fptr].
    rewrite Hbin. fold size. unfold rest.
    now rewrite skipn_clamped by apply u32_range. }
  rewrite Hget.
  set (data := firstn size rest).
  assert (Hlen : List.length data = Nat.min size (List.length rest))
    by apply length_firstn.
  assert (Hle : (List.length data <= size)%nat) by lia.
  simpl_globals. rewrite Hdata.
  assert (Hcopy : memcpy (readData s) 0 data
                  = data ++ skipn (List.length data) (readData s))
    by apply memcpy_whole.
  rewrite Hcopy.
  destruct (Z.ltb_spec (Z.of_nat (List.length data)) (blockReadSize cfg))
    as [Hshort|Hfull].
  - eexists. split; [reflexivity|]. simpl_globals.
    split; [|split; [lia|split; [exact Hretry|split; assumption]]].
    replace (blockReadSize cfg - Z.of_nat (List.length data))
      with (Z.of_nat (List.length (skipn (List.length data) (readData s))))
      by (rewrite length_skipn, Hbuf; unfold size; lia).
    rewrite memset_tail, length_skipn, Hbuf.
    rewrite firstn_padded. reflexivity.
  - eexists. split; [reflexivity|]. simpl_globals.
    split; [|split; [lia|split; [exact Hretry|split; assumption]]].
    assert (Hsize : List.length data = size) by (unfold size in *; lia).
    rewrite skipn_all2 by lia. rewrite app_nil_r.
    rewrite firstn_padded. fold data. rewrite Hsize, Nat.sub_diag.
    cbn [repeat]. now rewrite app_nil_r.
Qed.

End RawFile.

(** ** The file source: the last block of a UF2 file *)

Section Uf2End.

Variable cfg : Config.
Variable env : Env.

Hypothesis reads_ok : forall k, f_read env k = true.

(** One turn of the loop of [ReadBlockUf2] on a good record. *)

Lemma ReadBlockUf2_loop_turn (fuel k j : nat) (seekPos : Z) (s : Globals)
    (r rest : list Z) :
  bytesRead s = 256 * Z.of_nat j ->
  u32 (seekPos + 256 * Z.of_nat j * 2) <> firmwareFileSize s ->
  skipn (Z.to_nat (fptr (upgradeBinary s))) (fdata (upgradeBinary s))
  = r ++ rest ->
  valid_record (flashPos s) j r ->
  ReadBlockUf2_loop cfg env fuel k seekPos s
  = let s2 :=
      set_bytesRead (u32 (bytesRead s + 256))
        (set_readData (memcpy (readData s) (bytesRead s) (uf2_data r))
           (advance 512 s)) in
    if bytesRead s2 <? blockReadSize cfg
    then match fuel with
         | O => OutOfFuel
         | S fuel' => ReadBlockUf2_loop cfg env fuel' (S k) seekPos s2
         end
    else Ret true s2.
Proof.
  intros Hbytes Heof Hfile (Hlen & Hm0 & Hm1 & Hme & Hta & Hps).
  assert (Hrec : file_bytes sizeof_UF2_Block s = r).
  { unfold file_bytes, sizeof_UF2_Block. rewrite Hfile.
    change (Z.to_nat 512) with 512%nat. rewrite <- Hlen.
    rewrite firstn_app, firstn_all, Nat.sub_diag, firstn_O.
    apply app_nil_r. }
  destruct fuel; cbn [ReadBlockUf2_loop];
    (destruct (Z.eqb_spec (u32 (seekPos + bytesRead s * 2))
                          (firmwareFileSize s)) as [E|_];
     [exfalso; apply Heof; rewrite Hbytes in E; exact E|]);
    rewrite reads_ok; cbn [negb];
    rewrite Hrec; cbv zeta; rewrite Hlen;
    change (Z.of_nat 512 =? sizeof_UF2_Block) with true; cbn [negb];
    rewrite Hm0, Hm1, Hme, !Z.eqb_refl; cbn [negb orb];
    simpl_globals; rewrite Hta, Hbytes, Hps, !Z.eqb_refl;
    cbn [negb orb]; reflexivity.
Qed.

Lemma ReadBlockUf2_loop_pads (tail : list Z) (seekPos : Z)
    (recs : list (list Z)) :
  forall fuel (j k : nat) (s : Globals) (done rest : list Z),
    (List.length recs <= fuel)%nat ->
    bytesRead s = 256 * Z.of_nat j ->
    256 * Z.of_nat (j + List.length recs) < blockReadSize cfg ->
    blockReadSize cfg < 2 ^ 32 ->
    0 <= fptr (upgradeBinary s) ->
    skipn (Z.to_nat (fptr (upgradeBinary s))) (fdata (upgradeBinary s))
    = List.concat recs ++ tail ->
    (forall i rec, nth_error recs i = Some rec ->
                   valid_record (flashPos s) (j + i) rec) ->
    (forall i, (i < List.length recs)%nat ->
               u32 (seekPos + 256 * Z.of_nat (j + i) * 2)
               <> firmwareFileSize s) ->
    u32 (seekPos + 256 * Z.of_nat (j + List.length recs) * 2)
    = firmwareFileSize s ->
    readData s = done ++ rest ->
    List.length done = (256 * j)%nat ->
    Z.of_nat (List.length rest) = blockReadSize cfg - 256 * Z.of_nat j ->
    exists s',
      ReadBlockUf2_loop cfg env fuel k seekPos s = Ret true s'
      /\ readData s'
         = done ++ List.concat (map uf2_data recs)
           ++ repeat 0xFF (Z.to_nat (blockReadSize cfg
                                     - 256 * Z.of_nat (j + List.length recs)))
      /\ bytesRead s' = 256 * Z.of_nat (j + List.length recs)
      /\ retry s' = retry s /\ flashPos s' = flashPos s
      /\ flash s' = flash s.
Proof.
  induction recs as [|r rs IH];
    intros fuel j k s done rest Hfuel Hbytes Hblock Hcap Hptr Hfile
           Hvalid Hnot Heof Hbuf Hdone Hrest.
  - (* the end of the file: the rest of the block is filled *)
    cbn [List.length] in *. rewrite Nat.add_0_r in *.
    assert (Hhit : (u32 (seekPos + bytesRead s * 2) =? firmwareFileSize s)
                   = true)
      by (apply Z.eqb_eq; rewrite Hbytes; exact Heof).
    exists (set_readData
              (memset (readData s) (bytesRead s) 0xFF
                      (blockReadSize cfg - bytesRead s)) s).
    split; [destruct fuel; cbn [ReadBlockUf2_loop]; now rewrite Hhit|].
    simpl_globals. cbn [map List.concat app].
    repeat split; try reflexivity; [|exact Hbytes].
    rewrite Hbuf, Hbytes, <- Hrest.
    replace (256 * Z.of_nat j) with (Z.of_nat (List.length done))
      by (rewrite Hdone; lia).
    rewrite memset_tail, Nat2Z.id. reflexivity.
  - destruct (Hvalid 0%nat r eq_refl) as (Hlen & Hrecord).
    cbn [List.length] in Hblock, Hfuel.
    rewrite (ReadBlockUf2_loop_turn fuel k j seekPos s r
               (List.concat rs ++ tail)).
    + cbv zeta. simpl_globals.
      rewrite Hbytes, u32_small by lia.
      destruct (Z.ltb_spec (256 * Z.of_nat j + 256) (blockReadSize cfg));
        [|lia].
      destruct fuel as [|fuel]; [lia|].
      match goal with
      | |- context [ReadBlockUf2_loop cfg env fuel (S k) seekPos ?t] =>
          set (s2 := t)
      end.
      assert (Hcopy : readData s2
                      = (done ++ uf2_data r) ++ skipn 256 rest).
      { unfold s2. simpl_globals. rewrite Hbuf.
        replace (256 * Z.of_nat j) with (Z.of_nat (List.length done))
          by (rewrite Hdone; lia).
        rewrite memcpy_at_end. unfold uf2_data at 2. rewrite slice_length.
        change (Z.to_nat 256) with 256%nat. now rewrite <- app_assoc. }
      destruct (IH fuel (S j) (S k) s2 (done ++ uf2_data r)
                   (skipn 256 rest))
        as (s' & Hrun & Hdata & Hread & Hretry & Hpos & Hflash).
      * lia.
      * unfold s2. simpl_globals. lia.
      * replace (S j + List.length rs)%nat
          with (j + S (List.length rs))%nat by lia. exact Hblock.
      * exact Hcap.
      * unfold s2. simpl_globals. cbn [fptr fdata]. lia.
      * unfold s2. simpl_globals. cbn [fptr fdata].
        rewrite Z2Nat.inj_add by lia.
        change (Z.to_nat 512) with 512%nat.
        rewrite Nat.add_comm, <- skipn_skipn, Hfile.
        cbn [List.concat]. rewrite <- app_assoc, <- Hlen.
        rewrite skipn_app, skipn_all, Nat.sub_diag, skipn_O. reflexivity.
      * intros i rec Hi. unfold s2. simpl_globals.
        replace (S j + i)%nat with (j + S i)%nat by lia.
        apply Hvalid. exact Hi.
      * intros i Hi. unfold s2. simpl_globals.
        replace (S j + i)%nat with (j + S i)%nat by lia.
        apply Hnot. cbn [List.length]. lia.
      * unfold s2. simpl_globals.
        replace (S j + List.length rs)%nat
          with (j + List.length (r :: rs))%nat by (cbn [List.length]; lia).
        exact Heof.
      * exact Hcopy.
      * rewrite length_app. unfold uf2_data. rewrite slice_length, Hdone.
        change (Z.to_nat 256) with 256%nat. lia.
      * rewrite length_skipn. lia.
      * exists s'. split; [exact Hrun|].
        replace (j + List.length (r :: rs))%nat
          with (S j + List.length rs)%nat by (cbn [List.length]; lia).
        split; [rewrite Hdata; cbn [map List.concat];
                now rewrite <- !app_assoc|].
        split; [exact Hread|].
        unfold s2 in Hretry, Hpos, Hflash.
        repeat split; assumption.
    + exact Hbytes.
    + specialize (Hnot 0%nat). rewrite Nat.add_0_r in Hnot.
      apply Hnot. cbn [List.length]. lia.
    + rewrite Hfile. cbn [List.concat]. now rewrite <- app_assoc.
    + specialize (Hvalid 0%nat r eq_refl). now rewrite Nat.add_0_r in Hvalid.
Qed.

(** The last block of a UF2 file.  When the records left in the file are
    fewer than a block takes and the file ends after them (the read position
    meets [firmwareFileSize]), [ReadBlockUf2] returns [true] with the payloads
    of those records followed by 0xFF up to [blockReadSize], and [bytesRead]
    is the number of payload bytes; with no record left it is 0, and the
    block is all 0xFF. *)

Theorem ReadBlockUf2_pads_last_block (s : Globals) (recs : list (list Z))
    (tail : list Z) :
  let seekPos := u32 ((flashPos s - FirmwareFlashStart cfg) * 2) in
  let got := 256 * Z.of_nat (List.length recs) in
  f_lseek env seekPos = true ->
  got < blockReadSize cfg < 2 ^ 32 ->
  skipn (Z.to_nat seekPos) (fdata (upgradeBinary s))
  = List.concat recs ++ tail ->
  (forall i rec, nth_error recs i = Some rec ->
                 valid_record (flashPos s) i rec) ->
  (forall i, (i < List.length recs)%nat ->
             u32 (seekPos + 256 * Z.of_nat i * 2) <> firmwareFileSize s) ->
  u32 (seekPos + got * 2) = firmwareFileSize s ->
  List.length (readData s) = Z.to_nat (blockReadSize cfg) ->
  exists s',
    ReadBlockUf2 cfg env s = Ret true s'
    /\ readData s'
       = List.concat (map uf2_data recs)
         ++ repeat 0xFF (Z.to_nat (blockReadSize cfg - got))
    /\ bytesRead s' = got
    /\ retry s' = retry s.
Proof.
  intros seekPos got Hseek Hblock Hfile Hvalid Hnot Heof Hbuf.
  assert (Hpos : 0 <= seekPos) by (apply u32_range).
  unfold ReadBlockUf2. fold seekPos. cbv zeta. fold seekPos.
  rewrite Hseek. cbn [negb].
  destruct (ReadBlockUf2_loop_pads tail seekPos recs
              (Z.to_nat (blockReadSize cfg / 256)) 0 0
              (set_bytesRead 0 (seek_to seekPos s)) [] (readData s))
    as (s' & Hrun & Hdata & Hread & Hretry & _).
  - assert (Z.of_nat (List.length recs) <= blockReadSize cfg / 256).
    { apply Z.div_le_lower_bound; unfold got in Hblock; lia. }
    lia.
  - reflexivity.
  - cbn [Nat.add]. apply Hblock.
  - apply Hblock.
  - unfold seek_to. simpl_globals. cbn [fptr]. lia.
  - unfold seek_to. simpl_globals. cbn [fptr fdata].
    rewrite skipn_clamped by lia. exact Hfile.
  - intros i rec Hi. unfold seek_to. simpl_globals. now apply Hvalid.
  - intros i Hi. unfold seek_to. simpl_globals. now apply Hnot.
  - unfold seek_to. simpl_globals. exact Heof.
  - reflexivity.
  - reflexivity.
  - rewrite Hbuf. lia.
  - exists s'. split; [exact Hrun|]. split; [exact Hdata|].
    split; [exact Hread|]. exact Hretry.
Qed.

End Uf2End.

(** ** Where the file build writes *)

Section FileBounds.

Variable cfg : Config.

Hypothesis from_file : IAP_VIA_SPI cfg = false.

Ltac steady_now :=
  unfold steady; simpl_globals; cbn [fdata fptr]; rewrite ?filter_app;
  cbn [filter is_flash_write app]; rewrite ?app_nil_r;
  repeat split; reflexivity.

Ltac steady_leaf :=
  simpl_globals; intros Hleaf; injection Hleaf as <-; steady_now.

Lemma steady_refl (s : Globals) : steady s s.
Proof. unfold steady. repeat split; reflexivity. Qed.

Lemma steady_trans (a b c : Globals) : steady a b -> steady b c -> steady a c.
Proof.
  unfold steady. intros (A1 & A2 & A3 & A4) (B1 & B2 & B3 & B4).
  repeat split; congruence.
Qed.

Lemma steady_formatted (b : bool) (m : Message) (s : Globals) :
  steady s (if b then formatted m s else s).
Proof. destruct b; [steady_now | apply steady_refl]. Qed.

Lemma steady_limit (s s' : Globals) :
  steady s s' -> write_limit cfg s' = write_limit cfg s.
Proof.
  intros (_ & H2 & H3 & _). unfold write_limit. now rewrite H2, H3.
Qed.

Lemma steady_geometry (s s' : Globals) :
  steady s s' -> geometry cfg s -> geometry cfg s'.
Proof.
  intros Hst G. pose proof (steady_limit s s' Hst) as Hl.
  destruct Hst as (H1 & H2 & H3 & _). unfold geometry in *.
  now rewrite Hl, H1, H2, H3.
Qed.

(** [Reset]: it writes nothing, or the text in [formatBuffer] at the start
    of the region. *)

Lemma Reset_writes {A : Type} (env : Env) (b : bool) (s : Globals) :
  exists s' ws,
    @Reset cfg env A b s = Halt b s'
    /\ filter is_flash_write (log s') = filter is_flash_write (log s) ++ ws
    /\ (ws = []
        \/ ws = [EvFlashWrite (FirmwareFlashStart cfg)
                              (bytes_of_string (formatBuffer s))]).
Proof.
  destruct (@Reset_halts cfg env A b s) as (s' & Hrun & _ & _ & _ & _ & Hlog & _).
  exists s'. rewrite Hlog, !filter_app, from_file.
  destruct (negb b && _); destruct (is_same5x (chip cfg));
    cbn [filter is_flash_write app]; eexists;
    (split; [exact Hrun|]); (split; [reflexivity|]); auto.
Qed.

Lemma abort_writes {A : Type} (env : Env) (b : bool) (m : Message)
    (limit : Z) (s : Globals) :
  exists s' ws,
    (MessageF m ;; @Reset cfg env A b) s = Halt b s'
    /\ filter is_flash_write (log s') = filter is_flash_write (log s) ++ ws
    /\ Forall (write_allowed cfg limit) ws.
Proof.
  rewrite bind_MessageF.
  destruct (@Reset_writes A env b (formatted m s))
    as (s' & ws & Hrun & Hlog & Hws).
  exists s', ws. split; [exact Hrun|]. split.
  - rewrite Hlog. cbn [formatted]. simpl_globals.
    rewrite filter_app. cbn [filter is_flash_write]. now rewrite app_nil_r.
  - destruct Hws as [-> | ->]; [constructor|].
    constructor; [|constructor]. right. split; [reflexivity|].
    exists m. reflexivity.
Qed.

Lemma case_UnlockingFlash_steady (env : Env) (s s' : Globals) :
  final (case_UnlockingFlash cfg env s) = Some s' ->
  case_UnlockingFlash cfg env s = Ret tt s'
  /\ steady s s'
  /\ haveDataInBuffer s' = haveDataInBuffer s
  /\ (state s' = state s \/ state s' = ErasingFlash
      \/ (state s' = WritingUpgrade
          /\ flashPos s' = FirmwareFlashStart cfg)).
Proof.
  unfold case_UnlockingFlash, bind, do_flash_unlock, get, modify,
    emit, ret, when, incr_retry, MessageF.
  split_ifs; simpl_globals; intros Hleaf; injection Hleaf as <-;
    (split; [reflexivity|]); (split; [steady_now|]);
    (split; [reflexivity|]); simpl_globals; auto.
Qed.

Lemma case_ErasingFlash_steady (env : Env) (s s' : Globals) :
  final (case_ErasingFlash cfg env s) = Some s' ->
  case_ErasingFlash cfg env s = Ret tt s'
  /\ steady s s'
  /\ ((state s' = state s /\ haveDataInBuffer s' = haveDataInBuffer s)
      \/ (state s' = WritingUpgrade /\ haveDataInBuffer s' = false
          /\ flashPos s' = FirmwareFlashStart cfg)).
Proof.
  unfold case_ErasingFlash, erased_or_erase, bind, do_flash_erase, get,
    modify, emit, ret, when, incr_retry, MessageF.
  split_ifs; simpl_globals; intros Hleaf; injection Hleaf as <-;
    (split; [reflexivity|]); (split; [steady_now|]);
    simpl_globals; auto.
Qed.

Lemma Reset_true_steady {A : Type} (env : Env) (t : Globals) :
  exists t',
    @Reset cfg env A true t = Halt true t'
    /\ steady t t' /\ state t' = state t.
Proof.
  unfold Reset, when, bind, emit, modify, get, ret. rewrite from_file.
  cbn. eexists. split; [reflexivity|]. split; [steady_now | reflexivity].
Qed.

Lemma case_LockingFlash_steady (env : Env) (s s' : Globals) :
  final (case_LockingFlash cfg env s) = Some s' ->
  steady s s' /\ state s' = state s.
Proof.
  unfold case_LockingFlash.
  destruct (is_same5x (chip cfg)).
  - rewrite bind_do_flash_lock.
    destruct (flash_lock env _ _).
    + rewrite bind_MessageF.
      match goal with
      | |- context [@Reset cfg env ?T true ?t] =>
          destruct (@Reset_true_steady T env t) as (t' & Hrun & H1 & H2)
      end.
      rewrite Hrun. cbn [final]. intros H. injection H as <-.
      split; [|exact H2].
      eapply steady_trans; [|exact H1]. steady_now.
    + unfold incr_retry, modify. cbn. intros H. injection H as <-.
      split; [steady_now | reflexivity].
  - rewrite !bind_get, bind_do_flash_lock.
    destruct (flash_lock env _ _).
    + rewrite bind_modify, bind_get. unfold when.
      destruct (_ >=? _).
      * unfold bind at 1. rewrite bind_MessageF.
        match goal with
        | |- context [@Reset cfg env ?T true ?t] =>
            destruct (@Reset_true_steady T env t) as (t' & Hrun & H1 & H2)
        end.
        rewrite Hrun. cbn [final]. intros H. injection H as <-.
        split; [|exact H2].
        eapply steady_trans; [|exact H1]. steady_now.
      * cbn. intros H. injection H as <-. split; [steady_now | reflexivity].
    + unfold incr_retry, modify. cbn. intros H. injection H as <-.
      split; [steady_now | reflexivity].
Qed.

(** The loop of [ReadBlockUf2], one turn unfolded. *)

Lemma ReadBlockUf2_loop_eq (env : Env) (fuel k : nat) (seekPos : Z)
    (s : Globals) :
  ReadBlockUf2_loop cfg env fuel k seekPos s
  = if u32 (seekPos + bytesRead s * 2) =? firmwareFileSize s
    then Ret true
           (set_readData
              (memset (readData s) (bytesRead s) 0xFF
                      (blockReadSize cfg - bytesRead s)) s)
    else if negb (f_read env k)
    then (incr_retry ;; ret false) s
    else
      let uf2Buffer := file_bytes sizeof_UF2_Block s in
      let locBytesRead := Z.of_nat (List.length uf2Buffer) in
      let s1 := advance locBytesRead s in
      if negb (locBytesRead =? sizeof_UF2_Block)
      then (incr_retry ;; ret false) s1
      else if negb (magicStart0 uf2Buffer =? MagicStart0Val)
              || negb (magicStart1 uf2Buffer =? MagicStart1Val)
              || negb (magicEnd uf2Buffer =? MagicEndVal)
      then (MessageF (MsgBadUf2Block (u32 (seekPos + bytesRead s1))) ;;
            Reset cfg env false) s1
      else if negb (targetAddr uf2Buffer =? u32 (flashPos s1 + bytesRead s1))
              || negb (payloadSize uf2Buffer =? 256)
      then (MessageF (MsgUnexpectedUf2Data (u32 (seekPos + bytesRead s1))) ;;
            Reset cfg env false) s1
      else
        let s2 :=
          set_bytesRead (u32 (bytesRead s1 + 256))
            (set_readData
               (memcpy (readData s1) (bytesRead s1) (uf2_data uf2Buffer)) s1)
        in
        if bytesRead s2 <? blockReadSize cfg
        then match fuel with
             | O => OutOfFuel
             | S fuel' => ReadBlockUf2_loop cfg env fuel' (S k) seekPos s2
             end
        else Ret true s2.
Proof. destruct fuel; reflexivity. Qed.

Lemma fetch_outcome_steady (limit : Z) (full : Prop) (s s0 : Globals)
    (r : Result bool) :
  steady s s0 -> state s0 = state s -> flashPos s0 = flashPos s ->
  haveDataInBuffer s0 = haveDataInBuffer s ->
  fetch_outcome cfg limit full s0 r -> fetch_outcome cfg limit full s r.
Proof.
  intros Hst H1 H2 H3. destruct r as [ok s1|b s1|s1|]; cbn; auto.
  - intros (A & B1 & B2 & B3 & B4).
    split; [eapply steady_trans; eassumption|].
    repeat split; try congruence. exact B4.
  - intros (ws & Hlog & Hws). exists ws. split; [|exact Hws].
    destruct Hst as (_ & _ & _ & <-). exact Hlog.
Qed.

Lemma ReadBlockUf2_loop_bounds (env : Env) (limit seekPos : Z) (len : Z)
    (full : Prop) :
  0 < blockReadSize cfg < 2 ^ 32 ->
  blockReadSize cfg mod 256 = 0 ->
  (seekPos + 2 * blockReadSize cfg <= len -> full) ->
  forall fuel k s,
    Z.of_nat (List.length (fdata (upgradeBinary s))) = len ->
    fptr (upgradeBinary s) = seekPos + 2 * bytesRead s ->
    0 <= seekPos -> 0 <= bytesRead s < blockReadSize cfg ->
    bytesRead s mod 256 = 0 ->
    fetch_outcome cfg limit full s
      (ReadBlockUf2_loop cfg env fuel k seekPos s).
Proof.
  intros HB Hdiv Hfull.
  induction fuel as [|fuel IH]; intros k s Hlen Hptr Hseek Hread Hmod;
    rewrite ReadBlockUf2_loop_eq;
    (destruct (u32 (seekPos + bytesRead s * 2) =? firmwareFileSize s);
     [cbn [fetch_outcome]; simpl_globals;
      split; [steady_now|]; repeat split; try reflexivity;
      intros _ Hge; exfalso; lia|]);
    (destruct (negb (f_read env k));
     [cbn [fetch_outcome bind incr_retry modify ret]; simpl_globals;
      split; [steady_now|]; repeat split; try reflexivity;
      intros Habs; discriminate Habs|]);
    cbv zeta;
    set (buf := file_bytes sizeof_UF2_Block s);
    (destruct (Z.eqb_spec (Z.of_nat (List.length buf)) sizeof_UF2_Block)
       as [Hgot|_]; cbn [negb];
     [|cbn [fetch_outcome bind incr_retry modify ret]; simpl_globals;
       cbn [fdata fptr];
       split; [steady_now|]; repeat split; try reflexivity;
       intros Habs; discriminate Habs]);
    (match goal with |- context [if ?c then (MessageF _ ;; _) _ else _] =>
       destruct c end;
     [match goal with
      | |- context [(MessageF ?m ;; Reset cfg env false) ?t] =>
          destruct (@abort_writes bool env false m limit t)
            as (s' & ws & Hrun & Hlog & Hws); rewrite Hrun
      end;
      cbn [fetch_outcome]; exists ws; split; [exact Hlog | exact Hws]|]);
    (match goal with |- context [if ?c then (MessageF _ ;; _) _ else _] =>
       destruct c end;
     [match goal with
      | |- context [(MessageF ?m ;; Reset cfg env false) ?t] =>
          destruct (@abort_writes bool env false m limit t)
            as (s' & ws & Hrun & Hlog & Hws); rewrite Hrun
      end;
      cbn [fetch_outcome]; exists ws; split; [exact Hlog | exact Hws]|]);
    rewrite Hgot; simpl_globals; cbn [fdata fptr];
    assert (Hroom : fptr (upgradeBinary s) + 512 <= len)
      by (unfold buf, file_bytes, sizeof_UF2_Block in Hgot;
          rewrite length_firstn, length_skipn in Hgot;
          change (Z.to_nat 512) with 512%nat in Hgot; lia);
    assert (Hstep : bytesRead s + 256 <= blockReadSize cfg)
      by (apply Z.mod_divide in Hmod; [|lia];
          apply Z.mod_divide in Hdiv; [|lia];
          destruct Hmod as [a Ha]; destruct Hdiv as [b Hb]; nia);
    assert (Hnext : u32 (bytesRead s + 256) = bytesRead s + 256)
      by (apply u32_small; lia);
    rewrite Hnext;
    destruct (Z.ltb_spec (bytesRead s + 256) (blockReadSize cfg))
      as [Hmore|Hdone].
  - exact I.
  - cbn [fetch_outcome]. simpl_globals. cbn [fdata fptr].
    split; [steady_now|]. repeat split; try reflexivity.
    intros _ _. apply Hfull. lia.
  - match goal with
    | |- fetch_outcome _ _ _ _ (ReadBlockUf2_loop _ _ _ _ _ ?t) =>
        set (s2 := t)
    end.
    apply (fetch_outcome_steady limit full s s2); try reflexivity.
    + unfold s2. steady_now.
    + apply IH; unfold s2; simpl_globals; cbn [fdata fptr];
        try assumption; try lia.
      * unfold sizeof_UF2_Block. lia.
      * rewrite Z.add_mod, Hmod by lia. reflexivity.
  - cbn [fetch_outcome]. simpl_globals. cbn [fdata fptr].
    split; [steady_now|]. repeat split; try reflexivity.
    intros _ _. apply Hfull. lia.
Qed.

Lemma ReadBlock_bounds (env : Env) (limit : Z) (s : Globals) :
  geometry cfg s ->
  FirmwareFlashStart cfg <= flashPos s ->
  flashPos s - FirmwareFlashStart cfg
  <= image_length (isUf2File s) (fdata (upgradeBinary s)) ->
  fetch_outcome cfg limit
    (flashPos s - FirmwareFlashStart cfg + blockReadSize cfg
     <= image_length (isUf2File s) (fdata (upgradeBinary s)))
    s (ReadBlock cfg env s).
Proof.
  intros (Hpage & HB & Hdiv & Huf2 & Hstart & Hlim & Hlen) Hlow Hin.
  unfold write_limit in Hlim.
  set (len := Z.of_nat (List.length (fdata (upgradeBinary s)))) in *.
  set (pos := flashPos s - FirmwareFlashStart cfg) in *.
  unfold ReadBlock. rewrite from_file. unfold ReadBlock_file.
  rewrite bind_get, bind_when_MessageF, bind_get.
  set (s0 := if negb (retry s =? 0)
             then formatted (MsgReadFileRetry (retry s)) s else s).
  assert (Hs0 : steady s s0) by apply steady_formatted.
  destruct (formatted_frame (negb (retry s =? 0))
              (MsgReadFileRetry (retry s)) s)
    as (E1 & _ & E3 & _ & _ & _ & E7 & _).
  fold s0 in E1, E3, E7.
  assert (Ebin : upgradeBinary s0 = upgradeBinary s)
    by (unfold s0; destruct (negb (retry s =? 0)); reflexivity).
  apply (fetch_outcome_steady limit _ s s0 _ Hs0 E1 E3 E7).
  destruct Hs0 as (_ & Euf2 & _ & _). rewrite Euf2.
  destruct (isUf2File s) eqn:Hfile.
  - (* a UF2 file *)
    unfold image_length in Hin, Hlim |- *. fold len in Hin, Hlim |- *.
    assert (Hhalf : 2 * pos <= len).
    { pose proof (Z.mul_div_le len 2 ltac:(lia)). lia. }
    unfold ReadBlockUf2. rewrite E3. fold pos.
    rewrite (u32_small (pos * 2)) by lia.
    destruct (negb (f_lseek env (pos * 2))).
    + cbn [fetch_outcome bind incr_retry modify ret]. simpl_globals.
      split; [steady_now|]. repeat split; try reflexivity.
      intros Habs. discriminate Habs.
    + set (s1 := set_bytesRead 0 (seek_to (pos * 2) s0)).
      assert (Hs1 : steady s0 s1) by (unfold s1; steady_now).
      apply (fetch_outcome_steady limit _ s0 s1 _ Hs1);
        try reflexivity.
      apply (ReadBlockUf2_loop_bounds env limit (pos * 2) len).
      * lia.
      * now apply Huf2.
      * intros H. apply Z.div_le_lower_bound; lia.
      * unfold s1. simpl_globals. cbn [fdata fptr]. now rewrite Ebin.
      * unfold s1. simpl_globals. cbn [fdata fptr]. rewrite Ebin.
        fold len. rewrite Z.min_l by lia. lia.
      * lia.
      * unfold s1. simpl_globals. lia.
      * reflexivity.
  - (* a raw file *)
    unfold image_length in Hin, Hlim |- *. fold len in Hin, Hlim |- *.
    rewrite E3. fold pos. rewrite (u32_small pos) by lia. cbv zeta.
    destruct (negb (f_lseek env pos)).
    + cbn [fetch_outcome bind incr_retry modify ret]. simpl_globals.
      split; [steady_now|]. repeat split; try reflexivity.
      intros Habs. discriminate Habs.
    + destruct (negb (f_read env 0)).
      * cbn [fetch_outcome bind incr_retry modify ret]. simpl_globals.
        cbn [fdata fptr].
        split; [steady_now|]. repeat split; try reflexivity.
        intros Habs. discriminate Habs.
      * set (data := file_bytes (blockReadSize cfg) (seek_to pos s0)).
        assert (Hdata : blockReadSize cfg <= Z.of_nat (List.length data) ->
                        pos + blockReadSize cfg <= len).
        { unfold data, file_bytes, seek_to. simpl_globals.
          cbn [fdata fptr]. rewrite Ebin. fold len.
          rewrite length_firstn, length_skipn. unfold len. lia. }
        simpl_globals.
        destruct (_ <? _); cbn [fetch_outcome]; simpl_globals;
          cbn [fdata fptr];
          (split; [steady_now|]); repeat split; try reflexivity;
          intros _ Hge; now apply Hdata.
Qed.

(** [write_page] and [block_done] of the file build, in closed form. *)

Lemma block_done_eq (env : Env) (s : Globals) :
  block_done cfg env s
  = Ret tt
      (if bytesWritten s =? blockReadSize cfg
       then if bytesRead s <? blockReadSize cfg
            then set_state LockingFlash
                   (set_log (log s ++ [EvFileClose])
                      (set_haveDataInBuffer false s))
            else set_haveDataInBuffer false s
       else s).
Proof.
  unfold block_done, bind, get, when, modify, ret, closeBinary, emit.
  rewrite from_file.
  destruct (bytesWritten s =? blockReadSize cfg); simpl_globals;
    [|reflexivity].
  destruct (bytesRead s <? blockReadSize cfg); reflexivity.
Qed.

Lemma write_page_eq (env : Env) (s : Globals) :
  write_page cfg env s
  = let s0 := if negb (retry s =? 0)
              then formatted (MsgFlashWriteRetry (retry s)) s else s in
    let pos := flashPos s0 in
    let page := pageSize s0 in
    let src := slice (readData s0) (bytesWritten s0) page in
    let ok := fst (flash_write env (flash s0) pos src) in
    let m' := snd (flash_write env (flash s0) pos src) in
    let s1 := set_flash m' (set_log (log s0 ++ [EvFlashWrite pos src]) s0) in
    if negb ok then Ret tt (set_retry (u32 (retry s1 + 1)) s1)
    else
      let s2 := set_log (log s1 ++ [EvFlashVerify pos page]) s1 in
      if negb (bytes_eqb src (read_mem m' pos page))
      then Ret tt (set_retry (u32 (retry s2 + 1)) s2)
      else (ShowProgress cfg ;; block_done cfg env)
             (set_flashPos (u32 (pos + page))
                (set_bytesWritten (u32 (bytesWritten s2 + page))
                   (set_retry 0 s2))).
Proof.
  unfold write_page. rewrite bind_get, bind_when_MessageF.
  cbv zeta.
  set (s0 := if negb (retry s =? 0)
             then formatted (MsgFlashWriteRetry (retry s)) s else s).
  rewrite !bind_get.
  unfold bind at 1, do_flash_write at 1.
  destruct (flash_write env (flash s0) (flashPos s0)
              (slice (readData s0) (bytesWritten s0) (pageSize s0)))
    as [ok m'].
  cbn [fst snd]. destruct ok; cbn [negb]; [|reflexivity].
  rewrite bind_emit, bind_get. simpl_globals.
  destruct (bytes_eqb _ _); cbn [negb]; reflexivity.
Qed.

(** A page write of the write phase: the page lies inside the bound, and
    the invariant holds again when the pass returns. *)

Lemma write_page_bounds (env : Env) (s s' : Globals) :
  geometry cfg s ->
  state s = WritingUpgrade ->
  haveDataInBuffer s = true ->
  write_inv cfg s ->
  final (write_page cfg env s) = Some s' ->
  pageSize s' = pageSize s
  /\ isUf2File s' = isUf2File s
  /\ fdata (upgradeBinary s') = fdata (upgradeBinary s)
  /\ (exists d,
        filter is_flash_write (log s')
        = filter is_flash_write (log s) ++ [EvFlashWrite (flashPos s) d]
        /\ FirmwareFlashStart cfg <= flashPos s
        /\ flashPos s + Z.of_nat (List.length d) <= write_limit cfg s)
  /\ (write_page cfg env s = Ret tt s' -> write_inv cfg s').
Proof.
  intros (Hpage & HB & Hdiv & _ & Hstart & Hlim & _) Hst Hhave Hinv.
  unfold write_inv in Hinv. rewrite Hst, Hhave in Hinv.
  destruct Hinv as (Hbw & Hmod & Hbase & Hin & Hfull).
  assert (Hfit : bytesWritten s + pageSize s <= blockReadSize cfg).
  { apply Z.mod_divide in Hmod; [|lia]. apply Z.mod_divide in Hdiv; [|lia].
    destruct Hmod as [a Ha]. destruct Hdiv as [b Hb].
    assert (Hab : a < b).
    { destruct (Z.lt_ge_cases a b) as [Hlt|Hge]; [exact Hlt|].
      pose proof (Z.mul_le_mono_nonneg_r b a (pageSize s) ltac:(lia) Hge).
      lia. }
    pose proof (Z.mul_le_mono_nonneg_r (a + 1) b (pageSize s)
                  ltac:(lia) ltac:(lia)).
    lia. }
  assert (Hnext : (bytesWritten s + pageSize s) mod pageSize s = 0).
  { apply Z.mod_divide; [lia|]. apply Z.divide_add_r.
    - apply Z.mod_divide; [lia | exact Hmod].
    - apply Z.divide_refl. }
  unfold write_limit in *.
  set (L := image_length (isUf2File s) (fdata (upgradeBinary s))) in *.
  rewrite write_page_eq. cbv zeta.
  assert (Hlen : forall buf off,
             Z.of_nat (List.length (slice buf off (pageSize s)))
             = pageSize s)
    by (intros; rewrite slice_length; lia).
  destruct (negb (retry s =? 0)); simpl_globals;
    match goal with
    | |- context [flash_write env ?m ?a ?d] =>
        destruct (flash_write env m a d) as [ok m']
    end;
    cbn [fst snd]; (destruct ok; cbn [negb]);
    try (destruct (bytes_eqb _ _); cbn [negb]);
    try (unfold bind; rewrite ShowProgress_unfold;
         destruct (totalSize cfg _ =? 0);
         [|destruct (percentDone cfg _ >=? _); rewrite block_done_eq]);
    cbn [final]; intros Hleaf; injection Hleaf as <-;
    simpl_globals;
    rewrite ?(u32_small (bytesWritten s + pageSize s)) by lia;
    rewrite ?(u32_small (flashPos s + pageSize s)) by lia;
    repeat match goal with
           | |- context [if ?a =? ?b then _ else _] =>
               destruct (Z.eqb_spec a b)
           | |- context [if ?a <? ?b then _ else _] =>
               destruct (Z.ltb_spec a b)
           end;
    simpl_globals; cbn [fdata fptr];
    (split; [reflexivity|]); (split; [reflexivity|]);
    (split; [reflexivity|]);
    (split;
     [eexists; split;
      [rewrite ?filter_app; cbn [filter is_flash_write app];
       rewrite ?app_nil_r; rewrite <- ?app_assoc; reflexivity
      |rewrite Hlen; lia]|]);
    try (intros Habs; discriminate Habs);
    intros _; unfold write_inv; simpl_globals; cbn [fdata fptr];
    rewrite ?Hst, ?Hhave; fold L;
    try exact I; repeat split; try assumption; try lia.
Qed.

Lemma image_length_nonneg (uf2 : bool) (file : list Z) :
  0 <= image_length uf2 file.
Proof.
  unfold image_length. destruct uf2; [apply Z.div_pos|]; lia.
Qed.

Lemma steady_pass (s s' : Globals) :
  geometry cfg s -> steady s s' -> write_inv cfg s' ->
  (exists ws,
     filter is_flash_write (log s') = filter is_flash_write (log s) ++ ws
     /\ Forall (write_allowed cfg (write_limit cfg s)) ws)
  /\ geometry cfg s' /\ write_limit cfg s' = write_limit cfg s
  /\ write_inv cfg s'.
Proof.
  intros G Hst Hinv. split; [|split; [|split]].
  - exists []. rewrite app_nil_r. split; [apply Hst | constructor].
  - now apply (steady_geometry s).
  - now apply steady_limit.
  - exact Hinv.
Qed.

Lemma write_inv_entering (s' : Globals) :
  haveDataInBuffer s' = false ->
  state s' = UnlockingFlash \/ state s' = ErasingFlash
  \/ (state s' = WritingUpgrade /\ flashPos s' = FirmwareFlashStart cfg) ->
  write_inv cfg s'.
Proof.
  intros Hh [E | [E | [E Hpos]]]; unfold write_inv; rewrite E;
    try exact Hh.
  rewrite Hh, Hpos. split; [lia|].
  pose proof (image_length_nonneg (isUf2File s') (fdata (upgradeBinary s'))).
  lia.
Qed.

Lemma bind_case {A B : Type} (m : M A) (k : A -> M B) (s : Globals) :
  (x <- m ;; k x) s
  = match m s with
    | Ret a s1 => k a s1
    | Halt b s1 => Halt b s1
    | Fault s1 => Fault s1
    | OutOfFuel => OutOfFuel
    end.
Proof. reflexivity. Qed.

(** One pass of the file build: what it writes is allowed, and when it
    returns the invariant holds again. *)

Lemma writeBinary_bounds (env : Env) (s s' : Globals) :
  geometry cfg s ->
  write_inv cfg s ->
  final (writeBinary cfg env s) = Some s' ->
  (exists ws,
     filter is_flash_write (log s') = filter is_flash_write (log s) ++ ws
     /\ Forall (write_allowed cfg (write_limit cfg s)) ws)
  /\ (writeBinary cfg env s = Ret tt s' ->
      geometry cfg s' /\ write_limit cfg s' = write_limit cfg s
      /\ write_inv cfg s').
Proof.
  intros G Hinv. unfold writeBinary.
  destruct (retry s >? maxRetries cfg).
  { destruct (@abort_writes unit env false
                (MsgOperationFailed (state_index (state s)) (maxRetries cfg))
                (write_limit cfg s) s) as (t & ws & Hrun & Hlog & Hws).
    rewrite Hrun. cbn [final]. intros H. injection H as <-.
    split; [now exists ws | discriminate]. }
  assert (Hunlock : forall t,
            steady s t -> haveDataInBuffer t = false ->
            state t = UnlockingFlash ->
            final (case_UnlockingFlash cfg env t) = Some s' ->
            (exists ws,
               filter is_flash_write (log s')
               = filter is_flash_write (log s) ++ ws
               /\ Forall (write_allowed cfg (write_limit cfg s)) ws)
            /\ geometry cfg s' /\ write_limit cfg s' = write_limit cfg s
            /\ write_inv cfg s').
  { intros t Ht Hhave Hstate H.
    apply case_UnlockingFlash_steady in H.
    destruct H as (_ & Hst & Hh & Hnew).
    apply steady_pass; [exact G | eapply steady_trans; eassumption|].
    apply write_inv_entering; [congruence|].
    rewrite Hstate in Hnew. tauto. }
  unfold write_inv in Hinv.
  destruct (state s) eqn:Hstate.
  - (* Initializing *)
    rewrite bind_MessageF, bind_modify. intros H.
    apply Hunlock in H; [|steady_now|exact Hinv|reflexivity].
    destruct H as (A & B). split; [exact A | intros _; exact B].
  - (* UnlockingFlash *)
    intros H.
    apply Hunlock in H; [|apply steady_refl|exact Hinv|exact Hstate].
    destruct H as (A & B). split; [exact A | intros _; exact B].
  - (* ErasingFlash *)
    destruct (has_erase_state (chip cfg)).
    + intros H. apply case_ErasingFlash_steady in H.
      destruct H as (_ & Hst & Hnew).
      assert (Hinv' : write_inv cfg s').
      { destruct Hnew as [(E & Hh) | (E & Hh & Hpos)].
        - apply write_inv_entering; [congruence|]. rewrite E, Hstate. tauto.
        - apply write_inv_entering; [exact Hh|]. tauto. }
      destruct (steady_pass s s' G Hst Hinv') as (A & B).
      split; [exact A | intros _; exact B].
    + cbn [final]. intros H. injection H as <-.
      assert (Hinv' : write_inv cfg s)
        by (unfold write_inv; now rewrite Hstate).
      destruct (steady_pass s s G (steady_refl s) Hinv') as (A & B).
      split; [exact A | intros _; exact B].
  - (* WritingUpgrade *)
    unfold case_WritingUpgrade. rewrite bind_get.
    destruct (haveDataInBuffer s) eqn:Hhave; cbn [negb].
    + intros H.
      assert (Hinv' : write_inv cfg s)
        by (unfold write_inv; now rewrite Hstate, Hhave).
      destruct (write_page_bounds env s s' G Hstate Hhave Hinv' H)
        as (P1 & P2 & P3 & (d & Hlog & Hlow & Hhigh) & Hret).
      assert (Hlim : write_limit cfg s' = write_limit cfg s)
        by (unfold write_limit; now rewrite P2, P3).
      split.
      * exists [EvFlashWrite (flashPos s) d]. split; [exact Hlog|].
        constructor; [|constructor]. left. split; assumption.
      * intros Hrun. split; [|split; [exact Hlim | now apply Hret]].
        unfold geometry in *. now rewrite Hlim, P1, P2, P3.
    + destruct Hinv as (Hlow & Hin).
      pose proof (ReadBlock_bounds env (write_limit cfg s) s G Hlow Hin)
        as Hfetch.
      rewrite (bind_case (ReadBlock cfg env)).
      destruct (ReadBlock cfg env s) as [ok s1|b s1|s1|];
        cbn [fetch_outcome] in Hfetch; try contradiction;
        [|cbn [final]; intros H; injection H as <-;
          split; [exact Hfetch | discriminate]
         |cbn [final]; discriminate].
      destruct Hfetch as (Hst & E1 & E2 & E3 & Hfull).
      pose proof Hst as (Q1 & Q2 & Q3 & Q4).
      destruct ok; cbn [negb].
      * rewrite bind_modify. intros H.
        set (s2 := set_bytesWritten 0
                     (set_retry 0 (set_haveDataInBuffer true s1))) in *.
        assert (Hst2 : steady s s2)
          by (eapply steady_trans; [exact Hst|]; unfold s2; steady_now).
        assert (G2 : geometry cfg s2) by now apply (steady_geometry s).
        assert (Hinv2 : write_inv cfg s2).
        { unfold write_inv, s2. simpl_globals. rewrite E1, Hstate.
          destruct G as (Hpage & HB & _).
          rewrite Q1, Q2, Q3, E2, Z.sub_0_r, Z.mod_0_l by lia.
          repeat split; try lia; try assumption. }
        assert (Hstate2 : state s2 = WritingUpgrade)
          by (unfold s2; simpl_globals; congruence).
        destruct (write_page_bounds env s2 s' G2 Hstate2 eq_refl Hinv2 H)
          as (P1 & P2 & P3 & (d & Hlog & Hlow2 & Hhigh) & Hret).
        pose proof (steady_limit s s2 Hst2) as Hlim2.
        assert (Hlim : write_limit cfg s' = write_limit cfg s)
          by (rewrite <- Hlim2; unfold write_limit; now rewrite P2, P3).
        split.
        -- exists [EvFlashWrite (flashPos s2) d]. split.
           ++ rewrite Hlog. f_equal. apply Hst2.
           ++ constructor; [|constructor]. left. rewrite <- Hlim2.
              split; assumption.
        -- intros Hrun. split; [|split; [exact Hlim | now apply Hret]].
           destruct Hst2 as (R1 & R2 & R3 & _).
           unfold geometry in *.
           rewrite Hlim, P1, P2, P3, R1, R2, R3. exact G.
      * cbn [ret final]. intros H. injection H as <-.
        assert (Hinv' : write_inv cfg s1).
        { unfold write_inv. rewrite E1, Hstate, E3, Hhave, E2, Q2, Q3.
          split; assumption. }
        destruct (steady_pass s s1 G Hst Hinv') as (A & B).
        split; [exact A | intros _; exact B].
  - (* VerifyingChecksum *)
    rewrite from_file. cbn [final]. intros H. injection H as <-.
    assert (Hinv' : write_inv cfg s)
      by (unfold write_inv; now rewrite Hstate).
    destruct (steady_pass s s G (steady_refl s) Hinv') as (A & B).
    split; [exact A | intros _; exact B].
  - (* SendingChecksumOK *)
    rewrite from_file. cbn [final]. intros H. injection H as <-.
    assert (Hinv' : write_inv cfg s)
      by (unfold write_inv; now rewrite Hstate).
    destruct (steady_pass s s G (steady_refl s) Hinv') as (A & B).
    split; [exact A | intros _; exact B].
  - (* SendingChecksumError *)
    rewrite from_file. cbn [final]. intros H. injection H as <-.
    assert (Hinv' : write_inv cfg s)
      by (unfold write_inv; now rewrite Hstate).
    destruct (steady_pass s s G (steady_refl s) Hinv') as (A & B).
    split; [exact A | intros _; exact B].
  - (* LockingFlash *)
    intros H. apply case_LockingFlash_steady in H.
    destruct H as (Hst & E).
    assert (Hinv' : write_inv cfg s')
      by (unfold write_inv; now rewrite E, Hstate).
    destruct (steady_pass s s' G Hst Hinv') as (A & B).
    split; [exact A | intros _; exact B].
Qed.

Lemma run_bounds (envs : list Env) :
  forall s,
    geometry cfg s -> write_inv cfg s ->
    forall s', final (run cfg envs s) = Some s' ->
    exists ws,
      filter is_flash_write (log s') = filter is_flash_write (log s) ++ ws
      /\ Forall (write_allowed cfg (write_limit cfg s)) ws.
Proof.
  induction envs as [|env rest IH]; intros s G Hinv s'; cbn [run].
  - cbn [final]. intros H. injection H as <-.
    exists []. rewrite app_nil_r. split; [reflexivity | constructor].
  - pose proof (writeBinary_bounds env s) as Hpass.
    destruct (writeBinary cfg env s) as [u s1|b s1|s1|]; cbn [final].
    + destruct (Hpass s1 G Hinv eq_refl) as ((ws1 & Hlog1 & Hws1) & Hret).
      destruct u.
      destruct (Hret eq_refl) as (G1 & Hlim & Hinv1).
      intros H. destruct (IH s1 G1 Hinv1 s' H) as (ws2 & Hlog2 & Hws2).
      exists (ws1 ++ ws2). split.
      * now rewrite Hlog2, Hlog1, app_assoc.
      * apply Forall_app. split; [exact Hws1|]. now rewrite <- Hlim.
    + intros H. injection H as <-. apply (Hpass s1 G Hinv eq_refl).
    + intros H. injection H as <-. apply (Hpass s1 G Hinv eq_refl).
    + discriminate.
Qed.

(** Where the file build writes.  From power-up on, whatever the hardware
    and the file system answer, every flash write of a run is either a page
    inside [[FirmwareFlashStart, FirmwareFlashStart + image length +
    blockReadSize)] (the image is written block by block, and one block
    more when the image fills its last block), or the text of a diagnostic
    message written at [FirmwareFlashStart] by [Reset (false)]. *)

Theorem file_build_writes_in_bounds (envs : list Env) (s s' : Globals) :
  geometry cfg s ->
  state s = Initializing ->
  haveDataInBuffer s = false ->
  final (run cfg envs s) = Some s' ->
  forall a d,
    In (EvFlashWrite a d) (log s') ->
    In (EvFlashWrite a d) (log s)
    \/ (FirmwareFlashStart cfg <= a
        /\ a + Z.of_nat (List.length d) <= write_limit cfg s)
    \/ (a = FirmwareFlashStart cfg
        /\ exists m, d = bytes_of_string (SafeVsnprintf m)).
Proof.
  intros G Hstate Hhave Hrun a d Hin.
  assert (Hinv : write_inv cfg s)
    by (unfold write_inv; now rewrite Hstate).
  destruct (run_bounds envs s G Hinv s' Hrun) as (ws & Hlog & Hws).
  assert (Hw : In (EvFlashWrite a d) (filter is_flash_write (log s')))
    by (apply filter_In; split; [exact Hin | reflexivity]).
  rewrite Hlog in Hw. apply in_app_or in Hw as [Hold | Hnew].
  - left. now apply filter_In in Hold.
  - right. rewrite Forall_forall in Hws. apply (Hws _ Hnew).
Qed.

End FileBounds.

(** ** The order of the phases *)

Section Phases.

Variable cfg : Config.
Variable env : Env.

Ltac state_leaf :=
  simpl_globals; intros Hleaf; injection Hleaf as <-; simpl_globals.

Lemma Reset_state {A : Type} (b : bool) (s s' : Globals) :
  final (@Reset cfg env A b s) = Some s' -> state s' = state s.
Proof.
  destruct (@Reset_halts cfg env A b s) as (t & Hrun & Hst & _).
  rewrite Hrun. cbn [final]. intros H. now injection H as <-.
Qed.

Lemma case_UnlockingFlash_state (s s' : Globals) :
  final (case_UnlockingFlash cfg env s) = Some s' ->
  state s' = state s
  \/ state s' = (if has_erase_state (chip cfg)
                 then ErasingFlash else WritingUpgrade).
Proof.
  unfold case_UnlockingFlash, bind, do_flash_unlock, get, modify,
    emit, ret, when, incr_retry, MessageF.
  destruct (chip cfg); split_ifs; state_leaf; auto.
Qed.

Lemma case_ErasingFlash_state (s s' : Globals) :
  final (case_ErasingFlash cfg env s) = Some s' ->
  state s' = state s \/ state s' = WritingUpgrade.
Proof.
  unfold case_ErasingFlash, erased_or_erase, bind, do_flash_erase, get,
    modify, emit, ret, when, incr_retry, MessageF.
  split_ifs; state_leaf; auto.
Qed.

Lemma ReadBlock_state (s s' : Globals) :
  final (ReadBlock cfg env s) = Some s' -> state s' = state s.
Proof.
  unfold ReadBlock. destruct (IAP_VIA_SPI cfg).
  - pose proof (ReadBlock_spi_frame cfg env s) as H.
    destruct (ReadBlock_spi cfg env s); cbn [final]; try contradiction;
      intros E; injection E as <-; tauto.
  - pose proof (ReadBlock_file_outcome cfg env s) as H.
    destruct (ReadBlock_file cfg env s) as [[|] s1|b s1|s1|];
      cbn [read_outcome final] in *; try contradiction; try discriminate;
      intros E; injection E as <-; tauto.
Qed.

Lemma case_WritingUpgrade_state (s s' : Globals) :
  final (case_WritingUpgrade cfg env s) = Some s' ->
  state s' = state s
  \/ state s' = (if IAP_VIA_SPI cfg then VerifyingChecksum else LockingFlash).
Proof.
  unfold case_WritingUpgrade. rewrite bind_get.
  destruct (haveDataInBuffer s); cbn [negb].
  - apply write_page_state.
  - unfold bind at 1.
    destruct (ReadBlock cfg env s) as [ok s1|b s1|s1|] eqn:Hread;
      cbn [final]; try discriminate;
      pose proof (ReadBlock_state s s1) as Hs1;
      rewrite Hread in Hs1; specialize (Hs1 eq_refl).
    + destruct ok; cbn [negb].
      * rewrite bind_modify. intros H. apply write_page_state in H.
        cbn [state set_bytesWritten set_retry set_haveDataInBuffer] in H.
        now rewrite Hs1 in H.
      * cbn [ret final]. intros H. injection H as <-. now left.
    + intros H. injection H as <-. now left.
    + intros H. injection H as <-. now left.
Qed.

Lemma checksum_cases_state (s s' : Globals) :
  (final (case_VerifyingChecksum cfg env s) = Some s' ->
   state s' = state s \/ state s' = SendingChecksumOK
   \/ state s' = SendingChecksumError)
  /\ (final (case_SendingChecksumOK cfg env s) = Some s' ->
      state s' = state s \/ state s' = LockingFlash)
  /\ (final (case_SendingChecksumError cfg env s) = Some s' ->
      state s' = state s \/ state s' = WritingUpgrade).
Proof.
  split; [|split].
  - unfold case_VerifyingChecksum. rewrite bind_get.
    destruct (timed_out cfg env s).
    + rewrite bind_MessageF. intros H. apply Reset_state in H. now left.
    + unfold bind, is_spi_transfer_complete, when, get, modify, ret,
        MessageF, setup_spi.
      destruct (spi_done env); split_ifs; state_leaf; auto.
  - unfold case_SendingChecksumOK, bind, is_spi_transfer_complete, when,
      get, modify, ret, MessageF.
    split_ifs; state_leaf; auto.
  - unfold case_SendingChecksumError. rewrite bind_get.
    destruct (timed_out cfg env s).
    + rewrite bind_MessageF. intros H. apply Reset_state in H. now left.
    + unfold bind, is_spi_transfer_complete, when, get, modify, ret.
      split_ifs; state_leaf; auto.
Qed.

Lemma case_LockingFlash_state (s s' : Globals) :
  final (case_LockingFlash cfg env s) = Some s' -> state s' = state s.
Proof.
  unfold case_LockingFlash.
  destruct (is_same5x (chip cfg)).
  - rewrite bind_do_flash_lock.
    destruct (flash_lock env _ _).
    + rewrite bind_MessageF. intros H. now apply Reset_state in H.
    + unfold incr_retry, modify. state_leaf. reflexivity.
  - rewrite !bind_get, bind_do_flash_lock.
    destruct (flash_lock env _ _).
    + rewrite bind_modify, bind_get. unfold when.
      destruct (_ >=? _).
      * rewrite bind_case, bind_MessageF.
        match goal with
        | |- context [@Reset cfg env ?T true ?t] =>
            destruct (@Reset_halts cfg env T true t)
              as (t' & Hrun & Hst & _)
        end.
        rewrite Hrun. cbn [final]. intros H. injection H as <-.
        now rewrite Hst.
      * state_leaf. reflexivity.
    + unfold incr_retry, modify. state_leaf. reflexivity.
Qed.

Lemma writeBinary_next_state (s s' : Globals) :
  final (writeBinary cfg env s) = Some s' ->
  In (state s') (next_states cfg (state s)).
Proof.
  unfold writeBinary.
  destruct (retry s >? maxRetries cfg).
  { rewrite bind_MessageF. intros H. apply Reset_state in H.
    cbn [state formatted set_log set_formatBuffer] in H. rewrite H.
    unfold next_states.
    destruct (state s), (IAP_VIA_SPI cfg); cbn; auto. }
  pose proof (checksum_cases_state s s') as (Hv & Hok & Herr).
  unfold next_states.
  destruct (state s) eqn:Hstate.
  - rewrite bind_MessageF, bind_modify. intros H.
    apply case_UnlockingFlash_state in H. simpl_globals.
    cbn [In]. destruct H as [-> | ->]; auto.
  - intros H. apply case_UnlockingFlash_state in H. rewrite Hstate in H.
    cbn [In]. destruct H as [-> | ->]; auto.
  - destruct (has_erase_state (chip cfg)).
    + intros H. apply case_ErasingFlash_state in H. rewrite Hstate in H.
      cbn [In]. destruct H as [-> | ->]; auto.
    + cbn [final]. intros H. injection H as <-. rewrite Hstate. now left.
  - intros H. apply case_WritingUpgrade_state in H. rewrite Hstate in H.
    cbn [In]. destruct H as [-> | ->]; auto.
  - destruct (IAP_VIA_SPI cfg).
    + intros H. apply Hv in H.
      cbn [In]. destruct H as [-> | [-> | ->]]; auto.
    + cbn [final]. intros H. injection H as <-. rewrite Hstate. now left.
  - destruct (IAP_VIA_SPI cfg).
    + intros H. apply Hok in H.
      cbn [In]. destruct H as [-> | ->]; auto.
    + cbn [final]. intros H. injection H as <-. rewrite Hstate. now left.
  - destruct (IAP_VIA_SPI cfg).
    + intros H. apply Herr in H.
      cbn [In]. destruct H as [-> | ->]; auto.
    + cbn [final]. intros H. injection H as <-. rewrite Hstate. now left.
  - intros H. apply case_LockingFlash_state in H. rewrite Hstate in H.
    rewrite H. now left.
Qed.

End Phases.

Lemma next_states_forward (cfg : Config) (st st' : ProcessState) :
  IAP_VIA_SPI cfg = false ->
  In st' (next_states cfg st) -> state_index st <= state_index st'.
Proof.
  intros Hfile. unfold next_states. rewrite Hfile.
  destruct st, (has_erase_state (chip cfg)); cbn [In];
    intros H; repeat (destruct H as [<- | H]; [cbn; lia|]);
    contradiction.
Qed.

(** The phases come in one order.  Whatever a pass of [writeBinary] does,
    the state it leaves is the state it started in or the next phase of the
    build: unlock, erase (on the chips that have the state), write, then
    lock in the file build and the checksum exchange in the SBC build.  The
    only way back is from [SendingChecksumError] to [WritingUpgrade], so over
    a whole run of the file build the phase never goes back; the file build
    never enters a checksum state, and nothing leaves [LockingFlash]. *)

Theorem writeBinary_follows_phases (cfg : Config) :
  (forall env s s',
     final (writeBinary cfg env s) = Some s' ->
     In (state s') (next_states cfg (state s)))
  /\ (IAP_VIA_SPI cfg = false ->
      forall envs s s',
        final (run cfg envs s) = Some s' ->
        state_index (state s) <= state_index (state s')).
Proof.
  split; [intros env s s'; apply writeBinary_next_state|].
  intros Hfile.
  induction envs as [|env rest IH]; intros s s'; cbn [run].
  - cbn [final]. intros H. injection H as <-. lia.
  - pose proof (writeBinary_next_state cfg env s) as Hpass.
    destruct (writeBinary cfg env s) as [u s1|b s1|s1|]; cbn [final].
    + intros H. apply IH in H.
      specialize (Hpass s1 eq_refl).
      apply (next_states_forward cfg _ _ Hfile) in Hpass. lia.
    + intros H. injection H as <-.
      apply (next_states_forward cfg _ _ Hfile), Hpass. reflexivity.
    + intros H. injection H as <-.
      apply (next_states_forward cfg _ _ Hfile), Hpass. reflexivity.
    + discriminate.
Qed.

(** ** Which hardware call belongs to which phase *)

Section Discipline.

Variable cfg : Config.
Variable env : Env.

Lemma emits_refl (P : Event -> Prop) (s : Globals) : emits P s s.
Proof. exists []. split; [now rewrite app_nil_r | constructor]. Qed.

Lemma emits_trans (P : Event -> Prop) (a b c : Globals) :
  emits P a b -> emits P b c -> emits P a c.
Proof.
  intros (e1 & H1 & F1) (e2 & H2 & F2). exists (e1 ++ e2). split.
  - now rewrite H2, H1, app_assoc.
  - apply Forall_app. now split.
Qed.

Lemma emits_impl (P Q : Event -> Prop) (s s' : Globals) :
  (forall e, P e -> Q e) -> emits P s s' -> emits Q s s'.
Proof.
  intros Himp (evs & Hlog & Hall). exists evs. split; [exact Hlog|].
  eapply Forall_impl; eassumption.
Qed.

Lemma emits_same_log (P : Event -> Prop) (s s' : Globals) :
  log s' = log s -> emits P s s'.
Proof.
  intros H. exists []. split; [now rewrite app_nil_r | constructor].
Qed.

Lemma emits_one (P : Event -> Prop) (s s' : Globals) (e : Event) :
  log s' = log s ++ [e] -> P e -> emits P s s'.
Proof. intros H He. exists [e]. split; [exact H | now constructor]. Qed.

Lemma quiet_in_phase (s : Globals) (e : Event) :
  quiet_call cfg e -> call_in_phase cfg s e.
Proof. destruct e; cbn; try tauto. Qed.

Lemma emits_formatted (b : bool) (m : Message) (s : Globals) :
  emits (quiet_call cfg) s (if b then formatted m s else s).
Proof.
  destruct b; [|apply emits_refl].
  apply (emits_one _ _ _ (EvMessage m)); [reflexivity | exact I].
Qed.

(** A message, then [Reset]. *)

Lemma abort_emits {A : Type} (b : bool) (m : Message) (s : Globals) :
  exists s',
    (MessageF m ;; @Reset cfg env A b) s = Halt b s'
    /\ emits (quiet_call cfg) s s'.
Proof.
  rewrite bind_MessageF.
  destruct (@Reset_halts cfg env A b (formatted m s))
    as (s' & Hrun & _ & _ & _ & _ & Hlog & _).
  exists s'. split; [exact Hrun|].
  eexists. split.
  - rewrite Hlog. cbn [formatted]. simpl_globals.
    rewrite <- !app_assoc. reflexivity.
  - apply Forall_app. split; [repeat constructor|].
    apply Forall_app. split.
    + destruct (negb b && _); [|constructor].
      apply Forall_app. split.
      * constructor; [reflexivity|]. constructor; [|constructor].
        split; [reflexivity|]. now exists m.
      * destruct (is_same5x (chip cfg)); repeat constructor.
    + apply Forall_app. split; [|repeat constructor].
      destruct (IAP_VIA_SPI cfg); repeat constructor.
Qed.

Ltac via_abort :=
  match goal with
  | |- context [(MessageF ?m ;; @Reset cfg env ?T ?b) ?t] =>
      let t' := fresh "t'" in
      let Hrun := fresh "Hrun" in
      let Hev := fresh "Hev" in
      destruct (@abort_emits T b m t) as (t' & Hrun & Hev);
      rewrite Hrun; cbn [final]; intros Hleaf; injection Hleaf as <-
  end.

Ltac emits_now :=
  simpl_globals; cbn [fdata fptr];
  first [ apply emits_same_log; reflexivity
        | eexists; split;
          [simpl_globals; rewrite <- ?app_assoc; reflexivity
          |repeat constructor] ].

Ltac emits_leaf :=
  simpl_globals; intros Hleaf; injection Hleaf as <-; emits_now.

Lemma ReadBlockUf2_loop_emits (fuel : nat) :
  forall k seekPos s s',
    final (ReadBlockUf2_loop cfg env fuel k seekPos s) = Some s' ->
    emits (quiet_call cfg) s s'.
Proof.
  induction fuel as [|fuel IH]; intros k seekPos s s';
    rewrite ReadBlockUf2_loop_eq;
    (destruct (u32 (seekPos + bytesRead s * 2) =? firmwareFileSize s);
     [emits_leaf|]);
    (destruct (negb (f_read env k));
     [cbn [bind incr_retry modify ret]; emits_leaf|]);
    cbv zeta;
    (destruct (negb (Z.of_nat (List.length (file_bytes sizeof_UF2_Block s))
                     =? sizeof_UF2_Block));
     [cbn [bind incr_retry modify ret]; emits_leaf|]);
    (match goal with |- context [if ?c then (MessageF _ ;; _) _ else _] =>
       destruct c end;
     [via_abort; (eapply emits_trans; [|exact Hev]); emits_now|]);
    (match goal with |- context [if ?c then (MessageF _ ;; _) _ else _] =>
       destruct c end;
     [via_abort; (eapply emits_trans; [|exact Hev]); emits_now|]);
    match goal with |- context [if ?c then _ else Ret true _] =>
      destruct c end;
    try emits_leaf.
  - cbn. discriminate.
  - intros H. apply IH in H. eapply emits_trans; [|exact H]. emits_now.
Qed.

Lemma ReadBlock_emits (s s' : Globals) :
  final (ReadBlock cfg env s) = Some s' -> emits (quiet_call cfg) s s'.
Proof.
  unfold ReadBlock. destruct (IAP_VIA_SPI cfg).
  - unfold ReadBlock_spi.
    destruct (transferPending s).
    + rewrite bind_case. unfold is_spi_transfer_complete at 1.
      destruct (spi_done env).
      * cbn [bind modify ret]. emits_leaf.
      * destruct (negb (flashPos s =? FirmwareFlashStart cfg) && _).
        -- cbn [bind modify ret disable_spi emit]. emits_leaf.
        -- destruct (_ >? _); [|emits_leaf].
           via_abort. exact Hev.
    + cbn [bind setup_spi ret]. emits_leaf.
  - unfold ReadBlock_file.
    rewrite bind_get, bind_when_MessageF, bind_get.
    match goal with |- context [isUf2File ?t] => set (s0 := t) end.
    assert (H0 : emits (quiet_call cfg) s s0) by apply emits_formatted.
    destruct (isUf2File s0).
    + unfold ReadBlockUf2.
      destruct (negb (f_lseek env _)).
      * cbn [bind incr_retry modify ret]. intros H.
        eapply emits_trans; [exact H0|]. revert H. emits_leaf.
      * intros H. apply ReadBlockUf2_loop_emits in H.
        eapply emits_trans; [exact H0|].
        eapply emits_trans; [|exact H]. emits_now.
    + clearbody s0. intros H. eapply emits_trans; [exact H0|].
      revert H. cbv zeta.
      destruct (negb (f_lseek env _));
        [cbn [bind incr_retry modify ret]; emits_leaf|].
      destruct (negb (f_read env 0));
        [cbn [bind incr_retry modify ret]; emits_leaf|].
      destruct (_ <? _); emits_leaf.
Qed.

Lemma block_done_emits (s s' : Globals) :
  final (block_done cfg env s) = Some s' ->
  emits (quiet_call cfg) s s'
  /\ flashPos s' = flashPos s /\ pageSize s' = pageSize s.
Proof.
  unfold block_done, bind, get, when, modify, ret, setup_spi, closeBinary,
    emit.
  destruct (bytesWritten s =? blockReadSize cfg); simpl_globals;
    [|intros H; injection H as <-;
      split; [apply emits_refl | split; reflexivity]].
  destruct (bytesRead s <? blockReadSize cfg); simpl_globals;
    [|intros H; injection H as <-;
      split; [emits_now | split; reflexivity]].
  destruct (IAP_VIA_SPI cfg); simpl_globals;
    intros H; injection H as <-;
    (split; [emits_now | split; reflexivity]).
Qed.

(** A page write: one write, at the cursor, of one page. *)

Lemma write_page_emits (s s' : Globals) :
  final (write_page cfg env s) = Some s' ->
  emits (fun e => quiet_call cfg e
                  \/ e = EvFlashWrite (flashPos s)
                           (slice (readData s) (bytesWritten s)
                                  (pageSize s))) s s'.
Proof.
  rewrite write_page_eq. cbv zeta.
  set (s0 := if negb (retry s =? 0)
             then formatted (MsgFlashWriteRetry (retry s)) s else s).
  destruct (formatted_frame (negb (retry s =? 0))
              (MsgFlashWriteRetry (retry s)) s)
    as (_ & E2 & E3 & _ & _ & E6 & _ & E8 & _).
  fold s0 in E2, E3, E6, E8.
  assert (H0 : emits (quiet_call cfg) s s0) by apply emits_formatted.
  rewrite <- E2, <- E3, <- E6, <- E8.
  set (P := fun e => quiet_call cfg e
                     \/ e = EvFlashWrite (flashPos s0)
                              (slice (readData s0) (bytesWritten s0)
                                     (pageSize s0))).
  assert (Hq : forall a b, emits (quiet_call cfg) a b -> emits P a b)
    by (intros a b; apply emits_impl; intros e He; now left).
  intros H. eapply emits_trans; [apply Hq; exact H0|].
  clearbody s0. clear H0 E2 E3 E6 E8. revert H.
  destruct (flash_write env (flash s0) (flashPos s0)
              (slice (readData s0) (bytesWritten s0) (pageSize s0)))
    as [ok m'].
  cbn [fst snd].
  assert (Hwrite : forall t, log t = log s0 ++ [EvFlashWrite (flashPos s0)
                      (slice (readData s0) (bytesWritten s0) (pageSize s0))]
                    -> emits P s0 t).
  { intros t Ht. apply (emits_one P s0 t _ Ht). now right. }
  destruct ok; cbn [negb].
  - destruct (bytes_eqb _ _); cbn [negb].
    + rewrite bind_case, ShowProgress_unfold.
      match goal with
      | |- context [totalSize cfg ?t =? 0] => set (s3 := t)
      end.
      assert (H3 : emits P s0 s3).
      { eapply emits_trans; [apply (Hwrite (set_flash m'
          (set_log (log s0 ++ [EvFlashWrite (flashPos s0)
             (slice (readData s0) (bytesWritten s0) (pageSize s0))]) s0)));
          reflexivity|].
        apply Hq. unfold s3. emits_now. }
      destruct (totalSize cfg s3 =? 0).
      * cbn [final]. intros H. injection H as <-. exact H3.
      * destruct (percentDone cfg s3 >=? reportNextPercent s3).
        -- intros H. apply block_done_emits in H. destruct H as (H & _).
           eapply emits_trans; [exact H3|]. apply Hq.
           eapply emits_trans; [|exact H]. emits_now.
        -- intros H. apply block_done_emits in H. destruct H as (H & _).
           eapply emits_trans; [exact H3|]. now apply Hq.
    + cbn [final]. intros H. injection H as <-.
      eapply emits_trans; [apply (Hwrite (set_flash m'
          (set_log (log s0 ++ [EvFlashWrite (flashPos s0)
             (slice (readData s0) (bytesWritten s0) (pageSize s0))]) s0)));
          reflexivity|].
      apply Hq. emits_now.
  - cbn [final]. intros H. injection H as <-.
    eapply emits_trans; [apply (Hwrite (set_flash m'
        (set_log (log s0 ++ [EvFlashWrite (flashPos s0)
           (slice (readData s0) (bytesWritten s0) (pageSize s0))]) s0)));
        reflexivity|].
    apply Hq. emits_now.
Qed.

Ltac one_of_two :=
  eexists; split;
  [simpl_globals; rewrite <- ?app_assoc; reflexivity
  |repeat (apply Forall_cons || apply Forall_nil);
   first [left; exact I | right; eexists; reflexivity
         | right; reflexivity]].

Ltac two_leaf :=
  simpl_globals; intros Hleaf; injection Hleaf as <-;
  first [apply emits_same_log; reflexivity | one_of_two].

Lemma case_UnlockingFlash_emits (s s' : Globals) :
  final (case_UnlockingFlash cfg env s) = Some s' ->
  emits (fun e => quiet_call cfg e
                  \/ exists b,
                       e = EvFlashUnlock
                             (if is_same5x (chip cfg)
                              then lock_region_start cfg else flashPos s) b)
        s s'.
Proof.
  unfold case_UnlockingFlash, lock_region_start.
  destruct (is_same5x (chip cfg));
    unfold bind, do_flash_unlock, get, modify, emit, ret, when,
      incr_retry, MessageF;
    split_ifs; two_leaf.
Qed.

Lemma case_ErasingFlash_emits (s s' : Globals) :
  final (case_ErasingFlash cfg env s) = Some s' ->
  emits (fun e => quiet_call cfg e \/ e = EvFlashErase (flashPos s)) s s'.
Proof.
  unfold case_ErasingFlash, erased_or_erase, bind, do_flash_erase, get,
    modify, emit, ret, when, incr_retry, MessageF.
  split_ifs; two_leaf.
Qed.

Lemma checksum_cases_emit (s s' : Globals) :
  (final (case_VerifyingChecksum cfg env s) = Some s' ->
   emits (quiet_call cfg) s s')
  /\ (final (case_SendingChecksumOK cfg env s) = Some s' ->
      emits (quiet_call cfg) s s')
  /\ (final (case_SendingChecksumError cfg env s) = Some s' ->
      emits (quiet_call cfg) s s').
Proof.
  split; [|split].
  - unfold case_VerifyingChecksum. rewrite bind_get.
    destruct (timed_out cfg env s).
    + via_abort. exact Hev.
    + unfold bind, is_spi_transfer_complete, when, get, modify, ret,
        MessageF, setup_spi.
      destruct (spi_done env); simpl_globals; [|emits_leaf].
      destruct (_ =? _); emits_leaf.
  - unfold case_SendingChecksumOK, bind, is_spi_transfer_complete, when,
      get, modify, ret, MessageF.
    destruct (timed_out cfg env s); simpl_globals; [emits_leaf|].
    destruct (spi_done env); emits_leaf.
  - unfold case_SendingChecksumError. rewrite bind_get.
    destruct (timed_out cfg env s).
    + via_abort. exact Hev.
    + unfold bind, is_spi_transfer_complete, when, get, modify, ret.
      destruct (spi_done env); emits_leaf.
Qed.

Lemma case_LockingFlash_emits (s s' : Globals) :
  final (case_LockingFlash cfg env s) = Some s' ->
  emits (fun e => quiet_call cfg e
                  \/ exists b,
                       e = EvFlashLock
                             (if is_same5x (chip cfg)
                              then lock_region_start cfg else flashPos s) b)
        s s'.
Proof.
  set (P := fun e => quiet_call cfg e
                     \/ exists b,
                          e = EvFlashLock
                                (if is_same5x (chip cfg)
                                 then lock_region_start cfg
                                 else flashPos s) b).
  assert (Hq : forall a b, emits (quiet_call cfg) a b -> emits P a b)
    by (intros a b; apply emits_impl; intros e He; now left).
  unfold case_LockingFlash. unfold lock_region_start in P.
  destruct (is_same5x (chip cfg)).
  - rewrite bind_do_flash_lock.
    destruct (flash_lock env _ _).
    + via_abort. eapply emits_trans; [|apply Hq; exact Hev].
      one_of_two.
    + unfold incr_retry, modify. two_leaf.
  - rewrite !bind_get, bind_do_flash_lock.
    destruct (flash_lock env _ _).
    + rewrite bind_modify, bind_get. unfold when.
      destruct (_ >=? _).
      * rewrite bind_case. via_abort.
        eapply emits_trans; [|apply Hq; exact Hev]. one_of_two.
      * cbn [bind ret modify]. two_leaf.
    + unfold incr_retry, modify. two_leaf.
Qed.

Lemma writeBinary_emits (s s' : Globals) :
  final (writeBinary cfg env s) = Some s' ->
  emits (call_in_phase cfg s) s s'.
Proof.
  assert (Hq : forall a b, emits (quiet_call cfg) a b ->
                           emits (call_in_phase cfg s) a b)
    by (intros a b; apply emits_impl; intros e; apply quiet_in_phase).
  unfold writeBinary.
  destruct (retry s >? maxRetries cfg).
  { via_abort. now apply Hq. }
  pose proof (checksum_cases_emit s s') as (Hv & Hok & Herr).
  destruct (state s) eqn:Hstate.
  - rewrite bind_MessageF, bind_modify. intros H.
    apply case_UnlockingFlash_emits in H.
    apply (emits_trans _ s
             (set_state UnlockingFlash (formatted MsgUnlockingFlash s)) s');
      [apply Hq; emits_now|].
    revert H. apply emits_impl. intros e [He | (b & ->)];
      [now apply quiet_in_phase|].
    cbn. left. split; [left; exact Hstate | reflexivity].
  - intros H. apply case_UnlockingFlash_emits in H.
    revert H. apply emits_impl. intros e [He | (b & ->)];
      [now apply quiet_in_phase|].
    cbn. left. split; [right; exact Hstate | reflexivity].
  - destruct (has_erase_state (chip cfg)).
    + intros H. apply case_ErasingFlash_emits in H.
      revert H. apply emits_impl. intros e [He | ->];
        [now apply quiet_in_phase|].
      cbn. split; [exact Hstate | reflexivity].
    + cbn [final]. intros H. injection H as <-. apply emits_refl.
  - unfold case_WritingUpgrade. rewrite bind_get.
    assert (Hpage : forall t,
              flashPos t = flashPos s -> pageSize t = pageSize s ->
              final (write_page cfg env t) = Some s' ->
              emits (call_in_phase cfg s) t s').
    { intros t E1 E2 H. apply write_page_emits in H.
      revert H. apply emits_impl. intros e [He | ->];
        [now apply quiet_in_phase|].
      cbn. left. rewrite E1, E2, slice_length. auto. }
    destruct (haveDataInBuffer s); cbn [negb].
    + now apply Hpage.
    + rewrite bind_case.
      pose proof (ReadBlock_emits s) as Hread.
      pose proof (ReadBlock_file_outcome cfg env s) as Hfile.
      pose proof (ReadBlock_spi_frame cfg env s) as Hspi.
      assert (Hframe : forall ok s1,
                ReadBlock cfg env s = Ret ok s1 ->
                flashPos s1 = flashPos s /\ pageSize s1 = pageSize s).
      { unfold ReadBlock. destruct (IAP_VIA_SPI cfg).
        - intros ok s1. unfold ReadBlock_spi.
          destruct (transferPending s).
          + rewrite bind_case. unfold is_spi_transfer_complete at 1.
            destruct (spi_done env).
            * cbn [bind modify ret]. intros H. injection H as _ <-.
              split; reflexivity.
            * destruct (negb (flashPos s =? FirmwareFlashStart cfg) && _).
              -- cbn [bind modify ret disable_spi emit]. intros H.
                 injection H as _ <-. split; reflexivity.
              -- destruct (_ >? _).
                 ++ rewrite bind_MessageF.
                    destruct (@Reset_halts cfg env bool false
                                (formatted MsgTimeoutResponse s))
                      as (t & Hrun & _).
                    rewrite Hrun. discriminate.
                 ++ intros H. injection H as _ <-. split; reflexivity.
          + cbn [bind setup_spi ret]. intros H. injection H as _ <-.
            split; reflexivity.
        - intros ok s1 E. rewrite E in Hfile.
          destruct ok; cbn [read_outcome] in Hfile; tauto. }
      destruct (ReadBlock cfg env s) as [ok s1|b s1|s1|]; cbn [final];
        try discriminate;
        try (intros H; injection H as <-; apply Hq, Hread; reflexivity).
      destruct (Hframe ok s1 eq_refl) as (E1 & E2).
      specialize (Hread s1 eq_refl).
      destruct ok; cbn [negb].
      * rewrite bind_modify. intros H.
        eapply emits_trans; [apply Hq; exact Hread|].
        eapply emits_trans; [|apply Hpage; [| |exact H]; assumption].
        apply emits_same_log. reflexivity.
      * cbn [ret final]. intros H. injection H as <-. now apply Hq.
  - destruct (IAP_VIA_SPI cfg).
    + intros H. now apply Hq, Hv.
    + cbn [final]. intros H. injection H as <-. apply emits_refl.
  - destruct (IAP_VIA_SPI cfg).
    + intros H. now apply Hq, Hok.
    + cbn [final]. intros H. injection H as <-. apply emits_refl.
  - destruct (IAP_VIA_SPI cfg).
    + intros H. now apply Hq, Herr.
    + cbn [final]. intros H. injection H as <-. apply emits_refl.
  - intros H. apply case_LockingFlash_emits in H.
    revert H. apply emits_impl. intros e [He | (b & ->)];
      [now apply quiet_in_phase|].
    cbn. split; [exact Hstate | reflexivity].
Qed.

(** Every hardware call in its phase.  Whatever a pass of [writeBinary]
    does, an unlock is made only in [Initializing] and [UnlockingFlash], an
    erase only in [ErasingFlash], a page write only in [WritingUpgrade] and
    a lock only in [LockingFlash], each at the cursor the pass started with
    (the SAME5x unlocks and locks from the start of its lock region); the
    only other flash accesses are the unlock and the write of the message
    at [FirmwareFlashStart] that [Reset (false)] makes. *)

Theorem writeBinary_calls_in_phase (s s' : Globals) :
  final (writeBinary cfg env s) = Some s' ->
  let here := if is_same5x (chip cfg) then lock_region_start cfg
              else flashPos s in
  exists evs,
    log s' = log s ++ evs
    /\ (forall a b, In (EvFlashUnlock a b) evs ->
           ((state s = Initializing \/ state s = UnlockingFlash)
            /\ a = here)
           \/ a = FirmwareFlashStart cfg)
    /\ (forall a, In (EvFlashErase a) evs ->
           state s = ErasingFlash /\ a = flashPos s)
    /\ (forall a d, In (EvFlashWrite a d) evs ->
           (state s = WritingUpgrade /\ a = flashPos s
            /\ List.length d = Z.to_nat (pageSize s))
           \/ (a = FirmwareFlashStart cfg
               /\ exists m, d = bytes_of_string (SafeVsnprintf m)))
    /\ (forall a b, In (EvFlashLock a b) evs ->
           state s = LockingFlash /\ a = here).
Proof.
  intros H here. apply writeBinary_emits in H.
  destruct H as (evs & Hlog & Hall). exists evs.
  rewrite Forall_forall in Hall.
  split; [exact Hlog|].
  split; [intros a b Hin; exact (Hall _ Hin)|].
  split; [intros a Hin; exact (Hall _ Hin)|].
  split; [intros a d Hin; exact (Hall _ Hin)|].
  intros a b Hin. exact (Hall _ Hin).
Qed.

End Discipline.

(** ** Where the unlock and the erase phase work *)

Section Region.

Variable cfg : Config.
Variable page : Z.

Hypothesis region : 0 <= FirmwareFlashStart cfg < FirmwareFlashEnd cfg.
Hypothesis page_fits : 0 < page /\ FirmwareFlashEnd cfg + page <= 2 ^ 32.
Hypothesis sectors_fit :
  0 <= GetEraseRegionSize cfg
  /\ FirmwareFlashEnd cfg + GetEraseRegionSize cfg <= 2 ^ 32
  /\ FirmwareFlashEnd cfg + 128 * 1024 <= 2 ^ 32.

Lemma sectorSize_at_bound (pos : Z) :
  0 <= sectorSize_at cfg pos
  /\ FirmwareFlashEnd cfg + sectorSize_at cfg pos <= 2 ^ 32.
Proof.
  unfold sectorSize_at.
  destruct (chip cfg);
    repeat match goal with
           | |- context [if ?c then _ else _] => destruct c
           end; lia.
Qed.

Lemma case_UnlockingFlash_cursor (env : Env) (s s' : Globals) :
  final (case_UnlockingFlash cfg env s) = Some s' ->
  pageSize s' = pageSize s
  /\ (flashPos s' = flashPos s
      \/ flashPos s' = FirmwareFlashStart cfg
      \/ (flashPos s' = u32 (flashPos s + pageSize s)
          /\ flashPos s' < FirmwareFlashEnd cfg)).
Proof.
  unfold case_UnlockingFlash.
  destruct (is_same5x (chip cfg)).
  - unfold bind, do_flash_unlock, get, modify, emit, ret, when,
      incr_retry, MessageF.
    split_ifs; intros H; injection H as <-; cbn; auto.
  - rewrite !bind_get. unfold do_flash_unlock.
    rewrite bind_assoc, bind_emit, bind_ret.
    destruct (flash_unlock env _ _).
    + rewrite bind_modify, bind_get. simpl_globals.
      destruct (Z.geb_spec (u32 (flashPos s + pageSize s))
                           (FirmwareFlashEnd cfg)) as [Hge|Hlt].
      * unfold when, bind, modify, MessageF.
        destruct (has_erase_state (chip cfg)); cbn;
          intros H; injection H as <-; cbn; auto.
      * cbn. intros H. injection H as <-. cbn. auto.
    + unfold incr_retry, modify. cbn. intros H. injection H as <-.
      cbn. auto.
Qed.

Lemma case_ErasingFlash_cursor (env : Env) (s s' : Globals) :
  final (case_ErasingFlash cfg env s) = Some s' ->
  pageSize s' = pageSize s
  /\ (flashPos s' = flashPos s
      \/ flashPos s' = FirmwareFlashStart cfg
      \/ (flashPos s' = u32 (flashPos s + sectorSize_at cfg (flashPos s))
          /\ flashPos s' < FirmwareFlashEnd cfg)).
Proof.
  unfold case_ErasingFlash. rewrite bind_get, bind_when_MessageF, bind_get.
  set (s0 := if negb (retry s =? 0)
             then formatted (MsgEraseRetry (retry s)) s else s).
  destruct (formatted_frame (negb (retry s =? 0))
              (MsgEraseRetry (retry s)) s) as (_ & E2 & E3 & _).
  fold s0 in E2, E3. rewrite <- E2, <- E3. clearbody s0.
  set (size := sectorSize_at cfg (flashPos s0)).
  assert (Hend : forall t,
            pageSize t = pageSize s0 ->
            flashPos t = flashPos s0
            \/ flashPos t = u32 (flashPos s0 + size) ->
            final ((pos' <- get flashPos ;;
                    when (pos' >=? FirmwareFlashEnd cfg)
                      (modify (fun s =>
                         set_haveDataInBuffer false
                           (set_flashPos (FirmwareFlashStart cfg) s)) ;;
                       when (IAP_VIA_SPI cfg)
                            (modify (set_transferPending false)) ;;
                       MessageF MsgWritingData ;;
                       modify (set_state WritingUpgrade))) t) = Some s' ->
            pageSize s' = pageSize s0
            /\ (flashPos s' = flashPos s0
                \/ flashPos s' = FirmwareFlashStart cfg
                \/ (flashPos s' = u32 (flashPos s0 + size)
                    /\ flashPos s' < FirmwareFlashEnd cfg))).
  { intros t Hp Hpos. rewrite bind_get.
    destruct (Z.geb_spec (flashPos t) (FirmwareFlashEnd cfg)) as [Hge|Hlt].
    - unfold when, bind, modify, MessageF.
      destruct (IAP_VIA_SPI cfg); cbn; intros H; injection H as <-;
        cbn; auto.
    - cbn. intros H. injection H as <-. split; [exact Hp|].
      destruct Hpos as [E | E]; [now left|].
      right. right. split; [exact E | exact Hlt]. }
  unfold erased_or_erase. rewrite bind_assoc, bind_get.
  fold size.
  destruct (IsSectorErased (flash s0) (flashPos s0) size).
  - rewrite bind_ret, bind_assoc, bind_get.
    destruct (IsSectorErased (flash s0) (flashPos s0) size).
    + rewrite bind_modify. apply Hend; simpl_globals; auto.
    + unfold incr_retry. rewrite bind_modify.
      apply Hend; simpl_globals; auto.
  - rewrite bind_case. unfold do_flash_erase at 1.
    destruct (flash_erase_sector env (flash s0) (flashPos s0)) as [ok m'].
    destruct ok.
    + rewrite bind_assoc, bind_get. simpl_globals.
      destruct (IsSectorErased m' (flashPos s0) size).
      * rewrite bind_modify. apply Hend; simpl_globals; auto.
      * unfold incr_retry. rewrite bind_modify.
        apply Hend; simpl_globals; auto.
    + unfold incr_retry. rewrite bind_modify.
      apply Hend; simpl_globals; auto.
Qed.

Lemma call_in_region (s : Globals) (e : Event) :
  region_inv cfg page s -> call_in_phase cfg s e -> region_call cfg e.
Proof.
  unfold region_inv. intros Hinv.
  destruct e; cbn; try tauto.
  - intros [[Hst ->] | ->].
    + destruct (is_same5x (chip cfg)); [now left|].
      destruct Hst as [E | E]; rewrite E in Hinv; tauto.
    + destruct (is_same5x (chip cfg)); [now right | lia].
  - intros [E ->]. rewrite E in Hinv. tauto.
Qed.

Lemma writeBinary_region (env : Env) (s s' : Globals) :
  region_inv cfg page s ->
  final (writeBinary cfg env s) = Some s' ->
  emits (region_call cfg) s s'
  /\ (writeBinary cfg env s = Ret tt s' -> region_inv cfg page s').
Proof.
  intros Hinv Hfin. split.
  - apply writeBinary_emits in Hfin. revert Hfin.
    apply emits_impl. intros e. now apply call_in_region.
  - pose proof (writeBinary_next_state cfg env s s' Hfin) as Hnext.
    revert Hfin Hnext. unfold writeBinary.
    destruct (retry s >? maxRetries cfg).
    { intros _ _ H. rewrite bind_MessageF in H.
      destruct (@Reset_halts cfg env unit false
                  (formatted (MsgOperationFailed (state_index (state s))
                                                 (maxRetries cfg)) s))
        as (t & Hrun & _).
      rewrite Hrun in H. discriminate. }
    unfold region_inv in *.
    destruct page_fits as (Hpage & Hfit).
    assert (Hstep : forall pos size,
              FirmwareFlashStart cfg <= pos < FirmwareFlashEnd cfg ->
              0 <= size -> FirmwareFlashEnd cfg + size <= 2 ^ 32 ->
              FirmwareFlashStart cfg <= u32 (pos + size)).
    { intros pos size Hpos Hsize Hcap. rewrite u32_small; lia. }
    destruct (state s) eqn:Hstate; intros Hfin Hnext _;
      cbn [next_states In] in Hnext.
    + rewrite bind_MessageF, bind_modify in Hfin.
      apply case_UnlockingFlash_cursor in Hfin. simpl_globals.
      cbn [pageSize flashPos formatted set_state set_log set_formatBuffer]
        in Hfin.
      destruct Hinv as (Hp & Hpos). destruct Hfin as (E1 & E2).
      rewrite Hp in E2.
      assert (Hin : FirmwareFlashStart cfg <= flashPos s'
                    < FirmwareFlashEnd cfg).
      { destruct E2 as [-> | [-> | [E Hlt]]]; try lia.
        split; [|exact Hlt]. rewrite E. apply Hstep; lia. }
      destruct (state s'); try exact I; (split; [congruence | exact Hin]).
    + apply case_UnlockingFlash_cursor in Hfin.
      destruct Hinv as (Hp & Hpos). destruct Hfin as (E1 & E2).
      rewrite Hp in E2.
      assert (Hin : FirmwareFlashStart cfg <= flashPos s'
                    < FirmwareFlashEnd cfg).
      { destruct E2 as [-> | [-> | [E Hlt]]]; try lia.
        split; [|exact Hlt]. rewrite E. apply Hstep; lia. }
      destruct (state s'); try exact I; (split; [congruence | exact Hin]).
    + destruct (has_erase_state (chip cfg)).
      * apply case_ErasingFlash_cursor in Hfin.
        destruct Hinv as (Hp & Hpos). destruct Hfin as (E1 & E2).
        destruct (sectorSize_at_bound (flashPos s)) as (Hs0 & Hs1).
        assert (Hin : FirmwareFlashStart cfg <= flashPos s'
                      < FirmwareFlashEnd cfg).
        { destruct E2 as [-> | [-> | [E Hlt]]]; try lia.
          split; [|exact Hlt]. rewrite E. apply Hstep; lia. }
        destruct (state s'); try exact I; (split; [congruence | exact Hin]).
      * cbn [final] in Hfin. injection Hfin as <-. now rewrite Hstate.
    + destruct Hnext as [<- | [<- | []]]; [exact I|].
      destruct (IAP_VIA_SPI cfg); exact I.
    + destruct (IAP_VIA_SPI cfg); cbn [In] in Hnext;
        repeat (destruct Hnext as [<- | Hnext]; [exact I|]);
        contradiction.
    + destruct (IAP_VIA_SPI cfg); cbn [In] in Hnext;
        repeat (destruct Hnext as [<- | Hnext]; [exact I|]);
        contradiction.
    + destruct (IAP_VIA_SPI cfg); cbn [In] in Hnext;
        repeat (destruct Hnext as [<- | Hnext]; [exact I|]);
        contradiction.
    + destruct Hnext as [<- | []]. exact I.
Qed.

Lemma run_region (envs : list Env) :
  forall s,
    region_inv cfg page s ->
    forall s', final (run cfg envs s) = Some s' ->
               emits (region_call cfg) s s'.
Proof.
  induction envs as [|env rest IH]; intros s Hinv s'; cbn [run].
  - cbn [final]. intros H. injection H as <-. apply emits_refl.
  - pose proof (writeBinary_region env s) as Hpass.
    destruct (writeBinary cfg env s) as [u s1|b s1|s1|]; cbn [final].
    + destruct (Hpass s1 Hinv eq_refl) as (Hev & Hret). destruct u.
      intros H. eapply emits_trans; [exact Hev|].
      apply IH; [now apply Hret | exact H].
    + intros H. injection H as <-. apply (Hpass s1 Hinv eq_refl).
    + intros H. injection H as <-. apply (Hpass s1 Hinv eq_refl).
    + discriminate.
Qed.

End Region.

(** Where the unlock and the erase phase work.  From power-up on, with the
    cursor at [FirmwareFlashStart] and whatever the hardware answers, every
    erase of a run starts at an address inside
    [[FirmwareFlashStart, FirmwareFlashEnd)], and so does every unlock on the
    chips that unlock page by page; the SAME5x unlocks from the start of its
    lock region, and [Reset (false)] unlocks at [FirmwareFlashStart]. *)

Theorem unlock_and_erase_start_in_region (cfg : Config) (envs : list Env)
    (s s' : Globals) :
  0 <= FirmwareFlashStart cfg < FirmwareFlashEnd cfg ->
  0 < pageSize s ->
  FirmwareFlashEnd cfg + pageSize s <= 2 ^ 32 ->
  0 <= GetEraseRegionSize cfg ->
  FirmwareFlashEnd cfg + GetEraseRegionSize cfg <= 2 ^ 32 ->
  FirmwareFlashEnd cfg + 128 * 1024 <= 2 ^ 32 ->
  state s = Initializing ->
  flashPos s = FirmwareFlashStart cfg ->
  final (run cfg envs s) = Some s' ->
  exists evs,
    log s' = log s ++ evs
    /\ (forall a b, In (EvFlashUnlock a b) evs ->
           if is_same5x (chip cfg)
           then a = lock_region_start cfg \/ a = FirmwareFlashStart cfg
           else FirmwareFlashStart cfg <= a < FirmwareFlashEnd cfg)
    /\ (forall a, In (EvFlashErase a) evs ->
           FirmwareFlashStart cfg <= a < FirmwareFlashEnd cfg).
Proof.
  intros Hregion Hpage Hfit Hsec0 Hsec1 Hsec2 Hstate Hpos Hrun.
  assert (Hinv : region_inv cfg (pageSize s) s).
  { unfold region_inv. rewrite Hstate, Hpos. split; [reflexivity | lia]. }
  destruct (run_region cfg (pageSize s) Hregion (conj Hpage Hfit)
              (conj Hsec0 (conj Hsec1 Hsec2)) envs s Hinv s' Hrun)
    as (evs & Hlog & Hall).
  exists evs. rewrite Forall_forall in Hall.
  split; [exact Hlog|]. split.
  - intros a b Hin. exact (Hall _ Hin).
  - intros a Hin. exact (Hall _ Hin).
Qed.

(** ** Giving up *)

Section GivingUp.

Variable cfg : Config.

Hypothesis retries_fit : 0 <= maxRetries cfg /\ maxRetries cfg + 1 < 2 ^ 32.

Lemma run_app (a b : list Env) :
  forall s,
    run cfg (a ++ b) s
    = match run cfg a s with
      | Ret _ s1 => run cfg b s1
      | r => r
      end.
Proof.
  induction a as [|env a IH]; intros s; cbn [run app]; [reflexivity|].
  destruct (writeBinary cfg env s); try reflexivity. apply IH.
Qed.

Lemma unlock_failing_pass (env : Env) (s : Globals) :
  (forall a b, flash_unlock env a b = false) ->
  state s = UnlockingFlash ->
  retry s <= maxRetries cfg ->
  exists b,
    writeBinary cfg env s
    = Ret tt
        (set_retry (u32 (retry s + 1))
           (set_log
              (log s ++ [EvFlashUnlock
                           (if is_same5x (chip cfg)
                            then lock_region_start cfg else flashPos s) b])
              s)).
Proof.
  intros Hfail Hstate Hre. unfold writeBinary.
  destruct (Z.gtb_spec (retry s) (maxRetries cfg)) as [Hgt|_]; [lia|].
  rewrite Hstate. unfold case_UnlockingFlash, lock_region_start.
  destruct (is_same5x (chip cfg));
    unfold bind, do_flash_unlock, get, modify, emit, ret, incr_retry;
    rewrite Hfail; eexists; reflexivity.
Qed.

Lemma unlock_failing_run (envs : list Env) :
  forall s,
    (forall env, In env envs -> forall a b, flash_unlock env a b = false) ->
    state s = UnlockingFlash ->
    0 <= retry s ->
    retry s + Z.of_nat (List.length envs) <= maxRetries cfg + 1 ->
    exists s' attempts,
      run cfg envs s = Ret tt s'
      /\ log s' = log s ++ attempts
      /\ List.length attempts = List.length envs
      /\ Forall (fun e => exists b,
                   e = EvFlashUnlock
                         (if is_same5x (chip cfg)
                          then lock_region_start cfg else flashPos s) b)
                attempts
      /\ retry s' = retry s + Z.of_nat (List.length envs)
      /\ state s' = UnlockingFlash
      /\ flashPos s' = flashPos s
      /\ flash s' = flash s
      /\ formatBuffer s' = formatBuffer s.
Proof.
  induction envs as [|env rest IH]; intros s Hfail Hstate Hre Hsum.
  - exists s, []. cbn [run List.length]. rewrite app_nil_r, Z.add_0_r.
    repeat split; try reflexivity; [constructor | exact Hstate].
  - cbn [List.length] in Hsum.
    destruct (unlock_failing_pass env s) as (b & Hpass);
      [apply Hfail; now left | exact Hstate | lia |].
    cbn [run]. rewrite Hpass.
    match goal with
    | |- context [run cfg rest ?t] => set (s1 := t)
    end.
    destruct (IH s1) as (s' & att & Hrun & Hlog & Hlen & Hall & Hretry
                         & Hst & Hpos & Hflash & Hbuf).
    + intros e He. apply Hfail. now right.
    + exact Hstate.
    + unfold s1. simpl_globals. apply u32_range.
    + unfold s1. simpl_globals. rewrite u32_small by lia. lia.
    + exists s'. eexists. split; [exact Hrun|].
      split; [rewrite Hlog; unfold s1; simpl_globals;
              rewrite <- app_assoc; reflexivity|].
      split; [cbn [List.length app]; now rewrite Hlen|].
      split; [constructor; [now exists b | exact Hall]|].
      split; [rewrite Hretry; unfold s1; simpl_globals;
              rewrite u32_small by lia; cbn [List.length]; lia|].
      repeat split; assumption.
Qed.

(** Giving up on the unlock.  When every unlock fails, the machine tries
    [maxRetries + 1] times, one attempt in each pass and each at the same
    address, and the pass after the last attempt reports the failed
    operation (number 1, [UnlockingFlash]) with [maxRetries] and calls
    [Reset (false)].  Nothing has been written to the flash: the reset
    leaves no record of the message either, since the write phase had not
    been reached. *)

Theorem persistent_unlock_failure_is_fatal (envs : list Env) (last : Env)
    (s : Globals) :
  (forall env, In env envs -> forall a b, flash_unlock env a b = false) ->
  List.length envs = Z.to_nat (maxRetries cfg + 1) ->
  state s = UnlockingFlash ->
  retry s = 0 ->
  exists s' attempts,
    run cfg (envs ++ [last]) s = Halt false s'
    /\ log s'
       = log s ++ attempts
         ++ [EvMessage (MsgOperationFailed 1 (maxRetries cfg))]
         ++ (if IAP_VIA_SPI cfg then [EvTfrReadyPin false] else [])
         ++ [EvReboot]
    /\ List.length attempts = Z.to_nat (maxRetries cfg + 1)
    /\ Forall (fun e => exists b,
                 e = EvFlashUnlock
                       (if is_same5x (chip cfg)
                        then lock_region_start cfg else flashPos s) b)
              attempts
    /\ flash s' = flash s.
Proof.
  intros Hfail Hlen Hstate Hretry.
  destruct (unlock_failing_run envs s Hfail Hstate) as
    (s1 & att & Hrun & Hlog & Hatt & Hall & Hre & Hst & Hpos & Hflash & _);
    [lia | rewrite Hretry, Hlen; lia |].
  rewrite run_app, Hrun. cbn [run].
  unfold writeBinary.
  destruct (Z.gtb_spec (retry s1) (maxRetries cfg)) as [_|Hle];
    [|rewrite Hre, Hretry, Hlen in Hle; lia].
  rewrite bind_MessageF.
  destruct (@Reset_halts cfg last unit false
              (formatted (MsgOperationFailed (state_index (state s1))
                                             (maxRetries cfg)) s1))
    as (s' & Hreset & _ & _ & _ & _ & Hlog' & Hflash').
  rewrite Hreset. exists s', att.
  split; [reflexivity|].
  cbn [state formatted set_log set_formatBuffer] in Hlog', Hflash'.
  rewrite Hst in Hlog', Hflash'.
  cbn [state_index negb andb Z.leb Z.compare] in Hlog', Hflash'.
  split.
  - rewrite Hlog'. cbn [log formatted set_log set_formatBuffer app].
    rewrite Hlog. cbn [state_index].
    rewrite <- !app_assoc. reflexivity.
  - split; [now rewrite Hatt, Hlen|]. split; [exact Hall|].
    rewrite Hflash'. cbn [flash formatted set_log set_formatBuffer].
    exact Hflash.
Qed.

End GivingUp.

(** ** Opening the firmware file *)

Section Opening.

Variable cfg : Config.
Variable env : Env.

Lemma Reset_any_type {A B : Type} (b : bool) (s t : Globals) :
  @Reset cfg env A b s = Halt b t -> @Reset cfg env B b s = Halt b t.
Proof.
  unfold Reset, when, write_error_to_flash, do_flash_unlock, do_flash_write,
    bind, emit, modify, get, ret.
  split_ifs; intros H; injection H as <-; reflexivity.
Qed.

(** [openBinary], branch by branch. *)

Lemma openBinary_eq (s : Globals) :
  let cap := u32 (FirmwareFlashEnd cfg - FirmwareFlashStart cfg) in
  let limit := if isUf2File s then u32 (cap * 2) else cap in
  openBinary cfg env s
  = match f_stat env with
    | None =>
        (MessageF (MsgFileNotFound (fwFile s)) ;; Reset cfg env false) s
    | Some size =>
        if size >? limit
        then (MessageF (MsgFileTooBig (fwFile s)) ;; Reset cfg env false) s
        else
          match f_open env with
          | None =>
              (MessageF (MsgFileNotOpened (fwFile s)) ;;
               Reset cfg env false) (set_firmwareFileSize size s)
          | Some contents =>
              Ret tt
                (formatted (MsgFileOpened (fwFile s))
                   (set_upgradeBinary (mkFIL contents 0)
                      (set_firmwareFileSize size s)))
          end
    end.
Proof.
  intros cap limit. unfold openBinary. rewrite bind_get.
  destruct (f_stat env) as [size|].
  - rewrite bind_ret, bind_get. fold cap. fold limit.
    destruct (size >? limit); cbn [when].
    + rewrite bind_case, bind_MessageF.
      destruct (@Reset_halts cfg env unit false
                  (formatted (MsgFileTooBig (fwFile s)) s))
        as (t & Hrun & _).
      rewrite Hrun. reflexivity.
    + rewrite bind_ret, bind_modify.
      destruct (f_open env) as [contents|].
      * rewrite bind_modify. reflexivity.
      * rewrite bind_case, !bind_MessageF.
        destruct (@Reset_halts cfg env unit false
                    (formatted (MsgFileNotOpened (fwFile s))
                       (set_firmwareFileSize size s)))
          as (t & Hrun & _).
        rewrite Hrun. reflexivity.
  - rewrite bind_case, !bind_MessageF.
    destruct (@Reset_halts cfg env Z false
                (formatted (MsgFileNotFound (fwFile s)) s))
      as (t & Hrun & _).
    rewrite Hrun. symmetry. now apply (@Reset_any_type Z unit).
Qed.

Lemma abort_early {A : Type} (m : Message) (s s' : Globals) (b : bool) :
  (MessageF m ;; @Reset cfg env A false) s = Halt b s' ->
  b = false
  /\ (state_index (state s) < state_index WritingUpgrade ->
      flash s' = flash s
      /\ filter is_flash_write (log s') = filter is_flash_write (log s)).
Proof.
  rewrite bind_MessageF.
  destruct (@Reset_halts cfg env A false (formatted m s))
    as (t & Hrun & _ & _ & _ & _ & Hlog & Hflash).
  rewrite Hrun. intros H. injection H as <- <-. split; [reflexivity|].
  cbn [state formatted set_log set_formatBuffer negb andb] in Hlog, Hflash.
  intros Hearly.
  destruct (Z.leb_spec (state_index WritingUpgrade) (state_index (state s)))
    as [Hlate|_]; [lia|].
  split; [exact Hflash|].
  rewrite Hlog. cbn [log formatted set_log set_formatBuffer app].
  rewrite !filter_app.
  destruct (IAP_VIA_SPI cfg); cbn [filter is_flash_write app];
    now rewrite !app_nil_r.
Qed.

(** What [openBinary] accepts.  It returns exactly when the file is found,
    its size is not above the size of the region (twice that for a UF2
    file), and it can be opened; then [firmwareFileSize] is that size, the
    file is open at offset 0, and the message "File ... opened" has been
    sent.  There is no lower bound: an empty file is accepted.  In every
    other case it ends in [Reset (false)], and when it is called before the
    write phase, as [AppMain] does, nothing has been written to the
    flash. *)

Theorem openBinary_accepts (s : Globals) :
  let cap := u32 (FirmwareFlashEnd cfg - FirmwareFlashStart cfg) in
  let limit := if isUf2File s then u32 (cap * 2) else cap in
  ((exists s', openBinary cfg env s = Ret tt s')
   <-> exists size contents,
         f_stat env = Some size /\ size <= limit
         /\ f_open env = Some contents)
  /\ (forall s',
        openBinary cfg env s = Ret tt s' ->
        f_stat env = Some (firmwareFileSize s')
        /\ firmwareFileSize s' <= limit
        /\ f_open env = Some (fdata (upgradeBinary s'))
        /\ fptr (upgradeBinary s') = 0
        /\ log s' = log s ++ [EvMessage (MsgFileOpened (fwFile s))]
        /\ flash s' = flash s /\ state s' = state s
        /\ flashPos s' = flashPos s /\ isUf2File s' = isUf2File s)
  /\ (forall s',
        final (openBinary cfg env s) = Some s' ->
        openBinary cfg env s = Ret tt s'
        \/ openBinary cfg env s = Halt false s')
  /\ (state_index (state s) < state_index WritingUpgrade ->
      forall s',
        openBinary cfg env s = Halt false s' ->
        flash s' = flash s
        /\ filter is_flash_write (log s') = filter is_flash_write (log s)).
Proof.
  intros cap limit. rewrite openBinary_eq. fold cap. fold limit.
  destruct (f_stat env) as [size|].
  - destruct (Z.gtb_spec size limit) as [Hbig|Hfit].
    + set (r := (MessageF (MsgFileTooBig (fwFile s)) ;;
                 @Reset cfg env unit false) s).
      pose proof (@abort_early unit (MsgFileTooBig (fwFile s)) s) as Hab.
      fold r in Hab.
      destruct (@abort_emits cfg env unit false
                  (MsgFileTooBig (fwFile s)) s) as (t0 & Hrun & _).
      fold r in Hrun.
      split; [split|split; [|split]].
      * intros (s' & H). rewrite Hrun in H. discriminate H.
      * intros (sz & c & E & Hle & _). injection E as <-. lia.
      * intros s' H. rewrite Hrun in H. discriminate H.
      * intros s' H. rewrite Hrun in *. cbn [final] in H.
        injection H as <-. now right.
      * intros Hearly s' H. destruct (Hab s' false H) as (_ & Hw).
        now apply Hw.
    + destruct (f_open env) as [contents|].
      * split; [split|split; [|split]].
        -- intros _. exists size, contents. repeat split; [lia].
        -- intros _. eexists. reflexivity.
        -- intros s' H. injection H as <-. simpl_globals. cbn [fdata fptr].
           repeat split; try reflexivity. lia.
        -- intros s' H. left. cbn [final] in H. now injection H as <-.
        -- intros _ s' H. discriminate H.
      * set (s1 := set_firmwareFileSize size s).
        set (r := (MessageF (MsgFileNotOpened (fwFile s)) ;;
                   @Reset cfg env unit false) s1).
        pose proof (@abort_early unit (MsgFileNotOpened (fwFile s)) s1) as Hab.
        fold r in Hab.
        destruct (@abort_emits cfg env unit false
                    (MsgFileNotOpened (fwFile s)) s1) as (t0 & Hrun & _).
        fold r in Hrun.
        split; [split|split; [|split]].
        -- intros (s' & H). rewrite Hrun in H. discriminate H.
        -- intros (sz & c & _ & _ & E). discriminate E.
        -- intros s' H. rewrite Hrun in H. discriminate H.
        -- intros s' H. rewrite Hrun in *. cbn [final] in H.
           injection H as <-. now right.
        -- intros Hearly s' H.
           destruct (Hab s' false H) as (_ & Hw). now apply Hw.
  - set (r := (MessageF (MsgFileNotFound (fwFile s)) ;;
               @Reset cfg env unit false) s).
    pose proof (@abort_early unit (MsgFileNotFound (fwFile s)) s) as Hab.
    fold r in Hab.
    destruct (@abort_emits cfg env unit false
                (MsgFileNotFound (fwFile s)) s) as (t0 & Hrun & _).
    fold r in Hrun.
    split; [split|split; [|split]].
    + intros (s' & H). rewrite Hrun in H. discriminate H.
    + intros (sz & c & E & _). discriminate E.
    + intros s' H. rewrite Hrun in H. discriminate H.
    + intros s' H. rewrite Hrun in *. cbn [final] in H.
      injection H as <-. now right.
    + intros Hearly s' H. destruct (Hab s' false H) as (_ & Hw).
      now apply Hw.
Qed.

End Opening.

(** ** The sector sizes of the erase phase *)

Section Sectors.

Variable cfg : Config.

(** The sector size the erase phase computes tiles the flash.  On the
    SAM4E, SAM4S and SAME70, at a cursor that is the start of a sector of
    the documented layout, [sectorSize_at] is the size of that very sector:
    the cursor advanced by it is the start of a sector again, and no sector
    starts in between. *)

Theorem sectorSize_at_tiles (pos : Z) :
  chip cfg = SAM4E \/ chip cfg = SAM4S \/ chip cfg = SAME70 ->
  IFLASH_ADDR cfg <= pos < IFLASH_ADDR cfg + 2 ^ 32 ->
  let off := pos - IFLASH_ADDR cfg in
  let size := sectorSize_at cfg pos in
  sector_boundary (chip cfg) off ->
  0 < size
  /\ sector_boundary (chip cfg) (off + size)
  /\ forall off', sector_boundary (chip cfg) off' ->
                  ~ (off < off' < off + size).
Proof.
  intros Hchip Hpos off size Hb.
  assert (Hoff : u32 (pos - IFLASH_ADDR cfg) = off)
    by (apply u32_small; unfold off; lia).
  unfold size, sectorSize_at. rewrite Hoff. clearbody off. clear Hoff.
  unfold sector_boundary, large_sector in *.
  destruct Hchip as [E | [E | E]]; rewrite E in *;
    destruct Hb as [-> | [-> | [-> | (k & Hk & ->)]]];
    repeat match goal with
           | |- context [if ?a <? ?b then _ else _] =>
               destruct (Z.ltb_spec a b); try lia
           | |- context [if ?a =? ?b then _ else _] =>
               destruct (Z.eqb_spec a b); try lia
           end;
    (split; [lia|]);
    (split;
     [first [ right; right; left; lia
            | right; left; lia
            | right; right; right; exists 1; lia
            | right; right; right; exists (k + 1); lia ]
     |intros off' [-> | [-> | [-> | (k' & Hk' & ->)]]]; lia]).
Qed.

End Sectors.

(** ** The name of the firmware file *)

Section FileName.

Lemma char_at_skipn (l : list Z) (i : nat) :
  char_at l i = hd 0 (skipn i l).
Proof.
  unfold char_at. revert l. induction i as [|i IH]; intros [|x l];
    cbn; auto.
Qed.

Lemma skipn_step (l : list Z) (i : nat) (c : Z) :
  hd 0 (skipn i l) = c -> c <> 0 ->
  skipn i l = c :: skipn (S i) l.
Proof.
  revert l. induction i as [|i IH]; intros [|x l]; cbn [skipn hd];
    intros H Hc; try congruence.
  - now apply IH.
Qed.

(** The loop compares the C string of the prefix with the bytes in RAM. *)

Lemma prefix_found_starts (p ram : list Z) (fuel : nat) :
  forall i,
    (List.length (skipn i p) <= fuel)%nat ->
    prefix_found fuel p ram i
    = starts (c_string (skipn i p)) (c_string (skipn i ram)).
Proof.
  induction fuel as [|fuel IH]; intros i Hlen; cbn [prefix_found];
    rewrite !char_at_skipn.
  - destruct (skipn i p) as [|c rest]; [reflexivity|].
    cbn [List.length] in Hlen. lia.
  - remember (hd 0 (skipn i p)) as c eqn:Hc.
    remember (hd 0 (skipn i ram)) as d eqn:Hd.
    symmetry in Hc, Hd.
    destruct (Z.eqb_spec c 0) as [Hz|Hnz].
    + destruct (skipn i p) as [|x rest]; [reflexivity|].
      cbn [hd] in Hc. subst x. subst c. reflexivity.
    + pose proof (skipn_step p i c Hc Hnz) as Hp.
      rewrite Hp in Hlen |- *. cbn [List.length] in Hlen.
      cbn [c_string].
      destruct (Z.eqb_spec c 0) as [|_]; [contradiction|].
      destruct (Z.eqb_spec d c) as [Heq|Hne]; cbn [negb].
      * rewrite Heq in Hd.
        rewrite (skipn_step ram i c Hd Hnz). cbn [c_string].
        destruct (Z.eqb_spec c 0) as [|_]; [contradiction|].
        cbn [starts]. rewrite Z.eqb_refl. cbn [andb].
        apply IH. lia.
      * destruct (skipn i ram) as [|x r]; [reflexivity|].
        cbn [hd] in Hd. subst x. cbn [c_string].
        destruct (d =? 0); [reflexivity|].
        cbn [starts].
        destruct (Z.eqb_spec d c); [contradiction | reflexivity].
Qed.

Lemma starts_spec (p l : list Z) :
  starts p l = true <-> exists rest, l = p ++ rest.
Proof.
  revert l. induction p as [|c p IH]; intros l; cbn [starts].
  - split; [intros _; now exists l | reflexivity].
  - destruct l as [|d l].
    + split; [discriminate | intros (rest & H); discriminate H].
    + rewrite andb_true_iff, Z.eqb_eq, IH. split.
      * intros (-> & rest & ->). now exists rest.
      * intros (rest & H). injection H as -> ->. split; [reflexivity|].
        now exists rest.
Qed.

(** [getFirmwareFileName] takes the name in RAM exactly when that name
    begins with the prefix.  Then [fwFile] is the string in RAM and
    [isUf2File] tells whether it ends in ".uf2"; otherwise, and also when the
    string in RAM ends before the prefix does, neither is touched: the
    default file is used and it is read as a raw image whatever its
    extension is. *)

Theorem getFirmwareFileName_takes_prefixed_name
    (fwFilePrefix ram : list Z)
    (StringEndsWithIgnoreCase : string -> string -> bool) (s : Globals) :
  let name := string_of_bytes (c_string ram) in
  let run :=
    getFirmwareFileName fwFilePrefix ram StringEndsWithIgnoreCase s in
  ((exists rest, c_string ram = c_string fwFilePrefix ++ rest) ->
   run = Ret tt (set_isUf2File (StringEndsWithIgnoreCase name ".uf2"%string)
                   (set_fwFile name s)))
  /\ (~ (exists rest, c_string ram = c_string fwFilePrefix ++ rest) ->
      run = Ret tt s).
Proof.
  intros name run. unfold run, getFirmwareFileName.
  rewrite (prefix_found_starts fwFilePrefix ram _ 0) by (cbn [skipn]; lia).
  cbn [skipn].
  destruct (starts (c_string fwFilePrefix) (c_string ram)) eqn:Hs.
  - split; [reflexivity|].
    intros Hno. exfalso. apply Hno. now apply starts_spec.
  - split; [|reflexivity].
    intros Hyes. apply starts_spec in Hyes. congruence.
Qed.

End FileName.

(** ** The program on the sample inputs *)

(** A result found by evaluation. *)

Lemma evaluates_to_Ret {A : Type} (r : Result A) (a : A)
    (P : Globals -> Prop) :
  match r with Ret a' s' => a' = a /\ P s' | _ => False end ->
  exists s', r = Ret a s' /\ P s'.
Proof.
  destruct r as [a' s'| | |]; try contradiction.
  intros [-> H]. now exists s'.
Qed.

Lemma evaluates_to_Halt {A : Type} (r : Result A) (b : bool)
    (P : Globals -> Prop) :
  match r with Halt b' s' => b' = b /\ P s' | _ => False end ->
  exists s', r = Halt b s' /\ P s'.
Proof.
  destruct r as [|b' s'| |]; try contradiction.
  intros [-> H]. now exists s'.
Qed.

(** C4 as stated does not hold.  Nothing has been written (the cursor is at
    the start of the region) and the SBC has not answered 3000 ms after the
    transfer was armed, with [TransferTimeout] at 2000: [ReadBlock] does not
    return a failure to be retried with the retry counter raised, it calls
    [Reset (false)] with the counter untouched. *)

Lemma ReadBlock_spi_first_timeout_is_fatal :
  flashPos waiting_for_sbc = FirmwareFlashStart (sample_config SAME70 true)
  /\ (exists s',
        ReadBlock (sample_config SAME70 true) silent_sbc waiting_for_sbc
        = Halt false s'
        /\ retry s' = retry waiting_for_sbc)
  /\ ~ (exists s',
          ReadBlock (sample_config SAME70 true) silent_sbc waiting_for_sbc
          = Ret false s'
          /\ retry s' = u32 (retry waiting_for_sbc + 1)).
Proof.
  split; [reflexivity|].
  assert (Hfatal : exists s',
             ReadBlock (sample_config SAME70 true) silent_sbc waiting_for_sbc
             = Halt false s'
             /\ retry s' = retry waiting_for_sbc).
  { apply evaluates_to_Halt. vm_compute. split; reflexivity. }
  split; [exact Hfatal|].
  destruct Hfatal as (s0 & Hs0 & _).
  intros (s' & H & _). rewrite Hs0 in H. discriminate H.
Qed.

Lemma ReadBlock_spi_never_retries_witness :
  let cfg := sample_config SAME70 true in
  let env := silent_sbc in
  let s := waiting_for_sbc in
  let waited0 := u32 (millis env 0 - transferStartTime s) in
  let waited1 := u32 (millis env 1 - transferStartTime s) in
  exists s',
    final (ReadBlock cfg env s) = Some s'
    /\ retry s' = retry s
    /\ if negb (transferPending s)
       then ReadBlock cfg env s = Ret false s'
            /\ transferPending s' = true
            /\ bytesToTransfer s' = blockReadSize cfg
            /\ log s'
               = log s
                 ++ [EvSpiSetup (blockReadSize cfg)
                                (slice (writeData s) 0 (blockReadSize cfg));
                     EvTfrReadyPin (negb (transferReadyHigh s))]
       else if spi_done env
       then ReadBlock cfg env s = Ret true s'
            /\ bytesRead s' = blockReadSize cfg
            /\ transferPending s' = false
            /\ readData s'
               = memcpy (readData s) 0
                        (firstn (Z.to_nat (bytesToTransfer s)) (spi_rx env))
            /\ log s' = log s
       else if negb (flashPos s =? FirmwareFlashStart cfg)
               && (waited0 >? TransferCompleteDelay cfg)
       then ReadBlock cfg env s = Ret true s'
            /\ bytesRead s' = 0
            /\ readData s' = memset (readData s) 0 0xFF (blockReadSize cfg)
            /\ log s' = log s ++ [EvSpiDisable]
       else if waited1 >? TransferTimeout cfg
       then ReadBlock cfg env s = Halt false s'
            /\ exists rest,
                 log s' = log s ++ EvMessage MsgTimeoutResponse :: rest
       else ReadBlock cfg env s = Ret false s' /\ s' = s.
Proof.
  intros cfg env s.
  exact (ReadBlock_spi_never_retries cfg env eq_refl s).
Defined.

(** C1 as stated does not hold.  A block is buffered and the flash refuses
    the page write: the pass ends with the retry counter raised and the
    cursor where it was, and the page write is the last thing it did.  No
    comparison of the flash with the buffer follows it.  Nor does what the
    flash holds matter after such a write: when the flash has stored the
    page, byte for byte, and reports a failure all the same, the outcome is
    the same. *)

Lemma failed_write_is_not_compared :
  let cfg := sample_config SAM4E false in
  let s := writing_buffered_page in
  let src := slice (readData s) (bytesWritten s) (pageSize s) in
  state s = WritingUpgrade
  /\ (exists s',
        writeBinary cfg refusing_flash s = Ret tt s'
        /\ log s' = log s ++ [EvFlashWrite (flashPos s) src]
        /\ (forall a n, ~ In (EvFlashVerify a n) (log s'))
        /\ retry s' = retry s + 1
        /\ flashPos s' = flashPos s)
  /\ (exists s',
        writeBinary cfg storing_but_failing s = Ret tt s'
        /\ log s' = log s ++ [EvFlashWrite (flashPos s) src]
        /\ read_mem (flash s') (flashPos s) (pageSize s) = src
        /\ retry s' = retry s + 1
        /\ flashPos s' = flashPos s).
Proof.
  split; [reflexivity|]. split.
  - apply evaluates_to_Ret. vm_compute.
    split; [reflexivity|]. split; [reflexivity|].
    split; [|split; reflexivity].
    intros a n [H|[]]. discriminate H.
  - apply evaluates_to_Ret. vm_compute. repeat split; reflexivity.
Qed.

Lemma WritingUpgrade_write_then_verify_witness :
  let cfg := sample_config SAM4E false in
  let env := sample_env 0 false [] None in
  let s := writing_buffered_page in
  exists s' pre post,
    final (writeBinary cfg env s) = Some s'
    /\ log s'
       = pre ++ EvFlashWrite (flashPos s)
                  (slice (readData s) (bytesWritten s) (pageSize s))
             :: EvFlashVerify (flashPos s) (pageSize s) :: post
    /\ flashPos s' = u32 (flashPos s + pageSize s)
    /\ bytesWritten s' = u32 (bytesWritten s + pageSize s)
    /\ retry s' = 0.
Proof.
  intros cfg env s.
  assert (Hre : retry s <= maxRetries cfg) by discriminate.
  destruct (WritingUpgrade_write_then_verify cfg env s eq_refl Hre)
    as [Hpass Hpage].
  destruct (Hpage s) as (s' & pre & Hfin & _ & _ & _ & Hsame).
  destruct Hsame as ((post & Hlog) & Hpos & Hoff & Hretry).
  - reflexivity.
  - apply page_compare_spec. vm_compute. reflexivity.
  - exists s', pre, post.
    split; [rewrite Hpass; exact Hfin|]. split; [exact Hlog|].
    split; [exact Hpos|]. split; [exact Hoff | exact Hretry].
Defined.

Lemma checksum_error_rewrites_image_witness :
  let cfg := sample_config SAME70 true in
  let env := sbc_answered in
  let s := reporting_crc_error in
  exists s',
    writeBinary cfg env s = Ret tt s'
    /\ flashPos s' = FirmwareFlashStart cfg
    /\ retry s' = 0
    /\ state s' = WritingUpgrade.
Proof.
  intros cfg env s.
  refine (proj1 (proj2 (checksum_error_rewrites_image cfg env eq_refl s _))
                _ _ _).
  - vm_compute. discriminate.
  - reflexivity.
  - vm_compute. reflexivity.
  - reflexivity.
Defined.

(** C9 as stated does not hold.  The unlock has failed more often than
    [maxRetries] allows: the pass reports it and resets, and since the state
    is [UnlockingFlash] nothing is written to the flash before the
    reboot. *)

Lemma Reset_in_UnlockingFlash_writes_nothing :
  exists s',
    writeBinary (sample_config SAM4E false) (sample_env 0 false [] None)
                unlock_given_up
    = Halt false s'
    /\ log s' = [EvMessage (MsgOperationFailed 1 5); EvReboot]
    /\ filter is_flash_write (log s') = [].
Proof.
  apply evaluates_to_Halt. vm_compute. repeat split; reflexivity.
Qed.

(** C3 at the SAME5x unlock.  One unlock has failed, the next succeeds: the
    state moves on to [ErasingFlash] with the retry counter still at 1, and
    the next pass announces a first erase retry although no erase has been
    tried (the sector is already erased, so none is tried in that pass
    either).  The per-page unlock of the other chips clears the counter
    from the same globals. *)

Lemma same5x_unlock_keeps_retry :
  let env := sample_env 0 false [] None in
  (exists s1,
     writeBinary (sample_config SAME5x false) env same5x_second_unlock
     = Ret tt s1
     /\ exists s2,
         state s1 = ErasingFlash
         /\ retry s1 = 1
         /\ writeBinary (sample_config SAME5x false) env s1 = Ret tt s2
         /\ log s2 = log s1 ++ [EvMessage (MsgEraseRetry 1)])
  /\ (exists s1,
        writeBinary (sample_config SAM4E false) env same5x_second_unlock
        = Ret tt s1
        /\ retry s1 = 0).
Proof.
  intros env. split.
  - apply evaluates_to_Ret. vm_compute. split; [reflexivity|].
    eexists. repeat split; reflexivity.
  - apply evaluates_to_Ret. vm_compute. split; reflexivity.
Qed.

(** C2 at a record that is not the first of its block.  The second record
    of the file, at file offset 512, has a wrong first magic.  [ReadBlock]
    reads it there (the file pointer ends at 1024), resets without touching
    the retry counter, and the message gives offset 256. *)

Lemma uf2_bad_block_offset_reported :
  magicStart0 (firstn 512 uf2_bad_second) = MagicStart0Val
  /\ magicStart0 (firstn 512 (skipn 512 uf2_bad_second)) = 0x0BADF00D
  /\ exists s',
       ReadBlock (sample_config SAM4E false) sd_card uf2_reading
       = Halt false s'
       /\ retry s' = retry uf2_reading
       /\ fptr (upgradeBinary s') = 1024
       /\ hd_error (log s') = Some (EvMessage (MsgBadUf2Block 256))
       /\ formatBuffer s' = "ERROR: bad UF2 block at offset 256"%string.
Proof.
  split; [reflexivity|]. split; [reflexivity|].
  apply evaluates_to_Halt. vm_compute. repeat split; reflexivity.
Qed.


Lemma ShowProgress_divides_by_zero_witness :
  exists s',
    writeBinary (sample_config SAM4E false) (sample_env 0 false [] (Some []))
                empty_file_writing
    = Fault s'.
Proof.
  refine (proj2 (proj2 (ShowProgress_divides_by_zero
                          (sample_config SAM4E false)
                          (sample_env 0 false [] (Some []))))
                empty_file_writing _ _ _ _ _ _ _ _).
  - reflexivity.
  - reflexivity.
  - vm_compute. discriminate.
  - reflexivity.
  - reflexivity.
  - reflexivity.
  - reflexivity.
  - intros m a d. reflexivity.
Defined.

Lemma ShowProgress_reports_once_in_order_witness :
  (exists s' rep,
     ShowProgress_run (sample_config SAM4E false) five_cursors five_pages
     = Ret tt s'
     /\ reported (log s') = reported (log five_pages) ++ rep
     /\ (forall q, In q rep ->
           exists c, In c five_cursors
                     /\ q = 100 * (c - 0x00400000) / 2560)
     /\ Sorted Z.le rep
     /\ reportNextPercent s' = 20 + 20 * Z.of_nat (List.length rep)
     /\ (forall k q, nth_error rep k = Some q -> 20 + 20 * Z.of_nat k <= q))
  /\ (exists s' rep,
        ShowProgress_run (sample_config SAM4E false) five_cursors five_pages
        = Ret tt s'
        /\ reported (log s') = reported (log five_pages) ++ rep
        /\ reportNextPercent s' = 20 + 20 * Z.of_nat (List.length rep)
        /\ (forall k q, nth_error rep k = Some q ->
              20 + 20 * Z.of_nat k <= q < 20 + 20 * Z.of_nat k + 20)
        /\ (forall c, In c five_cursors ->
              100 * (c - 0x00400000) / 2560 < reportNextPercent s'))
  /\ match run small_config small_envs small_start return Prop with
     | Halt true s' =>
         Sorted Z.le (reported (log s'))
         /\ reportNextPercent s'
            = 20 + 20 * Z.of_nat (List.length (reported (log s')))
         /\ (forall k q, nth_error (reported (log s')) k = Some q ->
                         20 + 20 * Z.of_nat k <= q)
     | _ => False
     end
  /\ match run small_sbc_config sbc_envs sbc_start return Prop with
     | Ret _ s' =>
         reported (log s') = [25; 50; 62; 87; 100]
         /\ flashPos s' = FirmwareFlashStart small_sbc_config + 512
         /\ reportNextPercent s'
            = 20 + 20 * Z.of_nat (List.length (reported (log s')))
         /\ (forall k q, nth_error (reported (log s')) k = Some q ->
               20 + 20 * Z.of_nat k <= q < 40 + 20 * Z.of_nat k)
         /\ (in_write_phase (state s') = true ->
             100 * (flashPos s' - FirmwareFlashStart small_sbc_config)
             / totalSize small_sbc_config s'
             < reportNextPercent s')
     | _ => False
     end.
Proof.
  split; [|split; [|split]].
  - refine (proj1 (proj2 (proj2 (ShowProgress_reports_once_in_order
                                   (sample_config SAM4E false))))
                  five_pages five_cursors _ _ _ _ _).
    + reflexivity.
    + discriminate.
    + reflexivity.
    + unfold five_cursors. cbn [map].
      repeat constructor; cbn; try discriminate; reflexivity.
    + left. unfold five_cursors. cbn [map].
      repeat constructor; discriminate.
  - refine (proj1 (proj2 (proj2 (proj2 (ShowProgress_reports_once_in_order
                                          (sample_config SAM4E false)))))
                  five_pages five_cursors _ _ _ _ _ _).
    + reflexivity.
    + discriminate.
    + reflexivity.
    + unfold five_cursors. cbn [map].
      repeat constructor; cbn; try discriminate; reflexivity.
    + reflexivity.
    + vm_compute. repeat split; discriminate.
  - assert (Hend : exists s1,
               run small_config small_envs small_start = Halt true s1
               /\ True).
    { apply evaluates_to_Halt. vm_compute. split; [reflexivity | exact I]. }
    destruct Hend as (s1 & Hend & _). rewrite Hend.
    refine (proj1 (proj2 (proj2 (proj2 (proj2
              (ShowProgress_reports_once_in_order small_config)))))
                  small_envs small_start s1 _ _ _ _ _).
    + reflexivity.
    + reflexivity.
    + reflexivity.
    + vm_compute. repeat split; try reflexivity; try discriminate.
    + rewrite Hend. reflexivity.
  - assert (Hend : exists s1,
               run small_sbc_config sbc_envs sbc_start = Ret tt s1
               /\ reported (log s1) = [25; 50; 62; 87; 100]
                  /\ flashPos s1 = FirmwareFlashStart small_sbc_config + 512).
    { apply evaluates_to_Ret. vm_compute. repeat split; reflexivity. }
    destruct Hend as (s1 & Hend & Hrep & Hpos). rewrite Hend.
    split; [exact Hrep|]. split; [exact Hpos|].
    refine (proj2 (proj2 (proj2 (proj2 (proj2
              (ShowProgress_reports_once_in_order small_sbc_config)))))
                  sbc_envs sbc_start s1 _ _ _ _ _).
    + reflexivity.
    + reflexivity.
    + reflexivity.
    + vm_compute. repeat split; try reflexivity; try discriminate.
    + rewrite Hend. reflexivity.
Defined.

(** C8 as stated does not hold.  A file of one page, 512 bytes, is flashed
    with blocks of four pages.  After the tenth pass the first page has
    been written: the percentage is 100, "100%" has been announced for the
    threshold 20, and the threshold is now 40, which the percentage has
    reached and passed already.  The message for the threshold 40 comes with
    the next page, "200%", and so on, one threshold a page: by the time the
    four pages of the block are written the thresholds 100 to 400 have been
    reached and none of them announced. *)

Lemma tiny_image_thresholds_lag :
  (exists s1,
     run small_config (repeat tiny_card 10) tiny_start = Ret tt s1
     /\ reported (log s1) = [100]
     /\ percentDone small_config s1 = 100
     /\ reportNextPercent s1 = 40
     /\ reportNextPercent s1 <= percentDone small_config s1
     /\ exists s2,
          writeBinary small_config tiny_card s1 = Ret tt s2
          /\ reported (log s2) = [100; 200]
          /\ reportNextPercent s2 = 60)
  /\ (exists s',
        run small_config (repeat tiny_card 13) tiny_start = Ret tt s'
        /\ reported (log s') = [100; 200; 300; 400]
        /\ percentDone small_config s' = 400
        /\ reportNextPercent s' = 100).
Proof.
  split.
  - assert (H1 : exists s1,
               run small_config (repeat tiny_card 10) tiny_start = Ret tt s1
               /\ (reported (log s1) = [100]
                   /\ percentDone small_config s1 = 100
                   /\ reportNextPercent s1 = 40
                   /\ reportNextPercent s1 <= percentDone small_config s1)
                  /\ match writeBinary small_config tiny_card s1 with
                     | Ret _ s2 => reported (log s2) = [100; 200]
                                   /\ reportNextPercent s2 = 60
                     | _ => False
                     end).
    { apply evaluates_to_Ret. vm_compute.
      repeat split; try reflexivity; discriminate. }
    destruct H1 as (s1 & Hrun & (Hr & Hp & Hn & Hle) & Hnext).
    exists s1. repeat split; try assumption.
    destruct (writeBinary small_config tiny_card s1) as [[] s2| | |];
      try contradiction.
    exists s2. split; [reflexivity | exact Hnext].
  - apply evaluates_to_Ret. vm_compute. repeat split; reflexivity.
Qed.

(** ** Further examples *)

Lemma IsSectorErased_spec_witness :
  IsSectorErased (fun _ => 0xFF) 0x00400000 0x2000 = true
  <-> forall a, 0x00400000 <= a < 0x00400000 + 0x2000
                -> (fun _ : Z => 0xFF) a = 0xFF.
Proof.
  apply (IsSectorErased_spec (fun _ => 0xFF) 0x00400000 0x2000).
  - discriminate.
  - discriminate.
  - reflexivity.
  - discriminate.
Defined.

Lemma ReadBlockUf2_decodes_witness :
  exists s',
    ReadBlockUf2 (sample_config SAM4E false)
                 (sample_env 0 false [] (Some (List.concat uf2_image)))
                 uf2_block_reading
    = Ret true s'
    /\ readData s' = List.concat (map uf2_data uf2_image)
    /\ bytesRead s' = blockReadSize (sample_config SAM4E false)
    /\ retry s' = retry uf2_block_reading.
Proof.
  apply (ReadBlockUf2_decodes (sample_config SAM4E false)
           (sample_env 0 false [] (Some (List.concat uf2_image)))
           (fun _ => eq_refl) uf2_block_reading uf2_image []).
  - reflexivity.
  - discriminate.
  - reflexivity.
  - reflexivity.
  - vm_compute. reflexivity.
  - intros i rec H.
    do 8 (destruct i as [|i];
          [injection H as <-; vm_compute; repeat split; reflexivity|]).
    destruct i; discriminate H.
  - intros i Hi.
    do 8 (destruct i as [|i]; [vm_compute; discriminate|]).
    cbn in Hi. lia.
  - reflexivity.
Defined.

Lemma writeBinary_retry_bounded_witness :
  let cfg := sample_config SAM4E false in
  let env := sample_env 0 false [] None in
  let s := unlock_given_up in
  (maxRetries cfg < retry s ->
   exists s' rest,
     writeBinary cfg env s = Halt false s'
     /\ log s'
        = log s
          ++ EvMessage (MsgOperationFailed (state_index (state s))
                                           (maxRetries cfg)) :: rest)
  /\ (forall s', final (writeBinary cfg env s) = Some s' ->
                 0 <= retry s' <= maxRetries cfg + 1).
Proof.
  apply (writeBinary_retry_bounded (sample_config SAM4E false)
           (sample_env 0 false [] None) unlock_given_up).
  - split; discriminate.
  - reflexivity.
Defined.

Lemma writeBinary_ends_witness :
  exists s',
    final (writeBinary small_config (sample_env 0 false [] (Some small_file))
                       small_start)
    = Some s'.
Proof.
  apply (writeBinary_ends small_config
           (sample_env 0 false [] (Some small_file))).
  split; [discriminate | reflexivity].
Defined.

Lemma LockingFlash_locks_at_cursor_witness :
  let cfg := sample_config SAM4E false in
  let env := sample_env 0 false [] None in
  let s := locking_after_block in
  let pos := flashPos s in
  let last := u32 (pos + pageSize s - 1) in
  let next := u32 (pos + pageSize s) in
  exists s' post,
    log s' = log s ++ EvFlashLock pos last :: post
    /\ if flash_lock env pos last
       then flashPos s' = next
            /\ if next >=? FirmwareFlashEnd cfg
               then writeBinary cfg env s = Halt true s'
                    /\ hd_error post
                       = Some (EvMessage MsgUpdateSuccessful)
               else writeBinary cfg env s = Ret tt s'
                    /\ retry s' = 0 /\ state s' = LockingFlash
                    /\ post = []
       else writeBinary cfg env s = Ret tt s'
            /\ flashPos s' = pos
            /\ retry s' = u32 (retry s + 1)
            /\ state s' = LockingFlash
            /\ post = [].
Proof.
  apply (LockingFlash_locks_at_cursor (sample_config SAM4E false)
           (sample_env 0 false [] None) locking_after_block).
  - reflexivity.
  - reflexivity.
  - discriminate.
Defined.

(** The small file build from power-up to reboot: eighteen passes end in
    [Reset (true)] with the retry counter clear, the five pages of the file
    in the flash at the start of the region and the rest of the region
    erased.  The write phase has left the cursor at [FirmwareFlashEnd], so
    the one page the lock phase locks is the page that starts there. *)

Lemma small_file_run_flashes_image :
  exists s',
    run small_config small_envs small_start = Halt true s'
    /\ retry s' = 0
    /\ read_mem (flash s') (FirmwareFlashStart small_config) 2560
       = small_file
    /\ read_mem (flash s') (FirmwareFlashStart small_config + 2560) 1536
       = repeat 0xFF 1536
    /\ filter is_flash_lock (log s')
       = [EvFlashLock (FirmwareFlashEnd small_config)
                      (FirmwareFlashEnd small_config + 511)].
Proof.
  apply evaluates_to_Halt. vm_compute. repeat split; reflexivity.
Qed.

Lemma CRC16_detects_single_byte_change_witness :
  CRC16 (fun i => if i =? 1 then 0 else 65 + i) 3 = CRC16 (fun i => 65 + i) 3
  <-> (fun i => if i =? 1 then 0 else 65 + i) 1 = (fun i => 65 + i) 1.
Proof.
  apply (CRC16_detects_single_byte_change
           (fun i => 65 + i) (fun i => if i =? 1 then 0 else 65 + i) 3 1).
  - intros i Hi. lia.
  - intros i Hi. destruct (i =? 1); lia.
  - lia.
  - intros i Hi Hne. destruct (Z.eqb_spec i 1); [contradiction | reflexivity].
Defined.

Lemma VerifyingChecksum_catches_corrupted_byte_witness :
  let cfg := sample_config SAME70 true in
  let env := sample_env 100 true checksum_request None in
  let s := awaiting_checksum one_bad_byte in
  exists s' pre,
    writeBinary cfg env s = Ret tt s'
    /\ state s' = SendingChecksumError
    /\ log s' = pre ++ [EvSpiSetup 1 [0xFF];
                        EvTfrReadyPin (negb (transferReadyHigh s))].
Proof.
  intros cfg env s.
  refine (proj2 (VerifyingChecksum_catches_corrupted_byte cfg env eq_refl s
                   (fun _ => 0xFF) _ _ _ _ _ _ _) 2 _ _ _).
  - reflexivity.
  - vm_compute. discriminate.
  - reflexivity.
  - reflexivity.
  - vm_compute. reflexivity.
  - intros i Hi. lia.
  - intros i Hi. change (0 <= one_bad_byte (4194304 + i) < 256).
    unfold one_bad_byte. destruct (4194304 + i =? 4194306); lia.
  - vm_compute. split; [discriminate | reflexivity].
  - vm_compute. discriminate.
  - intros i Hi Hne. change (one_bad_byte (4194304 + i) = 0xFF).
    unfold one_bad_byte.
    destruct (Z.eqb_spec (4194304 + i) 4194306); [lia | reflexivity].
Defined.

Lemma ReadBlock_raw_delivers_witness :
  let cfg := sample_config SAM4E false in
  let env := sample_env 0 false [] None in
  let s := raw_last_block in
  let pos := u32 (flashPos s - FirmwareFlashStart cfg) in
  let size := Z.to_nat (blockReadSize cfg) in
  let rest := skipn (Z.to_nat pos) (fdata (upgradeBinary s)) in
  exists s',
    ReadBlock cfg env s = Ret true s'
    /\ readData s' = firstn size (rest ++ repeat 0xFF size)
    /\ bytesRead s' = Z.of_nat (Nat.min size (List.length rest))
    /\ retry s' = retry s
    /\ flashPos s' = flashPos s
    /\ flash s' = flash s.
Proof.
  apply (ReadBlock_raw_delivers (sample_config SAM4E false)
           (sample_env 0 false [] None) raw_last_block);
    reflexivity.
Defined.

Lemma ReadBlockUf2_pads_last_block_witness :
  let cfg := sample_config SAM4E false in
  let env := sample_env 0 false [] None in
  let s := uf2_last_block in
  let got := 256 * Z.of_nat (List.length uf2_short) in
  exists s',
    ReadBlockUf2 cfg env s = Ret true s'
    /\ readData s'
       = List.concat (map uf2_data uf2_short)
         ++ repeat 0xFF (Z.to_nat (blockReadSize cfg - got))
    /\ bytesRead s' = got
    /\ retry s' = retry s.
Proof.
  apply (ReadBlockUf2_pads_last_block (sample_config SAM4E false)
           (sample_env 0 false [] None) (fun _ => eq_refl)
           uf2_last_block uf2_short []).
  - reflexivity.
  - split; reflexivity.
  - vm_compute. reflexivity.
  - intros i rec H.
    do 2 (destruct i as [|i];
          [injection H as <-; vm_compute; repeat split; reflexivity|]).
    destruct i; discriminate H.
  - intros i Hi.
    do 2 (destruct i as [|i]; [vm_compute; discriminate|]).
    cbn in Hi. lia.
  - reflexivity.
  - reflexivity.
Defined.

Lemma file_build_writes_in_bounds_witness :
  match run small_config small_envs small_start return Prop with
  | Halt true s' =>
      forall a d,
        In (EvFlashWrite a d) (log s') ->
        In (EvFlashWrite a d) (log small_start)
        \/ (FirmwareFlashStart small_config <= a
            /\ a + Z.of_nat (List.length d)
               <= write_limit small_config small_start)
        \/ (a = FirmwareFlashStart small_config
            /\ exists m, d = bytes_of_string (SafeVsnprintf m))
  | _ => False
  end.
Proof.
  assert (Hend : exists s1,
             run small_config small_envs small_start = Halt true s1
             /\ True).
  { apply evaluates_to_Halt. vm_compute. split; [reflexivity | exact I]. }
  destruct Hend as (s1 & Hend & _). rewrite Hend.
  apply (file_build_writes_in_bounds small_config eq_refl small_envs
           small_start s1).
  - vm_compute. repeat split; try reflexivity; discriminate.
  - reflexivity.
  - reflexivity.
  - rewrite Hend. reflexivity.
Defined.

Lemma writeBinary_follows_phases_witness :
  match run small_config small_envs small_start return Prop with
  | Halt true s' =>
      state_index (state small_start) <= state_index (state s')
  | _ => False
  end.
Proof.
  assert (Hend : exists s1,
             run small_config small_envs small_start = Halt true s1
             /\ True).
  { apply evaluates_to_Halt. vm_compute. split; [reflexivity | exact I]. }
  destruct Hend as (s1 & Hend & _). rewrite Hend.
  apply (proj2 (writeBinary_follows_phases small_config) eq_refl
               small_envs small_start s1).
  rewrite Hend. reflexivity.
Defined.

(** Four passes that do reach the flash: an unlock, an erase of a sector
    in use, a page write and a lock, each in its phase. *)

Lemma writeBinary_calls_in_phase_witness :
  let cfg := sample_config SAM4E false in
  let env := sample_env 0 false [] None in
  (exists s' evs b,
     final (writeBinary cfg env unlocking_first_page) = Some s'
     /\ log s' = log unlocking_first_page ++ evs
     /\ In (EvFlashUnlock (flashPos unlocking_first_page) b) evs
     /\ pass_calls_in_phase cfg unlocking_first_page evs)
  /\ (exists s' evs,
        final (writeBinary cfg env erasing_used_sector) = Some s'
        /\ log s' = log erasing_used_sector ++ evs
        /\ In (EvFlashErase (flashPos erasing_used_sector)) evs
        /\ pass_calls_in_phase cfg erasing_used_sector evs)
  /\ (exists s' evs d,
        final (writeBinary cfg env writing_buffered_page) = Some s'
        /\ log s' = log writing_buffered_page ++ evs
        /\ In (EvFlashWrite (flashPos writing_buffered_page) d) evs
        /\ pass_calls_in_phase cfg writing_buffered_page evs)
  /\ (exists s' evs b,
        final (writeBinary cfg env locking_after_block) = Some s'
        /\ log s' = log locking_after_block ++ evs
        /\ In (EvFlashLock (flashPos locking_after_block) b) evs
        /\ pass_calls_in_phase cfg locking_after_block evs).
Proof.
  intros cfg env.
  assert (Hpass : forall s,
             log s = [] ->
             forall e,
               match final (writeBinary cfg env s) with
               | Some s' => In e (log s')
               | None => False
               end ->
               exists s' evs,
                 final (writeBinary cfg env s) = Some s'
                 /\ log s' = log s ++ evs
                 /\ In e evs
                 /\ pass_calls_in_phase cfg s evs).
  { intros s Hnil e Hin.
    destruct (final (writeBinary cfg env s)) as [s'|] eqn:Hfin;
      [|contradiction].
    destruct (writeBinary_calls_in_phase cfg env s s' Hfin)
      as (evs & Hlog & Hcalls).
    exists s', evs. split; [reflexivity|]. split; [exact Hlog|].
    split; [|exact Hcalls].
    rewrite Hlog, Hnil in Hin. exact Hin. }
  split; [|split; [|split]].
  - destruct (Hpass unlocking_first_page eq_refl
                (EvFlashUnlock (flashPos unlocking_first_page)
                   (u32 (flashPos unlocking_first_page
                         + pageSize unlocking_first_page - 1))))
      as (s' & evs & H); [vm_compute; auto|].
    exists s', evs. eexists. exact H.
  - apply (Hpass erasing_used_sector eq_refl). vm_compute. auto.
  - destruct (Hpass writing_buffered_page eq_refl
                (EvFlashWrite (flashPos writing_buffered_page)
                   (slice (readData writing_buffered_page)
                          (bytesWritten writing_buffered_page)
                          (pageSize writing_buffered_page))))
      as (s' & evs & H); [vm_compute; auto|].
    exists s', evs. eexists. exact H.
  - destruct (Hpass locking_after_block eq_refl
                (EvFlashLock (flashPos locking_after_block)
                   (u32 (flashPos locking_after_block
                         + pageSize locking_after_block - 1))))
      as (s' & evs & H); [vm_compute; auto|].
    exists s', evs. eexists. exact H.
Defined.

Lemma unlock_and_erase_start_in_region_witness :
  match run small_config small_envs small_used_start return Prop with
  | Halt true s' =>
      In (EvFlashUnlock (FirmwareFlashStart small_config)
                        (FirmwareFlashStart small_config + 511)) (log s')
      /\ In (EvFlashErase (FirmwareFlashStart small_config)) (log s')
      /\ exists evs,
           log s' = log small_used_start ++ evs
           /\ (forall a b, In (EvFlashUnlock a b) evs ->
                  if is_same5x (chip small_config)
                  then a = lock_region_start small_config
                       \/ a = FirmwareFlashStart small_config
                  else FirmwareFlashStart small_config <= a
                       < FirmwareFlashEnd small_config)
           /\ (forall a, In (EvFlashErase a) evs ->
                  FirmwareFlashStart small_config <= a
                  < FirmwareFlashEnd small_config)
  | _ => False
  end.
Proof.
  assert (Hend : exists s1,
             run small_config small_envs small_used_start = Halt true s1
             /\ In (EvFlashUnlock (FirmwareFlashStart small_config)
                                  (FirmwareFlashStart small_config + 511))
                   (log s1)
                /\ In (EvFlashErase (FirmwareFlashStart small_config))
                      (log s1)).
  { apply evaluates_to_Halt. vm_compute.
    split; [reflexivity|]. split; auto 20. }
  destruct Hend as (s1 & Hend & Hunlock & Herase). rewrite Hend.
  split; [exact Hunlock|]. split; [exact Herase|].
  apply (unlock_and_erase_start_in_region small_config small_envs
           small_used_start s1).
  - split; [discriminate | reflexivity].
  - reflexivity.
  - discriminate.
  - discriminate.
  - discriminate.
  - discriminate.
  - reflexivity.
  - reflexivity.
  - rewrite Hend. reflexivity.
Defined.

Lemma persistent_unlock_failure_is_fatal_witness :
  let cfg := sample_config SAM4E false in
  let s := unlocking_first_page in
  exists s' attempts,
    run cfg (repeat stubborn_flash 6 ++ [stubborn_flash]) s = Halt false s'
    /\ log s'
       = log s ++ attempts
         ++ [EvMessage (MsgOperationFailed 1 (maxRetries cfg))]
         ++ (if IAP_VIA_SPI cfg then [EvTfrReadyPin false] else [])
         ++ [EvReboot]
    /\ List.length attempts = Z.to_nat (maxRetries cfg + 1)
    /\ Forall (fun e => exists b,
                 e = EvFlashUnlock
                       (if is_same5x (chip cfg)
                        then lock_region_start cfg else flashPos s) b)
              attempts
    /\ flash s' = flash s.
Proof.
  intros cfg s.
  assert (Hfit : 0 <= maxRetries cfg /\ maxRetries cfg + 1 < 2 ^ 32)
    by (split; [discriminate | reflexivity]).
  assert (Hfail : forall env, In env (repeat stubborn_flash 6) ->
                  forall a b, flash_unlock env a b = false).
  { intros env Hin a b. apply repeat_spec in Hin. subst env. reflexivity. }
  exact (persistent_unlock_failure_is_fatal cfg Hfit
           (repeat stubborn_flash 6) stubborn_flash s
           Hfail eq_refl eq_refl eq_refl).
Defined.

Lemma openBinary_accepts_witness :
  exists s',
    openBinary small_config (sample_env 0 false [] (Some small_file))
               (initial_globals small_config (fun _ => 0xFF))
    = Ret tt s'.
Proof.
  apply (proj2 (proj1 (openBinary_accepts small_config
                         (sample_env 0 false [] (Some small_file))
                         (initial_globals small_config (fun _ => 0xFF))))).
  exists 2560, small_file. split; [reflexivity|].
  split; [discriminate | reflexivity].
Defined.

Lemma sectorSize_at_tiles_witness :
  let cfg := sample_config SAM4E false in
  let pos := 0x00404000 in
  let off := pos - IFLASH_ADDR cfg in
  let size := sectorSize_at cfg pos in
  0 < size
  /\ sector_boundary (chip cfg) (off + size)
  /\ forall off', sector_boundary (chip cfg) off' ->
                  ~ (off < off' < off + size).
Proof.
  apply (sectorSize_at_tiles (sample_config SAM4E false) 0x00404000).
  - left. reflexivity.
  - split; [discriminate | reflexivity].
  - right. right. left. reflexivity.
Defined.

Lemma getFirmwareFileName_takes_prefixed_name_witness :
  getFirmwareFileName passed_prefix passed_name ends_with_ignore_case
    (initial_globals small_config (fun _ => 0xFF))
  = Ret tt
      (set_isUf2File
         (ends_with_ignore_case (string_of_bytes (c_string passed_name))
                                ".uf2"%string)
         (set_fwFile (string_of_bytes (c_string passed_name))
            (initial_globals small_config (fun _ => 0xFF)))).
Proof.
  apply (proj1 (getFirmwareFileName_takes_prefixed_name passed_prefix
                  passed_name ends_with_ignore_case
                  (initial_globals small_config (fun _ => 0xFF)))).
  exists [115; 121; 115; 47; 102; 119; 46; 85; 70; 50]. reflexivity.
Defined.

(** The name passed in the example is taken, and it is a UF2 file. *)

Lemma passed_name_is_uf2 :
  exists s',
    getFirmwareFileName passed_prefix passed_name ends_with_ignore_case
      (initial_globals small_config (fun _ => 0xFF))
    = Ret tt s'
    /\ fwFile s' = "0:/sys/fw.UF2"%string
    /\ isUf2File s' = true.
Proof.
  apply evaluates_to_Ret. vm_compute. repeat split; reflexivity.
Qed.
